(* ===== verification/_CoqProject ===== *)
-Q . S2P
Prelude.v
GoInt.v
GoStrings.v
Base64.v
Aes.v
GoTime.v
GoValues.v
Json.v
SheetMerge.v
Mapx.v
Pgtypex.v
Schema.v
Sqlc.v
Effects.v
Crypto.v
AuthTokens.v
Models.v
TxRunner.v
Invariants.v
Repositories.v
AuthService.v
Wiring.v
Queue.v
TransactionService.v
Outbox.v
Locking.v
Sessions.v
Access.v
Projection.v
ProjectionRunner.v
ReadModels.v
SyncService.v
SyncFacts.v
SheetsFactory.v
AppRun.v
Config.v
SyncPipeline.v
SyncWorker.v
Http.v
Api.v
ApiFacts.v
Integrity.v
Health.v
Lifecycle.v
Entry.v
Concrete.v
ConcreteAuth.v
Scenarios.v
ScenariosApi.v
Witnesses.v
WitnessesAuth.v
WitnessesSync.v
WitnessesApi.v
WitnessesEntry.v
