(* ===== verification/Prelude.v ===== *)
(** * moon-eye: a model of the backend and its correctness

    moon-eye is a personal finance backend in Go ([src/backend]).  The
    finance-api stores transactions in PostgreSQL, writes one change event
    next to each change (an outbox) and enqueues sync jobs on a Redis stream;
    the worker-service projects change events to read models; the sync-service
    and the worker-service consume sync jobs and merge transactions with
    Google Sheets; users register, log in and refresh sessions over JSON.

    This development translates that code to definitions and proves what it
    guarantees; where the code does not do what it sets out to do, the
    theorems say what it does instead.  File paths below are relative to
    [src/backend].

    ** How code is modelled

    - Code with effects is a function in the monad [M] of [Effects]: from a
      [World] (committed tables, open transactions, commands sent, number of
      effects so far) to an [outcome] (value, error or panic) and a world.
      What the outside answers to the n-th effect (clock, random bytes,
      failing database and Redis calls, sheet contents, cancellation) is read
      from the class [Env] at index n; theorems quantify over it, so they hold
      under every schedule of failures.
    - Tables are finite maps of the rows of [internal/db/sqlc/models.go]
      ([Schema]); each SQL statement is a function on them that checks the
      constraints of [migrations/] ([Sqlc], and next to their callers in
      [Projection], [SyncService], [SyncWorker]).  A pgx transaction works on
      a copy of the tables that a commit publishes: requests interleave
      between transactions and between pool statements, not within them.
    - Third-party code is a class of functions with a class of laws:
      [UuidLib], [PgtypeLib], [queries.PgServer], [projection.PgParams],
      [RedisLib], [JwtLib], [BcryptLib], [Unicode], [config.ViperLib];
      [Concrete], [ConcreteAuth] and [WitnessesEntry] give instances and prove
      their laws.  Without laws come [logging.ZapLib], [GoogleLib],
      [quoting.Printable] and [Host] (drivers at start-up); [Pings] is what the
      services answer to a health check.  The standard
      library is written out: integers with their wrap-around ([GoInt]),
      strings and [strconv] ([GoStrings]), times ([GoTime]), errors and floats
      ([GoValues]), [encoding/json] ([Json]), base64 ([Base64]), AES-GCM
      ([Aes]), [net/url] ([Http]).
    - A [main] is a function in the monad [PM] of [Lifecycle], over the
      environment variables and the record of what the process opened, started
      and closed; it ends by returning (deferred calls run), by [os.Exit] or
      by a signal (they do not).  [App.Run], whose goroutine, signals and
      requests interleave, is a step function on its state ([AppRun]).
    - Loops without a bound take a number of rounds and answer whether they
      still run ([Queue.queue.Consume], [ProjectionRunner.runner.Start],
      [SyncWorker.syncworker.StartWorker]); [Consume_returns] shows that
      enough rounds reach the end of a cancelled consumer.  The JSON scanner
      takes twice the length of its text plus two steps, more than its
      recursion can use.

    ** Parts

    - [Pgtypex], [Models]: [pkg/shared/pgtypex], [pkg/shared/uuidx],
      [internal/db/models.go], [internal/domain/transaction.go].
    - [TxRunner], [Repositories]: [internal/db].
    - [Wiring]: the service interfaces of [internal/service/interfaces.go] and
      the adapters of [internal/wiring].
    - [TransactionService]: [internal/service/transaction_service.go] and
      [pkg/shared/pagination], composed as in [cmd/api/finance-api/main.go].
    - [Queue]: [internal/queue], [internal/worker],
      [internal/service/sync_queue_redis.go].
    - [Projection], [ProjectionRunner]: [internal/service/projection].
    - [Crypto], [AuthTokens], [AuthService]: [pkg/shared/crypto],
      [pkg/shared/auth], [pkg/shared/stringsx],
      [internal/service/auth_service.go].
    - [SheetMerge], [Mapx], [SyncService], [SyncWorker]: [internal/sync],
      [pkg/shared/mapx], [internal/db/sync_repositories.go].
    - [SyncPipeline]: the consumers [cmd/api/sync-service/main.go] and
      [cmd/api/worker-service/main.go] start.
    - [Http], [Api]: [internal/api], [internal/auth], [pkg/shared/httpx].
    - [Config]: [pkg/shared/config], [pkg/shared/logging].  [SheetsFactory]:
      [internal/sync/sheets_factory.go].  [Lifecycle]: [pkg/shared/db/pg.go],
      [pkg/shared/redisx], and what a [main] is made of.
    - [AppRun], [Health], [Entry]: [cmd/api/*/main.go]: [App.Run], the health
      endpoints and routers, and the four processes, which start [Api],
      [SyncPipeline] and [ProjectionRunner].
    - [Invariants]: what it takes for a predicate of the tables to survive a
      computation, with the rules that [Integrity] composes.

    ** Theorems

    - [Outbox]: a write is one atomic step that stores one row, the row the
      request asks for, and the event that describes it, then its job; event
      logs list versions 1, 2, ...
    - [TxRunner.RunInTx_atomic], [Locking]: transactions are atomic; updates
      from the same read cannot both succeed.
    - [Access]: pages are windows of the user's live rows, newest first;
      created rows are never live, whatever fails; ownership is not checked,
      totals and large offsets are wrong.
    - [Queue], [ProjectionRunner], [ReadModels]: which messages a round of
      [Consume] acknowledges, and when, for every handler that only appends to
      what was sent; round trips of messages; what each operation adds to the
      counters; exactly-once counting with requests between the rounds, while
      nothing fails and events become visible in the order of their ids; and
      an event that is always refused, which stops the projections.
      [Scenarios] computes what the counters show then, and that an event
      committed after a larger id is never counted.  The runner is proved
      against the interface [Additive] that both projectors implement.
    - [Crypto], [AuthTokens], [Sessions]: encryption and tokens round-trip and
      accept nothing else; logins and refreshes prove a secret, for any
      repositories; on any [TokenStore] a spent refresh token is refused by
      every refresh that starts after, while refreshes of one token that
      overlap may all succeed ([overlapping_refreshes]); on the repositories
      of the program no session is ever issued.
    - [SheetMerge], [Mapx], [SyncFacts], [SyncWorker]: the merge against its
      specification; jobs are understood, owners checked; what a
      synchronisation does to a sheet; one round of the queue-table worker.
    - [SyncPipeline]: the deployed consumers acknowledge every job of the
      service and do nothing else; one failed read ends them.
    - [Integrity]: every row of every table meets the constraints of the
      migrations, through all requests and all rounds of the consumers.
    - [AppRun], [Entry]: [Run] returns, leaves requests in peace until the
      server is shut down and reports true errors, but not all of them; the
      processes release what they acquire, in the order in which they do, and
      serve what their configuration says: the routes of the running
      finance-api are closed to tokens of any key but the configured one, if
      that is a value [os.Setenv] takes ([main] discards its error).
    - [Config], [SheetsFactory], [Health]: what is read from files and
      variables, which credentials count, what the health endpoints answer.
    - [ApiFacts]: who may call what and for whom, safe methods, what a status
      says about the database; [ScenariosApi] runs requests.
    - [Witnesses], [WitnessesAuth], [WitnessesSync], [WitnessesApi],
      [WitnessesEntry] apply the theorems to concrete worlds.

    ** Not modelled

    Path matching and middleware of chi (the router lists both), the inside of
    [http.Server] beyond the steps of [AppRun], the contents of metrics and
    logs, generated mocks and the interfaces of [internal/domain/ports.go],
    which nothing uses.  An [App] gives its record to [main] as a [RunReport];
    [finance_api_status] connects it with the executions of [AppRun].
    Times are instants: the process is taken to run in UTC, which shows only
    in the text of times in answers and event payloads.  PostgreSQL refuses
    the statements that follow a failed one in its transaction; the model
    does not, and no transaction body of the program goes on after an error.
    JSON nesting limits and the text of library errors are left out. *)

From Stdlib Require Export ZArith Lia Bool List.
From Stdlib Require Export Ascii String.
From stdpp Require Export base tactics numbers list sorting strings gmap.

#[export] Set Default Goal Selector "!".
#[export] Set Warnings "-clear-no-such-hyp".

Open Scope Z_scope.

(** Byte strings are computed with: let [simpl] unfold concatenation. *)
#[global] Arguments String.append !s1 s2 / : simpl nomatch.

(** ** Hint databases of the development *)

Create HintDb go discriminated.
Create Rewrite HintDb go_simpl.

(** ** Tactics *)

(** Case on the scrutinee of the first [match] or [if] met in the goal. *)
Ltac go_case :=
  match goal with
  | |- context [match ?x with _ => _ end] => destruct x eqn:?
  end.

(** The same in a hypothesis. *)
Ltac go_case_in H :=
  match type of H with
  | context [match ?x with _ => _ end] => destruct x eqn:?
  end.

(** Turn boolean comparisons in the context into propositions. *)
Ltac bool_to_prop :=
  repeat match goal with
  | H : (_ && _) = true |- _ => apply andb_true_iff in H as [? ?]
  | H : (_ || _) = false |- _ => apply orb_false_iff in H as [? ?]
  | H : negb _ = true |- _ => apply negb_true_iff in H
  | H : negb _ = false |- _ => apply negb_false_iff in H
  | H : (_ <? _) = true |- _ => apply Z.ltb_lt in H
  | H : (_ <? _) = false |- _ => apply Z.ltb_ge in H
  | H : (_ <=? _) = true |- _ => apply Z.leb_le in H
  | H : (_ <=? _) = false |- _ => apply Z.leb_gt in H
  | H : (_ =? _) = true |- _ => apply Z.eqb_eq in H
  | H : (_ =? _) = false |- _ => apply Z.eqb_neq in H
  | H : String.eqb _ _ = true |- _ => apply String.eqb_eq in H
  | H : String.eqb _ _ = false |- _ => apply String.eqb_neq in H
  end.

(** Case on an innermost boolean comparison of the goal or the context. *)
Ltac inner_case :=
  match goal with
  | |- context [?x <? ?y] => destruct (Z.ltb_spec x y)
  | |- context [?x <=? ?y] => destruct (Z.leb_spec x y)
  | |- context [?x =? ?y] => destruct (Z.eqb_spec x y)
  | H : context [?x <? ?y] |- _ => destruct (Z.ltb_spec x y)
  | H : context [?x <=? ?y] |- _ => destruct (Z.leb_spec x y)
  end; cbv beta iota zeta in *.

(** Boolean case analysis closed by linear arithmetic. *)
Ltac bool_lia := repeat go_case; bool_to_prop; lia.
Ltac bool_lia_split := cbv beta iota zeta in *; repeat inner_case; repeat split; lia.

(** ** Generic lemmas on lists *)

Section Lists.
Context {A B : Type}.

Lemma foldl_app_nil (f : B → A → B) b l : foldl f b (l ++ []) = foldl f b l.
Proof. by rewrite app_nil_r. Qed.

Lemma take_drop_split (n : nat) (l : list A) : l = take n l ++ drop n l.
Proof. symmetry. apply take_drop. Qed.

Lemma last_cons_some (x : A) l : is_Some (last (x :: l)).
Proof. revert x. induction l as [|y l IH]; intros x; [by eexists|]. simpl. apply IH. Qed.

Lemma forallb_seq_spec (p : nat → bool) n :
  forallb p (seq 0 n) = true → ∀ i, (i < n)%nat → p i = true.
Proof.
  intros H i Hi. rewrite forallb_forall in H. apply H, in_seq. lia.
Qed.

End Lists.

(** Exhaustive checking of a decidable statement about the integers in
    [[0, n)], the form in which table lookups and calendar arithmetic are
    settled by computation. *)
Fixpoint forall_from (p : Z → bool) (z : Z) (n : nat) : bool :=
  match n with
  | O => true
  | S n' => p z && forall_from p (z + 1) n'
  end.

Definition forall_below (p : Z → bool) (n : nat) : bool := forall_from p 0 n.

Lemma forall_from_spec p z n :
  forall_from p z n = true → ∀ x, z <= x < z + Z.of_nat n → p x = true.
Proof.
  revert z. induction n as [|n IH]; intros z H x Hx; [lia|].
  simpl in H. apply andb_true_iff in H as [H1 H2].
  destruct (decide (x = z)) as [->|]; [done|]. apply (IH (z + 1)); [done|lia].
Qed.

Lemma forall_below_spec p n :
  forall_below p n = true → ∀ z, 0 <= z < Z.of_nat n → p z = true.
Proof. intros H z Hz. apply (forall_from_spec p 0 n H). lia. Qed.
