(* ===== verification/GoInt.v ===== *)
(** * GoInt: Go's machine integers

    [int] and [int64] are 64-bit, [int32] is 32-bit, all two's complement
    with silent wrap-around.  Values are kept as [Z] with the wrap written
    out where the source can overflow. *)

From S2P Require Import Prelude.

Definition max_int64 : Z := 2 ^ 63 - 1.
Definition min_int64 : Z := - 2 ^ 63.
Definition max_uint64 : Z := 2 ^ 64 - 1.

Definition in_int64 (z : Z) : Prop := min_int64 <= z <= max_int64.
Definition in_int32 (z : Z) : Prop := - 2 ^ 31 <= z < 2 ^ 31.

(** Conversion to [int64]/[int]: reduction modulo 2^64, signed. *)
Definition int64 (z : Z) : Z := (z + 2 ^ 63) mod 2 ^ 64 - 2 ^ 63.

(** Conversion to [int32]. *)
Definition int32 (z : Z) : Z := (z + 2 ^ 31) mod 2 ^ 32 - 2 ^ 31.

(** [1 << n] at type [int]: every bit leaves the word when [n >= 64]. *)
Definition shl1 (n : Z) : Z := int64 (2 ^ n).

(** [time.Duration] counts nanoseconds in an [int64]. *)
Definition Second : Z := 1000000000.
Definition Minute : Z := 60 * Second.
Definition Hour : Z := 60 * Minute.
Definition Millisecond : Z := 1000000.

#[export] Instance in_int64_dec z : Decision (in_int64 z).
Proof. unfold in_int64. apply _. Defined.
#[export] Instance in_int32_dec z : Decision (in_int32 z).
Proof. unfold in_int32. apply _. Defined.

Lemma int64_range z : in_int64 (int64 z).
Proof.
  unfold in_int64, int64, min_int64, max_int64.
  pose proof (Z.mod_pos_bound (z + 2 ^ 63) (2 ^ 64)). lia.
Qed.

Lemma int64_id z : in_int64 z → int64 z = z.
Proof.
  unfold in_int64, int64, min_int64, max_int64. intros H.
  rewrite Z.mod_small; lia.
Qed.

Lemma int32_range z : in_int32 (int32 z).
Proof.
  unfold in_int32, int32. pose proof (Z.mod_pos_bound (z + 2 ^ 31) (2 ^ 32)). lia.
Qed.

Lemma int32_id z : in_int32 z → int32 z = z.
Proof. unfold in_int32, int32. intros H. rewrite Z.mod_small; lia. Qed.

Lemma int64_plus_period z : int64 (z + 2 ^ 64) = int64 z.
Proof.
  unfold int64. replace (z + 2 ^ 64 + 2 ^ 63) with (z + 2 ^ 63 + 1 * 2 ^ 64) by lia.
  by rewrite Z_mod_plus_full.
Qed.

Lemma shl1_small n : 0 <= n < 63 → shl1 n = 2 ^ n.
Proof.
  intros H. apply int64_id. unfold in_int64, min_int64, max_int64.
  pose proof (Z.pow_pos_nonneg 2 n). pose proof (Z.pow_le_mono_r 2 n 62). lia.
Qed.

Lemma shl1_large n : 64 <= n → shl1 n = 0.
Proof.
  intros H. unfold shl1, int64.
  replace (2 ^ n + 2 ^ 63) with (2 ^ 63 + 2 ^ (n - 64) * 2 ^ 64).
  - rewrite Z_mod_plus_full. reflexivity.
  - rewrite <- Z.pow_add_r by lia. replace (n - 64 + 64) with n by lia. lia.
Qed.

#[export] Hint Resolve int64_range int32_range : go.
#[export] Hint Rewrite int64_id int32_id using (unfold in_int64, in_int32, min_int64, max_int64; lia) : go_simpl.
