(* ===== verification/GoStrings.v ===== *)
(** * GoStrings: byte strings and the [strings]/[strconv] functions in use

    A Go [string] or [[]byte] is a sequence of bytes, here [String.string]
    (one [ascii] per byte).  The ASCII fast paths of [strings.ToLower] and
    [strings.TrimSpace] are written out as in Go's library; what they do on
    non-ASCII input is read from Unicode tables that the class [Unicode]
    stands for.  [strconv.ParseInt] is its digit loop, overflow cut-offs
    included. *)

From S2P Require Import Prelude GoInt.

Abbreviation bytes := string (only parsing).

Module strings.

(** The byte value of a character. *)
Definition byte_val (c : ascii) : Z := Z.of_N (N_of_ascii c).

Fixpoint of_chars (l : list ascii) : string :=
  match l with [] => EmptyString | c :: l' => String c (of_chars l') end.

Fixpoint to_chars (s : string) : list ascii :=
  match s with EmptyString => [] | String c s' => c :: to_chars s' end.

Definition len (s : string) : Z := Z.of_nat (String.length s).

(** [s[:n]] and [s[n:]]. *)
Fixpoint str_take (n : nat) (s : string) : string :=
  match n, s with
  | S n', String c s' => String c (str_take n' s')
  | _, _ => EmptyString
  end.

Fixpoint str_drop (n : nat) (s : string) : string :=
  match n, s with
  | S n', String _ s' => str_drop n' s'
  | O, _ => s
  | _, EmptyString => EmptyString
  end.

(** [strings.Index(s, sep)] for a one-byte [sep]: position of its first
    occurrence, or -1. *)
Fixpoint IndexByte (s : string) (c : ascii) : Z :=
  match s with
  | EmptyString => -1
  | String d s' =>
      if Ascii.eqb d c then 0
      else let r := IndexByte s' c in if r =? -1 then -1 else r + 1
  end.

(** [strings.SplitN(s, sep, 2)] for a one-byte [sep]. *)
Definition SplitN2 (s : string) (c : ascii) : list string :=
  let i := IndexByte s c in
  if i =? -1 then [s]
  else [str_take (Z.to_nat i) s; str_drop (Z.to_nat (i + 1)) s].

(** ASCII case mapping and [strings.EqualFold] against an ASCII letter
    string whose letters have no non-ASCII case variants. *)
Definition is_ascii_char (c : ascii) : bool := byte_val c <? 128.
Definition is_upper (c : ascii) : bool := (65 <=? byte_val c) && (byte_val c <=? 90).
Definition lower_char (c : ascii) : ascii :=
  if is_upper c then ascii_of_N (Z.to_N (byte_val c + 32)) else c.

Fixpoint str_forall (p : ascii → bool) (s : string) : bool :=
  match s with EmptyString => true | String c s' => p c && str_forall p s' end.
Fixpoint str_map (f : ascii → ascii) (s : string) : string :=
  match s with EmptyString => EmptyString | String c s' => String (f c) (str_map f s') end.

Definition is_ascii (s : string) : bool := str_forall is_ascii_char s.

Definition EqualFold_ascii (s t : string) : bool :=
  String.eqb (str_map lower_char s) (str_map lower_char t).

(** The part of the Unicode tables [ToLower] and [TrimSpace] read on
    non-ASCII input: [strings.Map(unicode.ToLower, s)],
    [TrimFunc(s, unicode.IsSpace)] and [TrimRightFunc(s, unicode.IsSpace)]. *)
Class Unicode := {
  map_unicode_ToLower : string → string;
  trim_unicode_IsSpace : string → string;
  trim_right_unicode_IsSpace : string → string;
}.

Definition ascii_space (c : ascii) : bool :=
  let v := byte_val c in ((9 <=? v) && (v <=? 13)) || (v =? 32).

Definition ToLower `{Unicode} (s : string) : string :=
  if is_ascii s then str_map lower_char s else map_unicode_ToLower s.

(** The second loop of [TrimSpace], on the reversed remainder. *)
Fixpoint trim_end_loop `{Unicode} (rev_s : list ascii) : string :=
  match rev_s with
  | [] => EmptyString
  | c :: rest =>
      if negb (is_ascii_char c) then trim_right_unicode_IsSpace (of_chars (rev rev_s))
      else if ascii_space c then trim_end_loop rest
      else of_chars (rev rev_s)
  end.

(** The first loop of [TrimSpace]. *)
Fixpoint TrimSpace `{Unicode} (s : string) : string :=
  match s with
  | EmptyString => EmptyString
  | String c s' =>
      if negb (is_ascii_char c) then trim_unicode_IsSpace s
      else if ascii_space c then TrimSpace s'
      else trim_end_loop (rev (to_chars s))
  end.

End strings.
Import strings.

Module strconv.

Inductive NumError : Type := ErrSyntax | ErrRange.

Definition is_digit (c : ascii) : bool := (48 <=? byte_val c) && (byte_val c <=? 57).
Definition digit_char (d : Z) : ascii := ascii_of_N (Z.to_N (48 + d)).

(** The digit loop of [ParseUint(s, 10, 64)]: the running value saturates,
    and the loop stops, at the first overflow. *)
Definition uint_cutoff : Z := max_uint64 / 10 + 1.

Fixpoint parse_uint_loop (n : Z) (s : string) : Z * option NumError :=
  match s with
  | EmptyString => (n, None)
  | String c s' =>
      if is_digit c then
        if uint_cutoff <=? n then (max_uint64, Some ErrRange)
        else
          let n1 := n * 10 + (byte_val c - 48) in
          if max_uint64 <? n1 then (max_uint64, Some ErrRange)
          else parse_uint_loop n1 s'
      else (0, Some ErrSyntax)
  end.

Definition ParseUint (s : string) : Z * option NumError :=
  match s with EmptyString => (0, Some ErrSyntax) | _ => parse_uint_loop 0 s end.

Definition minus_char : ascii := ascii_of_N 45.
Definition plus_char : ascii := ascii_of_N 43.

(** [ParseInt(s, 10, 64)]; [Atoi] returns the same pair on a 64-bit target. *)
Definition ParseInt (s : string) : Z * option NumError :=
  let '(neg, rest) :=
    match s with
    | String c s' =>
        if Ascii.eqb c minus_char then (true, s')
        else if Ascii.eqb c plus_char then (false, s')
        else (false, s)
    | EmptyString => (false, s)
    end in
  let '(un, err) := ParseUint rest in
  match err with
  | Some ErrSyntax => (0, err)
  | _ =>
      if negb neg && (2 ^ 63 <=? un) then (2 ^ 63 - 1, Some ErrRange)
      else if neg && (2 ^ 63 <? un) then (- 2 ^ 63, Some ErrRange)
      else ((if neg then - un else un), err)
  end.

Definition Atoi (s : string) : Z * option NumError := ParseInt s.

(** [FormatInt(z, 10)]: digits produced least significant first; twenty
    iterations cover every 64-bit magnitude. *)
Fixpoint digits_loop (fuel : nat) (n : Z) (acc : string) : string :=
  match fuel with
  | O => acc
  | S f =>
      let acc' := String (digit_char (n mod 10)) acc in
      if n / 10 =? 0 then acc' else digits_loop f (n / 10) acc'
  end.

Definition Itoa (z : Z) : string :=
  if z <? 0 then String minus_char (digits_loop 20 (- z) EmptyString)
  else digits_loop 20 z EmptyString.

End strconv.
Import strconv.

(** ** Facts about byte strings *)

Lemma byte_val_range c : 0 <= byte_val c < 256.
Proof.
  unfold byte_val. pose proof (N_ascii_bounded c). lia.
Qed.

Lemma byte_val_ascii_of z : 0 <= z < 256 → byte_val (ascii_of_N (Z.to_N z)) = z.
Proof. intros H. unfold byte_val. rewrite N_ascii_embedding; lia. Qed.

Lemma ascii_of_byte_val c : ascii_of_N (Z.to_N (byte_val c)) = c.
Proof. unfold byte_val. rewrite N2Z.id. apply ascii_N_embedding. Qed.

Lemma byte_val_inj c d : byte_val c = byte_val d → c = d.
Proof. intros H. by rewrite <- (ascii_of_byte_val c), <- (ascii_of_byte_val d), H. Qed.

Lemma len_app s t : len (String.append s t) = len s + len t.
Proof. unfold len. induction s; simpl; lia. Qed.

Lemma str_app_nil_r s : String.append s EmptyString = s.
Proof. induction s; simpl; congruence. Qed.

Lemma str_app_assoc s t u :
  String.append s (String.append t u) = String.append (String.append s t) u.
Proof. induction s; simpl; congruence. Qed.

Lemma str_take_app s t : str_take (String.length s) (String.append s t) = s.
Proof. induction s; simpl; congruence. Qed.

Lemma str_drop_app s t : str_drop (String.length s) (String.append s t) = t.
Proof. induction s; simpl; congruence. Qed.

Lemma IndexByte_ge s c : -1 <= IndexByte s c.
Proof.
  induction s as [|d s IH]; simpl; [lia|].
  destruct (Ascii.eqb d c); [lia|]. destruct (Z.eqb_spec (IndexByte s c) (-1)); lia.
Qed.

Lemma IndexByte_absent s c :
  IndexByte s c = -1 ↔ str_forall (λ d, negb (Ascii.eqb d c)) s = true.
Proof.
  induction s as [|d s IH]; simpl; [tauto|].
  destruct (Ascii.eqb d c); simpl; [split; [lia|done]|].
  pose proof (IndexByte_ge s c).
  destruct (Z.eqb_spec (IndexByte s c) (-1)) as [E|E]; rewrite <- IH; split; intros; lia.
Qed.

(** A separator that does not occur in the prefix is found right after it. *)
Lemma IndexByte_app s c t :
  IndexByte s c = -1 → IndexByte (String.append s (String c t)) c = len s.
Proof.
  unfold len. induction s as [|d s IH]; simpl.
  - by rewrite Ascii.eqb_refl.
  - destruct (Ascii.eqb d c); [lia|]. pose proof (IndexByte_ge s c).
    destruct (Z.eqb_spec (IndexByte s c) (-1)) as [E|E]; [|lia].
    intros _. rewrite (IH E).
    destruct (Z.eqb_spec (Z.of_nat (String.length s)) (-1)); lia.
Qed.

Lemma str_forall_app p s t :
  str_forall p (String.append s t) = str_forall p s && str_forall p t.
Proof. induction s; simpl; [done|]. by rewrite IHs, andb_assoc. Qed.

Lemma str_forall_impl (p q : ascii → bool) s :
  (∀ c, p c = true → q c = true) → str_forall p s = true → str_forall q s = true.
Proof.
  intros Hpq. induction s; simpl; [done|].
  rewrite !andb_true_iff. intros [? ?]; split; auto.
Qed.

Lemma of_to_chars s : of_chars (to_chars s) = s.
Proof. induction s; simpl; congruence. Qed.

Lemma to_of_chars l : to_chars (of_chars l) = l.
Proof. induction l; simpl; congruence. Qed.

Lemma is_ascii_chars s : is_ascii s = true ↔ Forall (λ c, is_ascii_char c = true) (to_chars s).
Proof.
  unfold is_ascii. induction s as [|c s IH]; simpl; [by split|].
  rewrite andb_true_iff, IH, Forall_cons. done.
Qed.

#[export] Hint Resolve byte_val_range : go.

(** ** Integer text: what [Itoa] writes, [Atoi] reads back *)

Lemma digit_char_val d : 0 <= d < 10 → byte_val (digit_char d) = 48 + d.
Proof. intros H. unfold digit_char. apply byte_val_ascii_of. lia. Qed.

Lemma is_digit_digit_char d : 0 <= d < 10 → is_digit (digit_char d) = true.
Proof.
  intros H. unfold is_digit. rewrite digit_char_val by done.
  apply andb_true_iff. split; apply Z.leb_le; lia.
Qed.

Lemma uint_cutoff_val : uint_cutoff = 1844674407370955162.
Proof. reflexivity. Qed.

Lemma parse_uint_loop_digit k d s :
  0 <= d < 10 → 0 <= k → k * 10 + d <= max_uint64 →
  parse_uint_loop k (String (digit_char d) s) = parse_uint_loop (k * 10 + d) s.
Proof.
  intros Hd Hk Hle. simpl. rewrite is_digit_digit_char, digit_char_val by done.
  rewrite uint_cutoff_val. unfold max_uint64 in *.
  destruct (Z.leb_spec 1844674407370955162 k); [lia|].
  replace (k * 10 + (48 + d - 48)) with (k * 10 + d) by lia.
  destruct (Z.ltb_spec (2 ^ 64 - 1) (k * 10 + d)); [lia|done].
Qed.

Lemma digits_loop_parse fuel n acc :
  (0 < fuel)%nat → 0 <= n < 10 ^ Z.of_nat fuel → n <= max_uint64 →
  parse_uint_loop 0 (digits_loop fuel n acc) = parse_uint_loop n acc.
Proof.
  revert n acc. induction fuel as [|f IH]; intros n acc Hf Hn Hmax; [lia|].
  cbn [digits_loop]. pose proof (Z.mod_pos_bound n 10 ltac:(lia)) as Hmod.
  pose proof (Z.div_mod n 10 ltac:(lia)) as Hdm.
  destruct (Z.eqb_spec (n / 10) 0) as [E|E].
  - rewrite parse_uint_loop_digit by lia. f_equal. lia.
  - pose proof (Z.div_pos n 10 ltac:(lia) ltac:(lia)).
    rewrite Nat2Z.inj_succ, Z.pow_succ_r in Hn by lia.
    assert (n / 10 < 10 ^ Z.of_nat f) by (apply Z.div_lt_upper_bound; lia).
    destruct f as [|f]; [simpl in *; lia|].
    rewrite IH by lia. rewrite parse_uint_loop_digit by lia. f_equal. lia.
Qed.

Lemma digits_loop_head fuel n acc :
  (0 < fuel)%nat → 0 <= n →
  ∃ d s, digits_loop fuel n acc = String (digit_char d) s ∧ 0 <= d < 10.
Proof.
  revert n acc. induction fuel as [|f IH]; intros n acc Hf Hn; [lia|].
  cbn [digits_loop]. pose proof (Z.mod_pos_bound n 10 ltac:(lia)).
  destruct (n / 10 =? 0); [by eexists _, _|].
  destruct f as [|f]; [by eexists _, _|].
  apply IH; [lia|]. apply Z.div_pos; lia.
Qed.

Lemma ParseUint_digits n :
  0 <= n <= max_uint64 → ParseUint (digits_loop 20 n EmptyString) = (n, None).
Proof.
  intros Hn. unfold ParseUint.
  destruct (digits_loop_head 20 n EmptyString) as (d & s & E & Hd); [lia..|].
  rewrite E, <- E. apply digits_loop_parse; [lia| |lia].
  unfold max_uint64 in Hn. lia.
Qed.

Lemma digit_char_not_sign d :
  0 <= d < 10 →
  Ascii.eqb (digit_char d) minus_char = false ∧ Ascii.eqb (digit_char d) plus_char = false.
Proof.
  intros Hd.
  assert (byte_val minus_char = 45 ∧ byte_val plus_char = 43) as [Hm Hp] by done.
  split; apply Ascii.eqb_neq; intros E; apply (f_equal byte_val) in E;
    rewrite digit_char_val in E by done; lia.
Qed.

(** Every [int64] survives the trip through its decimal text. *)
Lemma Atoi_Itoa z : in_int64 z → Atoi (Itoa z) = (z, None).
Proof.
  unfold in_int64, min_int64, max_int64, Itoa, Atoi, ParseInt. intros Hz.
  destruct (Z.ltb_spec z 0) as [Hneg|Hpos].
  - rewrite Ascii.eqb_refl, ParseUint_digits by (unfold max_uint64; lia).
    cbn [negb andb]. destruct (Z.ltb_spec (2 ^ 63) (- z)); [lia|]. f_equal. lia.
  - destruct (digits_loop_head 20 z EmptyString) as (d & s & E & Hd); [lia..|].
    destruct (digit_char_not_sign d Hd) as [E1 E2].
    rewrite E, E1, E2, <- E, ParseUint_digits by (unfold max_uint64; lia).
    cbn [negb andb]. destruct (Z.leb_spec (2 ^ 63) z); [lia|done].
Qed.

Lemma parse_uint_loop_range k s :
  0 <= k <= max_uint64 → 0 <= fst (parse_uint_loop k s) <= max_uint64.
Proof.
  revert k. induction s as [|c s IH]; intros k Hk; simpl; [done|].
  destruct (is_digit c) eqn:Hd; [|unfold max_uint64; simpl; lia].
  unfold is_digit in Hd. bool_to_prop.
  destruct (uint_cutoff <=? k); [unfold max_uint64; simpl; lia|].
  destruct (Z.ltb_spec max_uint64 (k * 10 + (byte_val c - 48))); [unfold max_uint64; simpl; lia|].
  apply IH. lia.
Qed.

(** Whatever the text, the value [Atoi] returns is an [int64], also when the
    error it returns next to it is ignored. *)
Lemma Atoi_range s : in_int64 (fst (Atoi s)).
Proof.
  unfold Atoi, ParseInt.
  destruct (match s with String c s' => _ | EmptyString => _ end) as [neg rest].
  assert (H : 0 <= fst (ParseUint rest) <= max_uint64).
  { unfold ParseUint. destruct rest; [unfold max_uint64; simpl; lia|].
    apply parse_uint_loop_range. unfold max_uint64. lia. }
  destruct (ParseUint rest) as [un err]. simpl in H.
  unfold in_int64, min_int64, max_int64, max_uint64 in *.
  destruct err as [[]|]; destruct neg; cbn [negb andb fst]; try lia;
    destruct (Z.leb_spec (2 ^ 63) un), (Z.ltb_spec (2 ^ 63) un); cbn [fst]; lia.
Qed.

#[export] Hint Resolve Atoi_range : go.
#[export] Hint Rewrite str_app_nil_r len_app : go_simpl.

(** ** Order on strings *)

(** Go compares strings byte by byte; so does [String.leb]. *)
Definition str_le (s t : string) : Prop := String.leb s t = true.
#[export] Instance str_le_dec : RelDecision str_le.
Proof. unfold str_le. intros s t. apply _. Defined.

Lemma ascii_compare_eq c d : Ascii.compare c d = Eq ↔ c = d.
Proof.
  unfold Ascii.compare. rewrite N.compare_eq_iff. split; [|by intros ->].
  intros H. by rewrite <- (ascii_N_embedding c), <- (ascii_N_embedding d), H.
Qed.

Lemma str_compare_trans_le s t u :
  String.compare s t ≠ Gt → String.compare t u ≠ Gt → String.compare s u ≠ Gt.
Proof.
  revert t u. induction s as [|c s IH]; intros [|d t] [|e u]; simpl; try done.
  unfold Ascii.compare.
  destruct (N.compare_spec (N_of_ascii c) (N_of_ascii d)) as [E1|L1|G1];
    destruct (N.compare_spec (N_of_ascii d) (N_of_ascii e)) as [E2|L2|G2]; try done;
    intros H1 H2;
    destruct (N.compare_spec (N_of_ascii c) (N_of_ascii e)) as [E3|L3|G3]; try done; try lia.
  by apply (IH t).
Qed.

Lemma str_le_compare s t : str_le s t ↔ String.compare s t ≠ Gt.
Proof. unfold str_le, String.leb. destruct (String.compare s t); split; congruence. Qed.

#[export] Instance str_le_trans : Transitive str_le.
Proof. intros s t u. rewrite !str_le_compare. apply str_compare_trans_le. Qed.

#[export] Instance str_le_total : Total str_le.
Proof.
  intros s t. rewrite !str_le_compare, (String.compare_antisym t s).
  destruct (String.compare s t); simpl; [left|left|right]; done.
Qed.

#[export] Instance str_le_antisymm : AntiSymm (=) str_le.
Proof.
  intros s t. rewrite !str_le_compare, (String.compare_antisym t s).
  destruct (String.compare s t) eqn:E; simpl; try done.
  intros _ _. by apply String.compare_eq_iff.
Qed.
