(* ===== verification/Base64.v ===== *)
(** * Base64: [base64.StdEncoding]

    Encoding and (lenient) decoding over byte strings, as Go's
    [encoding/base64] does it: carriage returns and newlines are skipped,
    padding is required, the bits a padded quantum leaves over are dropped,
    and anything after the padding is an error. *)

From S2P Require Import Prelude GoInt GoStrings.
Import strings.

Module base64.

Definition pad_char : ascii := ascii_of_N 61.

(** The standard alphabet: A-Z a-z 0-9 + / *)
Definition enc_char (v : Z) : ascii :=
  ascii_of_N (Z.to_N
    (if v <? 26 then 65 + v
     else if v <? 52 then 97 + (v - 26)
     else if v <? 62 then 48 + (v - 52)
     else if v =? 62 then 43 else 47)).

Definition dec_char (c : ascii) : option Z :=
  let b := byte_val c in
  if (65 <=? b) && (b <=? 90) then Some (b - 65)
  else if (97 <=? b) && (b <=? 122) then Some (b - 97 + 26)
  else if (48 <=? b) && (b <=? 57) then Some (b - 48 + 52)
  else if b =? 43 then Some 62
  else if b =? 47 then Some 63
  else None.

(** Six-bit groups of a 24-bit quantum, most significant first. *)
Definition sextet (val i : Z) : Z := Z.land (Z.shiftr val (18 - 6 * i)) 63.
Definition octet (val i : Z) : Z := Z.land (Z.shiftr val (16 - 8 * i)) 255.
Definition byte_char (b : Z) : ascii := ascii_of_N (Z.to_N b).

Fixpoint EncodeToString (s : string) : string :=
  match s with
  | EmptyString => EmptyString
  | String a EmptyString =>
      let v := Z.shiftl (byte_val a) 16 in
      String (enc_char (sextet v 0)) (String (enc_char (sextet v 1))
        (String pad_char (String pad_char EmptyString)))
  | String a (String b EmptyString) =>
      let v := Z.lor (Z.shiftl (byte_val a) 16) (Z.shiftl (byte_val b) 8) in
      String (enc_char (sextet v 0)) (String (enc_char (sextet v 1))
        (String (enc_char (sextet v 2)) (String pad_char EmptyString)))
  | String a (String b (String c rest)) =>
      let v := Z.lor (Z.lor (Z.shiftl (byte_val a) 16) (Z.shiftl (byte_val b) 8)) (byte_val c) in
      String (enc_char (sextet v 0)) (String (enc_char (sextet v 1))
        (String (enc_char (sextet v 2)) (String (enc_char (sextet v 3)) (EncodeToString rest))))
  end.

Definition is_newline (c : ascii) : bool := (byte_val c =? 10) || (byte_val c =? 13).

Fixpoint drop_newlines (s : string) : string :=
  match s with
  | EmptyString => EmptyString
  | String c s' => if is_newline c then drop_newlines s' else String c (drop_newlines s')
  end.

(** [decodeQuantum] iterated over an input free of newlines. *)
Fixpoint decode_quanta (s : string) : option string :=
  match s with
  | EmptyString => Some EmptyString
  | String c0 (String c1 (String c2 (String c3 rest))) =>
      v0 ← dec_char c0; v1 ← dec_char c1;
      if Ascii.eqb c2 pad_char then
        if Ascii.eqb c3 pad_char && String.eqb rest EmptyString then
          let v := Z.lor (Z.shiftl v0 18) (Z.shiftl v1 12) in
          Some (String (byte_char (octet v 0)) EmptyString)
        else None
      else
        v2 ← dec_char c2;
        if Ascii.eqb c3 pad_char then
          if String.eqb rest EmptyString then
            let v := Z.lor (Z.lor (Z.shiftl v0 18) (Z.shiftl v1 12)) (Z.shiftl v2 6) in
            Some (String (byte_char (octet v 0)) (String (byte_char (octet v 1)) EmptyString))
          else None
        else
          v3 ← dec_char c3;
          let v := Z.lor (Z.lor (Z.lor (Z.shiftl v0 18) (Z.shiftl v1 12)) (Z.shiftl v2 6)) v3 in
          tail ← decode_quanta rest;
          Some (String (byte_char (octet v 0)) (String (byte_char (octet v 1))
            (String (byte_char (octet v 2)) tail)))
  | _ => None
  end.

Definition DecodeString (s : string) : option string := decode_quanta (drop_newlines s).

End base64.
Import base64.

(** ** The alphabet *)

Definition alphabet_ok (v : Z) : bool :=
  match dec_char (enc_char v) with
  | Some w => (w =? v) && negb (is_newline (enc_char v)) && negb (Ascii.eqb (enc_char v) pad_char)
              && is_ascii_char (enc_char v)
  | None => false
  end.

Lemma alphabet_all v : 0 <= v < 64 → alphabet_ok v = true.
Proof.
  intros H. apply (forall_below_spec alphabet_ok 64); [vm_compute; reflexivity|lia].
Qed.

Lemma dec_enc_char v : 0 <= v < 64 → dec_char (enc_char v) = Some v.
Proof.
  intros H. apply alphabet_all in H. unfold alphabet_ok in H.
  destruct (dec_char _); [|done]. bool_to_prop. by subst.
Qed.

Lemma enc_char_not_newline v : 0 <= v < 64 → is_newline (enc_char v) = false.
Proof.
  intros H. apply alphabet_all in H. unfold alphabet_ok in H.
  destruct (dec_char _); [|done]. by bool_to_prop.
Qed.

Lemma enc_char_not_pad v : 0 <= v < 64 → Ascii.eqb (enc_char v) pad_char = false.
Proof.
  intros H. apply alphabet_all in H. unfold alphabet_ok in H.
  destruct (dec_char _); [|done]. by bool_to_prop.
Qed.

(** ** Splitting a quantum and putting it back *)

Lemma land_63 x : Z.land x 63 = x mod 64.
Proof. change 63 with (Z.ones 6). by rewrite Z.land_ones by lia. Qed.
Lemma land_255 x : Z.land x 255 = x mod 256.
Proof. change 255 with (Z.ones 8). by rewrite Z.land_ones by lia. Qed.

Lemma sextet_range v i : 0 <= sextet v i < 64.
Proof. unfold sextet. rewrite land_63. apply Z.mod_pos_bound. lia. Qed.

(** [a << n | b] is [a * 2^n + b] when [b] fits under the shift. *)
Lemma lor_shiftl_add a b n :
  0 <= n → 0 <= b < 2 ^ n → Z.lor (Z.shiftl a n) b = a * 2 ^ n + b.
Proof.
  intros Hn Hb. rewrite <- Z.shiftl_mul_pow2 by lia.
  rewrite <- Z.add_lor_land.
  replace (Z.land (Z.shiftl a n) b) with 0; [lia|].
  symmetry. apply Z.bits_inj'. intros k Hk. rewrite Z.land_spec, Z.bits_0.
  destruct (Z.lt_ge_cases k n).
  - by rewrite Z.shiftl_spec_low by lia.
  - replace b with (b mod 2 ^ n) by (rewrite Z.mod_small; lia).
    rewrite Z.mod_pow2_bits_high by lia. apply andb_false_r.
Qed.

Lemma sextet_val v i : 0 <= i <= 3 → sextet v i = v / 2 ^ (18 - 6 * i) mod 64.
Proof. intros H. unfold sextet. by rewrite land_63, Z.shiftr_div_pow2 by lia. Qed.

Lemma octet_val v i : 0 <= i <= 2 → octet v i = v / 2 ^ (16 - 8 * i) mod 256.
Proof. intros H. unfold octet. by rewrite land_255, Z.shiftr_div_pow2 by lia. Qed.

(** The four sextets of a 24-bit value shift back to it. *)
Lemma quantum_join v :
  0 <= v < 2 ^ 24 →
  Z.lor (Z.lor (Z.lor (Z.shiftl (sextet v 0) 18) (Z.shiftl (sextet v 1) 12))
    (Z.shiftl (sextet v 2) 6)) (sextet v 3) = v.
Proof.
  intros Hv. pose proof (sextet_range v 0). pose proof (sextet_range v 1).
  pose proof (sextet_range v 2). pose proof (sextet_range v 3).
  rewrite <- !Z.lor_assoc.
  rewrite (lor_shiftl_add (sextet v 2)) by (simpl; lia).
  rewrite (lor_shiftl_add (sextet v 1)) by (simpl; lia).
  rewrite (lor_shiftl_add (sextet v 0)) by (simpl; lia).
  rewrite !sextet_val by lia. simpl. Z.to_euclidean_division_equations. lia.
Qed.

Lemma quantum_of_bytes a b c :
  0 <= a < 256 → 0 <= b < 256 → 0 <= c < 256 →
  Z.lor (Z.lor (Z.shiftl a 16) (Z.shiftl b 8)) c = a * 65536 + b * 256 + c.
Proof.
  intros. rewrite <- Z.lor_assoc.
  rewrite (lor_shiftl_add b), (lor_shiftl_add a) by (simpl; lia). simpl. lia.
Qed.

Lemma octets_of_quantum a b c :
  0 <= a < 256 → 0 <= b < 256 → 0 <= c < 256 →
  let v := a * 65536 + b * 256 + c in
  octet v 0 = a ∧ octet v 1 = b ∧ octet v 2 = c.
Proof.
  intros Ha Hb Hc v. rewrite !octet_val by lia. simpl.
  subst v. repeat split; Z.to_euclidean_division_equations; lia.
Qed.

Lemma byte_char_val c : byte_char (byte_val c) = c.
Proof. apply ascii_of_byte_val. Qed.

(** ** Round trip *)

(** Induction three characters at a time, the step of the encoder. *)
Lemma string_ind3 (P : string → Prop) :
  P EmptyString → (∀ a, P (String a EmptyString)) →
  (∀ a b, P (String a (String b EmptyString))) →
  (∀ a b c s, P s → P (String a (String b (String c s)))) →
  ∀ s, P s.
Proof.
  intros H0 H1 H2 H3 s.
  enough (P s ∧ (∀ a, P (String a s)) ∧ (∀ a b, P (String a (String b s)))) by tauto.
  induction s as [|c s (IH1 & IH2 & IH3)]; eauto.
Qed.

Lemma drop_newlines_encode s : drop_newlines (EncodeToString s) = EncodeToString s.
Proof.
  induction s as [|a|a b|a b c s IH] using string_ind3; [done|..];
    cbn [EncodeToString drop_newlines]; rewrite !enc_char_not_newline by apply sextet_range;
    [done|done|by rewrite IH].
Qed.

Lemma decode_quantum4 v rest :
  0 <= v < 2 ^ 24 →
  decode_quanta (String (enc_char (sextet v 0)) (String (enc_char (sextet v 1))
    (String (enc_char (sextet v 2)) (String (enc_char (sextet v 3)) rest)))) =
  tail ← decode_quanta rest;
  Some (String (byte_char (octet v 0)) (String (byte_char (octet v 1))
    (String (byte_char (octet v 2)) tail))).
Proof.
  intros Hv. cbn [decode_quanta]. rewrite !dec_enc_char by apply sextet_range. cbn.
  rewrite !enc_char_not_pad by apply sextet_range. by rewrite quantum_join.
Qed.

Lemma decode_encode s : decode_quanta (EncodeToString s) = Some s.
Proof.
  induction s as [|a|a b|a b c s IH] using string_ind3.
  - done.
  - set (v := Z.shiftl (byte_val a) 16).
    assert (Hv : v = byte_val a * 65536 + 0 * 256 + 0)
      by (unfold v; rewrite Z.shiftl_mul_pow2 by lia; lia).
    pose proof (byte_val_range a) as Ha.
    cbn [EncodeToString]. fold v. cbn [decode_quanta].
    rewrite !dec_enc_char by apply sextet_range. cbn.
    pose proof (quantum_join v) as Hj. rewrite Hv in Hj at 1.
    assert (E2 : sextet v 2 = 0) by (rewrite sextet_val, Hv by lia; simpl; Z.to_euclidean_division_equations; lia).
    assert (E3 : sextet v 3 = 0) by (rewrite sextet_val, Hv by lia; simpl; Z.to_euclidean_division_equations; lia).
    rewrite E2, E3 in Hj. change (Z.shiftl 0 6) with 0 in Hj. rewrite !Z.lor_0_r in Hj.
    rewrite Hj by lia.
    destruct (octets_of_quantum (byte_val a) 0 0) as (H0 & _ & _); [lia..|].
    rewrite <- Hv in H0. by rewrite H0, byte_char_val.
  - set (v := Z.lor (Z.shiftl (byte_val a) 16) (Z.shiftl (byte_val b) 8)).
    pose proof (byte_val_range a) as Ha. pose proof (byte_val_range b) as Hb.
    assert (Hv : v = byte_val a * 65536 + byte_val b * 256 + 0)
      by (rewrite <- quantum_of_bytes by lia; by rewrite Z.lor_0_r).
    cbn [EncodeToString]. fold v. cbn [decode_quanta].
    rewrite !dec_enc_char by apply sextet_range. cbn.
    rewrite enc_char_not_pad by apply sextet_range.
    pose proof (quantum_join v) as Hj. rewrite Hv in Hj at 1.
    assert (E3 : sextet v 3 = 0) by (rewrite sextet_val, Hv by lia; simpl; Z.to_euclidean_division_equations; lia).
    rewrite E3, !Z.lor_0_r in Hj. rewrite Hj by lia.
    destruct (octets_of_quantum (byte_val a) (byte_val b) 0) as (H0 & H1 & _); [lia..|].
    rewrite <- Hv in H0, H1. by rewrite H0, H1, !byte_char_val.
  - pose proof (byte_val_range a) as Ha. pose proof (byte_val_range b) as Hb.
    pose proof (byte_val_range c) as Hc.
    cbn [EncodeToString]. rewrite !quantum_of_bytes by done.
    set (v := byte_val a * 65536 + byte_val b * 256 + byte_val c).
    rewrite decode_quantum4 by (unfold v; lia). rewrite IH. cbn.
    destruct (octets_of_quantum (byte_val a) (byte_val b) (byte_val c) Ha Hb Hc) as (H0 & H1 & H2).
    fold v in H0, H1, H2. by rewrite H0, H1, H2, !byte_char_val.
Qed.

(** Decoding inverts encoding on every byte string. *)
Lemma DecodeString_EncodeToString s : DecodeString (EncodeToString s) = Some s.
Proof. unfold DecodeString. rewrite drop_newlines_encode. apply decode_encode. Qed.

(** The encoded text is never empty for a non-empty secret. *)
Lemma EncodeToString_nonempty s : s ≠ EmptyString → EncodeToString s ≠ EmptyString.
Proof. destruct s as [|a [|b [|c s]]]; done. Qed.

#[export] Hint Rewrite DecodeString_EncodeToString : go_simpl.
