(* ===== verification/Aes.v ===== *)
(** * Aes: [crypto/aes] and the GCM of [crypto/cipher]

    AES with 256-bit keys (FIPS 197) and GCM with 96-bit nonces and without
    additional data (SP 800-38D), executable and checked against their
    published test vectors.  Bytes are [ascii], so that every operation stays
    within a byte. *)

From S2P Require Import Prelude GoInt GoStrings.
Import strings.

(** ** Bytes *)

Definition byte_xor (a b : ascii) : ascii :=
  match a, b with
  | Ascii a0 a1 a2 a3 a4 a5 a6 a7, Ascii b0 b1 b2 b3 b4 b5 b6 b7 =>
      Ascii (xorb a0 b0) (xorb a1 b1) (xorb a2 b2) (xorb a3 b3) (xorb a4 b4) (xorb a5 b5)
        (xorb a6 b6) (xorb a7 b7)
  end.

Definition byte (z : Z) : ascii := ascii_of_N (Z.to_N z).

Definition xor_bytes (l k : list ascii) : list ascii := zip_with byte_xor l k.

Module aes.

(** Multiplication by x in GF(2^8). *)
Definition xtime (a : ascii) : ascii :=
  match a with
  | Ascii a0 a1 a2 a3 a4 a5 a6 a7 =>
      let d := Ascii false a0 a1 a2 a3 a4 a5 a6 in
      if a7 then byte_xor d (byte 27) else d
  end.

Definition sbox : list ascii := map byte [
   99; 124; 119; 123; 242; 107; 111; 197; 48; 1; 103; 43; 254; 215; 171; 118;
   202; 130; 201; 125; 250; 89; 71; 240; 173; 212; 162; 175; 156; 164; 114; 192;
   183; 253; 147; 38; 54; 63; 247; 204; 52; 165; 229; 241; 113; 216; 49; 21;
   4; 199; 35; 195; 24; 150; 5; 154; 7; 18; 128; 226; 235; 39; 178; 117;
   9; 131; 44; 26; 27; 110; 90; 160; 82; 59; 214; 179; 41; 227; 47; 132;
   83; 209; 0; 237; 32; 252; 177; 91; 106; 203; 190; 57; 74; 76; 88; 207;
   208; 239; 170; 251; 67; 77; 51; 133; 69; 249; 2; 127; 80; 60; 159; 168;
   81; 163; 64; 143; 146; 157; 56; 245; 188; 182; 218; 33; 16; 255; 243; 210;
   205; 12; 19; 236; 95; 151; 68; 23; 196; 167; 126; 61; 100; 93; 25; 115;
   96; 129; 79; 220; 34; 42; 144; 136; 70; 238; 184; 20; 222; 94; 11; 219;
   224; 50; 58; 10; 73; 6; 36; 92; 194; 211; 172; 98; 145; 149; 228; 121;
   231; 200; 55; 109; 141; 213; 78; 169; 108; 86; 244; 234; 101; 122; 174; 8;
   186; 120; 37; 46; 28; 166; 180; 198; 232; 221; 116; 31; 75; 189; 139; 138;
   112; 62; 181; 102; 72; 3; 246; 14; 97; 53; 87; 185; 134; 193; 29; 158;
   225; 248; 152; 17; 105; 217; 142; 148; 155; 30; 135; 233; 206; 85; 40; 223;
   140; 161; 137; 13; 191; 230; 66; 104; 65; 153; 45; 15; 176; 84; 187; 22].

Definition sub (a : ascii) : ascii := nth (N.to_nat (N_of_ascii a)) sbox zero.

(** The [i]-th byte of a block. *)
Definition at_ (l : list ascii) (i : nat) : ascii := nth i l zero.

(** ** Key expansion: 60 words, the newest first *)

Definition rot_word (w : list ascii) : list ascii := match w with a :: l => l ++ [a] | [] => [] end.

Fixpoint rcon (n : nat) : ascii := match n with O => byte 141 | S m => xtime (rcon m) end.

Definition next_word (i : nat) (ws : list (list ascii)) : list ascii :=
  let temp := nth 0 ws [] in
  let temp :=
    if Nat.eqb (i mod 8) 0 then xor_bytes (map sub (rot_word temp)) [rcon (i / 8); zero; zero; zero]
    else if Nat.eqb (i mod 8) 4 then map sub temp
    else temp in
  xor_bytes (nth 7 ws []) temp.

Fixpoint expand (n i : nat) (ws : list (list ascii)) : list (list ascii) :=
  match n with O => ws | S m => expand m (S i) (next_word i ws :: ws) end.

(** Cut a list into pieces of [k]. *)
Fixpoint pieces (n k : nat) (l : list ascii) : list (list ascii) :=
  match n with O => [] | S m => take k l :: pieces m k (drop k l) end.

(** The fifteen round keys. *)
Definition round_keys (key : list ascii) : list (list ascii) :=
  pieces 15 16 (concat (rev (expand 52 8 (rev (pieces 8 4 key))))).

(** ** Rounds on the column-major state *)

Definition add_round_key (k st : list ascii) : list ascii :=
  map (λ i, byte_xor (at_ st i) (at_ k i)) (seq 0 16).

Definition sub_bytes (st : list ascii) : list ascii := map sub st.

Definition shift_rows (st : list ascii) : list ascii :=
  map (at_ st) [0; 5; 10; 15; 4; 9; 14; 3; 8; 13; 2; 7; 12; 1; 6; 11]%nat.

Definition mix_column (a b c d : ascii) : list ascii :=
  let double_xor x y := byte_xor (xtime x) (byte_xor (xtime y) y) in
  [byte_xor (double_xor a b) (byte_xor c d); byte_xor (double_xor b c) (byte_xor d a);
   byte_xor (double_xor c d) (byte_xor a b); byte_xor (double_xor d a) (byte_xor b c)].

Definition mix_columns (st : list ascii) : list ascii :=
  concat (map (λ c, mix_column (at_ st (4 * c)) (at_ st (4 * c + 1)) (at_ st (4 * c + 2)) (at_ st (4 * c + 3)))
    (seq 0 4)).

Fixpoint rounds (ks : list (list ascii)) (st : list ascii) : list ascii :=
  match ks with
  | [] => st
  | [k] => add_round_key k (shift_rows (sub_bytes st))
  | k :: ks' => rounds ks' (add_round_key k (mix_columns (shift_rows (sub_bytes st))))
  end.

Definition encrypt_block (ks : list (list ascii)) (block : list ascii) : list ascii :=
  match ks with
  | k :: ks' => rounds ks' (add_round_key k block)
  | [] => block
  end.

(** The example of FIPS 197, appendix C.3. *)
Definition fips_key : list ascii := map byte (seqZ 0 32).
Definition fips_block : list ascii := map (λ i, byte (17 * i)) (seqZ 0 16).

Example fips_197_c3 :
  encrypt_block (round_keys fips_key) fips_block
  = map byte [142; 162; 183; 202; 81; 103; 69; 191; 234; 252; 73; 144; 75; 73; 96; 137].
Proof. vm_compute. reflexivity. Qed.

End aes.

Module gcm.

Definition NonceSize : Z := 12.
Definition TagSize : Z := 16.

(** Big-endian numbers. *)
Definition number (l : list ascii) : Z := foldl (λ n c, n * 256 + byte_val c) 0 l.
Fixpoint big_endian (k : nat) (n : Z) : list ascii :=
  match k with O => [] | S m => big_endian m (n / 256) ++ [byte (n mod 256)] end.

(** Product in GF(2^128) of SP 800-38D: bit 0 is the most significant. *)
Fixpoint gmul_loop (i : nat) (x v z : Z) : Z :=
  match i with
  | O => z
  | S j =>
      let z := if Z.testbit x (Z.of_nat j) then Z.lxor z v else z in
      let v := if Z.testbit v 0 then Z.lxor (Z.shiftr v 1) (Z.shiftl 225 120) else Z.shiftr v 1 in
      gmul_loop j x v z
  end.

Definition gmul (x y : Z) : Z := gmul_loop 128 x y 0.

(** Number of 16-byte blocks of [n] bytes. *)
Definition blocks (n : nat) : nat := (n + 15) / 16.

Definition ghash (h : Z) (data : list ascii) : Z :=
  let n := List.length data in
  let padded := data ++ replicate (16 * blocks n - n) zero in
  let y := foldl (λ y b, gmul (Z.lxor y (number b)) h) 0 (aes.pieces (blocks n) 16 padded) in
  gmul (Z.lxor y (8 * Z.of_nat n)) h.

(** The counter block [nonce || counter]. *)
Definition counter_block (nonce : list ascii) (i : Z) : list ascii := nonce ++ big_endian 4 i.

Definition keystream (ks : list (list ascii)) (nonce : list ascii) (n : nat) : list ascii :=
  concat (map (λ i, aes.encrypt_block ks (counter_block nonce (Z.of_nat i + 2))) (seq 0 (blocks n))).

Definition ctr (ks : list (list ascii)) (nonce data : list ascii) : list ascii :=
  xor_bytes data (keystream ks nonce (List.length data)).

Definition tag (ks : list (list ascii)) (nonce ct : list ascii) : list ascii :=
  let h := number (aes.encrypt_block ks (replicate 16 zero)) in
  xor_bytes (big_endian 16 (ghash h ct)) (aes.encrypt_block ks (counter_block nonce 1)).

(** [Seal(dst, nonce, plaintext, nil)]. *)
Definition Seal (ks : list (list ascii)) (dst nonce plaintext : list ascii) : list ascii :=
  let ct := ctr ks nonce plaintext in
  dst ++ ct ++ tag ks nonce ct.

(** [Open(nil, nonce, ciphertext, nil)]: [None] when authentication fails. *)
Definition Open (ks : list (list ascii)) (nonce ciphertext : list ascii) : option (list ascii) :=
  let n := List.length ciphertext in
  if (Z.of_nat n <? TagSize) || ((2 ^ 32 - 2) * 16 + TagSize <? Z.of_nat n) then None
  else
    let ct := take (n - 16) ciphertext in
    if bool_decide (tag ks nonce ct = drop (n - 16) ciphertext) then Some (ctr ks nonce ct) else None.

(** The test cases 13 and 14 of the GCM specification. *)
Definition zero_keys : list (list ascii) := aes.round_keys (replicate 32 zero).
Definition zero_nonce : list ascii := replicate 12 zero.

Example gcm_case_13 :
  Seal zero_keys [] zero_nonce []
  = map byte [83; 15; 138; 251; 199; 69; 54; 185; 169; 99; 180; 241; 196; 203; 115; 139].
Proof. vm_compute. reflexivity. Qed.

Example gcm_case_14 :
  Seal zero_keys [] zero_nonce (replicate 16 zero)
  = map byte [206; 167; 64; 61; 77; 96; 107; 110; 7; 78; 197; 211; 186; 243; 157; 24;
              208; 209; 200; 167; 153; 153; 107; 240; 38; 91; 152; 181; 212; 138; 185; 25].
Proof. vm_compute. reflexivity. Qed.

End gcm.

(** ** Facts *)

Lemma byte_xor_involutive a k : byte_xor (byte_xor a k) k = a.
Proof.
  destruct a, k. simpl. by rewrite !xorb_assoc, !xorb_nilpotent, !xorb_false_r.
Qed.

Lemma xor_bytes_involutive l k : (List.length l <= List.length k)%nat → xor_bytes (xor_bytes l k) k = l.
Proof.
  unfold xor_bytes. revert k. induction l as [|a l IH]; intros [|b k] H; simpl in *; try done; [lia|].
  rewrite byte_xor_involutive, IH by lia. done.
Qed.

Lemma xor_bytes_length l k : List.length (xor_bytes l k) = Nat.min (List.length l) (List.length k).
Proof. apply length_zip_with. Qed.

Lemma pieces_length n k l : List.length (aes.pieces n k l) = n.
Proof. revert l. induction n as [|n IH]; intros l; simpl; [done|]. by rewrite IH. Qed.

Lemma rounds_length ks st : ks ≠ [] → List.length (aes.rounds ks st) = 16%nat.
Proof.
  revert st. induction ks as [|k [|k' ks] IH]; intros st H; [done|reflexivity|].
  apply IH. done.
Qed.

Lemma encrypt_block_length key b : List.length (aes.encrypt_block (aes.round_keys key) b) = 16%nat.
Proof.
  pose proof (pieces_length 15 16 (concat (rev (aes.expand 52 8 (rev (aes.pieces 8 4 key)))))) as H.
  unfold aes.round_keys, aes.encrypt_block. destruct (aes.pieces 15 16 _) as [|k ks]; [done|].
  apply rounds_length. by destruct ks.
Qed.

Lemma concat_length_16 {A} (f : A → list ascii) l :
  (∀ x, List.length (f x) = 16%nat) → List.length (concat (map f l)) = (16 * List.length l)%nat.
Proof. intros H. induction l as [|x l IH]; simpl; [done|]. rewrite length_app, H, IH. lia. Qed.

Lemma blocks_cover n : (n <= 16 * gcm.blocks n)%nat.
Proof. unfold gcm.blocks. pose proof (Nat.div_mod_eq (n + 15) 16). pose proof (Nat.mod_upper_bound (n + 15) 16). lia. Qed.

Lemma keystream_length key nonce n : (n <= List.length (gcm.keystream (aes.round_keys key) nonce n))%nat.
Proof.
  unfold gcm.keystream. rewrite concat_length_16 by (intros; apply encrypt_block_length).
  rewrite length_seq. apply blocks_cover.
Qed.

Lemma ctr_length key nonce data : List.length (gcm.ctr (aes.round_keys key) nonce data) = List.length data.
Proof.
  unfold gcm.ctr. rewrite xor_bytes_length. pose proof (keystream_length key nonce (List.length data)). lia.
Qed.

Lemma ctr_involutive key nonce data :
  gcm.ctr (aes.round_keys key) nonce (gcm.ctr (aes.round_keys key) nonce data) = data.
Proof.
  unfold gcm.ctr at 1. rewrite ctr_length. unfold gcm.ctr. apply xor_bytes_involutive, keystream_length.
Qed.

Lemma big_endian_length k n : List.length (gcm.big_endian k n) = k.
Proof. revert n. induction k as [|k IH]; intros n; simpl; [done|]. rewrite length_app, IH. simpl. lia. Qed.

Lemma tag_length key nonce ct : List.length (gcm.tag (aes.round_keys key) nonce ct) = 16%nat.
Proof. unfold gcm.tag. by rewrite xor_bytes_length, big_endian_length, encrypt_block_length. Qed.

(** What [Open] accepts: a ciphertext followed by its tag. *)
Lemma Open_Some key nonce c data :
  gcm.Open (aes.round_keys key) nonce c = Some data →
  ∃ ct, c = ct ++ gcm.tag (aes.round_keys key) nonce ct ∧ data = gcm.ctr (aes.round_keys key) nonce ct.
Proof.
  unfold gcm.Open. destruct (_ || _) eqn:E; [done|]. case_bool_decide as Ht; [|done]. intros [= <-].
  exists (take (List.length c - 16) c). by rewrite Ht, take_drop.
Qed.

Lemma Open_Seal key nonce data :
  Z.of_nat (List.length data) <= (2 ^ 32 - 2) * 16 →
  gcm.Open (aes.round_keys key) nonce (gcm.Seal (aes.round_keys key) [] nonce data) = Some data.
Proof.
  intros Hn. unfold gcm.Seal, gcm.Open. simpl app.
  rewrite length_app, tag_length, ctr_length. rewrite Nat.add_sub.
  unfold gcm.TagSize. destruct (Z.ltb_spec (Z.of_nat (List.length data + 16)) 16); [lia|].
  destruct (Z.ltb_spec ((2 ^ 32 - 2) * 16 + 16) (Z.of_nat (List.length data + 16))); [lia|]. simpl orb.
  rewrite take_app_le, drop_app_ge by (rewrite ctr_length; lia).
  rewrite firstn_all2, ctr_length, Nat.sub_diag, drop_0 by (rewrite ctr_length; lia).
  rewrite bool_decide_eq_true_2 by done. by rewrite ctr_involutive.
Qed.
