(* ===== verification/GoTime.v ===== *)
(** * GoTime: [time.Time] and its RFC 3339 text

    A [time.Time] is its instant: nanoseconds since the Unix epoch.  The
    location a Go [Time] carries is not kept: the source formats times it
    converted to UTC, or times the driver read in the local zone, taken to be
    UTC.  The calendar is the proleptic Gregorian one. *)

From S2P Require Import Prelude GoInt GoStrings.
Import strings strconv.

Abbreviation Time := Z (only parsing).

Module time.

(** [time.Time{}]: January 1, year 1, 00:00:00 UTC. *)
Definition zero : Time := -62135596800 * Second.

Definition IsZero (t : Time) : bool := t =? zero.
Definition After (t u : Time) : bool := u <? t.
Definition Add (t : Time) (d : Z) : Time := t + d.
(** [time.Unix(sec, 0)]. *)
Definition Unix (sec : Z) : Time := sec * Second.

(** Year, month and day of a day number (day 0 is 1970-01-01); the year
    starts in March inside a 146097-day cycle. *)
Definition day_of_cycle (doe : Z) : Z * Z * Z :=
  let yoe := (doe - doe / 1460 + doe / 36524 - doe / 146096) / 365 in
  let doy := doe - (365 * yoe + yoe / 4 - yoe / 100) in
  let mp := (5 * doy + 2) / 153 in
  let d := doy - (153 * mp + 2) / 5 + 1 in
  let m := if mp <? 10 then mp + 3 else mp - 9 in
  ((if m <=? 2 then yoe + 1 else yoe), m, d).

Definition civil_of_days (days : Z) : Z * Z * Z :=
  let z := days + 719468 in
  let '(y, m, d) := day_of_cycle (z mod 146097) in
  (y + 400 * (z / 146097), m, d).

Definition cycle_of_day (y m d : Z) : Z :=
  let y' := if m <=? 2 then y - 1 else y in
  let doy := (153 * (if m <=? 2 then m + 9 else m - 3) + 2) / 5 + d - 1 in
  365 * y' + y' / 4 - y' / 100 + y' / 400 + doy.

Definition days_of_civil (y m d : Z) : Z := cycle_of_day y m d - 719468.

Definition is_leap (y : Z) : bool :=
  (y mod 4 =? 0) && (negb (y mod 100 =? 0) || (y mod 400 =? 0)).

Definition days_in (m y : Z) : Z :=
  if m =? 2 then if is_leap y then 29 else 28
  else if (m =? 4) || (m =? 6) || (m =? 9) || (m =? 11) then 30 else 31.

Definition ns_per_day : Z := 24 * Hour.

(** Year and month of an instant in UTC. *)
Definition civil (t : Time) : Z * Z * Z := civil_of_days (t / ns_per_day).
Definition year (t : Time) : Z := fst (fst (civil t)).
Definition month (t : Time) : Z := snd (fst (civil t)).

(** Zero-padded decimal of at least [w] digits (Go's [appendInt]). *)
Fixpoint pad_digits (w : nat) (n : Z) (acc : string) : string :=
  match w with
  | O => acc
  | S w' => pad_digits w' (n / 10) (String (digit_char (n mod 10)) acc)
  end.

Definition append_int (w : nat) (n : Z) : string :=
  if n <? 0 then String minus_char (if - n <? 10 ^ Z.of_nat w then pad_digits w (- n) EmptyString else Itoa (- n))
  else if n <? 10 ^ Z.of_nat w then pad_digits w n EmptyString else Itoa n.

(** [t.UTC().Format("2006-01")]. *)
Definition Format_year_month (t : Time) : string :=
  append_int 4 (year t) +:+ "-" +:+ append_int 2 (month t).

(** The fraction of [RFC3339Nano]: nine digits without trailing zeros. *)
Fixpoint trim_zeros (rev_digits : list ascii) : list ascii :=
  match rev_digits with
  | c :: rest => if Ascii.eqb c (digit_char 0) then trim_zeros rest else rev_digits
  | [] => []
  end.

Definition format_fraction (ns : Z) : string :=
  if ns =? 0 then EmptyString
  else String (ascii_of_N 46)
         (of_chars (rev (trim_zeros (rev (to_chars (pad_digits 9 ns EmptyString)))))).

(** [t.UTC().MarshalJSON()] without the quotes: the RFC 3339 text, and an
    error (here [None]) outside the years 0 to 9999. *)
Definition MarshalText (t : Time) : option string :=
  let '(y, m, d) := civil t in
  let rem := t mod ns_per_day in
  if (0 <=? y) && (y <=? 9999) then
    Some (append_int 4 y +:+ "-" +:+ append_int 2 m +:+ "-" +:+ append_int 2 d +:+ "T" +:+
          append_int 2 (rem / Hour) +:+ ":" +:+ append_int 2 (rem / Minute mod 60) +:+ ":" +:+
          append_int 2 (rem / Second mod 60) +:+ format_fraction (rem mod Second) +:+ "Z")
  else None.

(** [t.UTC().Format("2006-01-02T15:04:05.000Z")]: millisecond precision. *)
Definition Format_millis (t : Time) : string :=
  let '(y, m, d) := civil t in
  let rem := t mod ns_per_day in
  append_int 4 y +:+ "-" +:+ append_int 2 m +:+ "-" +:+ append_int 2 d +:+ "T" +:+
  append_int 2 (rem / Hour) +:+ ":" +:+ append_int 2 (rem / Minute mod 60) +:+ ":" +:+
  append_int 2 (rem / Second mod 60) +:+ "." +:+
  pad_digits 3 (rem mod Second / Millisecond) EmptyString +:+ "Z".

(** An unsigned decimal within bounds (the local [parseUint] of
    [parseRFC3339]). *)
Fixpoint uint_chars (x : Z) (l : list ascii) : option Z :=
  match l with
  | [] => Some x
  | c :: l' => if is_digit c then uint_chars (x * 10 + (byte_val c - 48)) l' else None
  end.

Definition parse_uint (l : list ascii) (lo hi : Z) : option Z :=
  x ← uint_chars 0 l; if (lo <=? x) && (x <=? hi) then Some x else None.

(** Digits after the point: at most nine of them count. *)
Fixpoint span_digits (l : list ascii) : list ascii * list ascii :=
  match l with
  | c :: l' => if is_digit c then let '(a, b) := span_digits l' in (c :: a, b) else ([], l)
  | [] => ([], [])
  end.

Definition nanoseconds (ds : list ascii) : Z :=
  let ds := take 9 ds in
  match uint_chars 0 ds with
  | Some x => x * 10 ^ (9 - Z.of_nat (List.length ds))
  | None => 0
  end.

Definition parse_zone (l : list ascii) : option Z :=
  match l with
  | [z] => if Ascii.eqb z (ascii_of_N 90) then Some 0 else None
  | [s; h1; h2; c; m1; m2] =>
      hr ← parse_uint [h1; h2] 0 23; mm ← parse_uint [m1; m2] 0 59;
      if Ascii.eqb c (ascii_of_N 58) then
        if Ascii.eqb s minus_char then Some (- (hr * 60 + mm) * 60)
        else if Ascii.eqb s plus_char then Some ((hr * 60 + mm) * 60)
        else None
      else None
  | _ => None
  end.

Definition is_char (n : N) (c : ascii) : bool := Ascii.eqb c (ascii_of_N n).

(** [parseRFC3339]: the parser of [UnmarshalJSON], and the fast path of
    [time.Parse(time.RFC3339, s)]. *)
Definition parseRFC3339 (s : string) : option Time :=
  match to_chars s with
  | y1 :: y2 :: y3 :: y4 :: d1 :: m1 :: m2 :: d2 :: a1 :: a2 :: sepT :: h1 :: h2 :: c1 :: i1 :: i2 :: c2 :: s1 :: s2 :: rest =>
      y ← parse_uint [y1; y2; y3; y4] 0 9999;
      m ← parse_uint [m1; m2] 1 12;
      d ← parse_uint [a1; a2] 1 (days_in m y);
      h ← parse_uint [h1; h2] 0 23;
      mi ← parse_uint [i1; i2] 0 59;
      sec ← parse_uint [s1; s2] 0 59;
      if is_char 45 d1 && is_char 45 d2 && is_char 84 sepT && is_char 58 c1 && is_char 58 c2 then
        let '(nsec, zone) :=
          match rest with
          | p :: q :: _ =>
              if is_char 46 p && is_digit q then
                let '(ds, rest') := span_digits (tl rest) in (nanoseconds ds, rest')
              else (0, rest)
          | _ => (0, rest)
          end in
        off ← parse_zone zone;
        Some (days_of_civil y m d * ns_per_day + h * Hour + mi * Minute + sec * Second + nsec - off * Second)
      else None
  | _ => None
  end.

(** [getnum]: two digits, or one where [fixed] does not ask for two. *)
Definition getnum (fixed : bool) (l : list ascii) : option (Z * list ascii) :=
  match l with
  | a :: rest =>
      if is_digit a then
        match rest with
        | b :: rest' =>
            if is_digit b then Some ((byte_val a - 48) * 10 + (byte_val b - 48), rest')
            else if fixed then None else Some (byte_val a - 48, rest)
        | [] => if fixed then None else Some (byte_val a - 48, [])
        end
      else None
  | [] => None
  end.

Definition skip_char (n : N) (l : list ascii) : option (list ascii) :=
  match l with c :: rest => if is_char n c then Some rest else None | [] => None end.

Definition in_bounds (lo hi x : Z) : option unit := if (lo <=? x) && (x <=? hi) then Some tt else None.

(** The [Z07:00] of the layout: offsets of 24 hours and of 60 minutes are
    let through. *)
Definition layout_zone (l : list ascii) : option Z :=
  match l with
  | [z] => if is_char 90 z then Some 0 else None
  | [s; h1; h2; c; m1; m2] =>
      if is_char 58 c then
        '(hr, _) ← getnum true [h1; h2]; '(mm, _) ← getnum true [m1; m2];
        _ ← in_bounds 0 24 hr; _ ← in_bounds 0 60 mm;
        if Ascii.eqb s minus_char then Some (- (hr * 60 + mm) * 60)
        else if Ascii.eqb s plus_char then Some ((hr * 60 + mm) * 60)
        else None
      else None
  | _ => None
  end.

(** The loop of [time.Parse] over the layout [2006-01-02T15:04:05Z07:00]. *)
Definition parse_layout (s : string) : option Time :=
  match to_chars s with
  | y1 :: y2 :: y3 :: y4 :: l =>
      y ← uint_chars 0 [y1; y2; y3; y4];
      l ← skip_char 45 l; '(m, l) ← getnum true l; _ ← in_bounds 1 12 m;
      l ← skip_char 45 l; '(d, l) ← getnum true l;
      l ← skip_char 84 l; '(h, l) ← getnum false l; _ ← in_bounds 0 23 h;
      l ← skip_char 58 l; '(mi, l) ← getnum true l; _ ← in_bounds 0 59 mi;
      l ← skip_char 58 l; '(sec, l) ← getnum true l; _ ← in_bounds 0 59 sec;
      let '(nsec, l) :=
        match l with
        | p :: q :: _ =>
            if (is_char 46 p || is_char 44 p) && is_digit q then
              let '(ds, rest) := span_digits (tl l) in (nanoseconds ds, rest)
            else (0, l)
        | _ => (0, l)
        end in
      off ← layout_zone l; _ ← in_bounds 1 (days_in m y) d;
      Some (days_of_civil y m d * ns_per_day + h * Hour + mi * Minute + sec * Second + nsec - off * Second)
  | _ => None
  end.

(** [time.Parse(time.RFC3339, s)]. *)
Definition Parse_RFC3339 (s : string) : option Time :=
  match parseRFC3339 s with
  | Some t => Some t
  | None => parse_layout s
  end.

End time.

(** The slow path is more lenient than the fast one. *)
Example parse_short_hour :
  time.parseRFC3339 "2024-02-29T3:04:05,5+24:00" = None ∧
  time.Parse_RFC3339 "2024-02-29T3:04:05,5+24:00" = time.Parse_RFC3339 "2024-02-28T03:04:05.5Z".
Proof. split; vm_compute; reflexivity. Qed.

(** PostgreSQL's [timestamptz] keeps microseconds. *)
Definition trunc_us (t : Time) : Time := t / 1000 * 1000.

(** ** The calendar *)

Import time.

(** Days before March 1 of year [y] of a cycle, and the year a day of the
    cycle falls in. *)
Definition year_start (y : Z) : Z := 365 * y + y / 4 - y / 100 + y / 400.
Definition year_of_doe (doe : Z) : Z :=
  (doe - doe / 1460 + doe / 36524 - doe / 146096) / 365.

Lemma sub_div_mono a b n : 0 < n → a <= b → a - a / n <= b - b / n.
Proof.
  intros Hn Hab. pose proof (Z.div_le_mono b (a + (b - a) * n) n Hn ltac:(nia)) as H.
  rewrite Z.div_add in H; lia.
Qed.

Lemma year_of_doe_mono a b :
  0 <= a <= b → b < 146097 → year_of_doe a <= year_of_doe b.
Proof.
  intros Hab Hb. unfold year_of_doe. apply Z.div_le_mono; [lia|].
  assert (E : ∀ x, x / 146096 = x / 36524 / 4) by (intros; rewrite Z.div_div by lia; done).
  rewrite !E. pose proof (Z.div_le_mono a b 36524 ltac:(lia) ltac:(lia)).
  pose proof (sub_div_mono a b 1460). pose proof (sub_div_mono (a / 36524) (b / 36524) 4). lia.
Qed.

(** Each year of the cycle, checked at its first and last day. *)
Definition year_ok (y : Z) : bool :=
  (year_of_doe (year_start y) =? y) && (year_of_doe (year_start (y + 1) - 1) =? y)
  && (year_start (y + 1) - year_start y =? if is_leap (y + 1) then 366 else 365)
  && (0 <=? year_start y) && (year_start (y + 1) <=? 146097).

Lemma year_all y : 0 <= y < 400 → year_ok y = true.
Proof.
  intros H. apply (forall_below_spec year_ok 400); [vm_compute; reflexivity|lia].
Qed.

Lemma year_of_doe_unique y doe :
  0 <= y < 400 → year_start y <= doe < year_start (y + 1) → year_of_doe doe = y.
Proof.
  intros Hy Hd. pose proof (year_all y Hy) as H. unfold year_ok in H. bool_to_prop.
  pose proof (year_of_doe_mono (year_start y) doe). pose proof (year_of_doe_mono doe (year_start (y + 1) - 1)).
  lia.
Qed.

Lemma find_year (n : nat) doe :
  0 <= doe < year_start (Z.of_nat n) →
  ∃ y, 0 <= y < Z.of_nat n ∧ year_start y <= doe < year_start (y + 1).
Proof.
  induction n as [|n IH]; intros H; [change (0 <= doe < 0) in H; lia|].
  destruct (Z.lt_ge_cases doe (year_start (Z.of_nat n))) as [Hlt|Hge].
  - destruct IH as (y & Hy & Hd); [lia|]. exists y. lia.
  - exists (Z.of_nat n). rewrite Nat2Z.inj_succ, <- Z.add_1_r in H. lia.
Qed.

(** Each day of a March-based year, checked against the month table. *)
Definition doy_ok (doy : Z) : bool :=
  let mp := (5 * doy + 2) / 153 in
  let d := doy - (153 * mp + 2) / 5 + 1 in
  let m := if mp <? 10 then mp + 3 else mp - 9 in
  (1 <=? m) && (m <=? 12) && (1 <=? d) && ((153 * (if m <=? 2 then m + 9 else m - 3) + 2) / 5 + d - 1 =? doy)
  && (if m =? 2 then (d <=? 29) && ((d <=? 28) || (doy =? 365)) else d <=? days_in m 1).

Lemma doy_all doy : 0 <= doy < 366 → doy_ok doy = true.
Proof.
  intros H. apply (forall_below_spec doy_ok 366); [vm_compute; reflexivity|lia].
Qed.

Lemma days_in_not_feb m y y' : m ≠ 2 → days_in m y = days_in m y'.
Proof. intros H. unfold days_in. destruct (Z.eqb_spec m 2); [lia|done]. Qed.

(** The day-of-cycle decomposition is inverted by [cycle_of_day] and lands
    on a real calendar day. *)
Lemma day_of_cycle_spec doe y m d :
  0 <= doe < 146097 → day_of_cycle doe = (y, m, d) →
  cycle_of_day y m d = doe ∧ 1 <= m <= 12 ∧ 1 <= d <= days_in m y ∧
  0 <= (if m <=? 2 then y - 1 else y) < 400.
Proof.
  intros Hdoe E.
  destruct (find_year 400 doe) as (yo & Hyo & Hin); [done|].
  pose proof (year_of_doe_unique yo doe Hyo Hin) as Hy.
  pose proof (year_all yo Hyo) as Hyok. unfold year_ok in Hyok. bool_to_prop.
  unfold day_of_cycle in E. change ((doe - doe / 1460 + doe / 36524 - doe / 146096) / 365) with (year_of_doe doe) in E.
  rewrite Hy in E. set (doy := doe - (365 * yo + yo / 4 - yo / 100)) in E.
  assert (Hs : year_start yo = 365 * yo + yo / 4 - yo / 100)
    by (unfold year_start; rewrite (Z.div_small yo 400) by lia; lia).
  assert (Hdoy : 0 <= doy < 366 ∧ (doy = 365 → is_leap (yo + 1) = true)).
  { unfold doy. rewrite <- Hs. destruct (is_leap (yo + 1)); split; try done; lia. }
  destruct Hdoy as [Hdoy Hleap]. pose proof (doy_all doy Hdoy) as Hok. unfold doy_ok in Hok.
  set (mp := (5 * doy + 2) / 153) in *. set (m0 := if mp <? 10 then mp + 3 else mp - 9) in *.
  set (d0 := doy - (153 * mp + 2) / 5 + 1) in *.
  injection E as <- <- <-. bool_to_prop.
  unfold cycle_of_day.
  repeat split; try lia.
  - destruct (Z.leb_spec m0 2); replace (yo + 1 - 1) with yo by lia;
      unfold doy in *; rewrite (Z.div_small yo 400) by lia; lia.
  - destruct (Z.eqb_spec m0 2) as [E2|E2].
    + rewrite E2 in *. simpl. unfold days_in. simpl. bool_to_prop.
      destruct (Z.eqb_spec doy 365) as [E3|E3]; [rewrite Hleap by done; lia|].
      destruct (Z.leb_spec d0 28); [|done]. destruct (is_leap (yo + 1)); lia.
    + rewrite (days_in_not_feb _ _ 1) by done. bool_to_prop. lia.
  - destruct (Z.leb_spec m0 2); lia.
  - destruct (Z.leb_spec m0 2); lia.
Qed.

(** A whole cycle is 400 years. *)
Lemma cycle_of_day_shift y m d k :
  cycle_of_day (y + 400 * k) m d = cycle_of_day y m d + 146097 * k.
Proof.
  unfold cycle_of_day.
  assert (E : ∀ x, x + 400 * k = x + k * 100 * 4 ∧ x + 400 * k = x + k * 4 * 100 ∧ x + 400 * k = x + k * 400) by (intros; lia).
  assert (F : ∀ x, (x + 400 * k) / 4 = x / 4 + k * 100 ∧ (x + 400 * k) / 100 = x / 100 + k * 4 ∧ (x + 400 * k) / 400 = x / 400 + k).
  { intros x. destruct (E x) as (E1 & E2 & E3). repeat split.
    - rewrite E1. by rewrite Z.div_add.
    - rewrite E2. by rewrite Z.div_add.
    - rewrite E3. by rewrite Z.div_add. }
  destruct (m <=? 2).
  - replace (y + 400 * k - 1) with (y - 1 + 400 * k) by lia.
    destruct (F (y - 1)) as (-> & -> & ->). lia.
  - destruct (F y) as (-> & -> & ->). lia.
Qed.

Lemma is_leap_shift y k : is_leap (y + 400 * k) = is_leap y.
Proof.
  unfold is_leap.
  replace (y + 400 * k) with (y + k * 100 * 4) at 1 by lia.
  replace (y + 400 * k) with (y + k * 4 * 100) at 1 by lia.
  replace (y + 400 * k) with (y + k * 400) by lia.
  by rewrite !Z_mod_plus_full.
Qed.

(** Every day number is the one of its civil date, and that date is valid. *)
Lemma civil_of_days_spec n y m d :
  civil_of_days n = (y, m, d) →
  days_of_civil y m d = n ∧ 1 <= m <= 12 ∧ 1 <= d <= days_in m y.
Proof.
  unfold civil_of_days, days_of_civil. intros E.
  set (z := n + 719468) in *.
  destruct (day_of_cycle (z mod 146097)) as [[y0 m0] d0] eqn:Ed.
  injection E as <- <- <-.
  pose proof (Z.mod_pos_bound z 146097 ltac:(lia)).
  destruct (day_of_cycle_spec _ _ _ _ H Ed) as (Hc & Hm & Hd & _).
  rewrite cycle_of_day_shift, Hc. pose proof (Z.div_mod z 146097 ltac:(lia)).
  split; [unfold z in *; lia|]. split; [done|].
  replace (days_in m0 (y0 + 400 * (z / 146097))) with (days_in m0 y0); [done|].
  unfold days_in. by rewrite is_leap_shift.
Qed.

Lemma month_range t : 1 <= month t <= 12.
Proof.
  unfold month, civil. destruct (civil_of_days _) as [[y m] d] eqn:E. simpl.
  by apply civil_of_days_spec in E as (_ & ? & _).
Qed.
