(* ===== verification/GoValues.v ===== *)
(** * GoValues: errors, outcomes, UUIDs, floats and JSON values

    - [error]: Go error values, with the wrapping that [errors.Is] follows;
    - [outcome]: what a call returns: a value, an error, or a panic;
    - [UUID]: the sixteen bytes of [uuid.UUID] as one 128-bit number;
    - [float64]: IEEE 754 binary64 as [SpecFloat]'s datatype;
    - [json]: the values [encoding/json] writes and reads. *)

From S2P Require Import Prelude GoInt GoStrings.
From Stdlib Require Export SpecFloat.

(** ** Errors *)

Module errors.

(** The package-level error values the source compares with [errors.Is]
    or [==]. *)
Inductive Sentinel :=
| ErrNoRows                 (* pgx.ErrNoRows, re-exported as db.ErrNoRows *)
| ErrSqlNoRows              (* database/sql ErrNoRows *)
| ErrInvalidCredentials     (* service *)
| ErrRefreshTokenInvalid    (* service *)
| ErrKeyMissing             (* crypto *)
| ErrJWTKeyMissing          (* shared auth *)
| ErrRedisNil               (* redis.Nil *)
| ErrCtxCanceled.           (* context.Canceled *)

(** [errorString] is [errors.New]/[fmt.Errorf] without a wrapped error,
    [wrapError pre e post] is [fmt.Errorf] with one [%w] between two literal
    texts, [foreign] an error made by a driver, a server or a library. *)
Inductive error :=
| sentinel (s : Sentinel)
| errorString (msg : string)
| foreign (msg : string)
| wrapError (pre : string) (inner : error) (post : string).

#[export] Instance Sentinel_eq_dec : EqDecision Sentinel.
Proof. solve_decision. Defined.
#[export] Instance error_eq_dec : EqDecision error.
Proof. solve_decision. Defined.

(** [errors.Is(e, target)] for a package-level [target]. *)
Fixpoint Is (e : error) (target : Sentinel) : bool :=
  match e with
  | sentinel s => bool_decide (s = target)
  | wrapError _ e' _ => Is e' target
  | errorString _ | foreign _ => false
  end.

Definition sentinel_text (s : Sentinel) : string :=
  match s with
  | ErrNoRows => "no rows in result set"
  | ErrSqlNoRows => "sql: no rows in result set"
  | ErrInvalidCredentials => "invalid credentials"
  | ErrRefreshTokenInvalid => "refresh token invalid"
  | ErrKeyMissing =>
      "crypto: APP_CRYPTO_KEY must be set and decode to 32 bytes (hex 64 chars or base64)"
  | ErrJWTKeyMissing => "auth: JWT_SIGNING_KEY must be set"
  | ErrRedisNil => "redis: nil"
  | ErrCtxCanceled => "context canceled"
  end%string.

(** [err.Error()]. *)
Fixpoint Error (e : error) : string :=
  match e with
  | sentinel s => sentinel_text s
  | errorString m | foreign m => m
  | wrapError pre e' post => pre +:+ Error e' +:+ post
  end.

(** [fmt.Errorf("ctx: %w", e)]. *)
Definition wrapf (ctx : string) (e : error) : error := wrapError (ctx +:+ ": ") e "".

End errors.
Export errors.

(** ** Outcomes *)

Inductive outcome (A : Type) :=
| Ok (a : A)
| Err (e : error)
| Panic (msg : string).
Arguments Ok {A} a.
Arguments Err {A} e.
Arguments Panic {A} msg.

#[export] Instance outcome_eq_dec `{EqDecision A} : EqDecision (outcome A).
Proof. solve_decision. Defined.

Definition omap_out {A B} (f : A → B) (o : outcome A) : outcome B :=
  match o with Ok a => Ok (f a) | Err e => Err e | Panic m => Panic m end.

Definition obind {A B} (o : outcome A) (f : A → outcome B) : outcome B :=
  match o with Ok a => f a | Err e => Err e | Panic m => Panic m end.

(** [if err != nil { return fmt.Errorf("ctx: %w", err) }] *)
Definition with_context {A} (ctx : string) (o : outcome A) : outcome A :=
  match o with Err e => Err (wrapf ctx e) | _ => o end.

Declare Scope outcome_scope.
Delimit Scope outcome_scope with outcome.
Notation "'try' x ':=' o 'in' k" := (obind o (λ x, k))
  (at level 10, x pattern, o at level 100, k at level 200) : outcome_scope.

Definition is_ok {A} (o : outcome A) : bool := match o with Ok _ => true | _ => false end.

Lemma obind_Ok_inv {A B} (o : outcome A) (f : A → outcome B) b :
  obind o f = Ok b → ∃ a, o = Ok a ∧ f a = Ok b.
Proof. destruct o; simpl; [eauto|done..]. Qed.

Lemma with_context_Ok {A} ctx (o : outcome A) a : with_context ctx o = Ok a ↔ o = Ok a.
Proof. by destruct o; simpl. Qed.

(** Wrapping never hides the wrapped error from [errors.Is]. *)
Lemma Is_wrapf ctx e s : Is (wrapf ctx e) s = Is e s.
Proof. done. Qed.
#[export] Hint Rewrite Is_wrapf : go_simpl.

(** ** UUIDs *)

(** [uuid.UUID] is [[16]byte]: a number below 2^128. *)
Record UUID := mkUUID { uuid_num : N; uuid_bound : (uuid_num <? 2 ^ 128)%N = true }.

Lemma UUID_eq (u v : UUID) : uuid_num u = uuid_num v → u = v.
Proof.
  destruct u as [n Hn], v as [m Hm]. simpl. intros ->. f_equal.
  apply (Eqdep_dec.UIP_dec Bool.bool_dec).
Qed.

#[export] Instance UUID_eq_dec : EqDecision UUID.
Proof.
  intros u v. destruct (decide (uuid_num u = uuid_num v)) as [E|E].
  - left. by apply UUID_eq.
  - right. by intros ->.
Defined.

(** The UUID with the low 128 bits of a number. *)
Definition uuid_of_N (n : N) : UUID.
Proof.
  refine (mkUUID (n mod 2 ^ 128)%N _).
  abstract (apply N.ltb_lt, N.mod_lt; done).
Defined.

Lemma uuid_of_num u : uuid_of_N (uuid_num u) = u.
Proof.
  apply UUID_eq. destruct u as [n Hn]. simpl. apply N.mod_small. by apply N.ltb_lt.
Qed.

#[export] Instance UUID_countable : Countable UUID.
Proof. apply (inj_countable' uuid_num uuid_of_N). apply uuid_of_num. Defined.

Definition uuid_Nil : UUID := uuid_of_N 0.

(** gofrs/uuid is outside the repository: [String] and [FromString] are the
    operations the code uses, and the laws below what it relies on. *)
Class UuidLib := {
  uuid_String : UUID → string;
  uuid_FromString : string → outcome UUID;
}.

Class UuidLaws (L : UuidLib) : Prop := {
  uuid_FromString_String u : uuid_FromString (uuid_String u) = Ok u;
  (** canonical text: hexadecimal digits and dashes, 36 of them *)
  uuid_String_len u : strings.len (uuid_String u) = 36;
  uuid_String_chars u :
    strings.str_forall (λ c, strconv.is_digit c || ((97 <=? strings.byte_val c) && (strings.byte_val c <=? 102))
                     || (strings.byte_val c =? 45)) (uuid_String u) = true;
  (** parsing fails with a library error, never with a panic *)
  uuid_FromString_total s : (∃ u, uuid_FromString s = Ok u) ∨ (∃ m, uuid_FromString s = Err (foreign m));
}.

Lemma uuid_String_inj {L : UuidLib} {LL : UuidLaws L} u v : uuid_String u = uuid_String v → u = v.
Proof.
  intros E. pose proof (uuid_FromString_String u) as Hu. rewrite E in Hu.
  rewrite uuid_FromString_String in Hu. congruence.
Qed.
#[export] Hint Resolve uuid_String_inj : go.

(** ** float64 *)

Definition float64 : Type := spec_float.
#[export] Instance float64_eq_dec : EqDecision float64.
Proof. unfold float64. solve_decision. Defined.

Definition f64_zero : float64 := S754_zero false.
(** Unary minus flips the sign bit. *)
Definition f64_opp (f : float64) : float64 := SFopp f.
Definition f64_finite (f : float64) : bool :=
  match f with S754_zero _ | S754_finite _ _ _ => true | _ => false end.

(** The float nearest to the rational [n / d], ties to even: what
    big.Rat's [Float64] returns. *)
Definition f64_of_ratio (n : Z) (d : positive) : float64 :=
  match n with
  | Z0 => S754_zero false
  | Zpos p =>
      let '(m, e, l) := SFdiv_core_binary 53 1024 (Zpos p) 0 (Zpos d) 0 in
      binary_round_aux 53 1024 false m e l
  | Zneg p =>
      let '(m, e, l) := SFdiv_core_binary 53 1024 (Zpos p) 0 (Zpos d) 0 in
      binary_round_aux 53 1024 true m e l
  end.

(** Truncation towards zero of a finite float, as a mathematical integer. *)
Definition f64_trunc (f : float64) : option Z :=
  match f with
  | S754_zero _ => Some 0
  | S754_finite s m e =>
      let a := if 0 <=? e then Zpos m * 2 ^ e else Zpos m / 2 ^ (- e) in
      Some (if s then - a else a)
  | _ => None
  end.

(** ** JSON values *)

(** Number literals keep the distinction [encoding/json] observes when it
    decodes into an integer field: an integer literal, or any other float. *)
#[local] Set Warnings "-register-all".
Inductive json :=
| JNull
| JBool (b : bool)
| JInt (z : Z)
| JFloat (f : float64)
| JStr (s : string)
| JArr (l : list json)
| JObj (fields : list (string * json)).

Fixpoint json_eqb (a b : json) : bool :=
  match a, b with
  | JNull, JNull => true
  | JBool x, JBool y => Bool.eqb x y
  | JInt x, JInt y => x =? y
  | JFloat x, JFloat y => bool_decide (x = y)
  | JStr x, JStr y => String.eqb x y
  | JArr l, JArr l' =>
      (fix go l l' := match l, l' with
       | [], [] => true
       | x :: r, y :: r' => json_eqb x y && go r r'
       | _, _ => false end) l l'
  | JObj l, JObj l' =>
      (fix go l l' := match l, l' with
       | [], [] => true
       | (k, x) :: r, (k', y) :: r' => String.eqb k k' && json_eqb x y && go r r'
       | _, _ => false end) l l'
  | _, _ => false
  end.

Definition upper_char (c : ascii) : ascii :=
  let b := strings.byte_val c in
  if (97 <=? b) && (b <=? 122) then ascii_of_N (Z.to_N (b - 32)) else c.

(** The folding of member names: ASCII letters in upper case, the Kelvin
    sign and the long s as the letters they fold to. *)
Fixpoint fold_name (s : string) : string :=
  match s with
  | EmptyString => EmptyString
  | String a rest =>
      match rest with
      | EmptyString => String (upper_char a) EmptyString
      | String b rest1 =>
          if (strings.byte_val a =? 197) && (strings.byte_val b =? 191)
          then String (ascii_of_N 83) (fold_name rest1)
          else
            match rest1 with
            | String c rest2 =>
                if (strings.byte_val a =? 226) && (strings.byte_val b =? 132) && (strings.byte_val c =? 170)
                then String (ascii_of_N 75) (fold_name rest2)
                else String (upper_char a) (fold_name rest)
            | EmptyString => String (upper_char a) (fold_name rest)
            end
      end
  end.

(** A struct field is filled, in the order of the text, from every member
    whose name is the field's or folds to the same letters; [put] stores one
    value into what the field holds. *)
Fixpoint decode_field {A} (put : A → json → outcome A) (k : string) (fields : list (string * json)) (a : A) :
    outcome A :=
  match fields with
  | [] => Ok a
  | (k', v) :: rest =>
      if String.eqb k k' || String.eqb (fold_name k) (fold_name k')
      then obind (put a v) (decode_field put k rest)
      else decode_field put k rest a
  end.

(** An invariant of [put] holds of the decoded field. *)
Lemma decode_field_inv {A} (put : A → json → outcome A) (P : A → Prop) k fields a b :
  (∀ a j b, P a → put a j = Ok b → P b) → P a → decode_field put k fields a = Ok b → P b.
Proof.
  intros Hput. revert a. induction fields as [|[k' v] rest IH]; simpl; intros a Ha H; [by simplify_eq|].
  destruct (_ || _); [|by eapply IH].
  apply obind_Ok_inv in H as (c & Hc & H). by eapply IH; [eapply Hput|].
Qed.

(** ** Dynamically typed values *)

(** The dynamic types a Go [any] takes in the row payloads of the sync
    component. *)
Inductive any :=
| ANil
| AInt64 (z : Z)
| AInt (z : Z)
| AFloat64 (f : float64)
| AString (s : string)
| ABool (b : bool)
| ATime (t : Z)
| ARawJSON (j : json).
