(* ===== verification/Json.v ===== *)
(** * Json: the text of JSON values

    What [encoding/json] writes for strings, integers and objects of them
    (HTML-safe escaping), and [json.Unmarshal]'s scanner from text to a
    value.  The scanner reads back the objects the writer produces.  Its
    nesting limit is not modelled. *)

From S2P Require Import Prelude GoInt GoStrings GoTime GoValues.
Import strings strconv.

Module Json.

Open Scope list_scope.
Open Scope outcome_scope.

Definition ch (n : Z) : ascii := ascii_of_N (Z.to_N n).
Definition between (lo hi : Z) (c : ascii) : bool := (lo <=? byte_val c) && (byte_val c <=? hi).
Definition isb (n : Z) (c : ascii) : bool := byte_val c =? n.

(** ** UTF-8 *)

Definition cont (c : ascii) : bool := between 128 191 c.

(** Length of the valid UTF-8 sequence at the head of a byte string, 0 when
    the first byte starts none ([utf8.DecodeRune]'s RuneError, size 1). *)
Definition rune_len (l : list ascii) : nat :=
  match l with
  | [] => 0%nat
  | a :: l1 =>
      if byte_val a <? 128 then 1%nat
      else
        match l1 with
        | [] => 0%nat
        | b :: l2 =>
            if between 194 223 a && cont b then 2%nat
            else
              match l2 with
              | [] => 0%nat
              | c :: l3 =>
                  if ((isb 224 a && between 160 191 b) || (between 225 236 a && cont b)
                      || (isb 237 a && between 128 159 b) || (between 238 239 a && cont b)) && cont c
                  then 3%nat
                  else
                    match l3 with
                    | d :: _ =>
                        if ((isb 240 a && between 144 191 b) || (between 241 243 a && cont b)
                            || (isb 244 a && between 128 143 b)) && cont c && cont d
                        then 4%nat else 0%nat
                    | [] => 0%nat
                    end
              end
        end
  end.

(** The UTF-8 bytes of a code point below 0x110000. *)
Definition encode_rune (r : Z) : list ascii :=
  if r <? 128 then [ch r]
  else if r <? 2048 then [ch (192 + r / 64); ch (128 + r mod 64)]
  else if r <? 65536 then [ch (224 + r / 4096); ch (128 + r / 64 mod 64); ch (128 + r mod 64)]
  else [ch (240 + r / 262144); ch (128 + r / 4096 mod 64); ch (128 + r / 64 mod 64); ch (128 + r mod 64)].

Definition rune_error : list ascii := encode_rune 65533.

(** ** Marshal *)

Definition hex_digit (d : Z) : ascii := if d <? 10 then ch (48 + d) else ch (87 + d).
Definition escape_u (r : Z) : list ascii :=
  [ch 92; ch 117; hex_digit (r / 4096); hex_digit (r / 256 mod 16);
   hex_digit (r / 16 mod 16); hex_digit (r mod 16)].

(** One ASCII byte of a string literal: [<], [>] and [&] are escaped too. *)
Definition escape_ascii (c : ascii) : list ascii :=
  let b := byte_val c in
  if (b =? 34) || (b =? 92) then [ch 92; c]
  else if b =? 8 then [ch 92; ch 98]
  else if b =? 12 then [ch 92; ch 102]
  else if b =? 10 then [ch 92; ch 110]
  else if b =? 13 then [ch 92; ch 114]
  else if b =? 9 then [ch 92; ch 116]
  else if (b <? 32) || (b =? 60) || (b =? 62) || (b =? 38) then escape_u b
  else [c].

Fixpoint escape (fuel : nat) (l : list ascii) : list ascii :=
  match fuel, l with
  | S f, c :: rest =>
      match rune_len l with
      | 0%nat => escape_u 65533 ++ escape f rest
      | 1%nat => escape_ascii c ++ escape f rest
      | n =>
          let r := take n l in
          (if bool_decide (r = encode_rune 8232) then escape_u 8232
           else if bool_decide (r = encode_rune 8233) then escape_u 8233
           else r) ++ escape f (drop n l)
      end
  | _, _ => []
  end.

Definition quote (s : string) : list ascii :=
  let l := to_chars s in ch 34 :: escape (List.length l) l ++ [ch 34].

Definition int_text (z : Z) : list ascii := to_chars (Itoa z).

(** An object written with its members in the given order. *)
Fixpoint members (l : list (string * list ascii)) : list ascii :=
  match l with
  | [] => []
  | [(k, v)] => quote k ++ ch 58 :: v
  | (k, v) :: rest => quote k ++ ch 58 :: v ++ ch 44 :: members rest
  end.

Definition object (l : list (string * list ascii)) : list ascii := ch 123 :: members l ++ [ch 125].

(** ** Unmarshal *)

Definition is_ws (c : ascii) : bool := isb 32 c || isb 9 c || isb 13 c || isb 10 c.

Fixpoint skip_ws (l : list ascii) : list ascii :=
  match l with
  | c :: rest => if is_ws c then skip_ws rest else l
  | [] => []
  end.

Definition hex_val (c : ascii) : option Z :=
  if is_digit c then Some (byte_val c - 48)
  else if between 97 102 c then Some (byte_val c - 87)
  else if between 65 70 c then Some (byte_val c - 55)
  else None.

Definition hex4 (l : list ascii) : option (Z * list ascii) :=
  match l with
  | a :: b :: c :: d :: rest =>
      x ← hex_val a; y ← hex_val b; z ← hex_val c; t ← hex_val d;
      Some (x * 4096 + y * 256 + z * 16 + t, rest)
  | _ => None
  end.

(** The code point of a [\u] escape: surrogate halves pair up, a lone half
    is the replacement character. *)
Definition unescape_u (l : list ascii) : option (list ascii * list ascii) :=
  '(r, rest) ← hex4 l;
  if (55296 <=? r) && (r <? 57344) then
    match rest with
    | b :: u :: rest' =>
        match (if isb 92 b && isb 117 u then hex4 rest' else None) with
        | Some (r2, rest2) =>
            if (r <? 56320) && (56320 <=? r2) && (r2 <? 57344)
            then Some (encode_rune (65536 + (r - 55296) * 1024 + (r2 - 56320)), rest2)
            else Some (rune_error, rest)
        | None => Some (rune_error, rest)
        end
    | _ => Some (rune_error, rest)
    end
  else Some (encode_rune r, rest).

Definition simple_escape (c : ascii) : option ascii :=
  if isb 34 c || isb 92 c || isb 47 c then Some c
  else if isb 98 c then Some (ch 8)
  else if isb 102 c then Some (ch 12)
  else if isb 110 c then Some (ch 10)
  else if isb 114 c then Some (ch 13)
  else if isb 116 c then Some (ch 9)
  else None.

(** The rest of a string literal after its opening quote. *)
Fixpoint unquote (fuel : nat) (acc : list ascii) (l : list ascii) : option (list ascii * list ascii) :=
  match fuel, l with
  | S f, c :: rest =>
      if isb 34 c then Some (rev acc, rest)
      else if byte_val c <? 32 then None
      else if isb 92 c then
        match rest with
        | e :: rest' =>
            if isb 117 e then
              '(r, rest2) ← unescape_u rest'; unquote f (rev r ++ acc) rest2
            else
              x ← simple_escape e; unquote f (x :: acc) rest'
        | [] => None
        end
      else
        match rune_len l with
        | 0%nat => unquote f (rev rune_error ++ acc) rest
        | n => unquote f (rev (take n l) ++ acc) (drop n l)
        end
  | _, _ => None
  end.

Definition parse_string (l : list ascii) : option (string * list ascii) :=
  '(s, rest) ← unquote (S (List.length l)) [] l; Some (of_chars s, rest).

(** Longest prefix of digits and the rest. *)
Fixpoint span_digits (l : list ascii) : list ascii * list ascii :=
  match l with
  | c :: rest => if is_digit c then let '(d, r) := span_digits rest in (c :: d, r) else ([], l)
  | [] => ([], [])
  end.

Definition digits_val (ds : list ascii) : Z :=
  foldl (λ n c, n * 10 + (byte_val c - 48)) 0 ds.

Definition exponent (l : list ascii) : option (option Z * list ascii) :=
  match l with
  | e :: rest =>
      if isb 101 e || isb 69 e then
        let '(neg, rest) :=
          match rest with
          | s :: r => if isb 45 s then (true, r) else if isb 43 s then (false, r) else (false, rest)
          | [] => (false, rest)
          end in
        match span_digits rest with
        | ([], _) => None
        | (ds, rest') => Some (Some (if neg : bool then - digits_val ds else digits_val ds), rest')
        end
      else Some (None, l)
  | [] => Some (None, [])
  end.

Definition fraction (l : list ascii) : option (option (list ascii) * list ascii) :=
  match l with
  | p :: rest =>
      if isb 46 p then
        match span_digits rest with
        | ([], _) => None
        | (ds, rest') => Some (Some ds, rest')
        end
      else Some (None, l)
  | [] => Some (None, [])
  end.

(** [q * 10 ^ k] as the nearest float. *)
Definition f64_of_dec (neg : bool) (q k : Z) : float64 :=
  let f := if 0 <=? k then f64_of_ratio (q * 10 ^ k) 1 else f64_of_ratio q (Z.to_pos (10 ^ (- k))) in
  if neg then f64_opp f else f.

(** A number: an integer literal, or a float when it has a fraction or an
    exponent. *)
Definition parse_number (l : list ascii) : option (json * list ascii) :=
  let '(neg, body) :=
    match l with c :: r => if isb 45 c then (true, r) else (false, l) | [] => (false, l) end in
  let '(ds, rest) := span_digits body in
  match ds with
  | [] => None
  | d :: more =>
      if isb 48 d && negb (bool_decide (more = [])) then None
      else
        '(frac, rest1) ← fraction rest;
        '(ex, rest2) ← exponent rest1;
        match frac, ex with
        | None, None => Some (JInt (if neg : bool then - digits_val ds else digits_val ds), rest2)
        | _, _ =>
            let fd := match frac with Some fd => fd | None => [] end in
            let k := match ex with Some k => k | None => 0 end in
            Some (JFloat (f64_of_dec neg (digits_val (ds ++ fd)) (k - Z.of_nat (List.length fd))), rest2)
        end
  end.

Fixpoint expect (word l : list ascii) : option (list ascii) :=
  match word, l with
  | [], _ => Some l
  | c :: w, d :: r => if Ascii.eqb c d then expect w r else None
  | _, [] => None
  end.

(** The recursive descent over values; [fuel] bounds the remaining text. *)
Fixpoint parse_value (fuel : nat) (l : list ascii) : option (json * list ascii) :=
  match fuel with
  | O => None
  | S f =>
      match skip_ws l with
      | [] => None
      | c :: rest =>
          if isb 34 c then '(s, r) ← parse_string rest; Some (JStr s, r)
          else if isb 123 c then
            match skip_ws rest with
            | d :: r => if isb 125 d then Some (JObj [], r) else parse_members f [] rest
            | [] => None
            end
          else if isb 91 c then
            match skip_ws rest with
            | d :: r => if isb 93 d then Some (JArr [], r) else parse_elements f [] rest
            | [] => None
            end
          else if isb 116 c then r ← expect (to_chars "rue") rest; Some (JBool true, r)
          else if isb 102 c then r ← expect (to_chars "alse") rest; Some (JBool false, r)
          else if isb 110 c then r ← expect (to_chars "ull") rest; Some (JNull, r)
          else parse_number (c :: rest)
      end
  end
with parse_members (fuel : nat) (acc : list (string * json)) (l : list ascii) : option (json * list ascii) :=
  match fuel with
  | O => None
  | S f =>
      match skip_ws l with
      | q :: rest =>
          if isb 34 q then
            '(k, r) ← parse_string rest;
            match skip_ws r with
            | col :: r =>
                if isb 58 col then
                  '(v, r) ← parse_value f r;
                  match skip_ws r with
                  | d :: r =>
                      if isb 44 d then parse_members f ((k, v) :: acc) r
                      else if isb 125 d then Some (JObj (rev ((k, v) :: acc)), r)
                      else None
                  | [] => None
                  end
                else None
            | [] => None
            end
          else None
      | [] => None
      end
  end
with parse_elements (fuel : nat) (acc : list json) (l : list ascii) : option (json * list ascii) :=
  match fuel with
  | O => None
  | S f =>
      '(v, r) ← parse_value f l;
      match skip_ws r with
      | d :: r =>
          if isb 44 d then parse_elements f (v :: acc) r
          else if isb 93 d then Some (JArr (rev (v :: acc)), r)
          else None
      | [] => None
      end
  end.

Definition Unmarshal (text : string) : outcome json :=
  let l := to_chars text in
  match parse_value (2 * List.length l + 2) l with
  | Some (j, rest) =>
      match skip_ws rest with
      | [] => Ok j
      | _ => Err (errorString "invalid character after top-level value")
      end
  | None => Err (errorString "unexpected end of JSON input")
  end.

(** [json.NewDecoder(r).Decode]: the first value of the text; what follows it
    is left to the next call. *)
Definition Decode (text : string) : outcome json :=
  let l := to_chars text in
  match parse_value (2 * List.length l + 2) l with
  | Some (j, _) => Ok j
  | None => Err (errorString "unexpected EOF")
  end.

(** ** Struct fields *)

Definition mismatch {A} (typ : string) : outcome A :=
  Err (errorString ("json: cannot unmarshal into Go struct field of type " +:+ typ)).

(** A null leaves strings, numbers and booleans as they are, and makes a
    pointer or a map nil. *)
Definition put_string (s : string) (j : json) : outcome string :=
  match j with JNull => Ok s | JStr t => Ok t | _ => mismatch "string" end.

Definition put_string_ptr (s : option string) (j : json) : outcome (option string) :=
  match j with JNull => Ok None | JStr t => Ok (Some t) | _ => mismatch "string" end.

Definition put_int64 (n : Z) (j : json) : outcome Z :=
  match j with
  | JNull => Ok n
  | JInt z => if bool_decide (in_int64 z) then Ok z else mismatch "int64"
  | _ => mismatch "int64"
  end.

Definition put_float (f : float64) (j : json) : outcome float64 :=
  let finite g := if f64_finite g then Ok g else mismatch "float64" in
  match j with
  | JNull => Ok f
  | JInt z => finite (f64_of_ratio z 1)
  | JFloat g => finite g
  | _ => mismatch "float64"
  end.

Definition put_bool (b : bool) (j : json) : outcome bool :=
  match j with JNull => Ok b | JBool c => Ok c | _ => mismatch "bool" end.

(** A value decoded into an [any]: numbers become floats, out of range ones
    are refused, and an object becomes a map, whose later members replace
    earlier ones of the same key. *)
Definition any_number (f : float64) : outcome json :=
  if f64_finite f then Ok (JFloat f) else mismatch "float64".

Definition key_le (p q : string * json) : Prop := str_le p.1 q.1.
#[export] Instance key_le_dec : RelDecision key_le.
Proof. unfold key_le. intros p q. apply _. Defined.

Definition map_value (m : gmap string json) : json := JObj (merge_sort key_le (map_to_list m)).

Fixpoint any_value (j : json) : outcome json :=
  match j with
  | JInt z => any_number (f64_of_ratio z 1)
  | JFloat f => any_number f
  | JArr l =>
      let fix go (l : list json) : outcome (list json) :=
        match l with
        | [] => Ok []
        | v :: l => obind (any_value v) (λ v, obind (go l) (λ l, Ok (v :: l)))
        end in
      try l := go l in Ok (JArr l)
  | JObj fields =>
      let fix go (m : gmap string json) (l : list (string * json)) : outcome (gmap string json) :=
        match l with
        | [] => Ok m
        | (k, v) :: l => obind (any_value v) (λ v, go (<[k := v]> m) l)
        end in
      try m := go (∅ : gmap string json) fields in Ok (map_value m)
  | _ => Ok j
  end.

(** Members are added to the map that is there. *)
Fixpoint put_members (m : gmap string json) (fields : list (string * json)) : outcome (gmap string json) :=
  match fields with
  | [] => Ok m
  | (k, v) :: rest => try v := any_value v in put_members (<[k := v]> m) rest
  end.

Definition put_map (m : option (gmap string json)) (j : json) : outcome (option (gmap string json)) :=
  match j with
  | JNull => Ok None
  | JObj fields => try m := put_members (default ∅ m) fields in Ok (Some m)
  | _ => mismatch "map[string]interface {}"
  end.

Definition string_field (k : string) (fields : list (string * json)) : outcome string :=
  decode_field put_string k fields "".
Definition string_ptr_field (k : string) (fields : list (string * json)) : outcome (option string) :=
  decode_field put_string_ptr k fields None.
Definition int64_field (k : string) (fields : list (string * json)) : outcome Z :=
  decode_field put_int64 k fields 0.
Definition float_field (k : string) (fields : list (string * json)) : outcome float64 :=
  decode_field put_float k fields f64_zero.
Definition bool_field (k : string) (fields : list (string * json)) : outcome bool :=
  decode_field put_bool k fields false.
Definition map_field (k : string) (fields : list (string * json)) : outcome (option (gmap string json)) :=
  decode_field put_map k fields None.

(** The members a struct is decoded from: none for null. *)
Definition members_of (j : json) : outcome (list (string * json)) :=
  match j with
  | JNull => Ok []
  | JObj fields => Ok fields
  | _ => Err (errorString "json: cannot unmarshal into Go value of struct type")
  end.

End Json.

Import Json.

Lemma float_field_finite k fields f : float_field k fields = Ok f → f64_finite f = true.
Proof.
  apply (decode_field_inv put_float (λ f, f64_finite f = true)); [|done].
  intros a j b Ha H. unfold put_float in H. repeat (case_match; try done); by simplify_eq.
Qed.

(** ** Reading back what was written *)

Lemma to_chars_append s t : to_chars (String.append s t) = to_chars s ++ to_chars t.
Proof. induction s; simpl; congruence. Qed.

(** One escaped ASCII character is read back as itself. *)
Lemma unquote_escape_ascii f acc c rest :
  is_ascii_char c = true →
  unquote (S f) acc (escape_ascii c ++ rest) = unquote f (c :: acc) rest.
Proof. destruct c as [[][][][][][][][]]; intros H; try discriminate H; reflexivity. Qed.

Lemma escape_ascii_cons f c l :
  is_ascii_char c = true → escape (S f) (c :: l) = escape_ascii c ++ escape f l.
Proof. intros H. unfold is_ascii_char in H. cbn [escape rune_len]. by rewrite H. Qed.

Lemma escape_ascii_nonempty c : ∃ d l, escape_ascii c = d :: l.
Proof. unfold escape_ascii. repeat go_case; eauto. Qed.

Lemma unquote_escape l acc n f rest :
  Forall (λ c, is_ascii_char c = true) l → (List.length l <= n)%nat → (List.length l < f)%nat →
  unquote f acc (escape n l ++ ch 34 :: rest) = Some (rev acc ++ l, rest).
Proof.
  revert acc n f. induction l as [|c l IH]; intros acc n f Hl Hn Hf.
  - destruct f; [simpl in Hf; lia|]. destruct n; by rewrite app_nil_r.
  - inversion Hl; subst. simpl in Hn, Hf. destruct n as [|n]; [lia|]. destruct f as [|f]; [lia|].
    rewrite escape_ascii_cons by done. rewrite <- app_assoc, unquote_escape_ascii by done.
    rewrite IH by (done || lia). simpl. by rewrite <- app_assoc.
Qed.

Lemma escape_length l n :
  Forall (λ c, is_ascii_char c = true) l → (List.length l <= n)%nat →
  (List.length l <= List.length (escape n l))%nat.
Proof.
  revert n. induction l as [|c l IH]; intros n Hl Hn; simpl; [lia|].
  inversion Hl; subst. destruct n as [|n]; simpl in Hn; [lia|].
  rewrite escape_ascii_cons by done. destruct (escape_ascii_nonempty c) as (d & l' & ->).
  pose proof (IH n ltac:(done) ltac:(lia)). simpl. rewrite length_app. lia.
Qed.

Lemma parse_string_quote s rest :
  is_ascii s = true →
  ∃ l, quote s ++ rest = ch 34 :: l ∧ parse_string l = Some (s, rest).
Proof.
  intros Hs%is_ascii_chars. exists (escape (List.length (to_chars s)) (to_chars s) ++ ch 34 :: rest).
  split; [unfold quote; simpl; by rewrite <- app_assoc|]. unfold parse_string.
  rewrite unquote_escape; [|done..|].
  - cbn. by rewrite of_to_chars.
  - pose proof (escape_length (to_chars s) _ Hs ltac:(done)). rewrite length_app. lia.
Qed.

Lemma digits_val_snoc ds d : digits_val (ds ++ [d]) = digits_val ds * 10 + (byte_val d - 48).
Proof. unfold digits_val. by rewrite foldl_app. Qed.

(** The digits [Itoa] writes: no leading zero but for zero itself. *)
Lemma digits_loop_chars fuel n acc :
  (0 < fuel)%nat → 0 <= n < 10 ^ Z.of_nat fuel →
  ∃ d ds, to_chars (digits_loop fuel n acc) = (d :: ds) ++ to_chars acc
    ∧ Forall (λ c, is_digit c = true) (d :: ds) ∧ digits_val (d :: ds) = n
    ∧ (isb 48 d = true → ds = []).
Proof.
  revert n acc. induction fuel as [|f IH]; intros n acc Hf Hn; [lia|].
  cbn [digits_loop]. pose proof (Z.mod_pos_bound n 10 ltac:(lia)) as Hmod.
  pose proof (Z.div_mod n 10 ltac:(lia)) as Hdm.
  pose proof (is_digit_digit_char (n mod 10) Hmod) as Hd.
  pose proof (digit_char_val (n mod 10) Hmod) as Hv.
  destruct (Z.eqb_spec (n / 10) 0) as [E|E].
  - exists (digit_char (n mod 10)), []. split_and!; [done|by repeat constructor| |done].
    change (digits_val [digit_char (n mod 10)]) with (0 * 10 + (byte_val (digit_char (n mod 10)) - 48)). lia.
  - pose proof (Z.div_pos n 10 ltac:(lia) ltac:(lia)).
    rewrite Nat2Z.inj_succ, Z.pow_succ_r in Hn by lia.
    assert (n / 10 < 10 ^ Z.of_nat f) by (apply Z.div_lt_upper_bound; lia).
    destruct f as [|f]; [simpl in *; lia|].
    destruct (IH (n / 10) (String (digit_char (n mod 10)) acc)) as (d & ds & Hc & HF & Hval & Hlead); [lia..|].
    exists d, (ds ++ [digit_char (n mod 10)]). split_and!.
    + rewrite Hc. simpl. by rewrite <- app_assoc.
    + change (d :: ds ++ [digit_char (n mod 10)]) with ((d :: ds) ++ [digit_char (n mod 10)]).
      apply Forall_app. split; [done|by repeat constructor].
    + change (d :: ds ++ [digit_char (n mod 10)]) with ((d :: ds) ++ [digit_char (n mod 10)]).
      rewrite digits_val_snoc. lia.
    + intros Hz. rewrite (Hlead Hz) in Hval.
      change (digits_val [d]) with (0 * 10 + (byte_val d - 48)) in Hval.
      unfold isb in Hz. bool_to_prop. lia.
Qed.

Lemma span_digits_app ds c rest :
  Forall (λ c, is_digit c = true) ds → is_digit c = false →
  span_digits (ds ++ c :: rest) = (ds, c :: rest).
Proof.
  intros Hd Hc. induction Hd as [|d ds Hd1 _ IH]; simpl; [by rewrite Hc|]. by rewrite Hd1, IH.
Qed.

(** A byte that can follow an integer literal. *)
Definition int_end (c : ascii) : bool :=
  negb (is_digit c) && negb (isb 46 c) && negb (isb 101 c) && negb (isb 69 c).

Lemma parse_number_int z c rest :
  in_int64 z → int_end c = true → parse_number (int_text z ++ c :: rest) = Some (JInt z, c :: rest).
Proof.
  unfold in_int64, min_int64, max_int64, int_end, int_text, Itoa. intros Hz Hc.
  rewrite !andb_true_iff, !negb_true_iff in Hc. destruct Hc as [[[E1 E2] E3] E4].
  assert (Hdig : ∀ d ds n, Forall (λ c, is_digit c = true) (d :: ds) → digits_val (d :: ds) = n →
    (isb 48 d = true → ds = []) → ∀ neg : bool,
    (let '(dd, r) := span_digits ((d :: ds) ++ c :: rest) in
     match dd with
     | [] => None
     | d :: more =>
         if isb 48 d && negb (bool_decide (more = [])) then None
         else
           '(frac, rest1) ← fraction r;
           '(ex, rest2) ← exponent rest1;
           match frac, ex with
           | None, None => Some (JInt (if neg then - digits_val dd else digits_val dd), rest2)
           | _, _ =>
               let fd := match frac with Some fd => fd | None => [] end in
               let k := match ex with Some k => k | None => 0 end in
               Some (JFloat (f64_of_dec neg (digits_val (dd ++ fd)) (k - Z.of_nat (List.length fd))), rest2)
           end
     end) = Some (JInt (if neg then - n else n), c :: rest)).
  { intros d ds n HF Hv Hl neg. rewrite span_digits_app by done.
    destruct (isb 48 d) eqn:Ed; [pose proof (Hl eq_refl) as ->|]; cbn [negb andb];
      rewrite ?bool_decide_eq_true_2 by done; cbn -[digits_val isb];
      rewrite E2; cbn -[digits_val isb]; rewrite E3, E4; cbn -[digits_val]; by rewrite Hv. }
  destruct (Z.ltb_spec z 0) as [Hneg|Hpos].
  - destruct (digits_loop_chars 20 (- z) "") as (d & ds & E & HF & Hv & Hl); [lia..|].
    cbn [to_chars]. rewrite E. cbn [to_chars]. rewrite app_nil_r.
    unfold parse_number. rewrite <- app_comm_cons. change (isb 45 minus_char) with true. cbn iota.
    etrans; [apply (Hdig d ds (- z) HF Hv Hl true)|]. do 3 f_equal. lia.
  - destruct (digits_loop_chars 20 z "") as (d & ds & E & HF & Hv & Hl); [lia..|].
    rewrite E. cbn [to_chars]. rewrite app_nil_r.
    unfold parse_number. rewrite <- app_comm_cons.
    assert (isb 45 d = false) as ->.
    { inversion HF as [|? ? Hd _]; subst. unfold is_digit in Hd. unfold isb. bool_to_prop.
      apply Z.eqb_neq. lia. }
    rewrite app_comm_cons. apply (Hdig d ds z HF Hv Hl false).
Qed.

(** A byte that starts a number starts nothing else. *)
Definition number_start (c : ascii) : bool := is_digit c || isb 45 c.

Lemma parse_value_number f c l :
  number_start c = true → parse_value (S f) (c :: l) = parse_number (c :: l).
Proof.
  intros H. cbn [parse_value skip_ws].
  assert (is_ws c = false ∧ isb 34 c = false ∧ isb 123 c = false ∧ isb 91 c = false
          ∧ isb 116 c = false ∧ isb 102 c = false ∧ isb 110 c = false)
    as (-> & -> & -> & -> & -> & -> & ->); [|done].
  destruct c as [[][][][][][][][]]; try discriminate H; done.
Qed.

Lemma int_text_head z : in_int64 z → ∃ c l, int_text z = c :: l ∧ number_start c = true.
Proof.
  unfold in_int64, min_int64, max_int64, int_text, Itoa. intros Hz.
  destruct (Z.ltb_spec z 0) as [Hneg|Hpos].
  - by exists minus_char, (to_chars (digits_loop 20 (- z) "")).
  - destruct (digits_loop_chars 20 z "") as (d & ds & E & HF & _); [lia..|].
    rewrite E. exists d, (ds ++ to_chars ""). split; [done|].
    inversion HF as [|? ? Hd _]; subst. unfold number_start. by rewrite Hd.
Qed.

Lemma parse_value_int f z c rest :
  in_int64 z → int_end c = true →
  parse_value (S f) (int_text z ++ c :: rest) = Some (JInt z, c :: rest).
Proof.
  intros Hz Hc. destruct (int_text_head z Hz) as (d & l & E & Hd).
  rewrite <- (parse_number_int z c rest Hz Hc), E, <- app_comm_cons.
  by apply parse_value_number.
Qed.

Lemma parse_value_quote f s rest :
  is_ascii s = true → parse_value (S f) (quote s ++ rest) = Some (JStr s, rest).
Proof.
  intros Hs. destruct (parse_string_quote s rest Hs) as (l & -> & E).
  change (parse_value (S f) (ch 34 :: l)) with ('(s, r) ← parse_string l; Some (JStr s, r)).
  by rewrite E.
Qed.

(** One member of an object, followed by a comma or by the closing brace. *)
Lemma parse_members_step f acc k v text rest d :
  is_ascii k = true → (d = ch 44 ∨ d = ch 125) →
  parse_value f (text ++ d :: rest) = Some (v, d :: rest) →
  parse_members (S f) acc (quote k ++ ch 58 :: text ++ d :: rest) =
    if isb 44 d then parse_members f ((k, v) :: acc) rest
    else Some (JObj (rev ((k, v) :: acc)), rest).
Proof.
  intros Hk Hd Hv. destruct (parse_string_quote k (ch 58 :: text ++ d :: rest) Hk) as (l & -> & E).
  cbn [parse_members skip_ws]. change (is_ws (ch 34)) with false. cbn iota.
  change (isb 34 (ch 34)) with true. cbn iota. rewrite E. cbn [mbind option_bind].
  change (skip_ws (ch 58 :: text ++ d :: rest)) with (ch 58 :: text ++ d :: rest). cbn iota.
  change (isb 58 (ch 58)) with true. cbn iota. rewrite Hv. cbn [mbind option_bind].
  by destruct Hd as [-> | ->].
Qed.

(** A text that is read as a value wherever a comma or a brace follows. *)
Definition reads_as (text : list ascii) (v : json) : Prop :=
  ∀ f d rest, int_end d = true → parse_value (S f) (text ++ d :: rest) = Some (v, d :: rest).

Lemma reads_as_int z : in_int64 z → reads_as (int_text z) (JInt z).
Proof. intros Hz f d rest Hd. by apply parse_value_int. Qed.

Lemma reads_as_quote s : is_ascii s = true → reads_as (quote s) (JStr s).
Proof. intros Hs f d rest _. by apply parse_value_quote. Qed.

(** Members with the values their texts are read as. *)
Definition readable (l : list (string * list ascii * json)) : Prop :=
  Forall (λ x, is_ascii x.1.1 = true ∧ reads_as x.1.2 x.2) l.
Definition values_of (l : list (string * list ascii * json)) : list (string * json) :=
  map (λ x, (x.1.1, x.2)) l.

Lemma members_quote k t (l : list (string * list ascii)) rest :
  ∃ more, members ((k, t) :: l) ++ rest = quote k ++ ch 58 :: more.
Proof.
  destruct l as [|y l]; cbn [members]; rewrite <- app_assoc, <- app_comm_cons; by eexists.
Qed.

Lemma parse_members_readable l f acc :
  l ≠ [] → readable l →
  parse_members (S (S (List.length l + f))) acc (members (map fst l) ++ [ch 125])
  = Some (JObj (rev acc ++ values_of l), []).
Proof.
  intros Hne Hl. revert f acc Hne. induction Hl as [|[[k t] v] l [Hk Ht] Hl IH]; intros f acc Hne; [done|].
  simpl in Hk, Ht. destruct l as [|y l].
  - cbn [map members fst]. rewrite <- app_assoc, <- app_comm_cons.
    rewrite (parse_members_step _ _ k v t [] (ch 125)) by (first [done|by right|by apply Ht]).
    change (isb 44 (ch 125)) with false. done.
  - change (members (map fst ((k, t, v) :: y :: l)))
      with (quote k ++ ch 58 :: t ++ ch 44 :: members (map fst (y :: l))).
    repeat (rewrite <- app_assoc || rewrite <- app_comm_cons).
    rewrite (parse_members_step _ _ k v t _ (ch 44)) by (first [done|by left|by apply Ht]).
    change (isb 44 (ch 44)) with true. cbn iota.
    etrans; [exact (IH f ((k, v) :: acc) ltac:(done))|]. cbn [rev values_of map fst snd]. by rewrite <- app_assoc.
Qed.

Lemma members_length l : (List.length l <= List.length (members l))%nat.
Proof.
  induction l as [|[k t] l IH]; [done|]. destruct l as [|y l].
  - simpl. rewrite length_app. simpl. lia.
  - change (members ((k, t) :: y :: l)) with (quote k ++ ch 58 :: t ++ ch 44 :: members (y :: l)).
    rewrite !length_app. cbn [List.length]. rewrite length_app. cbn [List.length] in *. lia.
Qed.

(** An object that was written is read back. *)
Lemma Unmarshal_object l :
  l ≠ [] → readable l → Unmarshal (of_chars (object (map fst l))) = Ok (JObj (values_of l)).
Proof.
  intros Hne Hl. unfold Unmarshal. rewrite to_of_chars. unfold object. set (body := members (map fst l) ++ [ch 125]).
  pose proof (members_length (map fst l)) as Hlen. rewrite length_map in Hlen.
  assert (Hn : ∃ f, (2 * List.length (ch 123 :: body) + 2 = S (S (S (List.length l + f))))%nat).
  { exists (2 * List.length (ch 123 :: body) - 1 - List.length l)%nat. unfold body. cbn [List.length]. rewrite length_app. cbn [List.length]. lia. }
  destruct Hn as [f ->].
  pose proof (parse_members_readable l f [] Hne Hl) as Hm. fold body in Hm.
  destruct l as [|[[k t] v] l]; [done|].
  destruct (members_quote k t (map fst l) [ch 125]) as [more Hq]. change (body = quote k ++ ch 58 :: more) in Hq.
  inversion Hl as [|? ? [Hk _] _]; subst. simpl in Hk.
  destruct (parse_string_quote k (ch 58 :: more) Hk) as (l' & E & _). rewrite <- Hq in E. rewrite E in Hm |- *.
  set (n := (List.length ((k, t, v) :: l) + f)%nat) in *.
  change (parse_value (S (S (S n))) (ch 123 :: ch 34 :: l')) with (parse_members (S (S n)) [] (ch 34 :: l')).
  by rewrite Hm.
Qed.

(** The object of an integer and a string that names a sync job. *)
Lemma Unmarshal_object_int_string k1 z k2 s :
  is_ascii k1 = true → is_ascii k2 = true → is_ascii s = true → in_int64 z →
  Unmarshal (of_chars (object [(k1, int_text z); (k2, quote s)]))
  = Ok (JObj [(k1, JInt z); (k2, JStr s)]).
Proof.
  intros H1 H2 Hs Hz. apply (Unmarshal_object [(k1, int_text z, JInt z); (k2, quote s, JStr s)]); [done|].
  constructor; [by split; [|apply reads_as_int]|]. constructor; [by split; [|apply reads_as_quote]|]. constructor.
Qed.
