(* ===== verification/SheetMerge.v ===== *)
(** * SheetMerge: two-way merge of sheet rows

    Models [internal/sync/merge.go] and [sheet_row_change.go]: versions and
    creation times are extracted from dynamically typed row payloads, and for
    every row id the row with the higher version wins, later creation time on
    a tie. *)

From S2P Require Import Prelude GoInt GoStrings GoTime GoValues.
Import strconv.

Module syncworker.

(** A nil payload reads like an empty one. *)
Record SheetRowChange := mkSheetRowChange { RowID : string; Payload : option (gmap string any) }.

Definition payload_key (p : option (gmap string any)) (k : string) : any :=
  match p with
  | Some m => match m !! k with Some v => v | None => ANil end
  | None => ANil
  end.

(** Conversion of a float64 to int64: truncation; a value that does not fit
    becomes the smallest integer, as the amd64 instruction gives it. *)
Definition int64_of_float (f : float64) : Z :=
  match f64_trunc f with
  | Some z => if bool_decide (in_int64 z) then z else min_int64
  | None => min_int64
  end.

(** One key of [extractVersion]'s loop. *)
Definition version_of (v : any) : option Z :=
  match v with
  | AInt64 z => Some z
  | AInt z => Some z
  | AFloat64 f => Some (int64_of_float f)
  | AString s => Some (fst (ParseInt s))
  | _ => None
  end.

Fixpoint first_some {A B} (f : A → option B) (l : list A) : option B :=
  match l with
  | [] => None
  | a :: rest => match f a with Some b => Some b | None => first_some f rest end
  end.

Definition extractVersion (p : option (gmap string any)) : Z :=
  default 0 (first_some (λ k, version_of (payload_key p k)) ["version"; "1"]%string).

(** [time.Parse(time.RFC3339, v)] with its zero time on error. *)
Definition parse_or_zero (s : string) : Time := default time.zero (time.Parse_RFC3339 s).

Definition created_of (v : any) : option Time :=
  match v with
  | ATime t => Some t
  | AString s => let t := parse_or_zero s in if time.IsZero t then None else Some t
  | _ => None
  end.

Definition extractCreatedAt (p : option (gmap string any)) : Time :=
  match first_some (λ k, created_of (payload_key p k)) ["createdAt"; "2"]%string with
  | Some t => t
  | None => let n := extractVersion p in if 0 <? n then time.Unix n else time.zero
  end.

(** A remote row replaces the current one. *)
Definition beats (r cur : SheetRowChange) : bool :=
  let vCur := extractVersion (Payload cur) in
  let vNew := extractVersion (Payload r) in
  if vCur <? vNew then true
  else if vNew =? vCur then time.After (extractCreatedAt (Payload r)) (extractCreatedAt (Payload cur))
  else false.

Definition add_local (byID : gmap string SheetRowChange) (r : SheetRowChange) : gmap string SheetRowChange :=
  <[RowID r := r]> byID.

Definition add_remote (byID : gmap string SheetRowChange) (r : SheetRowChange) : gmap string SheetRowChange :=
  match byID !! RowID r with
  | None => <[RowID r := r]> byID
  | Some cur => if beats r cur then <[RowID r := r]> byID else byID
  end.

Definition merge_map (local remote : list SheetRowChange) : gmap string SheetRowChange :=
  foldl add_remote (foldl add_local ∅ local) remote.

Definition sorted_ids (byID : gmap string SheetRowChange) : list string :=
  merge_sort str_le (map_to_list byID).*1.

(** Rows in the order of their ids. *)
Definition rows_of (byID : gmap string SheetRowChange) : list SheetRowChange :=
  omap (λ id, byID !! id) (sorted_ids byID).

Definition MergeSheetRows (local remote : list SheetRowChange) : list SheetRowChange :=
  rows_of (merge_map local remote).

End syncworker.

Import syncworker.

(** ** The winner among the candidates of a row id *)

(** [beats] compares (version, creation time) lexicographically. *)
Lemma beats_spec r c :
  beats r c = true ↔
  extractVersion (Payload c) < extractVersion (Payload r) ∨
  (extractVersion (Payload r) = extractVersion (Payload c) ∧
   extractCreatedAt (Payload c) < extractCreatedAt (Payload r)).
Proof.
  unfold beats, time.After.
  destruct (Z.ltb_spec (extractVersion (Payload c)) (extractVersion (Payload r))); [intuition lia|].
  destruct (Z.eqb_spec (extractVersion (Payload r)) (extractVersion (Payload c))).
  - rewrite Z.ltb_lt. intuition lia.
  - split; [done|lia].
Qed.

Lemma not_beats_spec r c :
  beats r c = false ↔
  extractVersion (Payload r) < extractVersion (Payload c) ∨
  (extractVersion (Payload r) = extractVersion (Payload c) ∧
   extractCreatedAt (Payload r) <= extractCreatedAt (Payload c)).
Proof.
  rewrite <- not_true_iff_false, beats_spec. lia.
Qed.

Lemma not_beats_trans a b c : beats a b = false → beats b c = false → beats a c = false.
Proof. rewrite !not_beats_spec. lia. Qed.

Lemma beats_irrefl a : beats a a = false.
Proof. rewrite not_beats_spec. lia. Qed.

Lemma beats_asym a b : beats a b = true → beats b a = false.
Proof. rewrite beats_spec, not_beats_spec. lia. Qed.

(** The loop over the remote rows, seen from one id. *)
Definition choose (cur : option SheetRowChange) (r : SheetRowChange) : option SheetRowChange :=
  match cur with
  | None => Some r
  | Some c => if beats r c then Some r else Some c
  end.

Definition with_id (id : string) (l : list SheetRowChange) : list SheetRowChange :=
  filter (λ r, RowID r = id) l.

(** The rows that compete for an id: the last local one, then the remote ones. *)
Definition candidates (id : string) (local remote : list SheetRowChange) : list SheetRowChange :=
  option_list (last (with_id id local)) ++ with_id id remote.

Lemma add_local_lookup id l m :
  foldl add_local m l !! id = match last (with_id id l) with Some r => Some r | None => m !! id end.
Proof.
  revert m. induction l as [|r l IH]; intros m; [done|]. cbn [foldl]. rewrite IH.
  unfold with_id. rewrite filter_cons. destruct (decide (RowID r = id)) as [<-|Hne].
  - rewrite last_cons. destruct (last _); [done|]. unfold add_local. by rewrite lookup_insert_eq.
  - destruct (last _); [done|]. unfold add_local. by rewrite lookup_insert_ne.
Qed.

Lemma add_remote_lookup id l m :
  foldl add_remote m l !! id = foldl choose (m !! id) (with_id id l).
Proof.
  revert m. induction l as [|r l IH]; intros m; [done|]. cbn [foldl]. rewrite IH.
  unfold with_id. rewrite filter_cons. unfold add_remote.
  destruct (decide (RowID r = id)) as [<-|Hne]; cbn [foldl].
  - f_equal. unfold choose. destruct (m !! RowID r) as [c|] eqn:Em; [|by rewrite lookup_insert_eq].
    destruct (beats r c); [by rewrite lookup_insert_eq|done].
  - f_equal. destruct (m !! RowID r) as [c|]; [destruct (beats r c)|]; by rewrite ?lookup_insert_ne.
Qed.

Lemma merge_map_lookup local remote id :
  merge_map local remote !! id = foldl choose (last (with_id id local)) (with_id id remote).
Proof.
  unfold merge_map. rewrite add_remote_lookup, add_local_lookup, lookup_empty.
  by destruct (last (with_id id local)).
Qed.

Lemma choose_winner cur l w :
  foldl choose cur l = Some w →
  w ∈ option_list cur ++ l ∧ ∀ r, r ∈ option_list cur ++ l → beats r w = false.
Proof.
  revert cur. induction l as [|r l IH]; intros cur; cbn [foldl].
  - intros ->. simpl. split; [by apply list_elem_of_here|]. intros r Hr.
    apply list_elem_of_singleton in Hr as ->. apply beats_irrefl.
  - intros H. apply IH in H as [Hin Hmax]. destruct cur as [c|]; simpl in *; [|by split].
    destruct (beats r c) eqn:Eb; simpl in *.
    + split; [set_solver|]. intros x Hx. rewrite !elem_of_cons in Hx. destruct Hx as [->|Hx].
      * apply (not_beats_trans _ r); [by apply beats_asym|]. apply Hmax. set_solver.
      * apply Hmax. set_solver.
    + split; [set_solver|]. intros x Hx. rewrite !elem_of_cons in Hx. destruct Hx as [->|[->|Hx]].
      * apply Hmax. set_solver.
      * apply (not_beats_trans _ c); [done|]. apply Hmax. set_solver.
      * apply Hmax. set_solver.
Qed.

Lemma choose_stable w l : (∀ r, r ∈ l → beats r w = false) → foldl choose (Some w) l = Some w.
Proof.
  induction l as [|r l IH]; intros H; [done|]. cbn [foldl choose]. rewrite H by set_solver. apply IH. set_solver.
Qed.

Lemma choose_Some cur l : is_Some (foldl choose cur l) ↔ option_list cur ++ l ≠ [].
Proof.
  revert cur. induction l as [|r l IH]; intros cur; cbn [foldl].
  - destruct cur; simpl; split; try done.
  - rewrite IH. destruct cur as [c|]; simpl; [destruct (beats r c); done|done].
Qed.

(** ** The rows of the merged map *)

Lemma merged_RowID local remote id r : merge_map local remote !! id = Some r → RowID r = id.
Proof.
  rewrite merge_map_lookup. intros [Hin _]%choose_winner.
  apply elem_of_app in Hin as [Hin|Hin].
  - destruct (last (with_id id local)) as [c|] eqn:El; simpl in Hin; [|set_solver].
    apply list_elem_of_singleton in Hin as ->. apply last_Some_elem_of in El.
    by apply list_elem_of_filter in El as [? _].
  - by apply list_elem_of_filter in Hin as [? _].
Qed.

Lemma sorted_ids_elem m id : id ∈ sorted_ids m ↔ is_Some (m !! id).
Proof.
  unfold sorted_ids. rewrite (merge_sort_Permutation str_le). split.
  - intros ([id' r] & -> & Hin%elem_of_map_to_list)%list_elem_of_fmap. by exists r.
  - intros [r Hr]. apply list_elem_of_fmap. exists (id, r). by rewrite elem_of_map_to_list.
Qed.

Lemma sorted_ids_NoDup m : NoDup (sorted_ids m).
Proof. unfold sorted_ids. rewrite (merge_sort_Permutation str_le). apply NoDup_fst_map_to_list. Qed.

Lemma rows_of_ids m :
  (∀ id r, m !! id = Some r → RowID r = id) → map RowID (rows_of m) = sorted_ids m.
Proof.
  intros Hwf. unfold rows_of.
  assert (Hall : ∀ id, id ∈ sorted_ids m → is_Some (m !! id)) by (intros id; apply sorted_ids_elem).
  induction (sorted_ids m) as [|id ids IH]; [done|].
  destruct (Hall id) as [r Hr]; [set_solver|]. simpl. rewrite Hr. simpl. rewrite (Hwf _ _ Hr).
  f_equal. apply IH. set_solver.
Qed.

Lemma rows_of_elem m r :
  (∀ id r, m !! id = Some r → RowID r = id) → r ∈ rows_of m ↔ m !! RowID r = Some r.
Proof.
  intros Hwf. unfold rows_of. rewrite list_elem_of_omap. split.
  - intros (id & _ & Hr). by rewrite (Hwf _ _ Hr).
  - intros Hr. exists (RowID r). split; [|done]. apply sorted_ids_elem. by exists r.
Qed.

Lemma with_id_nil id l : with_id id l = [] ↔ id ∉ map RowID l.
Proof.
  induction l as [|r l IH]; [by split; [intros _; set_solver|]|].
  unfold with_id in *. rewrite filter_cons. simpl. destruct (decide (RowID r = id)) as [<-|Hne].
  - split; [done|]. intros H. destruct H. apply list_elem_of_here.
  - rewrite IH. rewrite elem_of_cons. naive_solver.
Qed.

Lemma candidates_nonempty id local remote :
  option_list (last (with_id id local)) ++ with_id id remote ≠ [] ↔ id ∈ map RowID (local ++ remote).
Proof.
  rewrite List.map_app, elem_of_app. split.
  - intros H. destruct (decide (id ∈ map RowID local)) as [Hl|Hl]; [by left|]. right.
    apply dec_stable. intros Hr. apply with_id_nil in Hl, Hr. by rewrite Hl, Hr in H.
  - intros H E. apply app_eq_nil in E as [El Er]. destruct H as [H|H].
    + destruct (with_id id local) as [|r l] eqn:Ew; [by apply with_id_nil in Ew|].
      destruct (last_cons_some r l) as [x Hx]. by rewrite Hx in El.
    + by apply with_id_nil in Er.
Qed.

(** Reading the rows of a merge back as local rows gives its map again. *)
Lemma last_with_id_rows local remote id :
  last (with_id id (MergeSheetRows local remote)) = merge_map local remote !! id.
Proof.
  pose proof (merged_RowID local remote) as Hwf. unfold MergeSheetRows.
  set (m := merge_map local remote) in *.
  pose proof (rows_of_elem m) as Hin.
  destruct (last (with_id id (rows_of m))) as [r|] eqn:El.
  - apply last_Some_elem_of, list_elem_of_filter in El as [<- Hr]. by apply Hin in Hr.
  - apply last_None in El. destruct (m !! id) as [r|] eqn:Er; [|done].
    assert (Hr : r ∈ with_id id (rows_of m)).
    { apply list_elem_of_filter. rewrite Hin by done. by rewrite (Hwf _ _ Er). }
    rewrite El in Hr. by apply elem_of_nil in Hr.
Qed.

(** ** The merge *)

(** C26: the merge yields one row per id that occurs locally or remotely, in
    the order of the ids, and each of them is the winner among its
    candidates: every candidate has a lower version, or the same version and
    no later creation time. *)
Theorem MergeSheetRows_spec local remote :
  let out := MergeSheetRows local remote in
  NoDup (map RowID out) ∧ Sorted str_le (map RowID out) ∧
  (∀ id, id ∈ map RowID out ↔ id ∈ map RowID (local ++ remote)) ∧
  (∀ w, w ∈ out → w ∈ candidates (RowID w) local remote
                  ∧ ∀ r, r ∈ candidates (RowID w) local remote →
                      extractVersion (Payload r) < extractVersion (Payload w) ∨
                      (extractVersion (Payload r) = extractVersion (Payload w) ∧
                       extractCreatedAt (Payload r) <= extractCreatedAt (Payload w))).
Proof.
  intros out. pose proof (merged_RowID local remote) as Hwf.
  unfold out, MergeSheetRows. rewrite rows_of_ids by done. split_and!.
  - apply sorted_ids_NoDup.
  - apply (Sorted_merge_sort _).
  - intros id. rewrite sorted_ids_elem, merge_map_lookup, choose_Some. apply candidates_nonempty.
  - intros w Hw%rows_of_elem; [|done]. rewrite merge_map_lookup in Hw. apply choose_winner in Hw as [Hin Hmax].
    split; [done|]. intros r Hr. by apply not_beats_spec, Hmax.
Qed.

(** The merge is idempotent: merging its result again with the same
    remote rows, or with none, gives the same rows. *)
Theorem MergeSheetRows_idempotent local remote :
  MergeSheetRows (MergeSheetRows local remote) remote = MergeSheetRows local remote ∧
  MergeSheetRows (MergeSheetRows local remote) [] = MergeSheetRows local remote.
Proof.
  assert (Hext : ∀ remote', (∀ r, r ∈ remote' → r ∈ remote) →
    merge_map (MergeSheetRows local remote) remote' = merge_map local remote).
  { intros remote' Hsub. apply map_eq. intros id.
    rewrite (merge_map_lookup (MergeSheetRows _ _)), last_with_id_rows.
    destruct (merge_map local remote !! id) as [w|] eqn:Ew.
    - apply choose_stable. intros r Hr. rewrite merge_map_lookup in Ew. apply choose_winner in Ew as [_ Hmax].
      apply Hmax, elem_of_app. right. apply list_elem_of_filter in Hr as [Hid Hr].
      apply list_elem_of_filter. auto.
    - rewrite merge_map_lookup in Ew.
      destruct (with_id id remote') as [|r l] eqn:El; [done|]. exfalso.
      assert (Hr : r ∈ with_id id remote') by (rewrite El; apply list_elem_of_here).
      apply list_elem_of_filter in Hr as [Hid Hr]. apply Hsub in Hr.
      apply eq_None_not_Some in Ew. apply Ew, choose_Some. intros E. apply app_eq_nil in E as [_ E].
      assert (Hr' : r ∈ with_id id remote) by (by apply list_elem_of_filter). rewrite E in Hr'. by apply elem_of_nil in Hr'. }
  split; unfold MergeSheetRows at 1; rewrite Hext; try done. intros r Hr. by apply elem_of_nil in Hr.
Qed.
