(* ===== verification/Mapx.v ===== *)
(** * Mapx: rows out of maps keyed by column index

    Models [pkg/shared/mapx.OrderedSliceByIndex].  A key that is not a number
    counts as index 0 ([Atoi]'s error is ignored), cells are looked up under
    the decimal text of their index, and missing cells become empty strings. *)

From S2P Require Import Prelude GoInt GoStrings GoTime GoValues.
Import strconv.

Module mapx.

Definition indices (payload : gmap string any) : list Z :=
  map (λ p, fst (Atoi p.1)) (map_to_list payload).

(** [payload[k]]: nil for a missing key. *)
Definition cell (payload : gmap string any) (k : string) : any :=
  match payload !! k with Some v => v | None => ANil end.

Definition fill (v : any) : any := match v with ANil => AString "" | _ => v end.

(** [row[idx] = v] panics out of range. *)
Definition set_cell (row : list any) (idx : Z) (v : any) : outcome (list any) :=
  if (0 <=? idx) && (idx <? Z.of_nat (List.length row))
  then Ok (<[Z.to_nat idx := v]> row)
  else Panic "index out of range".

Fixpoint set_cells (payload : gmap string any) (idxs : list Z) (row : list any) : outcome (list any) :=
  match idxs with
  | [] => Ok row
  | idx :: rest =>
      match set_cell row idx (cell payload (Itoa idx)) with
      | Ok row' => set_cells payload rest row'
      | r => r
      end
  end.

(** A slice of 16-byte interface values is at most 2^44 long. *)
Definition max_slice_len : Z := 2 ^ 44.

Definition OrderedSliceByIndex (payload : gmap string any) : outcome (list any) :=
  match merge_sort Z.le (indices payload) with
  | [] => Ok []
  | idxs =>
      let n := int64 (default 0 (last idxs) + 1) in
      if (n <? 0) || (max_slice_len <? n) then Panic "makeslice: len out of range"
      else omap_out (map fill) (set_cells payload idxs (replicate (Z.to_nat n) ANil))
  end.

(** The payload a fetched sheet row gives: its cells under "0", "1", ... *)
Definition index_payload (cells : list any) : gmap string any :=
  list_to_map (imap (λ j c, (Itoa (Z.of_nat j), c)) cells).

End mapx.

Import mapx.

(** ** Filling the row *)

Lemma set_cells_ok payload idxs row :
  Forall (λ i, 0 <= i < Z.of_nat (List.length row)) idxs →
  ∃ row', set_cells payload idxs row = Ok row' ∧ List.length row' = List.length row ∧
    ∀ i : nat, row' !! i = if decide (Z.of_nat i ∈ idxs) then Some (cell payload (Itoa (Z.of_nat i))) else row !! i.
Proof.
  revert row. induction idxs as [|idx idxs IH]; intros row Hall; cbn [set_cells].
  - exists row. split_and!; [done..|]. intros i. rewrite decide_False by set_solver. done.
  - inversion Hall as [|? ? Hidx Hrest]; subst. unfold set_cell.
    destruct (Z.leb_spec 0 idx); [|lia]. destruct (Z.ltb_spec idx (Z.of_nat (List.length row))); [|lia].
    cbn [andb]. destruct (IH (<[Z.to_nat idx := cell payload (Itoa idx)]> row)) as (row' & Hs & Hlen & Hlook).
    { by rewrite length_insert. }
    exists row'. rewrite length_insert in Hlen. split_and!; [done..|]. intros i. rewrite Hlook.
    destruct (decide (Z.of_nat i ∈ idxs)) as [Hi|Hi].
    + by rewrite decide_True by (by apply list_elem_of_further).
    + destruct (decide (Z.of_nat i = idx)) as [Ei|Ei].
      * rewrite decide_True by (rewrite Ei; apply list_elem_of_here).
        rewrite <- Ei, Nat2Z.id, list_lookup_insert_eq by lia. done.
      * rewrite decide_False by (rewrite elem_of_cons; tauto).
        by rewrite list_lookup_insert_ne by lia.
Qed.

Lemma indices_elem payload i :
  i ∈ indices payload ↔ ∃ k v, payload !! k = Some v ∧ fst (Atoi k) = i.
Proof.
  unfold indices. split.
  - intros ([k v] & -> & Hin%elem_of_map_to_list)%list_elem_of_fmap. by exists k, v.
  - intros (k & v & Hk & <-). apply list_elem_of_fmap. exists (k, v). by rewrite elem_of_map_to_list.
Qed.

Lemma cell_absent payload (i : Z) : in_int64 i → i ∉ indices payload → cell payload (Itoa i) = ANil.
Proof.
  intros Hi Hni. unfold cell. destruct (payload !! Itoa i) as [v|] eqn:Ev; [|done].
  destruct Hni. apply indices_elem. exists (Itoa i), v. by rewrite Atoi_Itoa.
Qed.

(** The largest index of a payload. *)
Lemma last_sorted_max l m :
  last (merge_sort Z.le l) = Some m → m ∈ l ∧ Forall (λ i, i <= m) l.
Proof.
  intros H. pose proof (merge_sort_Permutation Z.le l) as HP.
  pose proof (StronglySorted_merge_sort Z.le l) as HS. split.
  - rewrite <- HP. by apply last_Some_elem_of.
  - rewrite <- HP. clear HP. induction HS as [|x s HS IH Hx]; [constructor|].
    rewrite last_cons in H. destruct (last s) as [y|] eqn:El.
    + injection H as <-. constructor; [|by apply IH].
      rewrite Forall_forall in Hx. apply Hx. by apply last_Some_elem_of.
    + injection H as <-. apply last_None in El as ->. by repeat constructor.
Qed.

Lemma OrderedSliceByIndex_row payload m :
  m ∈ indices payload → Forall (λ i, 0 <= i <= m) (indices payload) → m < max_slice_len →
  OrderedSliceByIndex payload
  = Ok (map (λ i : nat, fill (cell payload (Itoa (Z.of_nat i)))) (seq 0 (Z.to_nat (m + 1)))).
Proof.
  intros Hm Hall Hmax. unfold OrderedSliceByIndex.
  pose proof (merge_sort_Permutation Z.le (indices payload)) as HP.
  destruct (last (merge_sort Z.le (indices payload))) as [m'|] eqn:El.
  2: { apply last_None in El. rewrite El in HP. rewrite <- HP in Hm. by apply elem_of_nil in Hm. }
  assert (m' = m) as ->.
  { apply last_sorted_max in El as [H1 H2]. rewrite Forall_forall in Hall, H2.
    pose proof (Hall _ H1). pose proof (H2 _ Hm). simpl in *. lia. }
  destruct (merge_sort Z.le (indices payload)) as [|i0 rest] eqn:Es; [done|]. rewrite <- Es in *.
  assert (Hm0 : 0 <= m) by (rewrite Forall_forall in Hall; apply (Hall _ Hm)).
  rewrite El. change (default 0 (Some m)) with m. unfold max_slice_len in *.
  rewrite int64_id by (unfold in_int64, min_int64, max_int64; lia).
  destruct (Z.ltb_spec (m + 1) 0); [lia|]. destruct (Z.ltb_spec (2 ^ 44) (m + 1)); [lia|]. cbn [orb].
  destruct (set_cells_ok payload (merge_sort Z.le (indices payload)) (replicate (Z.to_nat (m + 1)) ANil))
    as (row' & -> & Hlen & Hlook).
  { rewrite length_replicate, HP. eapply Forall_impl; [exact Hall|]. intros i ?. simpl in *. lia. }
  rewrite length_replicate in Hlen. cbn [omap_out]. f_equal. apply list_eq. intros i.
  rewrite !list_lookup_fmap, Hlook.
  destruct (decide (i < Z.to_nat (m + 1))%nat) as [Hi|Hi].
  - rewrite lookup_seq_lt by done. simpl. destruct (decide (Z.of_nat i ∈ _)) as [Hin|Hin]; [done|].
    rewrite HP in Hin. rewrite lookup_replicate_2 by done. simpl.
    by rewrite cell_absent by (done || unfold in_int64, min_int64, max_int64; lia).
  - rewrite lookup_seq_ge by lia. simpl. rewrite decide_False; [rewrite (proj1 (lookup_replicate_None _ _ _)) by lia; done|].
    rewrite HP. intros Hin. rewrite Forall_forall in Hall. apply Hall in Hin. lia.
Qed.

(** ** Properties *)

(** When every key is a column index (or counts as index 0), the row has
    one cell per index up to the largest, each the value under its decimal
    text, an empty string where it is missing. *)
Theorem OrderedSliceByIndex_spec payload m :
  m ∈ indices payload → Forall (λ i, 0 <= i <= m) (indices payload) → m < max_slice_len →
  OrderedSliceByIndex payload
  = Ok (map (λ i : nat, fill (cell payload (Itoa (Z.of_nat i)))) (seq 0 (Z.to_nat (m + 1)))).
Proof. apply OrderedSliceByIndex_row. Qed.

Lemma Itoa_inj x y : in_int64 x → in_int64 y → Itoa x = Itoa y → x = y.
Proof. intros Hx Hy E. pose proof (Atoi_Itoa x Hx). rewrite E, Atoi_Itoa in H by done. congruence. Qed.

Section RoundTrip.
Variable cells : list any.
Hypothesis small : Z.of_nat (List.length cells) < max_slice_len.

Let in_range (j : nat) : (j < List.length cells)%nat → in_int64 (Z.of_nat j).
Proof. unfold max_slice_len in small. unfold in_int64, min_int64, max_int64. lia. Qed.

Lemma index_payload_lookup j c :
  cells !! j = Some c → index_payload cells !! Itoa (Z.of_nat j) = Some c.
Proof.
  intros Hj. unfold index_payload. apply elem_of_list_to_map_1'.
  - intros y Hy. apply elem_of_lookup_imap in Hy as (j' & c' & [= E ->] & Hj').
    apply Itoa_inj in E; [|apply in_range; by eapply lookup_lt_Some..].
    assert (j = j') as -> by lia. congruence.
  - apply elem_of_lookup_imap. by exists j, c.
Qed.

Lemma index_payload_lookup_inv k c :
  index_payload cells !! k = Some c → ∃ j : nat, k = Itoa (Z.of_nat j) ∧ cells !! j = Some c.
Proof.
  unfold index_payload. intros H%elem_of_list_to_map_2.
  apply elem_of_lookup_imap in H as (j & c' & [= -> ->] & Hj). by exists j.
Qed.

Lemma index_payload_row : OrderedSliceByIndex (index_payload cells) = Ok (map fill cells).
Proof using small.
  destruct (decide (cells = [])) as [->|Hne]; [done|].
  set (m := Z.of_nat (List.length cells) - 1).
  assert (Hlen : (0 < List.length cells)%nat) by (destruct cells; [done|simpl; lia]).
  rewrite (OrderedSliceByIndex_row _ m); [|..|unfold m; lia].
  - f_equal. apply list_eq. intros i. rewrite !list_lookup_fmap.
    replace (Z.to_nat (m + 1)) with (List.length cells) by (unfold m; lia).
    destruct (cells !! i) as [c|] eqn:Ei.
    + rewrite lookup_seq_lt by (by eapply lookup_lt_Some). simpl.
      unfold cell. by rewrite (index_payload_lookup i c).
    + by rewrite lookup_seq_ge by (by apply lookup_ge_None).
  - destruct (lookup_lt_is_Some_2 cells (List.length cells - 1)) as [c Hc]; [lia|].
    apply indices_elem. exists (Itoa m), c.
    replace m with (Z.of_nat (List.length cells - 1)) by (unfold m; lia).
    split; [by apply index_payload_lookup|]. rewrite Atoi_Itoa by (apply in_range; lia). done.
  - apply Forall_forall. intros i (k & v & Hk & <-)%indices_elem.
    apply index_payload_lookup_inv in Hk as (j & -> & Hj). apply lookup_lt_Some in Hj.
    rewrite Atoi_Itoa by (by apply in_range). simpl. unfold m. lia.
Qed.

(** A fetched sheet row survives the trip through its payload: the cells
    come back in their order, nil cells as empty strings. *)
Theorem OrderedSliceByIndex_roundtrip : OrderedSliceByIndex (index_payload cells) = Ok (map fill cells).
Proof using small. apply index_payload_row. Qed.

End RoundTrip.

(** A payload with a negative index key makes the conversion panic. *)
Theorem OrderedSliceByIndex_negative payload i :
  i ∈ indices payload → i < 0 → ∃ msg, OrderedSliceByIndex payload = Panic msg.
Proof.
  intros Hi Hneg. unfold OrderedSliceByIndex.
  pose proof (merge_sort_Permutation Z.le (indices payload)) as HP.
  pose proof (StronglySorted_merge_sort Z.le (indices payload)) as HS.
  destruct (merge_sort Z.le (indices payload)) as [|i0 rest] eqn:Es.
  { rewrite <- HP in Hi. by apply elem_of_nil in Hi. }
  destruct (_ || _); [by eexists|].
  assert (i0 < 0).
  { rewrite <- HP in Hi. apply elem_of_cons in Hi as [->|Hi]; [done|].
    inversion HS as [|? ? _ Hall]; subst. rewrite Forall_forall in Hall. pose proof (Hall _ Hi). lia. }
  cbn [set_cells]. unfold set_cell. destruct (Z.leb_spec 0 i0); [lia|]. simpl. by eexists.
Qed.
