(* ===== verification/Pgtypex.v ===== *)
(** * Pgtypex: driver value types and the repository's converters

    Models [pkg/shared/pgtypex] and [pkg/shared/uuidx].  The struct types of
    [pgtype] are records with their [Valid] flags; the [Scan] methods of the
    driver are the operations of the class [PgtypeLib], with what the code
    relies on as [PgtypeLaws]. *)

From S2P Require Import Prelude GoInt GoStrings GoTime GoValues.

Module pgtype.

Record pgUUID := mkPgUUID { UUID_Bytes : UUID; UUID_Valid : bool }.
Record Timestamptz := mkTimestamptz { ts_Time : Time; ts_Valid : bool }.
Record Text := mkText { txt_String : string; txt_Valid : bool }.

(** [Numeric] is [Int * 10^Exp]; [Int] is a [*big.Int], nil in the zero
    value and for infinities. *)
Record Numeric := mkNumeric {
  num_Int : option Z;
  num_Exp : Z;
  num_NaN : bool;
  num_Infinite : bool;
  num_Valid : bool;
}.

#[export] Instance pgUUID_eq_dec : EqDecision pgUUID.
Proof. solve_decision. Defined.
#[export] Instance Timestamptz_eq_dec : EqDecision Timestamptz.
Proof. solve_decision. Defined.
#[export] Instance Text_eq_dec : EqDecision Text.
Proof. solve_decision. Defined.
#[export] Instance Numeric_eq_dec : EqDecision Numeric.
Proof. solve_decision. Defined.

(** Go zero values: SQL NULL. *)
Definition UUID_zero : pgUUID := mkPgUUID uuid_Nil false.
Definition Timestamptz_zero : Timestamptz := mkTimestamptz time.zero false.
Definition Text_zero : Text := mkText "" false.
Definition Numeric_zero : Numeric := mkNumeric None 0 false false false.

Class PgtypeLib := {
  numeric_Scan : float64 → outcome Numeric;
  timestamptz_Scan : Time → outcome Timestamptz;
  text_Scan : string → outcome Text;
}.

(** Documented behaviour of the driver: scanning a [time.Time] or a
    [string] stores it as a non-NULL value; a scanned float is non-NULL, and
    a scan fails with a driver error, not with a panic. *)
Class PgtypeLaws (L : PgtypeLib) : Prop := {
  timestamptz_Scan_valid t : timestamptz_Scan t = Ok (mkTimestamptz t true);
  text_Scan_valid s : text_Scan s = Ok (mkText s true);
  numeric_Scan_valid f n : numeric_Scan f = Ok n → num_Valid n = true ∧ num_NaN n = false ∧ num_Infinite n = false;
  numeric_Scan_total f : (∃ n, numeric_Scan f = Ok n) ∨ (∃ m, numeric_Scan f = Err (foreign m));
}.

End pgtype.
Export pgtype.

Module pgtypex.

Section Converters.
Context `{PgtypeLib}.

Definition NumericFromFloat64 (f : float64) : outcome Numeric := numeric_Scan f.

(** [big.Rat.SetInt(nil)] dereferences nil. *)
Definition Float64FromNumeric (n : Numeric) : outcome float64 :=
  if negb (num_Valid n) || num_NaN n then Ok f64_zero
  else
    match num_Int n with
    | None => Panic "nil *big.Int"
    | Some i =>
        if num_Exp n <? 0 then Ok (f64_of_ratio i (Z.to_pos (10 ^ (- num_Exp n))))
        else if 0 <? num_Exp n then Ok (f64_of_ratio (i * 10 ^ num_Exp n) 1)
        else Ok (f64_of_ratio i 1)
    end.

Definition TimestamptzFromTime (t : Time) : outcome Timestamptz := timestamptz_Scan t.

Definition TimeFromTimestamptz (ts : Timestamptz) : Time := ts_Time ts.

Definition TextFromStringPtr (s : option string) : outcome Text :=
  match s with
  | None => Ok Text_zero
  | Some s => text_Scan s
  end.

Definition StringPtrFromText (t : Text) : option string :=
  if negb (txt_Valid t) then None else Some (txt_String t).

End Converters.
End pgtypex.

Module uuidx.

Section Converters.
Context `{UuidLib}.

Definition StringToPGUUID (s : string) : outcome pgUUID :=
  if String.eqb s "" then Err (errorString "empty uuid string")
  else
    match uuid_FromString s with
    | Ok id => Ok (mkPgUUID id true)
    | Err e => Err e
    | Panic m => Panic m
    end.

Definition UUIDToPG (id : UUID) : pgUUID := mkPgUUID id true.

Definition UUIDPtrToPG (id : option UUID) : pgUUID :=
  match id with
  | None => UUID_zero
  | Some u => mkPgUUID u true
  end.

Definition PGToUUID (p : pgUUID) : outcome UUID :=
  if negb (UUID_Valid p) then Err (errorString "uuid is null") else Ok (UUID_Bytes p).

Definition PGToUUIDPtr (p : pgUUID) : outcome (option UUID) :=
  if negb (UUID_Valid p) then Ok None else Ok (Some (UUID_Bytes p)).

End Converters.
End uuidx.

(** ** Round trips of the converters *)

Import pgtypex uuidx.

Lemma PGToUUID_UUIDToPG u : PGToUUID (UUIDToPG u) = Ok u.
Proof. done. Qed.

Lemma PGToUUIDPtr_UUIDPtrToPG u : PGToUUIDPtr (UUIDPtrToPG u) = Ok u.
Proof. by destruct u. Qed.

Lemma StringPtrFromText_TextFromStringPtr `{L : PgtypeLib} {LL : PgtypeLaws L} s :
  omap_out StringPtrFromText (TextFromStringPtr s) = Ok s.
Proof. destruct s; simpl; [by rewrite text_Scan_valid|done]. Qed.

Lemma StringToPGUUID_String `{L : UuidLib} {LL : UuidLaws L} u :
  StringToPGUUID (uuid_String u) = Ok (UUIDToPG u).
Proof.
  unfold StringToPGUUID. destruct (String.eqb_spec (uuid_String u) "") as [E|E].
  - pose proof (uuid_String_len u) as Hl. by rewrite E in Hl.
  - by rewrite uuid_FromString_String.
Qed.

(** Reading a numeric back never fails once its coefficient is present. *)
Lemma Float64FromNumeric_ok n i :
  num_Int n = Some i → ∃ f, Float64FromNumeric n = Ok f.
Proof.
  intros E. unfold Float64FromNumeric. rewrite E. repeat go_case; eauto.
Qed.

#[export] Hint Rewrite PGToUUID_UUIDToPG PGToUUIDPtr_UUIDPtrToPG : go_simpl.
#[export] Hint Resolve Float64FromNumeric_ok : go.
