(* ===== verification/Schema.v ===== *)
(** * Schema: table rows and the database state

    The struct types of [internal/db/sqlc/models.go] are both what the
    queries return and the rows of the tables the migrations create.  A
    JSONB column (a [[]byte] in Go) is the JSON value its text denotes, nil
    being SQL NULL.  The database is one record of tables; the constraints
    of the migrations are checked by the statements of [Sqlc]. *)

From S2P Require Import Prelude GoInt GoStrings GoTime GoValues Pgtypex.

Module sqlcdb.

Record Account := mkAccount {
  Account_ID : pgUUID; Account_UserID : pgUUID; Account_Name : string;
  Account_Currency : string; Account_CreatedAt : Timestamptz;
  Account_UpdatedAt : Timestamptz; Account_DeletedAt : Timestamptz;
  Account_Version : Z }.

Record Category := mkCategory {
  Category_ID : pgUUID; Category_UserID : pgUUID; Category_Name : string;
  Category_IsIncome : bool; Category_ParentID : pgUUID;
  Category_CreatedAt : Timestamptz; Category_UpdatedAt : Timestamptz;
  Category_DeletedAt : Timestamptz; Category_Version : Z }.

Record ChangeEvent := mkChangeEvent {
  ChangeEvent_ID : Z; ChangeEvent_EntityType : string;
  ChangeEvent_EntityID : pgUUID; ChangeEvent_UserID : pgUUID;
  ChangeEvent_OpType : string; ChangeEvent_Payload : option json;
  ChangeEvent_Version : Z; ChangeEvent_CreatedAt : Timestamptz;
  ChangeEvent_UpdatedAt : Timestamptz; ChangeEvent_DeletedAt : Timestamptz }.

Record MonthlyBalance := mkMonthlyBalance {
  MonthlyBalance_UserID : pgUUID; MonthlyBalance_AccountID : pgUUID;
  MonthlyBalance_MonthKey : string; MonthlyBalance_Balance : Numeric;
  MonthlyBalance_CreatedAt : Timestamptz; MonthlyBalance_UpdatedAt : Timestamptz;
  MonthlyBalance_DeletedAt : Timestamptz }.

Record ProjectionCursor := mkProjectionCursor {
  ProjectionCursor_ProjectorName : string; ProjectionCursor_LastEventID : Z;
  ProjectionCursor_CreatedAt : Timestamptz; ProjectionCursor_UpdatedAt : Timestamptz;
  ProjectionCursor_DeletedAt : Timestamptz }.

Record RefreshToken := mkRefreshToken {
  RefreshToken_ID : pgUUID; RefreshToken_UserID : pgUUID;
  RefreshToken_EncryptedToken : string; RefreshToken_ExpiresAt : Timestamptz;
  RefreshToken_Revoked : bool; RefreshToken_CreatedAt : Timestamptz;
  RefreshToken_UpdatedAt : Timestamptz; RefreshToken_DeletedAt : Timestamptz }.

Record SheetMapping := mkSheetMapping {
  SheetMapping_ID : pgUUID; SheetMapping_ConnectionID : pgUUID;
  SheetMapping_SheetColumn : string; SheetMapping_DbField : string;
  SheetMapping_Transform : option json; SheetMapping_Version : Z;
  SheetMapping_CreatedAt : Timestamptz; SheetMapping_UpdatedAt : Timestamptz;
  SheetMapping_DeletedAt : Timestamptz }.

Record SheetsConnection := mkSheetsConnection {
  SheetsConnection_ID : pgUUID; SheetsConnection_UserID : pgUUID;
  SheetsConnection_GoogleUserID : string; SheetsConnection_AccessToken : string;
  SheetsConnection_RefreshToken : Text; SheetsConnection_TokenExpiry : Timestamptz;
  SheetsConnection_SheetID : string; SheetsConnection_SheetRange : Text;
  SheetsConnection_SyncMode : string; SheetsConnection_LastSyncedAt : Timestamptz;
  SheetsConnection_CreatedAt : Timestamptz; SheetsConnection_UpdatedAt : Timestamptz;
  SheetsConnection_DeletedAt : Timestamptz; SheetsConnection_Version : Z }.

Record SyncQueue := mkSyncQueue {
  SyncQueue_ID : Z; SyncQueue_UserID : pgUUID; SyncQueue_OpType : string;
  SyncQueue_Payload : option json; SyncQueue_Attempts : Z;
  SyncQueue_AvailableAt : Timestamptz; SyncQueue_MaxAttempts : Z;
  SyncQueue_CreatedAt : Timestamptz; SyncQueue_UpdatedAt : Timestamptz;
  SyncQueue_DeletedAt : Timestamptz; SyncQueue_Version : Z }.

Record Transaction := mkTransaction {
  ID : pgUUID; UserID : pgUUID; AccountID : pgUUID; Amount : Numeric;
  Currency : string; Type_ : string; CategoryID : pgUUID; Description : Text;
  OccurredAt : Timestamptz; Metadata : option json; Version : Z;
  LastModified : Timestamptz; Source : string; SheetsRowID : Text;
  CreatedAt : Timestamptz; UpdatedAt : Timestamptz; DeletedAt : Timestamptz }.

Record TransactionSummary := mkTransactionSummary {
  TransactionSummary_UserID : pgUUID; TransactionSummary_PeriodKey : string;
  TransactionSummary_Currency : string; TransactionSummary_Type : string;
  TransactionSummary_TotalAmount : Numeric; TransactionSummary_Count : Z;
  TransactionSummary_CreatedAt : Timestamptz; TransactionSummary_UpdatedAt : Timestamptz;
  TransactionSummary_DeletedAt : Timestamptz }.

Record User := mkUser {
  User_ID : pgUUID; User_Email : string; User_DisplayName : Text;
  User_CreatedAt : Timestamptz; User_UpdatedAt : Timestamptz;
  User_DeletedAt : Timestamptz; User_Version : Z; User_HashedPassword : string }.

End sqlcdb.

(** ** Database state *)

(** One finite map per table keyed by its primary key; [change_events] is
    kept in insertion order. *)
Record DB := mkDB {
  users : gmap UUID sqlcdb.User;
  accounts : gmap UUID sqlcdb.Account;
  categories : gmap UUID sqlcdb.Category;
  transactions : gmap UUID sqlcdb.Transaction;
  change_events : list sqlcdb.ChangeEvent;
  sheets_connections : gmap UUID sqlcdb.SheetsConnection;
  sheet_mappings : gmap UUID sqlcdb.SheetMapping;
  sync_queue : gmap Z sqlcdb.SyncQueue;
  refresh_tokens : gmap UUID sqlcdb.RefreshToken;
  projection_cursors : gmap string sqlcdb.ProjectionCursor;
  transaction_summary : gmap (UUID * string * string * string) sqlcdb.TransactionSummary;
  monthly_balance : gmap (UUID * UUID * string) sqlcdb.MonthlyBalance;
}.

Definition empty_db : DB := mkDB ∅ ∅ ∅ ∅ [] ∅ ∅ ∅ ∅ ∅ ∅ ∅.

Definition set_users t db := mkDB t (accounts db) (categories db) (transactions db)
  (change_events db) (sheets_connections db) (sheet_mappings db) (sync_queue db)
  (refresh_tokens db) (projection_cursors db) (transaction_summary db) (monthly_balance db).
Definition set_transactions t db := mkDB (users db) (accounts db) (categories db) t
  (change_events db) (sheets_connections db) (sheet_mappings db) (sync_queue db)
  (refresh_tokens db) (projection_cursors db) (transaction_summary db) (monthly_balance db).
Definition set_change_events t db := mkDB (users db) (accounts db) (categories db) (transactions db)
  t (sheets_connections db) (sheet_mappings db) (sync_queue db)
  (refresh_tokens db) (projection_cursors db) (transaction_summary db) (monthly_balance db).
Definition set_sync_queue t db := mkDB (users db) (accounts db) (categories db) (transactions db)
  (change_events db) (sheets_connections db) (sheet_mappings db) t
  (refresh_tokens db) (projection_cursors db) (transaction_summary db) (monthly_balance db).
Definition set_refresh_tokens t db := mkDB (users db) (accounts db) (categories db) (transactions db)
  (change_events db) (sheets_connections db) (sheet_mappings db) (sync_queue db)
  t (projection_cursors db) (transaction_summary db) (monthly_balance db).
Definition set_projection_cursors t db := mkDB (users db) (accounts db) (categories db) (transactions db)
  (change_events db) (sheets_connections db) (sheet_mappings db) (sync_queue db)
  (refresh_tokens db) t (transaction_summary db) (monthly_balance db).
Definition set_transaction_summary t db := mkDB (users db) (accounts db) (categories db) (transactions db)
  (change_events db) (sheets_connections db) (sheet_mappings db) (sync_queue db)
  (refresh_tokens db) (projection_cursors db) t (monthly_balance db).
Definition set_monthly_balance t db := mkDB (users db) (accounts db) (categories db) (transactions db)
  (change_events db) (sheets_connections db) (sheet_mappings db) (sync_queue db)
  (refresh_tokens db) (projection_cursors db) (transaction_summary db) t.

(** ** Statements *)

(** What the server supplies to a statement: the time [NOW()] returns, the
    next value of a serial column and the next [gen_random_uuid()]. *)
Record SqlCtx := mkSqlCtx { sql_now : Time; sql_serial : Z; sql_uuid : UUID }.

(** A statement returns its rows and the new database, or an error and no
    change. *)
Definition stmt (A : Type) : Type := SqlCtx → DB → outcome (A * DB).

(** A query that only reads. *)
Definition read_stmt {A} (f : DB → outcome A) : stmt A :=
  λ _ db, omap_out (λ a, (a, db)) (f db).

Open Scope outcome_scope.

(** Constraint and conversion checks.  The server's errors are opaque. *)
Definition pg_error (what : string) : error := foreign ("ERROR: " +:+ what).

Definition require (b : bool) (what : string) : outcome unit :=
  if b then Ok tt else Err (pg_error what).

Definition is_some {A} (o : option A) : bool := match o with Some _ => true | None => false end.

(** [CHAR(3)]: shorter values are blank-padded, longer ones rejected unless
    the excess is blanks. *)
Definition blank : ascii := ascii_of_N 32.
Definition char3 (s : string) : outcome string :=
  match s with
  | EmptyString => Ok (String blank (String blank (String blank EmptyString)))
  | String a EmptyString => Ok (String a (String blank (String blank EmptyString)))
  | String a (String b EmptyString) => Ok (String a (String b (String blank EmptyString)))
  | String a (String b (String c rest)) =>
      if strings.str_forall (λ x, Ascii.eqb x blank) rest
      then Ok (String a (String b (String c EmptyString)))
      else Err (pg_error "value too long for type character(3)")
  end.

(** [NUMERIC(18,2)]: rounded half away from zero to cents; sixteen integer
    digits at most; NULL stays NULL, NaN is allowed, infinity is not. *)
Definition round_half_away (n : Z) (d : Z) : Z :=
  if 0 <=? n then (2 * n + d) / (2 * d) else - ((2 * - n + d) / (2 * d)).

Definition numeric_cents (i e : Z) : Z :=
  if 0 <=? e + 2 then i * 10 ^ (e + 2) else round_half_away i (10 ^ (- (e + 2))).

Definition cents (c : Z) : Numeric := mkNumeric (Some c) (-2) false false true.

Definition numeric_18_2 (n : Numeric) : outcome Numeric :=
  if negb (num_Valid n) then Ok Numeric_zero
  else if num_NaN n then Ok (mkNumeric None 0 true false true)
  else if num_Infinite n then Err (pg_error "numeric field overflow")
  else
    match num_Int n with
    | None => Err (pg_error "invalid numeric")
    | Some i =>
        let c := numeric_cents i (num_Exp n) in
        if Z.abs c <? 10 ^ 18 then Ok (cents c) else Err (pg_error "numeric field overflow")
    end.

(** [timestamptz] column values: microseconds, NULL when not valid. *)
Definition store_ts (ts : Timestamptz) : Timestamptz :=
  if ts_Valid ts then mkTimestamptz (trunc_us (ts_Time ts)) true else Timestamptz_zero.

Definition ts_now (ctx : SqlCtx) : Timestamptz := store_ts (mkTimestamptz (sql_now ctx) true).

Definition store_text (t : Text) : Text := if txt_Valid t then t else Text_zero.
Definition store_uuid (u : pgUUID) : pgUUID := if UUID_Valid u then u else UUID_zero.

Definition is_null_ts (ts : Timestamptz) : bool := negb (ts_Valid ts).

(** [bigint] arithmetic raises instead of wrapping. *)
Definition bigint (z : Z) : outcome Z :=
  if (min_int64 <=? z) && (z <=? max_int64) then Ok z else Err (pg_error "bigint out of range").

(** Comparing a column with a NULL parameter selects nothing. *)
Definition uuid_matches (p : pgUUID) (u : UUID) : bool :=
  UUID_Valid p && bool_decide (UUID_Bytes p = u).

(** A stored non-NULL [NUMERIC(18,2)] keeps its cents. *)
Lemma numeric_18_2_cents c : Z.abs c < 10 ^ 18 → numeric_18_2 (cents c) = Ok (cents c).
Proof.
  intros H. unfold numeric_18_2, cents, numeric_cents. simpl.
  rewrite Z.mul_1_r. destruct (Z.ltb_spec (Z.abs c) (10 ^ 18)); [done|lia].
Qed.

Lemma round_half_away_exact n d : 0 < d → round_half_away (n * d) d = n.
Proof.
  intros Hd. unfold round_half_away.
  destruct (Z.leb_spec 0 (n * d)).
  - replace (2 * (n * d) + d) with (d + n * (2 * d)) by lia.
    rewrite Z.div_add by lia. rewrite Z.div_small by lia. lia.
  - replace (2 * - (n * d) + d) with (d + (- n) * (2 * d)) by lia.
    rewrite Z.div_add by lia. rewrite Z.div_small by lia. lia.
Qed.

(** Rounding to cents is off by at most half a cent. *)
Lemma round_half_away_error n d : 0 < d → 2 * Z.abs (round_half_away n d * d - n) <= d.
Proof.
  intros Hd. unfold round_half_away.
  destruct (Z.leb_spec 0 n).
  - pose proof (Z.div_mod (2 * n + d) (2 * d) ltac:(lia)).
    pose proof (Z.mod_pos_bound (2 * n + d) (2 * d) ltac:(lia)). nia.
  - pose proof (Z.div_mod (2 * - n + d) (2 * d) ltac:(lia)).
    pose proof (Z.mod_pos_bound (2 * - n + d) (2 * d) ltac:(lia)). nia.
Qed.
