(* ===== verification/Sqlc.v ===== *)
(** * Sqlc: the SQL statements of the repository

    Models [internal/db/sqlc] ([transactions.sql.go], [change_events.sql.go],
    [users.sql.go], [refresh_tokens.sql.go]): each query is its SQL text read
    as a function on the tables, with the NOT NULL, CHECK, UNIQUE and foreign
    key constraints of [migrations/].  A [:one] query that selects no row
    fails with [pgx.ErrNoRows]. *)

From S2P Require Import Prelude GoInt GoStrings GoTime GoValues Pgtypex Schema.
Import sqlcdb.

Module queries.

(** ** transactions *)

Record CreateTransactionParams := mkCreateTransactionParams {
  c_UserID : pgUUID; c_AccountID : pgUUID; c_Amount : Numeric; c_Currency : string;
  c_Type : string; c_CategoryID : pgUUID; c_Description : Text; c_OccurredAt : Timestamptz;
  c_Metadata : option json; c_Version : Z; c_LastModified : Timestamptz; c_Source : string;
  c_SheetsRowID : Text; c_CreatedAt : Timestamptz; c_UpdatedAt : Timestamptz;
  c_DeletedAt : Timestamptz }.

Record UpdateTransactionParams := mkUpdateTransactionParams {
  u_ID : pgUUID; u_UserID : pgUUID; u_AccountID : pgUUID; u_Amount : Numeric;
  u_Currency : string; u_Type : string; u_CategoryID : pgUUID; u_Description : Text;
  u_OccurredAt : Timestamptz; u_Metadata : option json; u_Source : string;
  u_SheetsRowID : Text; u_Version : Z }.

Record ListTransactionsByFilterParams := mkListTransactionsByFilterParams {
  l_UserID : pgUUID; l_Column2 : bool; l_AccountID : pgUUID; l_Column4 : bool;
  l_Type : string; l_Column6 : bool; l_OccurredAt : Timestamptz; l_Column8 : bool;
  l_OccurredAt_2 : Timestamptz; l_Limit : Z; l_Offset : Z }.

(** The constraints of table [transactions] on a row about to be stored. *)
Definition check_transaction (db : DB) (t : Transaction) : outcome unit :=
  try _ := require (UUID_Valid (UserID t) && UUID_Valid (AccountID t) && num_Valid (Amount t)
                    && ts_Valid (OccurredAt t) && ts_Valid (LastModified t)
                    && ts_Valid (CreatedAt t) && ts_Valid (UpdatedAt t)) "not-null constraint" in
  try _ := require (bool_decide (Type_ t ∈ ["expense"; "income"; "transfer"])) "transactions_type_check" in
  try _ := require (is_some (users db !! UUID_Bytes (UserID t))) "transactions_user_id_fkey" in
  try _ := require (is_some (accounts db !! UUID_Bytes (AccountID t))) "transactions_account_id_fkey" in
  require (negb (UUID_Valid (CategoryID t)) || is_some (categories db !! UUID_Bytes (CategoryID t)))
    "transactions_category_id_fkey".

Definition CreateTransaction (arg : CreateTransactionParams) : stmt Transaction := λ ctx db,
  try amount := numeric_18_2 (c_Amount arg) in
  try currency := char3 (c_Currency arg) in
  let row := mkTransaction (mkPgUUID (sql_uuid ctx) true) (c_UserID arg) (c_AccountID arg)
    amount currency (c_Type arg) (store_uuid (c_CategoryID arg)) (store_text (c_Description arg))
    (store_ts (c_OccurredAt arg)) (c_Metadata arg) (c_Version arg) (store_ts (c_LastModified arg))
    (c_Source arg) (store_text (c_SheetsRowID arg)) (store_ts (c_CreatedAt arg))
    (store_ts (c_UpdatedAt arg)) (store_ts (c_DeletedAt arg)) in
  try _ := check_transaction db row in
  try _ := require (negb (is_some (transactions db !! sql_uuid ctx))) "transactions_pkey" in
  Ok (row, set_transactions (<[sql_uuid ctx := row]> (transactions db)) db).

(** The row a primary-key condition selects. *)
Definition transaction_where (db : DB) (id : pgUUID) (cond : Transaction → bool) : outcome Transaction :=
  match (if UUID_Valid id then transactions db !! UUID_Bytes id else None) with
  | Some t => if cond t then Ok t else Err (sentinel ErrNoRows)
  | None => Err (sentinel ErrNoRows)
  end.

Definition not_deleted (t : Transaction) : bool := is_null_ts (DeletedAt t).
Definition owned_by (user : pgUUID) (t : Transaction) : bool :=
  UUID_Valid user && bool_decide (UUID_Bytes (UserID t) = UUID_Bytes user).

Definition GetTransactionByID (id user : pgUUID) : stmt Transaction :=
  read_stmt (λ db, transaction_where db id (λ t, owned_by user t && not_deleted t)).

Definition GetTransactionByIDOnly (id : pgUUID) : stmt Transaction :=
  read_stmt (λ db, transaction_where db id not_deleted).

Definition transactions_list (db : DB) : list Transaction := (map_to_list (transactions db)).*2.

Definition CountTransactionsByUser (user : pgUUID) : stmt Z :=
  read_stmt (λ db, Ok (Z.of_nat (List.length
    (List.filter (λ t, owned_by user t && not_deleted t) (transactions_list db))))).

(** [ORDER BY occurred_at DESC]; rows with equal times come in some order. *)
Definition occurred_desc (t u : Transaction) : Prop :=
  ts_Time (OccurredAt u) <= ts_Time (OccurredAt t).
#[export] Instance occurred_desc_dec : RelDecision occurred_desc.
Proof. unfold occurred_desc. intros t u. apply _. Defined.

Definition limit_offset {A} (limit offset : Z) (rows : list A) : outcome (list A) :=
  if limit <? 0 then Err (pg_error "LIMIT must not be negative")
  else if offset <? 0 then Err (pg_error "OFFSET must not be negative")
  else Ok (take (Z.to_nat limit) (drop (Z.to_nat offset) rows)).

Definition filter_matches (arg : ListTransactionsByFilterParams) (t : Transaction) : bool :=
  owned_by (l_UserID arg) t && not_deleted t
  && (negb (l_Column2 arg) || uuid_matches (l_AccountID arg) (UUID_Bytes (AccountID t)))
  && (negb (l_Column4 arg) || String.eqb (Type_ t) (l_Type arg))
  && (negb (l_Column6 arg)
      || (ts_Valid (l_OccurredAt arg) && (ts_Time (l_OccurredAt arg) <=? ts_Time (OccurredAt t))))
  && (negb (l_Column8 arg)
      || (ts_Valid (l_OccurredAt_2 arg) && (ts_Time (OccurredAt t) <=? ts_Time (l_OccurredAt_2 arg)))).

Definition ListTransactionsByFilter (arg : ListTransactionsByFilterParams) : stmt (list Transaction) :=
  read_stmt (λ db, limit_offset (l_Limit arg) (l_Offset arg)
    (merge_sort occurred_desc (List.filter (filter_matches arg) (transactions_list db)))).

Definition ListTransactionsByUser (user : pgUUID) (limit offset : Z) : stmt (list Transaction) :=
  read_stmt (λ db, limit_offset limit offset
    (merge_sort occurred_desc
       (List.filter (λ t, owned_by user t && not_deleted t) (transactions_list db)))).

Definition UpdateTransaction (arg : UpdateTransactionParams) : stmt Transaction := λ ctx db,
  try old := transaction_where db (u_ID arg)
    (λ t, owned_by (u_UserID arg) t && (Version t =? u_Version arg)) in
  try amount := numeric_18_2 (u_Amount arg) in
  try currency := char3 (u_Currency arg) in
  try version := bigint (Version old + 1) in
  let row := mkTransaction (ID old) (UserID old) (u_AccountID arg) amount currency (u_Type arg)
    (store_uuid (u_CategoryID arg)) (store_text (u_Description arg)) (store_ts (u_OccurredAt arg))
    (u_Metadata arg) version (ts_now ctx) (u_Source arg) (store_text (u_SheetsRowID arg))
    (CreatedAt old) (ts_now ctx) (DeletedAt old) in
  try _ := check_transaction db row in
  Ok (row, set_transactions (<[UUID_Bytes (u_ID arg) := row]> (transactions db)) db).

(** The common body of the two soft deletes. *)
Definition soft_delete_where (id : pgUUID) (cond : Transaction → bool) : stmt Transaction := λ ctx db,
  try old := transaction_where db id cond in
  try version := bigint (Version old + 1) in
  let row := mkTransaction (ID old) (UserID old) (AccountID old) (Amount old) (Currency old)
    (Type_ old) (CategoryID old) (Description old) (OccurredAt old) (Metadata old) version
    (ts_now ctx) (Source old) (SheetsRowID old) (CreatedAt old) (ts_now ctx) (ts_now ctx) in
  Ok (row, set_transactions (<[UUID_Bytes id := row]> (transactions db)) db).

Definition SoftDeleteTransaction (id user : pgUUID) : stmt Transaction :=
  soft_delete_where id (λ t, owned_by user t && not_deleted t).

Definition SoftDeleteTransactionByID (id : pgUUID) : stmt Transaction :=
  soft_delete_where id not_deleted.

(** ** change_events *)

Record InsertChangeEventParams := mkInsertChangeEventParams {
  e_EntityType : string; e_EntityID : pgUUID; e_UserID : pgUUID; e_OpType : string;
  e_Version : Z; e_Payload : option json }.

Definition InsertChangeEvent (arg : InsertChangeEventParams) : stmt unit := λ ctx db,
  try _ := require (UUID_Valid (e_EntityID arg) && UUID_Valid (e_UserID arg)
                    && is_some (e_Payload arg)) "not-null constraint" in
  try _ := require (bool_decide (e_OpType arg ∈ ["create"; "update"; "delete"])) "change_events_op_type_check" in
  try id := bigint (sql_serial ctx) in
  try version := bigint (e_Version arg) in
  try _ := require (forallb (λ e, negb (ChangeEvent_ID e =? id)) (change_events db)) "change_events_pkey" in
  let row := mkChangeEvent id (e_EntityType arg) (e_EntityID arg) (e_UserID arg)
    (e_OpType arg) (e_Payload arg) version (ts_now ctx) (ts_now ctx) Timestamptz_zero in
  Ok (tt, set_change_events (change_events db ++ [row]) db).

Definition GetChangeEventByID (id : Z) : stmt ChangeEvent :=
  read_stmt (λ db, match List.find (λ e, ChangeEvent_ID e =? id) (change_events db) with
                   | Some e => Ok e
                   | None => Err (sentinel ErrNoRows)
                   end).

(** [ORDER BY created_at DESC, id DESC]. *)
Definition event_desc (e f : ChangeEvent) : Prop :=
  ts_Time (ChangeEvent_CreatedAt f) < ts_Time (ChangeEvent_CreatedAt e) ∨
  (ts_Time (ChangeEvent_CreatedAt f) = ts_Time (ChangeEvent_CreatedAt e) ∧
   ChangeEvent_ID f <= ChangeEvent_ID e).
#[export] Instance event_desc_dec : RelDecision event_desc.
Proof. unfold event_desc. intros e f. apply _. Defined.

Definition ListChangeEvents (limit offset : Z) : stmt (list ChangeEvent) :=
  read_stmt (λ db, limit_offset limit offset (merge_sort event_desc (change_events db))).

(** ** users *)

Record CreateUserParams := mkCreateUserParams {
  cu_ID : pgUUID; cu_Email : string; cu_HashedPassword : string;
  cu_CreatedAt : Timestamptz; cu_UpdatedAt : Timestamptz; cu_DeletedAt : Timestamptz }.

Record UpdateUserParams := mkUpdateUserParams {
  uu_ID : pgUUID; uu_Email : string; uu_HashedPassword : string;
  uu_UpdatedAt : Timestamptz; uu_DeletedAt : Timestamptz }.

Definition users_list (db : DB) : list User := (map_to_list (users db)).*2.

(** [users.email] is UNIQUE over all rows, deleted ones included. *)
Definition email_free (db : DB) (except : option UUID) (email : string) : bool :=
  forallb (λ u, negb (String.eqb (User_Email u) email)
                || bool_decide (Some (UUID_Bytes (User_ID u)) = except)) (users_list db).

Definition CreateUser (arg : CreateUserParams) : stmt unit := λ _ db,
  try _ := require (UUID_Valid (cu_ID arg) && ts_Valid (cu_CreatedAt arg)
                    && ts_Valid (cu_UpdatedAt arg)) "not-null constraint" in
  try _ := require (negb (is_some (users db !! UUID_Bytes (cu_ID arg)))) "users_pkey" in
  try _ := require (email_free db None (cu_Email arg)) "users_email_key" in
  let row := mkUser (cu_ID arg) (cu_Email arg) Text_zero (store_ts (cu_CreatedAt arg))
    (store_ts (cu_UpdatedAt arg)) (store_ts (cu_DeletedAt arg)) 1 (cu_HashedPassword arg) in
  Ok (tt, set_users (<[UUID_Bytes (cu_ID arg) := row]> (users db)) db).

(** The server's [LOWER]. *)
Class PgServer := { pg_lower : string → string }.
Class PgServerLaws (S : PgServer) : Prop := {
  pg_lower_ascii s : strings.is_ascii s = true → pg_lower s = strings.str_map strings.lower_char s }.

Definition user_live (u : User) : bool := is_null_ts (User_DeletedAt u).

Definition GetUserByEmail `{PgServer} (email : string) : stmt User :=
  read_stmt (λ db,
    match List.find (λ u, String.eqb (pg_lower (User_Email u)) (pg_lower email) && user_live u)
            (users_list db) with
    | Some u => Ok u
    | None => Err (sentinel ErrNoRows)
    end).

Definition user_where (db : DB) (id : pgUUID) : outcome User :=
  match (if UUID_Valid id then users db !! UUID_Bytes id else None) with
  | Some u => if user_live u then Ok u else Err (sentinel ErrNoRows)
  | None => Err (sentinel ErrNoRows)
  end.

Definition GetUserByID (id : pgUUID) : stmt User := read_stmt (λ db, user_where db id).

Definition UpdateUser (arg : UpdateUserParams) : stmt unit := λ _ db,
  match user_where db (uu_ID arg) with
  | Ok old =>
      try _ := require (ts_Valid (uu_UpdatedAt arg)) "not-null constraint" in
      try _ := require (email_free db (Some (UUID_Bytes (uu_ID arg))) (uu_Email arg)) "users_email_key" in
      let row := mkUser (User_ID old) (uu_Email arg) (User_DisplayName old) (User_CreatedAt old)
        (store_ts (uu_UpdatedAt arg)) (store_ts (uu_DeletedAt arg)) (User_Version old)
        (uu_HashedPassword arg) in
      Ok (tt, set_users (<[UUID_Bytes (uu_ID arg) := row]> (users db)) db)
  | _ => Ok (tt, db)
  end.

(** ** refresh_tokens *)

Record CreateRefreshTokenParams := mkCreateRefreshTokenParams {
  cr_ID : pgUUID; cr_UserID : pgUUID; cr_EncryptedToken : string; cr_ExpiresAt : Timestamptz;
  cr_Revoked : bool; cr_CreatedAt : Timestamptz; cr_UpdatedAt : Timestamptz;
  cr_DeletedAt : Timestamptz }.

Definition CreateRefreshToken (arg : CreateRefreshTokenParams) : stmt unit := λ _ db,
  try _ := require (UUID_Valid (cr_ID arg) && UUID_Valid (cr_UserID arg)
                    && ts_Valid (cr_ExpiresAt arg) && ts_Valid (cr_CreatedAt arg)
                    && ts_Valid (cr_UpdatedAt arg)) "not-null constraint" in
  try _ := require (negb (is_some (refresh_tokens db !! UUID_Bytes (cr_ID arg)))) "refresh_tokens_pkey" in
  try _ := require (is_some (users db !! UUID_Bytes (cr_UserID arg))) "refresh_tokens_user_id_fkey" in
  let row := mkRefreshToken (cr_ID arg) (cr_UserID arg) (cr_EncryptedToken arg)
    (store_ts (cr_ExpiresAt arg)) (cr_Revoked arg) (store_ts (cr_CreatedAt arg))
    (store_ts (cr_UpdatedAt arg)) (store_ts (cr_DeletedAt arg)) in
  Ok (tt, set_refresh_tokens (<[UUID_Bytes (cr_ID arg) := row]> (refresh_tokens db)) db).

Definition GetRefreshTokenByID (id : pgUUID) : stmt RefreshToken :=
  read_stmt (λ db,
    match (if UUID_Valid id then refresh_tokens db !! UUID_Bytes id else None) with
    | Some r => Ok r
    | None => Err (sentinel ErrNoRows)
    end).

(** [ORDER BY expires_at DESC, revoked, created_at DESC, id DESC]. *)
Definition token_key (r : RefreshToken) : Z * Z * Z * N :=
  (- ts_Time (RefreshToken_ExpiresAt r), (if RefreshToken_Revoked r then 1 else 0),
   - ts_Time (RefreshToken_CreatedAt r), uuid_num (UUID_Bytes (RefreshToken_ID r))).
Definition token_order (r s : RefreshToken) : Prop :=
  let '(e1, v1, c1, i1) := token_key r in
  let '(e2, v2, c2, i2) := token_key s in
  e1 < e2 ∨ (e1 = e2 ∧ (v1 < v2 ∨ (v1 = v2 ∧ (c1 < c2 ∨ (c1 = c2 ∧ (i2 <= i1)%N))))).
#[export] Instance token_order_dec : RelDecision token_order.
Proof. unfold token_order. intros r s. destruct (token_key r) as [[[??]?]?], (token_key s) as [[[??]?]?]. apply _. Defined.

Definition GetRefreshTokensByUserID (user : pgUUID) : stmt (list RefreshToken) :=
  read_stmt (λ db, Ok (merge_sort token_order
    (List.filter (λ r, uuid_matches user (UUID_Bytes (RefreshToken_UserID r)))
       (map_to_list (refresh_tokens db)).*2))).

Definition revoke_row (ctx : SqlCtx) (r : RefreshToken) : RefreshToken :=
  mkRefreshToken (RefreshToken_ID r) (RefreshToken_UserID r) (RefreshToken_EncryptedToken r)
    (RefreshToken_ExpiresAt r) true (RefreshToken_CreatedAt r) (ts_now ctx)
    (RefreshToken_DeletedAt r).

(** [:exec]: updating no row is not an error. *)
Definition RevokeRefreshToken (id : pgUUID) : stmt unit := λ ctx db,
  if UUID_Valid id
  then Ok (tt, set_refresh_tokens (alter (revoke_row ctx) (UUID_Bytes id) (refresh_tokens db)) db)
  else Ok (tt, db).

End queries.

Import queries.

(** ** What the writing statements do when they succeed *)

(** Invert a chain of [try]s that returned a value. *)
Ltac inv_try H :=
  repeat match type of H with
  | obind _ _ = Ok _ => apply obind_Ok_inv in H as (? & ? & H); simpl in H
  | (let '(_, _) := ?p in _) = Ok _ => destruct p
  end.

Lemma require_Ok b msg u : require b msg = Ok u → b = true.
Proof. unfold require. by destruct b. Qed.

Lemma bigint_Ok z v : bigint z = Ok v → v = z ∧ in_int64 z.
Proof.
  unfold bigint, in_int64. intros H. destruct ((min_int64 <=? z) && (z <=? max_int64)) eqn:E; [|done].
  bool_to_prop. naive_solver.
Qed.

Lemma transaction_where_Ok db id cond t :
  transaction_where db id cond = Ok t →
  UUID_Valid id = true ∧ transactions db !! UUID_Bytes id = Some t ∧ cond t = true.
Proof.
  unfold transaction_where. destruct (UUID_Valid id); [|done].
  destruct (transactions db !! UUID_Bytes id) as [u|]; [|done].
  destruct (cond u) eqn:E; [|done]. intros [= ->]. done.
Qed.

Lemma transaction_where_error db id cond :
  (∃ t, transaction_where db id cond = Ok t) ∨ transaction_where db id cond = Err (sentinel ErrNoRows).
Proof. unfold transaction_where. repeat go_case; eauto. Qed.

Lemma CreateTransaction_Ok arg ctx d row d' :
  CreateTransaction arg ctx d = Ok (row, d') →
  d' = set_transactions (<[sql_uuid ctx := row]> (transactions d)) d ∧
  transactions d !! sql_uuid ctx = None ∧ ID row = mkPgUUID (sql_uuid ctx) true ∧
  UserID row = c_UserID arg ∧ Version row = c_Version arg ∧ DeletedAt row = store_ts (c_DeletedAt arg) ∧
  check_transaction d row = Ok tt.
Proof.
  unfold CreateTransaction. intros H. inv_try H. destruct x1, x2. injection H as <- <-.
  match goal with H : require _ "transactions_pkey" = _ |- _ => apply require_Ok, negb_true_iff in H; rename H into Hpk end.
  split_and!; try done. by destruct (transactions d !! sql_uuid ctx).
Qed.

(** The row an update stores over [old]. *)
Definition update_row (arg : UpdateTransactionParams) (old row : Transaction) : Prop :=
  ∃ amount currency now,
    numeric_18_2 (u_Amount arg) = Ok amount ∧ char3 (u_Currency arg) = Ok currency ∧ ts_Valid now = true ∧
    row = mkTransaction (ID old) (UserID old) (u_AccountID arg) amount currency (u_Type arg)
      (store_uuid (u_CategoryID arg)) (store_text (u_Description arg)) (store_ts (u_OccurredAt arg))
      (u_Metadata arg) (Version old + 1) now (u_Source arg) (store_text (u_SheetsRowID arg))
      (CreatedAt old) now (DeletedAt old).

Lemma UpdateTransaction_Ok arg ctx d row d' :
  UpdateTransaction arg ctx d = Ok (row, d') →
  ∃ old, transactions d !! UUID_Bytes (u_ID arg) = Some old ∧
    d' = set_transactions (<[UUID_Bytes (u_ID arg) := row]> (transactions d)) d ∧
    UUID_Valid (u_ID arg) = true ∧ Version old = u_Version arg ∧
    UUID_Bytes (UserID old) = UUID_Bytes (u_UserID arg) ∧ update_row arg old row ∧
    check_transaction d row = Ok tt.
Proof.
  unfold UpdateTransaction. intros H. inv_try H. destruct x3. injection H as <- <-.
  match goal with H : transaction_where _ _ _ = _ |- _ => apply transaction_where_Ok in H as (? & ? & Hc) end.
  match goal with H : bigint _ = _ |- _ => apply bigint_Ok in H as [-> ?] end.
  unfold owned_by in Hc. bool_to_prop.
  match goal with H : bool_decide _ = true |- _ => apply bool_decide_eq_true in H end.
  eexists. split_and!; [done..| |done]. do 3 eexists. split_and!; [done..| |done]; done.
Qed.

(** The row a soft delete stores over [old]: only the version and the three
    times it sets differ. *)
Definition deleted_row (old row : Transaction) : Prop :=
  ∃ now, ts_Valid now = true ∧
    row = mkTransaction (ID old) (UserID old) (AccountID old) (Amount old) (Currency old) (Type_ old)
      (CategoryID old) (Description old) (OccurredAt old) (Metadata old) (Version old + 1) now
      (Source old) (SheetsRowID old) (CreatedAt old) now now.

Lemma SoftDeleteByID_Ok id ctx d row d' :
  SoftDeleteTransactionByID id ctx d = Ok (row, d') →
  ∃ old, transactions d !! UUID_Bytes id = Some old ∧
    d' = set_transactions (<[UUID_Bytes id := row]> (transactions d)) d ∧
    UUID_Valid id = true ∧ not_deleted old = true ∧ in_int64 (Version row) ∧ deleted_row old row.
Proof.
  unfold SoftDeleteTransactionByID, soft_delete_where. intros H. inv_try H. injection H as <- <-.
  match goal with H : transaction_where _ _ _ = _ |- _ => apply transaction_where_Ok in H as (? & ? & ?) end.
  match goal with H : bigint _ = _ |- _ => apply bigint_Ok in H as [-> ?] end.
  eexists. split_and!; [done..|]. by exists (ts_now ctx).
Qed.

Lemma update_row_fields arg old row :
  update_row arg old row →
  ID row = ID old ∧ UserID row = UserID old ∧ Version row = Version old + 1 ∧
  CreatedAt row = CreatedAt old ∧ DeletedAt row = DeletedAt old.
Proof. by intros (amount & currency & now & _ & _ & _ & ->). Qed.

Lemma deleted_row_fields old row :
  deleted_row old row →
  ID row = ID old ∧ UserID row = UserID old ∧ Version row = Version old + 1 ∧
  ts_Valid (DeletedAt row) = true.
Proof. by intros (now & Hv & ->). Qed.

Lemma InsertChangeEvent_Ok arg ctx d u d' :
  InsertChangeEvent arg ctx d = Ok (u, d') →
  is_some (e_Payload arg) = true ∧
  d' = set_change_events (change_events d ++
    [mkChangeEvent (sql_serial ctx) (e_EntityType arg) (e_EntityID arg) (e_UserID arg) (e_OpType arg)
       (e_Payload arg) (e_Version arg) (ts_now ctx) (ts_now ctx) Timestamptz_zero]) d ∧
  in_int64 (sql_serial ctx) ∧ in_int64 (e_Version arg) ∧
  Forall (λ e, ChangeEvent_ID e ≠ sql_serial ctx) (change_events d).
Proof.
  unfold InsertChangeEvent. intros H. inv_try H. injection H as <- <-.
  repeat match goal with
  | H : bigint _ = _ |- _ => apply bigint_Ok in H as [-> ?]
  | H : require _ _ = _ |- _ => apply require_Ok in H
  end.
  bool_to_prop. split_and!; try done. apply Forall_forall. intros e He E.
  match goal with H : forallb _ _ = true |- _ => rewrite forallb_forall in H; specialize (H e) end.
  rewrite E, Z.eqb_refl in *. match goal with H : _ → _ = true |- _ => discriminate H end. by apply list_elem_of_In.
Qed.

(** Addresses identify users. *)
Definition emails_unique (d : DB) : Prop :=
  ∀ i j u v, users d !! i = Some u → users d !! j = Some v → User_Email u = User_Email v → i = j.

Lemma email_free_spec d except email i u :
  email_free d except email = true → users d !! i = Some u → User_Email u = email →
  Some (UUID_Bytes (User_ID u)) = except.
Proof.
  unfold email_free, users_list. rewrite forallb_forall. intros H Hu <-.
  assert (In u (map_to_list (users d)).*2) as Hin.
  { apply list_elem_of_In, list_elem_of_fmap. exists (i, u). split; [done|]. by apply elem_of_map_to_list. }
  specialize (H u Hin). rewrite String.eqb_refl in H. by apply bool_decide_eq_true in H.
Qed.
