(* ===== verification/Effects.v ===== *)
(** * Effects: the state and error monad of the development

    Effectful code runs in [M A]: a function of the [World] returning an
    [outcome] and the next world.  The world holds the committed database,
    the stack of open transactions, the record of what was sent to other
    services, and a counter of the effects performed so far.  What the
    environment answers to the n-th effect (clock readings, random bytes,
    fresh identifiers, failures) is read from the class [Env] at index [n]:
    a theorem over every [Env] covers every failure schedule.

    [wp m Q w] says that running [m] from [w] ends in an outcome and world
    satisfying [Q]; the lemmas of the last section compute it. *)

From S2P Require Import Prelude GoInt GoStrings GoTime GoValues Pgtypex Schema.

(** ** World and environment *)

(** The dynamic types of the values of a stream entry. *)
Inductive RedisValue :=
| RString (s : string)
| RBytes (s : string)
| RInt (z : Z)
| RInt64 (z : Z).

(** [redis.XMessage] and [redis.XStream]. *)
Record XMessage := mkXMessage { xm_ID : string; xm_Values : gmap string RedisValue }.
Record XStream := mkXStream { xs_Stream : string; xs_Messages : list XMessage }.

(** Effects on other services and on time, in the order they happen. *)
Inductive Event :=
| EvXAdd (stream : string) (values : gmap string RedisValue)
| EvXGroupCreate (stream group : string)
| EvXReadGroup (stream group consumer : string) (count block : Z)
| EvXAck (stream group id : string)
| EvSheetsGet (sheet range : string)
| EvSheetsUpdate (sheet range : string) (rows : list (list any))
| EvWait (d : Z).

Record World := mkWorld {
  w_db : DB;                    (* committed state *)
  w_txs : list (DB * Time);     (* open transactions: working state and start time, newest first *)
  w_trace : list Event;         (* oldest first *)
  w_tick : nat;
}.

(** A failing database call: [FaultBefore] leaves the database as it was;
    [FaultAfter] is a connection lost after the server applied the effect. *)
Inductive Fault :=
| FaultBefore (msg : string)
| FaultAfter (msg : string).

Class Env := {
  env_clock : nat → Time;               (* time.Now *)
  env_sql : nat → SqlCtx;               (* NOW(), serial and gen_random_uuid() *)
  env_fault : nat → option Fault;       (* database calls *)
  env_newv4 : nat → outcome UUID;       (* uuid.NewV4 *)
  env_rand : nat → Z → outcome string;  (* io.ReadFull(rand.Reader, b) *)
  env_redis : nat → option error;       (* XADD, XGROUP CREATE, XACK *)
  env_read : nat → outcome (list XStream);          (* XREADGROUP *)
  env_sheets_get : nat → outcome (list (list any)); (* spreadsheets.values.get *)
  env_sheets_update : nat → option error;           (* spreadsheets.values.update *)
  env_done : nat → bool;                (* ctx.Done() is closed *)
}.

(** The environment variables, which nothing but the start of the finance-api
    changes ([Entry]). *)
Class Process := { Getenv : string → string }.

(** Serial values come out of a sequence: later calls get larger values;
    [io.ReadFull] fills its buffer or fails. *)
Class EnvLaws (E : Env) : Prop := {
  env_rand_len n k s : env_rand n k = Ok s → 0 <= k → strings.len s = k;
  env_serial_mono n m : (n < m)%nat → sql_serial (env_sql n) < sql_serial (env_sql m);
  env_serial_pos n : 0 < sql_serial (env_sql n);
}.

Definition M (A : Type) : Type := World → outcome A * World.

Definition ret {A} (a : A) : M A := λ w, (Ok a, w).
Definition fail {A} (e : error) : M A := λ w, (Err e, w).
Definition gopanic {A} (msg : string) : M A := λ w, (Panic msg, w).
Definition lift {A} (o : outcome A) : M A := λ w, (o, w).

Definition bind {A B} (m : M A) (k : A → M B) : M B := λ w,
  match m w with
  | (Ok a, w') => k a w'
  | (Err e, w') => (Err e, w')
  | (Panic s, w') => (Panic s, w')
  end.

Declare Scope m_scope.
Delimit Scope m_scope with M.
Notation "'let!' x ':=' m 'in' k" := (bind m (λ x, k))
  (at level 10, x pattern, m at level 100, k at level 200) : m_scope.
Notation "m ;;; k" := (bind m (λ _, k))
  (at level 100, k at level 200, right associativity) : m_scope.
Open Scope m_scope.

(** Run [m] and hand its error to the caller as a value ([x, err := f()]);
    panics keep propagating. *)
Definition attempt {A} (m : M A) : M (outcome A) := λ w,
  match m w with
  | (Ok a, w') => (Ok (Ok a), w')
  | (Err e, w') => (Ok (Err e), w')
  | (Panic s, w') => (Panic s, w')
  end.

(** [_ = f()]. *)
Definition discard {A} (m : M A) : M unit := let! _ := attempt m in ret tt.

(** [if err != nil { return fmt.Errorf("ctx: %w", err) }] after a call. *)
Definition wrap_err {A} (ctx : string) (m : M A) : M A := λ w,
  let '(r, w') := m w in (with_context ctx r, w').

Section Primitives.
Context {E : Env}.

Definition tick (w : World) : World :=
  mkWorld (w_db w) (w_txs w) (w_trace w) (S (w_tick w)).

Definition set_db (d : DB) (w : World) : World :=
  mkWorld d (w_txs w) (w_trace w) (w_tick w).
Definition set_txs (t : list (DB * Time)) (w : World) : World :=
  mkWorld (w_db w) t (w_trace w) (w_tick w).

Definition emit (ev : Event) : M unit := λ w,
  (Ok tt, mkWorld (w_db w) (w_txs w) (w_trace w ++ [ev]) (S (w_tick w))).

(** [time.Now().UTC()]. *)
Definition Now : M Time := λ w, (Ok (env_clock (w_tick w)), tick w).
(** [uuid.Must(uuid.NewV4())]: [Must] panics on an error. *)
Definition must {A} (o : outcome A) : outcome A :=
  match o with Err e => Panic (Error e) | _ => o end.
Definition NewV4 : M UUID := λ w, (must (env_newv4 (w_tick w)), tick w).
(** [randRead(make([]byte, n))]. *)
Definition randRead (n : Z) : M string := λ w, (env_rand (w_tick w) n, tick w).

(** [ctx.Done()] in a [select] with a default, and [ctx.Err()]. *)
Definition Done : M bool := λ w, (Ok (env_done (w_tick w)), tick w).

(** [select] on [ctx.Done()] and [time.After(d)]: true when cancelled. *)
Definition Wait (d : Z) : M bool := emit (EvWait d) ;;; Done.

(** A command whose reply is an error or nothing of interest. *)
Definition command (ev : Event) (reply : nat → option error) : M unit := λ w,
  match reply (w_tick w) with
  | Some e => (Err e, snd (emit ev w))
  | None => emit ev w
  end.

Definition XAdd (stream : string) (values : gmap string RedisValue) : M unit :=
  command (EvXAdd stream values) env_redis.
Definition XGroupCreateMkStream (stream group : string) : M unit :=
  command (EvXGroupCreate stream group) env_redis.
Definition XAck (stream group id : string) : M unit :=
  command (EvXAck stream group id) env_redis.
Definition XReadGroup (stream group consumer : string) (count block : Z) : M (list XStream) := λ w,
  (env_read (w_tick w), snd (emit (EvXReadGroup stream group consumer count block) w)).

(** A [pgx.Tx] is the depth of its transaction in the stack; the handle is
    dead once the stack has shrunk below it. *)
Definition Tx : Type := nat.
Definition ErrTxClosed : error := foreign "tx is closed".

(** The executor behind a [sqlcdb.DBTX]: the pool or a transaction. *)
Inductive DBTX := Pool | InTx (tx : Tx).

(** Statements inside a transaction see its start time as [NOW()]. *)
Definition ctx_at (n : nat) (now : option Time) : SqlCtx :=
  match now with
  | Some t => mkSqlCtx t (sql_serial (env_sql n)) (sql_uuid (env_sql n))
  | None => env_sql n
  end.

Definition exec {A} (c : DBTX) (s : stmt A) : M A := λ w,
  let n := w_tick w in
  let w1 := tick w in
  match c with
  | Pool =>
      match env_fault n, s (ctx_at n None) (w_db w) with
      | Some (FaultBefore m), _ => (Err (foreign m), w1)
      | Some (FaultAfter m), Ok (_, d') => (Err (foreign m), set_db d' w1)
      | Some (FaultAfter m), _ => (Err (foreign m), w1)
      | None, Ok (a, d') => (Ok a, set_db d' w1)
      | None, Err e => (Err e, w1)
      | None, Panic m => (Panic m, w1)
      end
  | InTx t =>
      match w_txs w with
      | (d, now) :: rest =>
          if bool_decide (List.length rest = t) then
            match env_fault n, s (ctx_at n (Some now)) d with
            | Some (FaultBefore m), _ | Some (FaultAfter m), _ => (Err (foreign m), w1)
            | None, Ok (a, d') => (Ok a, set_txs ((d', now) :: rest) w1)
            | None, Err e => (Err e, w1)
            | None, Panic m => (Panic m, w1)
            end
          else (Err ErrTxClosed, w1)
      | [] => (Err ErrTxClosed, w1)
      end
  end.

Definition BeginTx : M Tx := λ w,
  let n := w_tick w in
  match env_fault n with
  | Some (FaultBefore m) | Some (FaultAfter m) => (Err (foreign m), tick w)
  | None => (Ok (List.length (w_txs w)),
             set_txs ((w_db w, sql_now (env_sql n)) :: w_txs w) (tick w))
  end.

(** Commit publishes the working state; the transaction is closed whatever
    the answer. *)
Definition Commit (t : Tx) : M unit := λ w,
  match w_txs w with
  | (d, _) :: rest =>
      if bool_decide (List.length rest = t) then
        match env_fault (w_tick w) with
        | Some (FaultBefore m) => (Err (foreign m), set_txs rest (tick w))
        | Some (FaultAfter m) => (Err (foreign m), set_db d (set_txs rest (tick w)))
        | None => (Ok tt, set_db d (set_txs rest (tick w)))
        end
      else (Err ErrTxClosed, tick w)
  | [] => (Err ErrTxClosed, tick w)
  end.

Definition Rollback (t : Tx) : M unit := λ w,
  match w_txs w with
  | _ :: rest =>
      if bool_decide (List.length rest = t) then (Ok tt, set_txs rest (tick w))
      else (Err ErrTxClosed, tick w)
  | [] => (Err ErrTxClosed, tick w)
  end.

End Primitives.

(** ** Weakest preconditions *)

Definition wp {A} (m : M A) (Q : outcome A → World → Prop) (w : World) : Prop :=
  match m w with (r, w') => Q r w' end.

Section WP.
Context {E : Env} {A B : Type}.
Implicit Types (w : World).

Lemma wp_use (m : M A) Q w r w' : wp m Q w → m w = (r, w') → Q r w'.
Proof. unfold wp. intros H Eq. by rewrite Eq in H. Qed.

Lemma wp_mono (m : M A) (P Q : outcome A → World → Prop) w :
  wp m P w → (∀ r w', P r w' → Q r w') → wp m Q w.
Proof. unfold wp. destruct (m w). auto. Qed.

Lemma wp_always (m : M A) (Q : outcome A → World → Prop) w : (∀ r w', Q r w') → wp m Q w.
Proof. unfold wp. destruct (m w). auto. Qed.

Lemma wp_and (m : M A) (P Q : outcome A → World → Prop) w :
  wp m P w → wp m Q w → wp m (λ r w', P r w' ∧ Q r w') w.
Proof. unfold wp. destruct (m w). auto. Qed.

Lemma wp_when (H : Prop) (m : M A) (Q : outcome A → World → Prop) w :
  (H → wp m Q w) → wp m (λ r w', H → Q r w') w.
Proof. unfold wp. destruct (m w). auto. Qed.

Lemma wp_ret (a : A) Q w : Q (Ok a) w → wp (ret a) Q w.
Proof. done. Qed.

Lemma wp_fail e (Q : outcome A → World → Prop) w : Q (Err e) w → wp (fail e) Q w.
Proof. done. Qed.

Lemma wp_lift (o : outcome A) Q w : Q o w → wp (lift o) Q w.
Proof. done. Qed.

Lemma wp_bind (m : M A) (k : A → M B) Q w :
  wp m (λ r w', match r with
                | Ok a => wp (k a) Q w'
                | Err e => Q (Err e) w'
                | Panic s => Q (Panic s) w'
                end) w →
  wp (bind m k) Q w.
Proof. unfold wp, bind. destruct (m w) as [[]]; auto. Qed.

Lemma wp_attempt (m : M A) Q w :
  wp m (λ r w', match r with Panic s => Q (Panic s) w' | _ => Q (Ok r) w' end) w →
  wp (attempt m) Q w.
Proof. unfold wp, attempt. destruct (m w) as [[]]; auto. Qed.

Lemma wp_discard (m : M A) Q w :
  wp m (λ r w', match r with Panic s => Q (Panic s) w' | _ => Q (Ok tt) w' end) w →
  wp (discard m) Q w.
Proof. unfold wp, discard, bind, attempt, ret. destruct (m w) as [[]]; auto. Qed.

Lemma wp_wrap_err ctx (m : M A) Q w :
  wp m (λ r w', Q (with_context ctx r) w') w → wp (wrap_err ctx m) Q w.
Proof. unfold wp, wrap_err. by destruct (m w). Qed.

Lemma wp_Now (Q : outcome Time → World → Prop) w :
  Q (Ok (env_clock (w_tick w))) (tick w) → wp Now Q w.
Proof. done. Qed.

Lemma wp_NewV4 (Q : outcome UUID → World → Prop) w :
  Q (must (env_newv4 (w_tick w))) (tick w) → wp NewV4 Q w.
Proof. done. Qed.

Lemma wp_randRead n (Q : outcome string → World → Prop) w :
  Q (env_rand (w_tick w) n) (tick w) → wp (randRead n) Q w.
Proof. done. Qed.

(** The error of a failed database call comes from the schedule. *)
Definition db_fault (e : error) : Prop :=
  ∃ n m, e = foreign m ∧ (env_fault n = Some (FaultBefore m) ∨ env_fault n = Some (FaultAfter m)).

Lemma wp_exec_tx {C} (s : stmt C) d now rest (Q : outcome C → World → Prop) w :
  w_txs w = (d, now) :: rest →
  match s (ctx_at (w_tick w) (Some now)) d with
  | Ok (a, d') => Q (Ok a) (set_txs ((d', now) :: rest) (tick w))
  | Err e => Q (Err e) (tick w)
  | Panic m => Q (Panic m) (tick w)
  end →
  (∀ e, db_fault e → Q (Err e) (tick w)) →
  wp (exec (InTx (List.length rest)) s) Q w.
Proof.
  intros Htx Hs Hf. unfold wp, exec. rewrite Htx, bool_decide_eq_true_2 by done.
  destruct (env_fault (w_tick w)) as [[m|m]|] eqn:Ef.
  - apply Hf. exists (w_tick w), m. auto.
  - apply Hf. exists (w_tick w), m. auto.
  - by destruct (s _ d) as [[]| |].
Qed.

Lemma wp_exec_pool {C} (s : stmt C) (Q : outcome C → World → Prop) w :
  match s (ctx_at (w_tick w) None) (w_db w) with
  | Ok (a, d') => Q (Ok a) (set_db d' (tick w)) ∧ (∀ e, db_fault e → Q (Err e) (set_db d' (tick w)))
  | Err e => Q (Err e) (tick w)
  | Panic m => Q (Panic m) (tick w)
  end →
  (∀ e, db_fault e → Q (Err e) (tick w)) →
  wp (exec Pool s) Q w.
Proof.
  intros Hs Hf. unfold wp, exec.
  destruct (env_fault (w_tick w)) as [[m|m]|] eqn:Ef.
  - apply Hf. exists (w_tick w), m. auto.
  - assert (db_fault (foreign m)) by (exists (w_tick w), m; auto).
    destruct (s _ _) as [[]| |]; [by apply Hs|by apply Hf..].
  - destruct (s _ _) as [[]| |]; [apply Hs|done..].
Qed.

Lemma wp_emit ev (Q : outcome unit → World → Prop) w :
  Q (Ok tt) (mkWorld (w_db w) (w_txs w) (w_trace w ++ [ev]) (S (w_tick w))) → wp (emit ev) Q w.
Proof. done. Qed.

Lemma wp_Done (Q : outcome bool → World → Prop) w :
  Q (Ok (env_done (w_tick w))) (tick w) → wp Done Q w.
Proof. done. Qed.

(** A command leaves its event in the trace whatever the reply. *)
Lemma wp_command ev reply (Q : outcome unit → World → Prop) w :
  (∀ r, (match reply (w_tick w) with Some e => r = Err e | None => r = Ok tt end) →
     Q r (mkWorld (w_db w) (w_txs w) (w_trace w ++ [ev]) (S (w_tick w)))) →
  wp (command ev reply) Q w.
Proof. intros H. unfold wp, command. destruct (reply (w_tick w)); by apply H. Qed.

End WP.

Lemma wp_snd {A} (m : M A) (P : World → Prop) w : wp m (λ _ w', P w') w → P (snd (m w)).
Proof. unfold wp. by destruct (m w). Qed.

(** Inversion of a successful bind. *)
Lemma bind_Ok_inv {A B} (m : M A) (k : A → M B) w b w' :
  bind m k w = (Ok b, w') → ∃ a w1, m w = (Ok a, w1) ∧ k a w1 = (Ok b, w').
Proof. unfold bind. destruct (m w) as [[]]; [eauto|done..]. Qed.

#[export] Hint Resolve wp_ret wp_fail wp_lift wp_Now wp_NewV4 wp_randRead wp_emit : go.

(** One step of symbolic execution of a [wp] goal. *)
Ltac wp_step :=
  lazymatch goal with
  | |- wp (bind _ _) _ _ => apply wp_bind
  | |- wp (ret _) _ _ => apply wp_ret
  | |- wp (fail _) _ _ => apply wp_fail
  | |- wp (lift _) _ _ => apply wp_lift
  | |- wp (attempt _) _ _ => apply wp_attempt
  | |- wp (discard _) _ _ => apply wp_discard
  | |- wp (wrap_err _ _) _ _ => apply wp_wrap_err
  | |- wp Now _ _ => apply wp_Now
  | |- wp NewV4 _ _ => apply wp_NewV4
  | |- wp (randRead _) _ _ => apply wp_randRead
  | |- wp (emit _) _ _ => apply wp_emit
  | |- wp Done _ _ => apply wp_Done
  | |- wp (if ?b then _ else _) _ _ => destruct b eqn:?
  | |- wp (match ?x with _ => _ end) _ _ => destruct x eqn:?
  end.

(** ** Frames: what a computation leaves alone *)

Section Reads.
Context {E : Env}.

(** Reads and computations that leave the database and the transactions
    alone. *)
Definition reads {A} (m : M A) : Prop :=
  ∀ w, wp m (λ _ w', w_db w' = w_db w ∧ w_txs w' = w_txs w ∧ w_trace w' = w_trace w) w.

Lemma reads_bind {A C} (m : M A) (k : A → M C) : reads m → (∀ a, reads (k a)) → reads (bind m k).
Proof.
  intros Hm Hk w. wp_step. eapply wp_mono; [apply Hm|]. intros r w1 (H1 & H2 & H3).
  destruct r as [a|e|m']; [|done..]. eapply wp_mono; [apply Hk|]. intros r w2 (H4 & H5 & H6).
  split_and!; congruence.
Qed.

Lemma reads_wrap_err {A} ctx (m : M A) : reads m → reads (wrap_err ctx m).
Proof. intros Hm w. wp_step. apply Hm. Qed.

Lemma reads_attempt {A} (m : M A) : reads m → reads (attempt m).
Proof. intros Hm w. wp_step. eapply wp_mono; [apply Hm|]. by intros [] w1 H. Qed.

Lemma reads_lift {A} (o : outcome A) : reads (lift o).
Proof. intros w. by wp_step. Qed.

Lemma reads_ret {A} (a : A) : reads (ret a).
Proof. intros w. by wp_step. Qed.

Lemma reads_fail {A} e : reads (fail (A := A) e).
Proof. intros w. by wp_step. Qed.

Lemma reads_exec {A} (f : DB → outcome A) : reads (exec Pool (read_stmt f)).
Proof.
  intros w. apply wp_exec_pool; [|done]. unfold read_stmt. by destruct (f (w_db w)).
Qed.

Lemma reads_tick {A} (f : World → outcome A) : reads (λ w, (f w, tick w)).
Proof. by intros w. Qed.

End Reads.

Create HintDb reads.
#[export] Hint Resolve reads_lift reads_ret reads_fail reads_exec reads_wrap_err reads_attempt : reads.
