(* ===== verification/Crypto.v ===== *)
(** * Crypto: encryption of stored secrets

    Models [pkg/shared/crypto/crypto.go]: the key read from the environment,
    [Encrypt] and [Decrypt] with AES-256-GCM, and the constant-time
    comparison.  Decryption accepts exactly what encryption produces. *)

From S2P Require Import Prelude GoInt GoStrings Base64 Aes GoTime GoValues Pgtypex Schema Effects.
Import strings.

(** [encoding/hex]. *)
Module hex.

Definition fromHexChar (c : ascii) : option Z :=
  let b := byte_val c in
  if (48 <=? b) && (b <=? 57) then Some (b - 48)
  else if (97 <=? b) && (b <=? 102) then Some (b - 97 + 10)
  else if (65 <=? b) && (b <=? 70) then Some (b - 65 + 10)
  else None.

Fixpoint DecodeString (s : string) : option string :=
  match s with
  | EmptyString => Some EmptyString
  | String _ EmptyString => None
  | String a (String b rest) =>
      hi ← fromHexChar a; lo ← fromHexChar b; t ← DecodeString rest;
      Some (String (byte (16 * hi + lo)) t)
  end.

End hex.

Module crypto.

Definition KeySizeBytes : Z := 32.

Section Crypto.
Context {P : Process}.

(** The outcome of [keyOnce]: [key] or [keyErr]. *)
Definition initKey : outcome string :=
  let raw := Getenv "APP_CRYPTO_KEY" in
  if String.eqb raw "" then Err (sentinel ErrKeyMissing)
  else
    let sized o := match o with Some k => if len k =? KeySizeBytes then Some k else None | None => None end in
    match sized (hex.DecodeString raw), sized (base64.DecodeString raw) with
    | Some key, _ => Ok key
    | None, Some key => Ok key
    | None, None => Err (wrapError "" (sentinel ErrKeyMissing) ": key must decode to 32 bytes")
    end.

(** [aes.NewCipher], on the one key size [initKey] lets through. *)
Definition NewCipher (key : string) : outcome (list (list ascii)) :=
  if len key =? KeySizeBytes then Ok (aes.round_keys (to_chars key))
  else Err (foreign "crypto/aes: invalid key size").

(** [gcm.Seal(nonce, nonce, plaintext, nil)] panics on nonces of another
    size and on messages too large for the counter. *)
Definition seal (ks : list (list ascii)) (nonce plaintext : string) : outcome string :=
  if negb (len nonce =? gcm.NonceSize) then Panic "crypto/cipher: incorrect nonce length given to GCM"
  else if (2 ^ 32 - 2) * 16 <? len plaintext then Panic "crypto/cipher: message too large for GCM"
  else Ok (of_chars (gcm.Seal ks (to_chars nonce) (to_chars nonce) (to_chars plaintext))).

Definition Decrypt (ciphertext : string) : outcome string :=
  try key := initKey in
  try block := with_context "aes new cipher" (NewCipher key) in
  if len ciphertext <? gcm.NonceSize then Err (errorString "crypto: ciphertext too short")
  else
    let n := Z.to_nat gcm.NonceSize in
    match gcm.Open block (to_chars (str_take n ciphertext)) (to_chars (str_drop n ciphertext)) with
    | Some data => Ok (of_chars data)
    | None => Err (foreign "cipher: message authentication failed")
    end.

Definition Encrypt `{Env} (plaintext : string) : M string :=
  let! key := lift initKey in
  let! block := lift (with_context "aes new cipher" (NewCipher key)) in
  let! nonce := wrap_err "rand nonce" (randRead gcm.NonceSize) in
  lift (seal block nonce plaintext).

End Crypto.

(** The loop ORs the differences together. *)
Fixpoint differences (out : Z) (a b : string) : Z :=
  match a, b with
  | String x a', String y b' => differences (Z.lor out (Z.lxor (byte_val x) (byte_val y))) a' b'
  | _, _ => out
  end.

Definition ConstantTimeCompare (a b : string) : bool :=
  if negb (len a =? len b) then false else differences 0 a b =? 0.

End crypto.

Import crypto.

(** ** Comparison *)

Lemma differences_zero out a b :
  len a = len b → 0 <= out → (differences out a b = 0 ↔ out = 0 ∧ a = b).
Proof.
  unfold len. revert out b. induction a as [|x a IH]; intros out [|y b] Hl Ho; simpl in *; try lia.
  - naive_solver.
  - pose proof (byte_val_range x). pose proof (byte_val_range y).
    rewrite IH; [|lia|]. 2: { rewrite Z.lor_nonneg, Z.lxor_nonneg. lia. }
    rewrite Z.lor_eq_0_iff, Z.lxor_eq_0_iff. split.
    + intros [[-> E] ->]. apply byte_val_inj in E as ->. done.
    + by intros [-> [= -> ->]].
Qed.

(** The constant-time comparison is equality of byte strings. *)
Theorem ConstantTimeCompare_spec a b : ConstantTimeCompare a b = bool_decide (a = b).
Proof.
  unfold ConstantTimeCompare. destruct (Z.eqb_spec (len a) (len b)) as [E|E]; simpl.
  - pose proof (differences_zero 0 a b E ltac:(lia)) as H.
    case_bool_decide as Hab; [apply Z.eqb_eq; tauto|apply Z.eqb_neq; tauto].
  - rewrite bool_decide_eq_false_2; [done|]. by intros ->.
Qed.

(** ** Encryption *)

Section Facts.
Context {P : Process}.

Lemma initKey_len key : initKey = Ok key → len key = KeySizeBytes.
Proof.
  unfold initKey. intros H. repeat (case_match; try done); simplify_eq;
    repeat match goal with E : (_ =? _) = true |- _ => apply Z.eqb_eq in E end; done.
Qed.

Lemma initKey_cases :
  (∃ key, initKey = Ok key) ∨ initKey = Err (sentinel ErrKeyMissing) ∨
  (Getenv "APP_CRYPTO_KEY" ≠ ""%string ∧
   initKey = Err (wrapError "" (sentinel ErrKeyMissing) ": key must decode to 32 bytes")).
Proof.
  unfold initKey. destruct (String.eqb_spec (Getenv "APP_CRYPTO_KEY") ""); [auto|].
  cbv zeta. repeat case_match; eauto.
Qed.

(** The key is either 32 bytes long or reported missing: no other key is
    ever used. *)
Theorem initKey_spec :
  match initKey with
  | Ok key => len key = KeySizeBytes
  | Err e => Is e ErrKeyMissing = true ∧ (Getenv "APP_CRYPTO_KEY" = ""%string → e = sentinel ErrKeyMissing)
  | Panic _ => False
  end.
Proof.
  destruct initKey_cases as [[key H]|[H|[Hr H]]]; rewrite H; [by apply initKey_len|done|].
  split; [done|]. intros E. congruence.
Qed.

Lemma str_take_drop n s : String.append (str_take n s) (str_drop n s) = s.
Proof. revert n. induction s as [|c s IH]; intros [|n]; simpl; try done. by rewrite IH. Qed.

(** The ciphertext of a plaintext under a nonce. *)
Definition sealed (key nonce plaintext : string) : string :=
  of_chars (gcm.Seal (aes.round_keys (to_chars key)) (to_chars nonce) (to_chars nonce) (to_chars plaintext)).

Lemma to_chars_len s : Z.of_nat (List.length (to_chars s)) = len s.
Proof. unfold len. induction s as [|c s IH]; simpl; [done|]. lia. Qed.

Lemma to_chars_take_drop n s :
  to_chars (str_take n s) = take n (to_chars s) ∧ to_chars (str_drop n s) = drop n (to_chars s).
Proof. revert n. induction s as [|c s IH]; intros [|n]; simpl; try done. destruct (IH n) as [-> ->]. done. Qed.

Lemma NewCipher_key key : initKey = Ok key → NewCipher key = Ok (aes.round_keys (to_chars key)).
Proof. intros H. unfold NewCipher. by rewrite (initKey_len key H). Qed.

(** The split of a sealed message. *)
Lemma sealed_split key nonce p :
  len nonce = gcm.NonceSize →
  take 12 (to_chars (sealed key nonce p)) = to_chars nonce ∧
  drop 12 (to_chars (sealed key nonce p)) = gcm.Seal (aes.round_keys (to_chars key)) [] (to_chars nonce) (to_chars p).
Proof.
  intros Hn. unfold sealed. rewrite to_of_chars. unfold gcm.Seal. rewrite <- to_chars_len in Hn.
  assert (List.length (to_chars nonce) = 12%nat) as Hl by (unfold gcm.NonceSize in Hn; lia).
  split; [by rewrite take_app_length'|by rewrite drop_app_length'].
Qed.

(** [Decrypt] with a key, on the bytes of its argument. *)
Lemma Decrypt_with key c :
  initKey = Ok key →
  Decrypt c =
    if len c <? gcm.NonceSize then Err (errorString "crypto: ciphertext too short")
    else match gcm.Open (aes.round_keys (to_chars key)) (take 12 (to_chars c)) (drop 12 (to_chars c)) with
         | Some data => Ok (of_chars data)
         | None => Err (foreign "cipher: message authentication failed")
         end.
Proof.
  intros Hk. unfold Decrypt. rewrite Hk. cbn [obind]. rewrite (NewCipher_key key Hk). cbn [obind with_context].
  change (Z.to_nat gcm.NonceSize) with 12%nat. by destruct (to_chars_take_drop 12 c) as [-> ->].
Qed.

Lemma Decrypt_sealed key nonce p :
  initKey = Ok key → len nonce = gcm.NonceSize → len p <= (2 ^ 32 - 2) * 16 →
  Decrypt (sealed key nonce p) = Ok p.
Proof.
  intros Hk Hn Hp. rewrite (Decrypt_with key) by done. destruct (sealed_split key nonce p Hn) as [Ht Hd].
  destruct (Z.ltb_spec (len (sealed key nonce p)) gcm.NonceSize) as [Hlt|_].
  { rewrite <- to_chars_len in Hlt. apply (f_equal List.length) in Ht. rewrite length_take in Ht.
    pose proof (to_chars_len nonce). unfold gcm.NonceSize in *. lia. }
  rewrite Ht, Hd.
  rewrite Open_Seal by (by rewrite to_chars_len). by rewrite of_to_chars.
Qed.

(** C17: what [Encrypt] returns decrypts to the plaintext, and it fails only
    when there is no key or no randomness. *)
Theorem Decrypt_Encrypt `{E : Env} {EL : EnvLaws E} plaintext w :
  len plaintext <= (2 ^ 32 - 2) * 16 →
  wp (Encrypt plaintext) (λ r w', (w' = w ∨ w' = tick w) ∧
    match r with
    | Ok c => Decrypt c = Ok plaintext
    | Err e => initKey = Err e ∨ ∃ e', e = wrapf "rand nonce" e' ∧ env_rand (w_tick w) gcm.NonceSize = Err e'
    | Panic m => env_rand (w_tick w) gcm.NonceSize = Panic m
    end) w.
Proof.
  intros Hp. unfold Encrypt. wp_step. apply wp_lift. pose proof initKey_cases as Hkey.
  destruct initKey as [key|e|m] eqn:Ek; [|by auto|naive_solver].
  wp_step. wp_step. rewrite (NewCipher_key key Ek). cbn [with_context].
  wp_step. wp_step. wp_step. destruct (env_rand (w_tick w) gcm.NonceSize) as [nonce|e|m] eqn:Er; cbn [with_context]; [|(split; [by auto|by eauto])..].
  wp_step. pose proof (env_rand_len _ _ _ Er ltac:(done)) as Hn. split; [auto|].
  unfold seal. rewrite Hn, Z.eqb_refl. cbn [negb].
  destruct (Z.ltb_spec ((2 ^ 32 - 2) * 16) (len plaintext)); [lia|]. by apply (Decrypt_sealed key).
Qed.

(** C18: decryption accepts nothing but what encryption produces under the
    key: a ciphertext is accepted exactly when it is the sealed form, under
    some nonce, of the plaintext it yields. *)
Theorem Decrypt_authentic key c p :
  initKey = Ok key → len p <= (2 ^ 32 - 2) * 16 →
  Decrypt c = Ok p ↔ ∃ nonce, len nonce = gcm.NonceSize ∧ c = sealed key nonce p.
Proof.
  intros Hk Hp. split.
  - rewrite (Decrypt_with key) by done.
    destruct (Z.ltb_spec (len c) gcm.NonceSize) as [|Hl]; [done|].
    destruct (gcm.Open _ _ _) as [data|] eqn:Eo; [|done]. intros [= <-].
    apply Open_Some in Eo as (ct & Hct & ->). exists (str_take 12 c).
    destruct (to_chars_take_drop 12 c) as [Ht _]. rewrite <- to_chars_len, Ht, length_take.
    rewrite <- to_chars_len in Hl. unfold gcm.NonceSize in *. split; [lia|].
    rewrite <- (of_to_chars c) at 1. unfold sealed. f_equal. rewrite Ht. unfold gcm.Seal.
    rewrite to_of_chars, ctr_involutive, <- Hct. by rewrite take_drop.
  - intros (nonce & Hn & ->). by apply Decrypt_sealed.
Qed.

End Facts.
