(* ===== verification/AuthTokens.v ===== *)
(** * AuthTokens: tokens, e-mail addresses and the request context

    Models [pkg/shared/auth] ([context.go], [refresh_token.go], [jwt.go]) and
    [pkg/shared/stringsx]: the client's refresh token, the signed access
    token, the identity in a request context and the normal form of e-mail
    addresses.  The JWT library is a parameter. *)

From S2P Require Import Prelude GoInt GoStrings Base64 GoTime GoValues Pgtypex Schema Effects.
Import strings.

Module stringsx.

Definition NormalizeEmail `{Unicode} (s : string) : string := TrimSpace (ToLower s).

End stringsx.

(** ** github.com/golang-jwt/jwt/v5 *)

Record Claims := mkClaims {
  Subject : string; IssuedAt : Time; ExpiresAt : Time; Claims_UserID : string; Claims_Email : string }.

(** What a key function sees of a token: its [alg] header and whether the
    method is [*jwt.SigningMethodHMAC]. *)
Record JwtToken := mkJwtToken { alg : string; method_HMAC : bool }.

(** [SignedString] signs with HS256; [ParseWithClaims] decodes a token,
    checks its signature with the key of the key function and its dates
    against the clock, and reports [token.Valid]. *)
Class JwtLib := {
  jwt_NewNumericDate : Time → Time;
  jwt_SignedString : string → Claims → outcome string;
  jwt_ParseWithClaims : Time → (JwtToken → outcome string) → string → outcome (Claims * bool);
}.

(** Claims whose JSON form is read back as they are. *)
Definition plain_claims (c : Claims) : Prop :=
  is_ascii (Subject c) = true ∧ is_ascii (Claims_UserID c) = true ∧ is_ascii (Claims_Email c) = true.

Class JwtLaws (J : JwtLib) : Prop := {
  (** dates have a precision of one second *)
  jwt_date t : jwt_NewNumericDate t = t / Second * Second;
  jwt_signs key c : ∃ tok, jwt_SignedString key c = Ok tok;
  (** a signed token is accepted under its key until it expires *)
  jwt_accepts key c tok kf now :
    jwt_SignedString key c = Ok tok → plain_claims c → kf (mkJwtToken "HS256" true) = Ok key →
    now < ExpiresAt c → jwt_ParseWithClaims now kf tok = Ok (c, true);
  jwt_expires key c tok kf now :
    jwt_SignedString key c = Ok tok → kf (mkJwtToken "HS256" true) = Ok key →
    ExpiresAt c <= now → ∃ m, jwt_ParseWithClaims now kf tok = Err (foreign m);
  (** nothing is accepted without a key *)
  jwt_needs_key kf tok now r :
    jwt_ParseWithClaims now kf tok = Ok r → ∃ t key, kf t = Ok key;
}.

Module auth.

(** ** [refresh_token.go] *)

Definition colon : ascii := ascii_of_N 58.

Section Tokens.
Context {UL : UuidLib}.

Definition EncodeRefreshToken (id : UUID) (secret : string) : string :=
  String.append (uuid_String id) (String colon (base64.EncodeToString secret)).

Definition DecodeRefreshToken (s : string) : outcome (UUID * string) :=
  let idx := IndexByte s colon in
  if (idx <=? 0) || (len s - 1 <=? idx) then Err (errorString "invalid refresh token format")
  else
    try id := uuid_FromString (str_take (Z.to_nat idx) s) in
    match base64.DecodeString (str_drop (Z.to_nat (idx + 1)) s) with
    | Some secret => Ok (id, secret)
    | None => Err (foreign "illegal base64 data")
    end.

End Tokens.

(** ** [context.go] *)

Definition Context : Type := gmap string string.
Definition userIDContextKey : string := "userID".
Definition emailContextKey : string := "email".

Definition WithUserID (ctx : Context) (userID : string) : Context := <[userIDContextKey := userID]> ctx.
Definition WithEmail (ctx : Context) (email : string) : Context := <[emailContextKey := email]> ctx.
Definition UserIDFromContext (ctx : Context) : string := default "" (ctx !! userIDContextKey).
Definition EmailFromContext (ctx : Context) : string := default "" (ctx !! emailContextKey).

Lemma UserIDFromContext_With (ctx : Context) user email :
  UserIDFromContext (WithEmail (WithUserID ctx user) email) = user.
Proof.
  unfold UserIDFromContext, WithEmail, WithUserID, Context.
  by rewrite lookup_insert_ne, lookup_insert_eq by done.
Qed.

(** ** [jwt.go] *)

Section Jwt.
Context {P : Process} {J : JwtLib} {E : Env}.

Definition initJWTKey : outcome string :=
  let raw := Getenv "JWT_SIGNING_KEY" in
  if String.eqb raw "" then Err (sentinel ErrJWTKeyMissing) else Ok raw.

Definition claims_of (userID email : string) (now : Time) (exp : Z) : Claims :=
  mkClaims userID (jwt_NewNumericDate now) (jwt_NewNumericDate (time.Add now exp)) userID email.

Definition Sign (userID email : string) (exp : Z) : M string :=
  let! jwtKey := lift initJWTKey in
  let! now := Now in
  lift (with_context "jwt sign" (jwt_SignedString jwtKey (claims_of userID email now exp))).

(** The key function: HMAC methods only. *)
Definition keyfunc (jwtKey : string) (t : JwtToken) : outcome string :=
  if negb (method_HMAC t) then Err (errorString ("unexpected signing method: " +:+ alg t)) else Ok jwtKey.

Definition Verify (tokenString : string) : M (string * string) :=
  let! jwtKey := lift initJWTKey in
  let! now := Now in
  let! token := lift (with_context "jwt verify" (jwt_ParseWithClaims now (keyfunc jwtKey) tokenString)) in
  let '(claims, valid) := token in
  if negb valid then fail (errorString "jwt: invalid token or claims")
  else ret (Claims_UserID claims, Claims_Email claims).

End Jwt.

End auth.

Import auth.

(** ** Refresh tokens *)

Section Tokens.
Context {UL : UuidLib} {ULaws : UuidLaws UL}.

Lemma uuid_text_no_colon u : str_forall (λ c, negb (Ascii.eqb c colon)) (uuid_String u) = true.
Proof.
  eapply str_forall_impl; [|apply uuid_String_chars]. intros c Hc. cbv beta in Hc |- *.
  destruct (Ascii.eqb_spec c colon) as [->|]; [|done]. by vm_compute in Hc.
Qed.

(** A refresh token carries its id and secret to the client and back. *)
Theorem DecodeRefreshToken_EncodeRefreshToken id secret :
  secret ≠ ""%string → DecodeRefreshToken (EncodeRefreshToken id secret) = Ok (id, secret).
Proof.
  intros Hs. unfold DecodeRefreshToken, EncodeRefreshToken.
  rewrite IndexByte_app by apply IndexByte_absent, uuid_text_no_colon.
  pose proof (uuid_String_len id) as Hl. pose proof (EncodeToString_nonempty secret Hs) as He.
  rewrite len_app, Hl. set (enc := base64.EncodeToString secret) in *.
  assert (Hlen : 0 < len enc) by (destruct enc; [done|unfold len; simpl; lia]).
  assert (len (String colon enc) = 1 + len enc) as -> by (unfold len; simpl; lia).
  destruct (Z.leb_spec 36 0); [lia|]. destruct (Z.leb_spec (36 + (1 + len enc) - 1) 36); [lia|]. cbn [orb].
  assert (Hn : String.length (uuid_String id) = 36%nat) by (unfold len in Hl; lia).
  change (Z.to_nat 36) with 36%nat. rewrite <- Hn, str_take_app, uuid_FromString_String. cbn [obind].
  change (Z.to_nat (36 + 1)) with (S 36). rewrite <- Hn.
  assert (str_drop (S (String.length (uuid_String id))) (String.append (uuid_String id) (String colon enc)) = enc) as ->.
  { clear. induction (uuid_String id) as [|c s IH]; [done|]. exact IH. }
  unfold enc. by rewrite DecodeString_EncodeToString.
Qed.

End Tokens.

(** ** Access tokens *)

Lemma jwt_verified `{J : JwtLib} {JL : JwtLaws J} key tok now now' user email exp :
  jwt_SignedString key (claims_of user email now exp) = Ok tok →
  is_ascii user = true → is_ascii email = true →
  if now' <? (now + exp) / Second * Second
  then jwt_ParseWithClaims now' (keyfunc key) tok = Ok (claims_of user email now exp, true)
  else ∃ m, jwt_ParseWithClaims now' (keyfunc key) tok = Err (foreign m).
Proof.
  intros Hs Hu He. destruct (Z.ltb_spec now' ((now + exp) / Second * Second)) as [Hlt|Hge].
  - eapply jwt_accepts; [done|by split_and!|done|]. simpl. rewrite jwt_date. exact Hlt.
  - eapply jwt_expires; [done|done|]. simpl. rewrite jwt_date. exact Hge.
Qed.

(** C19: an access token identifies the user it was signed for until it
    expires, and nobody afterwards. *)
Theorem Verify_Sign `{P : Process} {J : JwtLib} {JL : JwtLaws J} {E : Env} user email exp w tok w1 w2 :
  Sign user email exp w = (Ok tok, w1) → is_ascii user = true → is_ascii email = true →
  if env_clock (w_tick w2) <? (env_clock (w_tick w) + exp) / Second * Second
  then Verify tok w2 = (Ok (user, email), tick w2)
  else ∃ m, Verify tok w2 = (Err (wrapf "jwt verify" (foreign m)), tick w2).
Proof.
  unfold Sign, Verify. intros H Hu He.
  apply bind_Ok_inv in H as (key & w0 & Hkey & H). injection Hkey as Hkey <-.
  apply bind_Ok_inv in H as (now & w0 & [= <- <-] & H). injection H as H <-.
  apply with_context_Ok in H. unfold bind at 1 3, lift at 1 3. rewrite Hkey.
  pose proof (jwt_verified key tok _ (env_clock (w_tick w2)) user email exp H Hu He) as Hv.
  unfold bind, Now, lift. destruct (_ <? _).
  - by rewrite Hv.
  - destruct Hv as [m Hm]. exists m. by rewrite Hm.
Qed.

(** Without a signing key nothing is signed and nothing is accepted. *)
Theorem jwt_key_required `{P : Process} {J : JwtLib} {E : Env} w :
  Getenv "JWT_SIGNING_KEY" = ""%string →
  (∀ user email exp, Sign user email exp w = (Err (sentinel ErrJWTKeyMissing), w)) ∧
  (∀ tok, Verify tok w = (Err (sentinel ErrJWTKeyMissing), w)).
Proof.
  intros H. unfold Sign, Verify, initJWTKey, bind, lift. by rewrite H.
Qed.

(** ** E-mail addresses *)

Section Email.
Context {U : Unicode}.

Fixpoint drop_space (l : list ascii) : list ascii :=
  match l with c :: l' => if ascii_space c then drop_space l' else l | [] => [] end.

Definition strip (l : list ascii) : list ascii := rev (drop_space (rev (drop_space l))).

Lemma trim_end_ascii l :
  Forall (λ c, is_ascii_char c = true) l → trim_end_loop l = of_chars (rev (drop_space l)).
Proof.
  induction 1 as [|c l Hc Hl IH]; [done|]. cbn [trim_end_loop drop_space]. rewrite Hc. cbn [negb].
  by destruct (ascii_space c).
Qed.

Lemma TrimSpace_ascii s : is_ascii s = true → TrimSpace s = of_chars (strip (to_chars s)).
Proof.
  intros Ha. apply is_ascii_chars in Ha. unfold strip.
  induction s as [|c s IH]; [done|]. cbn [to_chars] in Ha. apply Forall_cons in Ha as [Hc Hs].
  cbn [TrimSpace to_chars drop_space]. rewrite Hc. cbn [negb].
  destruct (ascii_space c); [by apply IH|]. rewrite trim_end_ascii; [done|].
  apply Forall_rev. by constructor.
Qed.

Lemma drop_space_app l r :
  forallb ascii_space l = true → drop_space (l ++ r) = drop_space r.
Proof. induction l as [|c l IH]; simpl; [done|]. by destruct (ascii_space c). Qed.

Lemma drop_space_snoc l r :
  forallb ascii_space l = false → drop_space (l ++ r) = drop_space l ++ r.
Proof. induction l as [|c l IH]; simpl; [done|]. by destruct (ascii_space c). Qed.

Lemma drop_space_all l : forallb ascii_space l = true → drop_space l = [].
Proof. intros H. rewrite <- (app_nil_r l), drop_space_app; done. Qed.

Lemma forallb_rev {A} (f : A → bool) l : forallb f (rev l) = forallb f l.
Proof.
  induction l as [|x l IH]; [done|]. simpl. rewrite forallb_app, IH. simpl. destruct (f x), (forallb f l); done.
Qed.

Lemma strip_spaces w l w' :
  forallb ascii_space w = true → forallb ascii_space w' = true → strip (w ++ l ++ w') = strip l.
Proof.
  intros Hw Hw'. unfold strip. rewrite drop_space_app by done.
  destruct (forallb ascii_space l) eqn:El.
  - rewrite drop_space_app, (drop_space_all w'), (drop_space_all l) by done. done.
  - rewrite drop_space_snoc, rev_app_distr, drop_space_app by (rewrite ?forallb_rev; done). done.
Qed.

Lemma drop_space_split l : ∃ w, l = w ++ drop_space l ∧ forallb ascii_space w = true.
Proof.
  induction l as [|c l (w & E & Hw)]; [by exists []|]. simpl.
  destruct (ascii_space c) eqn:Ec; [|by exists []]. exists (c :: w). simpl. rewrite Ec. split; [by f_equal|done].
Qed.

(** A list is its stripped form between white space. *)
Lemma strip_split l :
  ∃ w w', l = w ++ strip l ++ w' ∧ forallb ascii_space w = true ∧ forallb ascii_space w' = true.
Proof.
  destruct (drop_space_split l) as (w & E & Hw).
  destruct (drop_space_split (rev (drop_space l))) as (v & E' & Hv).
  exists w, (rev v). unfold strip. split_and!; [|done|by rewrite forallb_rev].
  rewrite <- rev_app_distr, <- E', rev_involutive. exact E.
Qed.

Lemma strip_idempotent l : strip (strip l) = strip l.
Proof. destruct (strip_split l) as (w & w' & E & Hw & Hw'). rewrite E at 2. by rewrite strip_spaces. Qed.

Lemma lower_char_spec c :
  ascii_space (lower_char c) = ascii_space c ∧ lower_char (lower_char c) = lower_char c ∧
  is_ascii_char (lower_char c) = is_ascii_char c.
Proof. destruct c as [[] [] [] [] [] [] [] []]; by repeat split. Qed.

Lemma to_chars_map f s : to_chars (str_map f s) = map f (to_chars s).
Proof. induction s as [|c s IH]; simpl; [done|]. by rewrite IH. Qed.

Lemma is_ascii_lower s : is_ascii (str_map lower_char s) = is_ascii s.
Proof.
  unfold is_ascii. induction s as [|c s IH]; simpl; [done|]. rewrite IH. f_equal. apply lower_char_spec.
Qed.

Lemma NormalizeEmail_ascii s :
  is_ascii s = true → stringsx.NormalizeEmail s = of_chars (strip (map lower_char (to_chars s))).
Proof.
  intros Ha. unfold stringsx.NormalizeEmail, ToLower. rewrite Ha.
  rewrite TrimSpace_ascii by (by rewrite is_ascii_lower). by rewrite to_chars_map.
Qed.

Lemma strip_Forall P l : Forall P l → Forall P (strip l).
Proof.
  intros H. destruct (strip_split l) as (w & w' & E & _). rewrite E in H.
  apply Forall_app in H as [_ H]. by apply Forall_app in H as [H _].
Qed.

Lemma lower_strip l : map lower_char (strip (map lower_char l)) = strip (map lower_char l).
Proof.
  assert (H : Forall (λ c, lower_char c = c) (strip (map lower_char l))).
  { apply strip_Forall, List.Forall_forall. intros c Hc. apply in_map_iff in Hc as (d & <- & _). apply lower_char_spec. }
  induction H as [|c r Hc _ IH]; simpl; [done|]. by rewrite Hc, IH.
Qed.

(** The normal form of an ASCII address depends neither on the case of
    its letters nor on the white space around it, and is its own normal
    form. *)
Theorem NormalizeEmail_canonical s t w w' :
  is_ascii s = true → is_ascii t = true → forallb ascii_space w = true → forallb ascii_space w' = true →
  map lower_char (to_chars t) = w ++ map lower_char (to_chars s) ++ w' →
  stringsx.NormalizeEmail t = stringsx.NormalizeEmail s ∧
  stringsx.NormalizeEmail (stringsx.NormalizeEmail s) = stringsx.NormalizeEmail s.
Proof.
  intros Hs Ht Hw Hw' E. split.
  - rewrite !NormalizeEmail_ascii by done. by rewrite E, strip_spaces.
  - assert (Ha : is_ascii (stringsx.NormalizeEmail s) = true).
    { rewrite NormalizeEmail_ascii by done. apply is_ascii_chars. rewrite to_of_chars. apply strip_Forall.
      apply List.Forall_forall. intros c Hc. apply in_map_iff in Hc as (d & <- & Hd).
      apply is_ascii_chars in Hs. rewrite List.Forall_forall in Hs. destruct (lower_char_spec d) as (_ & _ & ->).
      by apply Hs. }
    rewrite (NormalizeEmail_ascii (stringsx.NormalizeEmail s)) by done.
    rewrite NormalizeEmail_ascii by done. by rewrite to_of_chars, lower_strip, strip_idempotent.
Qed.

End Email.
