(* ===== verification/Models.v ===== *)
(** * Models: the structs of [internal/db], [internal/domain]

    [db.Transaction] and its parameter structs, [db.TransactionFilter],
    [db.ChangeEvent], [db.User], [db.RefreshToken] and [domain.Transaction].
    [Metadata], a [map[string]any] decoded from JSON, is a finite map of JSON
    values, [None] being the nil map. *)

From S2P Require Import Prelude GoInt GoStrings GoTime GoValues Json Pgtypex Schema.

#[local] Existing Instance Json.key_le_dec.

Abbreviation JsonMap := (option (gmap string json)) (only parsing).

Module db.

Record Transaction := mkTransaction {
  ID : UUID; UserID : UUID; AccountID : UUID; Amount : float64; Currency : string;
  Type_ : string; CategoryID : option UUID; Description : option string; OccurredAt : Time;
  Metadata : JsonMap; Version : Z; LastModified : Time; Source : string;
  SheetsRowID : option string; CreatedAt : Time; UpdatedAt : Time; DeletedAt : Time }.

Record CreateTransactionParams := mkCreateTransactionParams {
  cp_UserID : UUID; cp_AccountID : UUID; cp_Amount : float64; cp_Currency : string;
  cp_Type : string; cp_CategoryID : option UUID; cp_Description : option string;
  cp_OccurredAt : Time; cp_Metadata : JsonMap; cp_Version : Z; cp_LastModified : Time;
  cp_Source : string; cp_SheetsRowID : option string; cp_CreatedAt : Time;
  cp_UpdatedAt : Time; cp_DeletedAt : Time }.

Record UpdateTransactionParams := mkUpdateTransactionParams {
  up_ID : UUID; up_UserID : UUID; up_AccountID : UUID; up_Amount : float64;
  up_Currency : string; up_Type : string; up_CategoryID : option UUID;
  up_Description : option string; up_OccurredAt : Time; up_Metadata : JsonMap;
  up_Source : string; up_SheetsRowID : option string; up_Version : Z;
  up_CreatedAt : Time; up_UpdatedAt : Time; up_DeletedAt : Time }.

Record TransactionFilter := mkTransactionFilter {
  f_UserID : UUID; f_AccountID : option UUID; f_Type : option string;
  f_FromOccurredAt : option Time; f_ToOccurredAt : option Time; f_Limit : Z; f_Offset : Z }.

Record ChangeEvent := mkChangeEvent {
  ce_EntityType : string; ce_EntityID : string; ce_UserID : string; ce_OpType : string;
  ce_Payload : option json; ce_Version : Z }.

Record User := mkUser {
  User_ID : UUID; User_Email : string; User_HashedPassword : string;
  User_CreatedAt : Time; User_UpdatedAt : Time; User_Deleted : bool }.

Record RefreshToken := mkRefreshToken {
  RefreshToken_ID : UUID; RefreshToken_UserID : UUID; RefreshToken_EncryptedToken : string;
  RefreshToken_ExpiresAt : Time; RefreshToken_Revoked : bool; RefreshToken_CreatedAt : Time }.

End db.

Module domain.

Record Transaction := mkTransaction {
  ID : string; UserID : string; AccountID : string; Amount : float64; Currency : string;
  Type_ : string; CategoryID : option string; Description : option string; OccurredAt : Time;
  Metadata : JsonMap; Version : Z; LastModified : Time; Source : string;
  SheetsRowID : option string; CreatedAt : Time; UpdatedAt : Time; DeletedAt : Time }.

End domain.

(** ** JSON of Go values *)

(** [encoding/json] refuses NaN and infinities. *)
Fixpoint json_valid (j : json) : bool :=
  match j with
  | JFloat f => f64_finite f
  | JArr l => forallb json_valid l
  | JObj l => forallb (λ p, json_valid p.2) l
  | _ => true
  end.

Definition json_marshal (j : json) : option json := if json_valid j then Some j else None.

(** Maps are written with their keys sorted. *)
Definition json_of_map (m : JsonMap) : json :=
  match m with
  | None => JNull
  | Some m => Json.map_value m
  end.

(** [json.Unmarshal] into a nil [map[string]any]. *)
Definition map_of_json (j : json) : outcome JsonMap := Json.put_map None j.

Definition json_opt (s : option string) : json :=
  match s with None => JNull | Some s => JStr s end.

(** [json.Marshal(tx)] of a [*domain.Transaction]: fields in declaration
    order under their Go names; [None] when encoding fails (a float that is
    not finite, a year outside 0..9999). *)
Definition Transaction_json (t : domain.Transaction) : option json :=
  occurred ← time.MarshalText (domain.OccurredAt t);
  modified ← time.MarshalText (domain.LastModified t);
  created ← time.MarshalText (domain.CreatedAt t);
  updated ← time.MarshalText (domain.UpdatedAt t);
  deleted ← time.MarshalText (domain.DeletedAt t);
  json_marshal (JObj [
    ("ID", JStr (domain.ID t)); ("UserID", JStr (domain.UserID t));
    ("AccountID", JStr (domain.AccountID t)); ("Amount", JFloat (domain.Amount t));
    ("Currency", JStr (domain.Currency t)); ("Type", JStr (domain.Type_ t));
    ("CategoryID", json_opt (domain.CategoryID t)); ("Description", json_opt (domain.Description t));
    ("OccurredAt", JStr occurred); ("Metadata", json_of_map (domain.Metadata t));
    ("Version", JInt (domain.Version t)); ("LastModified", JStr modified);
    ("Source", JStr (domain.Source t)); ("SheetsRowID", json_opt (domain.SheetsRowID t));
    ("CreatedAt", JStr created); ("UpdatedAt", JStr updated); ("DeletedAt", JStr deleted)])%string.

(** ** Round trip of a metadata map *)

Lemma foldl_insert_list_to_map (m0 : gmap string json) l :
  NoDup l.*1 →
  foldl (λ m (p : string * json), <[p.1 := p.2]> m) m0 l = list_to_map l ∪ m0.
Proof.
  revert m0. induction l as [|[k v] l IH]; intros m0 Hnd; simpl.
  - by rewrite (left_id_L ∅ (∪)).
  - inversion Hnd as [|? ? Hk Hl]; subst. rewrite IH by done.
    rewrite <- insert_union_l. apply map_eq. intros i.
    rewrite insert_union_r by (by apply not_elem_of_list_to_map_1).
    done.
Qed.

Lemma put_members_foldl (m : gmap string json) l :
  Forall (λ p, Json.any_value p.2 = Ok p.2) l →
  Json.put_members m l = Ok (foldl (λ m (p : string * json), <[p.1 := p.2]> m) m l).
Proof.
  intros H. revert m. induction H as [|[k v] l Hv _ IH]; intros m; [done|].
  cbn [snd] in Hv. cbn [Json.put_members foldl]. rewrite Hv. apply IH.
Qed.

(** Values that came out of a JSON text come back as they are. *)
Lemma map_of_json_of_map m :
  map_Forall (λ _ v, Json.any_value v = Ok v) m → map_of_json (json_of_map (Some m)) = Ok (Some m).
Proof.
  intros Hv. unfold map_of_json, json_of_map, Json.map_value, Json.put_map.
  pose proof (merge_sort_Permutation Json.key_le (map_to_list m)) as HP.
  rewrite put_members_foldl, foldl_insert_list_to_map; cbn [obind]; unfold default.
  - do 2 f_equal. rewrite (right_id_L ∅ (∪)). rewrite <- (list_to_map_to_list m) at 2.
    apply list_to_map_proper; [|done].
    rewrite HP. apply NoDup_fst_map_to_list.
  - rewrite HP. apply NoDup_fst_map_to_list.
  - rewrite HP. apply map_Forall_to_list in Hv. eapply Forall_impl; [exact Hv|]. by intros [].
Qed.
