(* ===== verification/TxRunner.v ===== *)
(** * TxRunner: running a function inside a database transaction

    Models [internal/db/tx.go].  [RunInTx_atomic] is the contract the
    services rely on: whatever fails, and wherever, the committed state is
    either the one before the call or the working state of a body that
    returned without error, and the transaction is closed. *)

From S2P Require Import Prelude GoInt GoStrings GoTime GoValues Pgtypex Schema Effects.

Section RunInTx.
Context {E : Env}.

(** [PGXTxRunner.RunInTx]; the deferred function rolls back on a panic,
    which it re-raises, and on an error. *)
Definition RunInTx {A} (fn : Tx → M A) : M A := λ w,
  match BeginTx w with
  | (Ok tx, w1) =>
      match fn tx w1 with
      | (Ok a, w2) =>
          match Commit tx w2 with
          | (Ok _, w3) => (Ok a, w3)
          | (Err e, w3) => (Err e, snd (Rollback tx w3))
          | (Panic s, w3) => (Panic s, snd (Rollback tx w3))
          end
      | (Err e, w2) => (Err e, snd (Rollback tx w2))
      | (Panic s, w2) => (Panic s, snd (Rollback tx w2))
      end
  | (Err e, w1) => (Err e, w1)
  | (Panic s, w1) => (Panic s, w1)
  end.

(** The [db.TxRunner] interface. *)
Record TxRunner := mkTxRunner { tr_RunInTx : ∀ A, (Tx → M A) → M A }.
Definition NewTxRunner : TxRunner := mkTxRunner (λ A fn, RunInTx fn).

(** Weakest precondition of code that works on one transaction: started with
    the innermost transaction at working state [d], it sends nothing to other
    services, leaves the committed state and the outer transactions alone,
    and ends in an outcome and working state related by [R]. *)
Definition txwp {A} (m : M A) (R : outcome A → DB → Prop) (rest : list (DB * Time)) (d : DB) : Prop :=
  ∀ w now, w_txs w = (d, now) :: rest →
  wp m (λ r w', w_db w' = w_db w ∧ w_trace w' = w_trace w ∧
                ∃ d', w_txs w' = (d', now) :: rest ∧ R r d') w.

(** A function over a transaction handle, seen from that transaction. *)
Definition tx_body {A} (fn : Tx → M A) (d0 : DB) (R : outcome A → DB → Prop) : Prop :=
  ∀ rest, txwp (fn (List.length rest)) R rest d0.

(** The outcomes of a transaction around such a body. *)
Definition tx_post {A} (d0 : DB) (R : outcome A → DB → Prop) (r : outcome A) (d : DB) : Prop :=
  match r with
  | Ok a => R (Ok a) d
  | Panic s => d = d0 ∧ ∃ d', R (Panic s) d'
  | Err e => (d = d0 ∧ (db_fault e ∨ ∃ d', R (Err e) d')) ∨ (db_fault e ∧ ∃ a, R (Ok a) d)
  end.

Lemma Rollback_top d now rest w :
  w_txs w = (d, now) :: rest → Rollback (List.length rest) w = (Ok tt, set_txs rest (tick w)).
Proof. intros H. unfold Rollback. by rewrite H, bool_decide_eq_true_2. Qed.

(** A rollback of a transaction that is already closed changes nothing. *)
Lemma Rollback_closed rest w :
  w_txs w = rest → w_db (snd (Rollback (List.length rest) w)) = w_db w ∧
                   w_txs (snd (Rollback (List.length rest) w)) = rest ∧
                   w_trace (snd (Rollback (List.length rest) w)) = w_trace w.
Proof.
  intros <-. unfold Rollback. destruct (w_txs w) as [|p rest'] eqn:H; [by simpl; rewrite H|].
  rewrite bool_decide_eq_false_2 by (simpl; lia). by simpl; rewrite H.
Qed.

Lemma wp_RunInTx {A} (fn : Tx → M A) R w :
  tx_body fn (w_db w) R →
  wp (RunInTx fn) (λ r w', w_txs w' = w_txs w ∧ w_trace w' = w_trace w ∧ tx_post (w_db w) R r (w_db w')) w.
Proof.
  intros Hbody. unfold wp, RunInTx, BeginTx.
  assert (Hf : ∀ m, env_fault (w_tick w) = Some (FaultBefore m) ∨ env_fault (w_tick w) = Some (FaultAfter m) →
    db_fault (foreign m)) by (intros m ?; exists (w_tick w), m; auto).
  destruct (env_fault (w_tick w)) as [[m|m]|] eqn:Ef; [simpl; split_and!; [done..|left; split; auto]..|].
  set (now := sql_now (env_sql (w_tick w))).
  set (w1 := set_txs ((w_db w, now) :: w_txs w) (tick w)).
  pose proof (Hbody (w_txs w) w1 now eq_refl) as Hb. unfold wp in Hb.
  destruct (fn (List.length (w_txs w)) w1) as [r w2]. destruct Hb as (Hdb & Htr & d' & Htxs & HR).
  change (w_db w1) with (w_db w) in Hdb. change (w_trace w1) with (w_trace w) in Htr.
  destruct r as [a|e|s].
  - unfold Commit. rewrite Htxs, bool_decide_eq_true_2 by done.
    destruct (env_fault (w_tick w2)) as [[m|m]|] eqn:Ef2.
    + destruct (Rollback_closed (w_txs w) (set_txs (w_txs w) (tick w2)) eq_refl) as (H1 & H2 & H3).
      rewrite H1, H2, H3. split_and!; [done..|]. left. split; [done|]. left. exists (w_tick w2), m; auto.
    + destruct (Rollback_closed (w_txs w) (set_db d' (set_txs (w_txs w) (tick w2))) eq_refl) as (H1 & H2 & H3).
      rewrite H1, H2, H3. split_and!; [done..|]. right. split; [exists (w_tick w2), m; auto|by exists a].
    + done.
  - rewrite (Rollback_top _ _ _ _ Htxs). simpl. split_and!; [done..|]. left. eauto.
  - rewrite (Rollback_top _ _ _ _ Htxs). simpl. eauto.
Qed.

(** ** Rules for transaction bodies *)

Section Rules.
Context {A B : Type} (rest : list (DB * Time)).

Lemma txwp_mono (m : M A) (R S : outcome A → DB → Prop) d :
  txwp m R rest d → (∀ r d', R r d' → S r d') → txwp m S rest d.
Proof.
  intros H HRS w now Htx. eapply wp_mono; [by apply H|].
  intros r w' (? & ? & d' & ? & ?). eauto 6.
Qed.

Lemma txwp_bind (m : M A) (k : A → M B) (R : outcome B → DB → Prop) d :
  txwp m (λ r d', match r with
                  | Ok a => txwp (k a) R rest d'
                  | Err e => R (Err e) d'
                  | Panic s => R (Panic s) d'
                  end) rest d →
  txwp (bind m k) R rest d.
Proof.
  intros H w now Htx. apply wp_bind. eapply wp_mono; [by apply H|].
  intros r w' (Hdb & Htr & d' & Htx' & HR). destruct r as [a|e|s]; [|by eauto 6..].
  eapply wp_mono; [by apply HR|]. intros r w'' (? & ? & ?). split_and!; [congruence..|done].
Qed.

Lemma txwp_lift (o : outcome A) (R : outcome A → DB → Prop) d : R o d → txwp (lift o) R rest d.
Proof. intros H w now Htx. apply wp_lift. eauto. Qed.

Lemma txwp_ret (a : A) (R : outcome A → DB → Prop) d : R (Ok a) d → txwp (ret a) R rest d.
Proof. intros H w now Htx. apply wp_ret. eauto. Qed.

Lemma txwp_wrap_err ctx (m : M A) (R : outcome A → DB → Prop) d :
  txwp m (λ r d', R (with_context ctx r) d') rest d → txwp (wrap_err ctx m) R rest d.
Proof. intros H w now Htx. apply wp_wrap_err. by apply H. Qed.

Lemma txwp_Now (R : outcome Time → DB → Prop) d :
  (∀ t, R (Ok t) d) → txwp Now R rest d.
Proof. intros H w now Htx. apply wp_Now. simpl. eauto. Qed.

Lemma txwp_exec (s : stmt A) (R : outcome A → DB → Prop) d :
  (∀ ctx, match s ctx d with
          | Ok (a, d') => R (Ok a) d'
          | Err e => R (Err e) d
          | Panic m => R (Panic m) d
          end) →
  (∀ e, db_fault e → R (Err e) d) →
  txwp (exec (InTx (List.length rest)) s) R rest d.
Proof.
  intros Hs Hf w now Htx. eapply wp_exec_tx; [done| |].
  - specialize (Hs (ctx_at (w_tick w) (Some now))). destruct (s _ d) as [[a d']|e|m]; simpl; eauto 6.
  - intros e He. simpl. eauto 6.
Qed.

End Rules.

End RunInTx.

(** One step of symbolic execution inside a transaction body. *)
Ltac tx_step :=
  lazymatch goal with
  | |- txwp (bind _ _) _ _ _ => apply txwp_bind
  | |- txwp (lift _) _ _ _ => apply txwp_lift
  | |- txwp (ret _) _ _ _ => apply txwp_ret
  | |- txwp (wrap_err _ _) _ _ _ => apply txwp_wrap_err
  | |- txwp Now _ _ _ => apply txwp_Now; intros ?
  end.

(** C6: A transaction is atomic and always closed: whatever its body does on
    its own handle and whichever call fails, the other transactions stay as
    they were, and the committed state is the one before the call or the
    working state of a body that returned without error; the latter goes with
    an error only when the answer to an applied commit was lost. *)
Theorem RunInTx_atomic {E : Env} {A} (fn : Tx → M A) R w :
  tx_body fn (w_db w) R →
  wp (RunInTx fn) (λ r w', w_txs w' = w_txs w ∧ w_trace w' = w_trace w ∧ tx_post (w_db w) R r (w_db w')) w.
Proof. apply wp_RunInTx. Qed.
