(* ===== verification/Invariants.v ===== *)
(** * Invariants: what every statement preserves, every program preserves

    A property of databases that each SQL statement preserves is preserved by
    code in the monad [M]: by pool statements, by the working state of a
    transaction, by its commit and by its rollback, whatever fails.  [keeps]
    states it for a computation, and its hint database follows the structure
    of programs. *)

From S2P Require Import Prelude GoInt GoStrings GoTime GoValues Pgtypex Schema Effects TxRunner.

Section Invariant.
Context {E : Env} (I : DB → Prop).

(** The committed state and the working state of every open transaction. *)
Definition world_ok (w : World) : Prop := I (w_db w) ∧ Forall (λ p, I p.1) (w_txs w).

Definition stmt_keeps {A} (s : stmt A) : Prop :=
  ∀ ctx d a d', s ctx d = Ok (a, d') → I d → I d'.

Definition keeps {A} (m : M A) : Prop := ∀ w, world_ok w → world_ok (snd (m w)).

Lemma stmt_keeps_read {A} (f : DB → outcome A) : stmt_keeps (read_stmt f).
Proof. intros ctx d a d' H. unfold read_stmt in H. destruct (f d); [|done..]. by injection H as _ <-. Qed.

(** ** Primitives *)

Lemma keeps_same {A} (m : M A) :
  (∀ w, w_db (snd (m w)) = w_db w ∧ w_txs (snd (m w)) = w_txs w) → keeps m.
Proof. intros H w [Hd Ht]. destruct (H w) as [E1 E2]. split; by rewrite ?E1, ?E2. Qed.

Lemma keeps_reads {A} (m : M A) : reads m → keeps m.
Proof. intros H. apply keeps_same. intros w. pose proof (H w) as Hw. unfold wp in Hw. destruct (m w). naive_solver. Qed.

Lemma keeps_ret {A} (a : A) : keeps (ret a).
Proof. by apply keeps_same. Qed.
Lemma keeps_fail {A} e : keeps (fail (A := A) e).
Proof. by apply keeps_same. Qed.
Lemma keeps_gopanic {A} m : keeps (gopanic (A := A) m).
Proof. by apply keeps_same. Qed.
Lemma keeps_lift {A} (o : outcome A) : keeps (lift o).
Proof. by apply keeps_same. Qed.
Lemma keeps_tick {A} (f : World → outcome A) : keeps (λ w, (f w, tick w)).
Proof. by apply keeps_same. Qed.
Lemma keeps_emit ev : keeps (emit ev).
Proof. by apply keeps_same. Qed.
Lemma keeps_command ev reply : keeps (command ev reply).
Proof. apply keeps_same. intros w. unfold command. by destruct (reply (w_tick w)). Qed.
Lemma keeps_Now : keeps Now.
Proof. by apply keeps_same. Qed.
Lemma keeps_NewV4 : keeps NewV4.
Proof. by apply keeps_same. Qed.
Lemma keeps_randRead n : keeps (randRead n).
Proof. by apply keeps_same. Qed.
Lemma keeps_Done : keeps Done.
Proof. by apply keeps_same. Qed.

Lemma keeps_exec {A} c (s : stmt A) : stmt_keeps s → keeps (exec c s).
Proof.
  intros Hs w [Hd Ht]. unfold exec. destruct c as [|t].
  - specialize (Hs (ctx_at (w_tick w) None) (w_db w)).
    destruct (env_fault (w_tick w)) as [[]|]; [done| |];
      destruct (s _ (w_db w)) as [[a d']| |]; (split; [|done]); cbn; eauto.
  - destruct (w_txs w) as [|[d now] rest] eqn:Etx; [split; cbn; rewrite ?Etx; done|].
    destruct (bool_decide _); [|split; cbn; rewrite ?Etx; done].
    apply Forall_cons in Ht as [Hd0 Hrest]. specialize (Hs (ctx_at (w_tick w) (Some now)) d).
    destruct (env_fault (w_tick w)) as [[]|];
      [split; cbn; rewrite ?Etx; try done; by constructor..|].
    destruct (s _ d) as [[a d']| |]; (split; [done|]); cbn; rewrite ?Etx; constructor; cbn; eauto.
Qed.

(** ** Composition *)

Lemma keeps_bind {A B} (m : M A) (k : A → M B) : keeps m → (∀ a, keeps (k a)) → keeps (bind m k).
Proof.
  intros Hm Hk w Hw. specialize (Hm w Hw). unfold bind.
  destruct (m w) as [[a|e|s] w1]; [by apply Hk|done..].
Qed.

(** Only what the first part can return matters for the rest. *)
Lemma keeps_bind_result {A B} (P : A → Prop) (m : M A) (k : A → M B) :
  keeps m → (∀ w a w', world_ok w → m w = (Ok a, w') → P a) → (∀ a, P a → keeps (k a)) → keeps (bind m k).
Proof.
  intros Hm HP Hk w Hw. specialize (Hm w Hw). specialize (HP w). unfold bind.
  destruct (m w) as [[a|e|s] w1]; [|done..]. apply Hk; eauto.
Qed.

(** Code that goes on differently after each kind of outcome. *)
Lemma keeps_match {A B} (m : M A) (f : outcome A → M B) :
  keeps m → (∀ r, keeps (f r)) → keeps (λ w, let '(r, w') := m w in f r w').
Proof. intros Hm Hf w Hw. specialize (Hm w Hw). destruct (m w) as [r w1]. by apply Hf. Qed.

Lemma keeps_attempt {A} (m : M A) : keeps m → keeps (attempt m).
Proof. intros Hm w Hw. specialize (Hm w Hw). unfold attempt. by destruct (m w) as [[]]. Qed.

Lemma keeps_discard {A} (m : M A) : keeps m → keeps (discard m).
Proof. intros Hm. apply keeps_bind; [by apply keeps_attempt|intros ?; apply keeps_ret]. Qed.

Lemma keeps_wrap_err {A} ctx (m : M A) : keeps m → keeps (wrap_err ctx m).
Proof. intros Hm w Hw. specialize (Hm w Hw). unfold wrap_err. by destruct (m w). Qed.

(** ** Transactions *)

Lemma keeps_BeginTx : keeps BeginTx.
Proof.
  intros w [Hd Ht]. unfold BeginTx. destruct (env_fault (w_tick w)) as [[]|]; split; cbn; try done. by constructor.
Qed.

Lemma world_ok_pop d now rest w :
  world_ok w → w_txs w = (d, now) :: rest →
  world_ok (set_txs rest (tick w)) ∧ world_ok (set_db d (set_txs rest (tick w))).
Proof.
  intros [Hd Ht] Etx. rewrite Etx in Ht. apply Forall_cons in Ht as [H1 H2]. by split.
Qed.

Lemma keeps_Commit t : keeps (Commit t).
Proof.
  intros w Hw. unfold Commit. destruct (w_txs w) as [|[d now] rest] eqn:Etx; [done|].
  destruct (bool_decide _); [|done]. destruct (world_ok_pop d now rest w Hw Etx) as [H1 H2].
  by destruct (env_fault (w_tick w)) as [[]|].
Qed.

Lemma keeps_Rollback t : keeps (Rollback t).
Proof.
  intros w Hw. unfold Rollback. destruct (w_txs w) as [|[d now] rest] eqn:Etx; [done|].
  destruct (bool_decide _); [|done]. by destruct (world_ok_pop d now rest w Hw Etx) as [H1 H2].
Qed.

Lemma keeps_RunInTx {A} (fn : Tx → M A) : (∀ tx, keeps (fn tx)) → keeps (RunInTx fn).
Proof.
  intros Hfn w Hw. unfold RunInTx. pose proof (keeps_BeginTx w Hw) as Hb.
  destruct (BeginTx w) as [[tx|e|s] w1]; [|done..]. pose proof (Hfn tx w1 Hb) as Hf.
  destruct (fn tx w1) as [[a|e|s] w2]; [|by apply keeps_Rollback..].
  pose proof (keeps_Commit tx w2 Hf) as Hc.
  destruct (Commit tx w2) as [[[]|e|s] w3]; [done|by apply keeps_Rollback..].
Qed.

End Invariant.

Create HintDb keeps.
#[export] Hint Resolve stmt_keeps_read keeps_ret keeps_fail keeps_gopanic keeps_lift keeps_emit keeps_command
  keeps_Now keeps_NewV4 keeps_randRead keeps_Done keeps_exec keeps_attempt keeps_discard keeps_wrap_err
  keeps_RunInTx : keeps.

(** Follows the structure of a program; leaves the goals it has no rule for. *)
Ltac keep :=
  repeat first
    [ solve [eauto 2 with keeps]
    | apply keeps_bind; [|intros ?]
    | apply keeps_wrap_err | apply keeps_attempt | apply keeps_discard
    | apply keeps_exec
    | apply keeps_RunInTx; intros ?
    | match goal with
      | |- keeps _ (match ?x with _ => _ end) => destruct x
      | |- keeps _ (let '(_, _) := ?x in _) => destruct x
      end ].
