(* ===== verification/Repositories.v ===== *)
(** * Repositories: [internal/db]'s implementations over the queries

    Models [transaction_repository_impl.go], [change_event_repository.go],
    [user_repository_impl.go], [refresh_token_repository_impl.go] and the
    interfaces they implement ([transaction_repository.go],
    [user_repository.go], [refresh_token_repository.go]) as records of
    operations.  A [pgx.Tx] argument is [None] for nil: the operation then
    runs on the pool. *)

From S2P Require Import Prelude GoInt GoStrings GoTime GoValues Pgtypex Schema Sqlc Effects TxRunner Models.
Import pgtypex uuidx.

Section Repositories.
Context {E : Env} {UL : UuidLib} {PL : PgtypeLib} {PS : queries.PgServer}.

(** ** The transaction repository *)

Record TransactionRepository := mkTransactionRepository {
  tr_Create : option Tx → db.CreateTransactionParams → M db.Transaction;
  tr_GetByID : option Tx → UUID → M db.Transaction;
  tr_List : option Tx → db.TransactionFilter → M (list db.Transaction);
  tr_Update : option Tx → db.UpdateTransactionParams → M db.Transaction;
  tr_SoftDelete : option Tx → UUID → M db.Transaction;
}.

(** [sqlcdb.Queries]: the statements of [Sqlc] on a handle, which is the pool
    or a transaction. *)
Record Queries := mkQueries { handle : DBTX }.
Definition New (db : DBTX) : Queries := mkQueries db.
Definition WithTx (q : Queries) (tx : Tx) : Queries := mkQueries (InTx tx).

(** [r.q(tx)]. *)
Definition q (tx : option Tx) : DBTX :=
  handle (match tx with Some t => New (InTx t) | None => New Pool end).

Definition marshal_metadata (m : JsonMap) : outcome (option json) :=
  match json_marshal (json_of_map m) with
  | Some j => Ok (Some j)
  | None => Err (errorString "json: unsupported value")
  end.

Definition sqlcTransactionToDB (t : sqlcdb.Transaction) : outcome db.Transaction :=
  try id := with_context "convert id" (PGToUUID (sqlcdb.ID t)) in
  try userID := with_context "convert user_id" (PGToUUID (sqlcdb.UserID t)) in
  try accountID := with_context "convert account_id" (PGToUUID (sqlcdb.AccountID t)) in
  try amount := with_context "convert amount" (Float64FromNumeric (sqlcdb.Amount t)) in
  try categoryID := with_context "convert category_id" (PGToUUIDPtr (sqlcdb.CategoryID t)) in
  try metadata :=
    match sqlcdb.Metadata t with
    | Some j => with_context "unmarshal metadata" (map_of_json j)
    | None => Ok None
    end in
  Ok (db.mkTransaction id userID accountID amount (sqlcdb.Currency t) (sqlcdb.Type_ t) categoryID
        (StringPtrFromText (sqlcdb.Description t)) (TimeFromTimestamptz (sqlcdb.OccurredAt t))
        metadata (sqlcdb.Version t) (TimeFromTimestamptz (sqlcdb.LastModified t)) (sqlcdb.Source t)
        (StringPtrFromText (sqlcdb.SheetsRowID t)) (TimeFromTimestamptz (sqlcdb.CreatedAt t))
        (TimeFromTimestamptz (sqlcdb.UpdatedAt t)) (TimeFromTimestamptz (sqlcdb.DeletedAt t))).

(** The argument conversions of [Create], in order. *)
Definition create_arg (p : db.CreateTransactionParams) : outcome queries.CreateTransactionParams :=
  try metaBytes := with_context "marshal metadata" (marshal_metadata (db.cp_Metadata p)) in
  try amount := with_context "convert amount" (NumericFromFloat64 (db.cp_Amount p)) in
  try occurredAt := with_context "convert occurred_at" (TimestamptzFromTime (db.cp_OccurredAt p)) in
  try lastModified := with_context "convert last_modified" (TimestamptzFromTime (db.cp_LastModified p)) in
  try description := with_context "convert description" (TextFromStringPtr (db.cp_Description p)) in
  try sheetsRowID := with_context "convert sheets_row_id" (TextFromStringPtr (db.cp_SheetsRowID p)) in
  try createdAt := with_context "convert created_at" (TimestamptzFromTime (db.cp_CreatedAt p)) in
  try updatedAt := with_context "convert updated_at" (TimestamptzFromTime (db.cp_UpdatedAt p)) in
  try deletedAt := with_context "convert deleted_at" (TimestamptzFromTime (db.cp_DeletedAt p)) in
  Ok (queries.mkCreateTransactionParams (UUIDToPG (db.cp_UserID p)) (UUIDToPG (db.cp_AccountID p))
        amount (db.cp_Currency p) (db.cp_Type p) (UUIDPtrToPG (db.cp_CategoryID p)) description
        occurredAt metaBytes (db.cp_Version p) lastModified (db.cp_Source p) sheetsRowID
        createdAt updatedAt deletedAt).

(** The struct literal [Create] converts back: [CreatedAt] and [UpdatedAt]
    of the returned row are not copied into it. *)
Definition created_row (row : sqlcdb.Transaction) : sqlcdb.Transaction :=
  sqlcdb.mkTransaction (sqlcdb.ID row) (sqlcdb.UserID row) (sqlcdb.AccountID row)
    (sqlcdb.Amount row) (sqlcdb.Currency row) (sqlcdb.Type_ row) (sqlcdb.CategoryID row)
    (sqlcdb.Description row) (sqlcdb.OccurredAt row) (sqlcdb.Metadata row) (sqlcdb.Version row)
    (sqlcdb.LastModified row) (sqlcdb.Source row) (sqlcdb.SheetsRowID row)
    Timestamptz_zero Timestamptz_zero (sqlcdb.DeletedAt row).

Definition Create (tx : option Tx) (params : db.CreateTransactionParams) : M db.Transaction :=
  let! arg := lift (create_arg params) in
  let! row := wrap_err "create transaction" (exec (q tx) (queries.CreateTransaction arg)) in
  lift (sqlcTransactionToDB (created_row row)).

Definition GetByID (tx : option Tx) (id : UUID) : M db.Transaction :=
  let! row := wrap_err "get transaction by id" (exec (q tx) (queries.GetTransactionByIDOnly (UUIDToPG id))) in
  lift (sqlcTransactionToDB row).

(** The conversion errors of [toListFilterParams] are ignored. *)
Definition ts_ignoring_error (t : Time) : Timestamptz :=
  match TimestamptzFromTime t with Ok ts => ts | _ => Timestamptz_zero end.

Definition toListFilterParams (f : db.TransactionFilter) : queries.ListTransactionsByFilterParams :=
  let '(hasAccount, accountID) :=
    match db.f_AccountID f with Some a => (true, UUIDToPG a) | None => (false, UUID_zero) end in
  let '(hasType, typ) :=
    match db.f_Type f with Some t => (true, t) | None => (false, ""%string) end in
  let '(hasFrom, fromOccurred) :=
    match db.f_FromOccurredAt f with Some t => (true, ts_ignoring_error t) | None => (false, Timestamptz_zero) end in
  let '(hasTo, toOccurred) :=
    match db.f_ToOccurredAt f with Some t => (true, ts_ignoring_error t) | None => (false, Timestamptz_zero) end in
  queries.mkListTransactionsByFilterParams (UUIDToPG (db.f_UserID f)) hasAccount accountID
    hasType typ hasFrom fromOccurred hasTo toOccurred (int32 (db.f_Limit f)) (int32 (db.f_Offset f)).

Fixpoint rows_to_db (rows : list sqlcdb.Transaction) : outcome (list db.Transaction) :=
  match rows with
  | [] => Ok []
  | r :: rest =>
      try t := sqlcTransactionToDB r in
      try ts := rows_to_db rest in
      Ok (t :: ts)
  end.

Definition List_ (tx : option Tx) (filter : db.TransactionFilter) : M (list db.Transaction) :=
  let limit := if db.f_Limit filter <=? 0 then 50 else db.f_Limit filter in
  let offset := if db.f_Offset filter <? 0 then 0 else db.f_Offset filter in
  let filter := db.mkTransactionFilter (db.f_UserID filter) (db.f_AccountID filter) (db.f_Type filter)
    (db.f_FromOccurredAt filter) (db.f_ToOccurredAt filter) limit offset in
  let! rows := wrap_err "list transactions"
    (exec (q tx) (queries.ListTransactionsByFilter (toListFilterParams filter))) in
  lift (rows_to_db rows).

Definition update_arg (p : db.UpdateTransactionParams) : outcome queries.UpdateTransactionParams :=
  try metaBytes := with_context "marshal metadata" (marshal_metadata (db.up_Metadata p)) in
  try amount := with_context "convert amount" (NumericFromFloat64 (db.up_Amount p)) in
  try occurredAt := with_context "convert occurred_at" (TimestamptzFromTime (db.up_OccurredAt p)) in
  try description := with_context "convert description" (TextFromStringPtr (db.up_Description p)) in
  try sheetsRowID := with_context "convert sheets_row_id" (TextFromStringPtr (db.up_SheetsRowID p)) in
  Ok (queries.mkUpdateTransactionParams (UUIDToPG (db.up_ID p)) (UUIDToPG (db.up_UserID p))
        (UUIDToPG (db.up_AccountID p)) amount (db.up_Currency p) (db.up_Type p)
        (UUIDPtrToPG (db.up_CategoryID p)) description occurredAt metaBytes (db.up_Source p)
        sheetsRowID (db.up_Version p)).

Definition Update (tx : option Tx) (params : db.UpdateTransactionParams) : M db.Transaction :=
  let! arg := lift (update_arg params) in
  let! row := wrap_err "update transaction" (exec (q tx) (queries.UpdateTransaction arg)) in
  lift (sqlcTransactionToDB row).

Definition SoftDelete (tx : option Tx) (id : UUID) : M db.Transaction :=
  let! row := wrap_err "soft delete transaction"
    (exec (q tx) (queries.SoftDeleteTransactionByID (UUIDToPG id))) in
  lift (sqlcTransactionToDB row).

Definition NewTransactionRepository : TransactionRepository :=
  mkTransactionRepository Create GetByID List_ Update SoftDelete.

(** ** The change event repository *)

Record ChangeEventRepository := mkChangeEventRepository {
  cer_Insert : option Tx → db.ChangeEvent → M unit;
}.

Definition insert_arg (e : db.ChangeEvent) : outcome queries.InsertChangeEventParams :=
  try entityUUID := with_context "invalid entity_id" (StringToPGUUID (db.ce_EntityID e)) in
  try userUUID := with_context "invalid user_id" (StringToPGUUID (db.ce_UserID e)) in
  Ok (queries.mkInsertChangeEventParams (db.ce_EntityType e) entityUUID userUUID (db.ce_OpType e)
        (db.ce_Version e) (db.ce_Payload e)).

Definition Insert (tx : option Tx) (e : db.ChangeEvent) : M unit :=
  let! arg := lift (insert_arg e) in
  exec (q tx) (queries.InsertChangeEvent arg).

Definition NewChangeEventRepository : ChangeEventRepository := mkChangeEventRepository Insert.

(** ** The user repository *)

Record UserRepository := mkUserRepository {
  ur_Create : option Tx → db.User → M unit;
  ur_GetByEmail : string → M db.User;
  ur_GetByID : UUID → M db.User;
  ur_Update : option Tx → db.User → M unit;
}.

(** The queries a repository is built with, or those of the pool. *)
Definition own_queries (q : option Queries) : Queries :=
  match q with None => New Pool | Some q => q end.

(** [r.queries(tx)] of the user and the token repository. *)
Definition queries_of (own : Queries) (tx : option Tx) : DBTX :=
  handle (match tx with Some t => WithTx own t | None => own end).

(** [NewRepositories] hands over the queries of the pool. *)
Definition pool_queries : Queries := own_queries (Some (New Pool)).

(** Ids that fail to convert become the nil UUID. *)
Definition uuid_ignoring_error (p : pgUUID) : UUID :=
  match PGToUUID p with Ok u => u | _ => uuid_Nil end.

Definition sqlcRowToUser (u : sqlcdb.User) : db.User :=
  db.mkUser (uuid_ignoring_error (sqlcdb.User_ID u)) (sqlcdb.User_Email u) (sqlcdb.User_HashedPassword u)
    (TimeFromTimestamptz (sqlcdb.User_CreatedAt u)) (TimeFromTimestamptz (sqlcdb.User_UpdatedAt u))
    (ts_Valid (sqlcdb.User_DeletedAt u)).

Definition User_Create (tx : option Tx) (u : db.User) : M unit :=
  let! createdAt := lift (with_context "created_at" (TimestamptzFromTime (db.User_CreatedAt u))) in
  let! updatedAt := lift (with_context "updated_at" (TimestamptzFromTime (db.User_UpdatedAt u))) in
  wrap_err "create user" (exec (queries_of pool_queries tx) (queries.CreateUser
    (queries.mkCreateUserParams (UUIDToPG (db.User_ID u)) (db.User_Email u) (db.User_HashedPassword u)
       createdAt updatedAt Timestamptz_zero))).

(** [errors.Is(err, pgx.ErrNoRows)] selects the bare sentinel. *)
Definition no_rows_or {A} (ctx : string) (m : M A) : M A := λ w,
  match m w with
  | (Err e, w') => if Is e ErrNoRows then (Err (sentinel ErrNoRows), w') else (Err (wrapf ctx e), w')
  | r => r
  end.

Definition GetByEmail (email : string) : M db.User :=
  let! row := no_rows_or "get user by email" (exec (queries_of pool_queries None) (queries.GetUserByEmail email)) in
  ret (sqlcRowToUser row).

Definition User_GetByID (id : UUID) : M db.User :=
  let! row := no_rows_or "get user by id" (exec (queries_of pool_queries None) (queries.GetUserByID (UUIDToPG id))) in
  ret (sqlcRowToUser row).

Definition User_Update (tx : option Tx) (u : db.User) : M unit :=
  let! updatedAt := lift (with_context "updated_at" (TimestamptzFromTime (db.User_UpdatedAt u))) in
  let deletedAt := if db.User_Deleted u then ts_ignoring_error (db.User_UpdatedAt u) else Timestamptz_zero in
  wrap_err "update user" (exec (queries_of pool_queries tx) (queries.UpdateUser
    (queries.mkUpdateUserParams (UUIDToPG (db.User_ID u)) (db.User_Email u) (db.User_HashedPassword u)
       updatedAt deletedAt))).

Definition NewUserRepository : UserRepository :=
  mkUserRepository User_Create GetByEmail User_GetByID User_Update.

(** ** The refresh token repository *)

Record RefreshTokenRepository := mkRefreshTokenRepository {
  rt_Create : option Tx → db.RefreshToken → M unit;
  rt_GetByID : UUID → M db.RefreshToken;
  rt_GetByUserID : UUID → M (list db.RefreshToken);
  rt_Revoke : option Tx → UUID → M unit;
}.

Definition sqlcRefreshTokenToToken (r : sqlcdb.RefreshToken) : db.RefreshToken :=
  db.mkRefreshToken (uuid_ignoring_error (sqlcdb.RefreshToken_ID r))
    (uuid_ignoring_error (sqlcdb.RefreshToken_UserID r)) (sqlcdb.RefreshToken_EncryptedToken r)
    (TimeFromTimestamptz (sqlcdb.RefreshToken_ExpiresAt r)) (sqlcdb.RefreshToken_Revoked r)
    (TimeFromTimestamptz (sqlcdb.RefreshToken_CreatedAt r)).

(** The parameters leave [UpdatedAt] and [DeletedAt] at their zero value. *)
Definition Token_Create (tx : option Tx) (t : db.RefreshToken) : M unit :=
  let! expiresAt := lift (with_context "expires_at" (TimestamptzFromTime (db.RefreshToken_ExpiresAt t))) in
  let! createdAt := lift (with_context "created_at" (TimestamptzFromTime (db.RefreshToken_CreatedAt t))) in
  wrap_err "create refresh token" (exec (queries_of pool_queries tx) (queries.CreateRefreshToken
    (queries.mkCreateRefreshTokenParams (UUIDToPG (db.RefreshToken_ID t)) (UUIDToPG (db.RefreshToken_UserID t))
       (db.RefreshToken_EncryptedToken t) expiresAt (db.RefreshToken_Revoked t) createdAt
       Timestamptz_zero Timestamptz_zero))).

Definition Token_GetByID (id : UUID) : M db.RefreshToken :=
  let! row := no_rows_or "get refresh token by id" (exec (queries_of pool_queries None) (queries.GetRefreshTokenByID (UUIDToPG id))) in
  ret (sqlcRefreshTokenToToken row).

Definition Token_GetByUserID (user : UUID) : M (list db.RefreshToken) :=
  let! rows := wrap_err "get refresh tokens by user"
    (exec (queries_of pool_queries None) (queries.GetRefreshTokensByUserID (UUIDToPG user))) in
  ret (map sqlcRefreshTokenToToken rows).

Definition Token_Revoke (tx : option Tx) (id : UUID) : M unit :=
  wrap_err "revoke refresh token" (exec (queries_of pool_queries tx) (queries.RevokeRefreshToken (UUIDToPG id))).

Definition NewRefreshTokenRepository : RefreshTokenRepository :=
  mkRefreshTokenRepository Token_Create Token_GetByID Token_GetByUserID Token_Revoke.

(** [NewRepositories]. *)
Record Repositories := mkRepositories {
  Transactions : TransactionRepository;
  ChangeEvents : ChangeEventRepository;
  Users : UserRepository;
  RefreshTokens : RefreshTokenRepository;
}.

Definition NewRepositories : Repositories :=
  mkRepositories NewTransactionRepository NewChangeEventRepository NewUserRepository
    NewRefreshTokenRepository.

End Repositories.
