(* ===== verification/AuthService.v ===== *)
(** * AuthService: registration, login, refresh and revocation

    Models [internal/service/auth_service.go].  The service is a record of
    the repositories and of the transaction runner it was built with, so that
    what it checks is proved for any repositories, and what it achieves for
    those of [NewRepositories]. *)

From S2P Require Import Prelude GoInt GoStrings Base64 GoTime GoValues Pgtypex Schema Sqlc Effects Crypto AuthTokens TxRunner Models Repositories.
Import strings stringsx auth crypto.

(** golang.org/x/crypto/bcrypt, with the draw that salts a hash. *)
Class BcryptLib := {
  bcrypt_GenerateFromPassword : nat → string → outcome string;
  bcrypt_CompareHashAndPassword : string → string → outcome unit;
}.

Class BcryptLaws (L : BcryptLib) : Prop := {
  (** a generated hash matches its password *)
  bcrypt_matches n p h : bcrypt_GenerateFromPassword n p = Ok h → bcrypt_CompareHashAndPassword h p = Ok tt;
  (** failures are errors of the library *)
  bcrypt_no_panic n p h m : bcrypt_GenerateFromPassword n p ≠ Panic m ∧ bcrypt_CompareHashAndPassword h p ≠ Panic m;
}.

Definition AccessTokenExpiry : Z := 15 * Minute.
Definition RefreshTokenExpiry : Z := 7 * 24 * Hour.

Record User := mkAuthUser { User_ID : UUID; User_Email : string; User_CreatedAt : Time }.

Record authServiceImpl := mkauthServiceImpl {
  users : UserRepository; tokens : RefreshTokenRepository; txRunner : TxRunner }.

Section Auth.
Context {E : Env} {P : Process} {U : Unicode} {UL : UuidLib} {J : JwtLib} {B : BcryptLib}.
Variable s : authServiceImpl.

Definition GenerateFromPassword (password : string) : M string := λ w,
  (bcrypt_GenerateFromPassword (w_tick w) password, tick w).

Definition Register (email password : string) : M User :=
  let email := NormalizeEmail email in
  if String.eqb email "" || String.eqb password "" then fail (errorString "email and password required")
  else
    let! hashed := wrap_err "hash password" (GenerateFromPassword password) in
    let! now := Now in
    let! id := NewV4 in
    let u := db.mkUser id email hashed now now false in
    wrap_err "create user" (tr_RunInTx (txRunner s) _ (λ tx, ur_Create (users s) (Some tx) u)) ;;;
    ret (mkAuthUser id email now).

(** The refresh token of a session of [user]: its id, its secret and the row
    that stores it. *)
Definition new_token (user : UUID) : M (UUID * string * db.RefreshToken) :=
  let! id := NewV4 in
  let! secret := wrap_err "generate refresh secret" (randRead 32) in
  let! encrypted := wrap_err "encrypt refresh token" (Encrypt secret) in
  let! now := Now in
  ret (id, secret,
       db.mkRefreshToken id user (base64.EncodeToString encrypted) (time.Add now RefreshTokenExpiry) false now).

Definition Authenticate (email password : string) : M (string * string) :=
  let email := NormalizeEmail email in
  if String.eqb email "" || String.eqb password "" then fail (sentinel ErrInvalidCredentials)
  else
    let! r := attempt (ur_GetByEmail (users s) email) in
    match r with
    | Err e => if Is e ErrNoRows then fail (sentinel ErrInvalidCredentials) else fail (wrapf "get user" e)
    | Panic m => gopanic m
    | Ok u =>
        match bcrypt_CompareHashAndPassword (db.User_HashedPassword u) password with
        | Err _ => fail (sentinel ErrInvalidCredentials)
        | Panic m => gopanic m
        | Ok _ =>
            let! accessToken := wrap_err "sign access token"
              (Sign (uuid_String (db.User_ID u)) (db.User_Email u) AccessTokenExpiry) in
            let! t := new_token (db.User_ID u) in
            let '(refreshTokenID, secret, tok) := t in
            wrap_err "create refresh token"
              (tr_RunInTx (txRunner s) _ (λ tx, rt_Create (tokens s) (Some tx) tok)) ;;;
            ret (accessToken, EncodeRefreshToken refreshTokenID secret)
        end
    end.

(** What a stored token must satisfy to be exchanged. *)
Definition secret_matches (row : db.RefreshToken) (secret : string) : bool :=
  match base64.DecodeString (db.RefreshToken_EncryptedToken row) with
  | Some encrypted =>
      match Decrypt encrypted with
      | Ok storedSecret => ConstantTimeCompare storedSecret secret
      | _ => false
      end
  | None => false
  end.

Definition rotate (tokenID : UUID) (newTok : db.RefreshToken) (tx : Tx) : M unit :=
  rt_Revoke (tokens s) (Some tx) tokenID ;;; rt_Create (tokens s) (Some tx) newTok.

Definition Refresh (refreshToken : string) : M (string * string) :=
  match DecodeRefreshToken refreshToken with
  | Err _ => fail (sentinel ErrRefreshTokenInvalid)
  | Panic m => gopanic m
  | Ok (tokenID, secret) =>
      let! r := attempt (rt_GetByID (tokens s) tokenID) in
      match r with
      | Err e => if Is e ErrNoRows then fail (sentinel ErrRefreshTokenInvalid)
                 else fail (wrapf "get refresh token" e)
      | Panic m => gopanic m
      | Ok row =>
          if db.RefreshToken_Revoked row then fail (sentinel ErrRefreshTokenInvalid)
          else
            let! now := Now in
            if time.After now (db.RefreshToken_ExpiresAt row) then fail (sentinel ErrRefreshTokenInvalid)
            else if negb (secret_matches row secret) then fail (sentinel ErrRefreshTokenInvalid)
            else
              let! u := wrap_err "get user" (ur_GetByID (users s) (db.RefreshToken_UserID row)) in
              let! newAccessToken := wrap_err "sign access token"
                (Sign (uuid_String (db.User_ID u)) (db.User_Email u) AccessTokenExpiry) in
              let! t := new_token (db.User_ID u) in
              let '(newID, newSecret, newTok) := t in
              wrap_err "rotate refresh token" (tr_RunInTx (txRunner s) _ (rotate tokenID newTok)) ;;;
              ret (newAccessToken, EncodeRefreshToken newID newSecret)
      end
  end.

Definition Revoke (refreshToken : string) : M unit :=
  match DecodeRefreshToken refreshToken with
  | Err _ => fail (sentinel ErrRefreshTokenInvalid)
  | Panic m => gopanic m
  | Ok (tokenID, _) => rt_Revoke (tokens s) None tokenID
  end.

End Auth.

(** The service [newApp] builds. *)
Definition NewAuthService `{E : Env} {UL : UuidLib} {PL : PgtypeLib} {PS : queries.PgServer} : authServiceImpl :=
  mkauthServiceImpl (Users NewRepositories) (RefreshTokens NewRepositories) NewTxRunner.
