(* ===== verification/Wiring.v ===== *)
(** * Wiring: adapters between the db layer and the services

    Models [internal/wiring] ([adapter.go], [tx_manager.go]) and the service
    interfaces of [internal/service/interfaces.go] it implements.  A method
    that mutates the struct behind its pointer argument returns the struct's
    new value. *)

From S2P Require Import Prelude GoInt GoStrings GoTime GoValues Pgtypex Schema Sqlc Effects TxRunner Models Repositories.

(** ** Interfaces of [internal/service] *)

Module service.

Record ChangeEventInput := mkChangeEventInput {
  in_EntityType : string; in_EntityID : string; in_UserID : string; in_Operation : string;
  in_Version : Z; in_Payload : option json }.

Record SyncJob := mkSyncJob { Entity : string; Operation : string; Payload : string }.

Record TransactionRepository := mkTransactionRepository {
  ListByUser : string → Z → Z → M (list domain.Transaction);
  CountByUser : string → M Z;
  Create : domain.Transaction → M domain.Transaction;
  GetByID : string → string → M domain.Transaction;
  Update : domain.Transaction → M domain.Transaction;
  SoftDelete : string → string → M domain.Transaction;
}.

Record ChangeEventWriter := mkChangeEventWriter { cew_Create : ChangeEventInput → M unit }.
Record SyncQueue := mkSyncQueue { EnqueueSyncJob : SyncJob → M unit }.

Record TransactionUnitOfWork := mkTransactionUnitOfWork {
  uow_Transactions : TransactionRepository;
  uow_ChangeEvents : ChangeEventWriter }.

Record TxManager := mkTxManager { tm_RunInTx : ∀ A, (TransactionUnitOfWork → M A) → M A }.

End service.

Section Wiring.
Context {E : Env} {UL : UuidLib}.

Definition dbTransactionToDomain (r : db.Transaction) : domain.Transaction :=
  domain.mkTransaction (uuid_String (db.ID r)) (uuid_String (db.UserID r)) (uuid_String (db.AccountID r))
    (db.Amount r) (db.Currency r) (db.Type_ r)
    (match db.CategoryID r with Some c => Some (uuid_String c) | None => None end)
    (db.Description r) (db.OccurredAt r) (db.Metadata r) (db.Version r) (db.LastModified r)
    (db.Source r) (db.SheetsRowID r) (db.CreatedAt r) (db.UpdatedAt r) (db.DeletedAt r).

Definition parse_category (c : option string) : outcome (option UUID) :=
  match c with
  | None => Ok None
  | Some s => try cid := uuid_FromString s in Ok (Some cid)
  end.

(** [CreatedAt] is taken from [OccurredAt], [UpdatedAt] from
    [LastModified], and [DeletedAt] is the zero time. *)
Definition domainTransactionToCreateParams (tx : domain.Transaction) : outcome db.CreateTransactionParams :=
  try userID := uuid_FromString (domain.UserID tx) in
  try accountID := uuid_FromString (domain.AccountID tx) in
  try categoryID := parse_category (domain.CategoryID tx) in
  Ok (db.mkCreateTransactionParams userID accountID (domain.Amount tx) (domain.Currency tx)
        (domain.Type_ tx) categoryID (domain.Description tx) (domain.OccurredAt tx)
        (domain.Metadata tx) (domain.Version tx) (domain.LastModified tx) (domain.Source tx)
        (domain.SheetsRowID tx) (domain.OccurredAt tx) (domain.LastModified tx) time.zero).

Definition domainTransactionToUpdateParams (tx : domain.Transaction) : outcome db.UpdateTransactionParams :=
  try id := uuid_FromString (domain.ID tx) in
  try userID := uuid_FromString (domain.UserID tx) in
  try accountID := uuid_FromString (domain.AccountID tx) in
  try categoryID := parse_category (domain.CategoryID tx) in
  Ok (db.mkUpdateTransactionParams id userID accountID (domain.Amount tx) (domain.Currency tx)
        (domain.Type_ tx) categoryID (domain.Description tx) (domain.OccurredAt tx)
        (domain.Metadata tx) (domain.Source tx) (domain.SheetsRowID tx) (domain.Version tx)
        time.zero time.zero time.zero).

(** ** [ServiceTransactionAdapter] *)

Section Adapter.
Variables (repo : TransactionRepository) (tx : option Tx).

Definition adapter_ListByUser (userID : string) (limit offset : Z) : M (list domain.Transaction) :=
  let! uid := lift (uuid_FromString userID) in
  let! rows := tr_List repo tx (db.mkTransactionFilter uid None None None None limit offset) in
  ret (map dbTransactionToDomain rows).

Definition adapter_CountByUser (userID : string) : M Z :=
  let! uid := lift (uuid_FromString userID) in
  let! rows := tr_List repo tx (db.mkTransactionFilter uid None None None None 1 0) in
  ret (Z.of_nat (List.length rows)).

Definition adapter_Create (t : domain.Transaction) : M domain.Transaction :=
  let! params := lift (domainTransactionToCreateParams t) in
  let! created := tr_Create repo tx params in
  ret (dbTransactionToDomain created).

(** The [userID] argument is not used. *)
Definition adapter_GetByID (userID id : string) : M domain.Transaction :=
  let! uid := lift (uuid_FromString id) in
  let! row := tr_GetByID repo tx uid in
  ret (dbTransactionToDomain row).

Definition adapter_Update (t : domain.Transaction) : M domain.Transaction :=
  let! params := lift (domainTransactionToUpdateParams t) in
  let! updated := tr_Update repo tx params in
  ret (dbTransactionToDomain updated).

(** The [userID] argument is not used. *)
Definition adapter_SoftDelete (userID id : string) : M domain.Transaction :=
  let! uid := lift (uuid_FromString id) in
  let! row := tr_SoftDelete repo tx uid in
  ret (dbTransactionToDomain row).

Definition NewServiceTransactionAdapter : service.TransactionRepository :=
  service.mkTransactionRepository adapter_ListByUser adapter_CountByUser adapter_Create
    adapter_GetByID adapter_Update adapter_SoftDelete.

End Adapter.

(** ** [TxManagerAdapter] *)

Definition event_row (e : service.ChangeEventInput) : db.ChangeEvent :=
  db.mkChangeEvent (service.in_EntityType e) (service.in_EntityID e) (service.in_UserID e)
    (service.in_Operation e) (service.in_Payload e) (service.in_Version e).

Definition txChangeEventWriter (repo : ChangeEventRepository) (tx : Tx) : service.ChangeEventWriter :=
  service.mkChangeEventWriter (λ e, cer_Insert repo (Some tx) (event_row e)).

Definition txUnitOfWork (txRepo : TransactionRepository) (evtRepo : ChangeEventRepository) (tx : Tx) :
    service.TransactionUnitOfWork :=
  service.mkTransactionUnitOfWork (NewServiceTransactionAdapter txRepo (Some tx))
    (txChangeEventWriter evtRepo tx).

Definition TxManager_RunInTx (runner : TxRunner) (txRepo : TransactionRepository)
    (evtRepo : ChangeEventRepository) (A : Type) (fn : service.TransactionUnitOfWork → M A) : M A :=
  tr_RunInTx runner A (λ tx, fn (txUnitOfWork txRepo evtRepo tx)).

Definition NewTxManagerAdapter (runner : TxRunner) (txRepo : TransactionRepository)
    (evtRepo : ChangeEventRepository) : service.TxManager :=
  service.mkTxManager (TxManager_RunInTx runner txRepo evtRepo).

(** [service.NewDBChangeEventWriter]: the pool-backed writer. *)
Definition NewDBChangeEventWriter (repo : option ChangeEventRepository) : service.ChangeEventWriter :=
  service.mkChangeEventWriter (λ e,
    match repo with
    | None => ret tt
    | Some r => cer_Insert r None (event_row e)
    end).

End Wiring.
