(* ===== verification/Queue.v ===== *)
(** * Queue: Redis Stream jobs and the worker loop

    Models [internal/queue/queue.go] (message schema, [Enqueue], [Consume],
    [decodeMessage]), [internal/worker/worker.go] (the retry wrapper around a
    handler) and [internal/service/sync_queue_redis.go].  The consumer loop
    has no bound in the source: [Consume] is given a number of rounds and
    answers [Running] when it is still in its loop after them. *)

From S2P Require Import Prelude GoInt GoStrings GoTime GoValues Pgtypex Schema Effects Models Repositories Wiring.
Import strings strconv.

Module queue.

Record Message := mkMessage {
  ID : string; Entity : string; Operation : string; Payload : string; RetryCount : Z }.

Definition fieldEntity : string := "entity".
Definition fieldOperation : string := "operation".
Definition fieldPayload : string := "payload".
Definition fieldRetryCount : string := "retry_count".

(** The [Producer] and [Consumer] interfaces. *)
Record Producer := mkProducer { pr_Enqueue : Message → M unit }.

Record RedisStreamConfig := mkRedisStreamConfig {
  Stream : string; Group : string; ConsumerName : string; BlockTimeout : Z }.

Definition NewRedisStreamQueue (cfg : RedisStreamConfig) : RedisStreamConfig :=
  if BlockTimeout cfg <=? 0
  then mkRedisStreamConfig (Stream cfg) (Group cfg) (ConsumerName cfg) (5 * Second)
  else cfg.

(** The [values] map [Enqueue] builds. *)
Definition message_values (msg : Message) : gmap string RedisValue :=
  let values := <[fieldEntity := RString (Entity msg)]>
    (<[fieldOperation := RString (Operation msg)]>
      (<[fieldPayload := RBytes (Payload msg)]> ∅)) in
  if 0 <? RetryCount msg then <[fieldRetryCount := RInt (RetryCount msg)]> values else values.

(** A type assertion to [string] with its zero value on failure. *)
Definition as_string (v : option RedisValue) : string :=
  match v with Some (RString s) => s | _ => "" end.

Definition decodeMessage (m : XMessage) : Message :=
  let fields := xm_Values m in
  let payload :=
    match fields !! fieldPayload with
    | Some (RString v) => v
    | Some (RBytes v) => v
    | _ => ""%string
    end in
  let retryCount :=
    match fields !! fieldRetryCount with
    | Some (RString v) => let '(n, err) := Atoi v in match err with None => n | Some _ => 0 end
    | Some (RInt64 v) => int64 v
    | Some (RInt v) => v
    | _ => 0
    end in
  mkMessage (xm_ID m) (as_string (fields !! fieldEntity)) (as_string (fields !! fieldOperation))
    payload retryCount.

Section Queue.
Context {E : Env}.
Variable cfg : RedisStreamConfig.

Definition Enqueue (msg : Message) : M unit := XAdd (Stream cfg) (message_values msg).

Definition redis_producer : Producer := mkProducer Enqueue.

Definition ensureGroup : M unit := λ w,
  match XGroupCreateMkStream (Stream cfg) (Group cfg) w with
  | (Err e, w') =>
      if String.eqb (Error e) "BUSYGROUP Consumer Group name already exists" then (Ok tt, w') else (Err e, w')
  | r => r
  end.

(** One delivered entry: acknowledged only when the handler succeeds. *)
Definition handle_one (handler : Message → M unit) (m : XMessage) : M unit :=
  let! r := attempt (handler (decodeMessage m)) in
  match r with
  | Ok _ => discard (XAck (Stream cfg) (Group cfg) (xm_ID m))
  | _ => ret tt
  end.

Fixpoint handle_batch (handler : Message → M unit) (ms : list XMessage) : M unit :=
  match ms with
  | [] => ret tt
  | m :: rest => handle_one handler m ;;; handle_batch handler rest
  end.

Inductive Loop := Running | Returned (e : error).

(** One round of [Consume]'s loop. *)
Definition consume_round (handler : Message → M unit) : M Loop :=
  let! cancelled := Done in
  if cancelled : bool then ret (Returned (sentinel ErrCtxCanceled))
  else
    let! r := attempt (XReadGroup (Stream cfg) (Group cfg) (ConsumerName cfg) 10 (BlockTimeout cfg)) in
    match r with
    | Err e => if bool_decide (e = sentinel ErrRedisNil) then ret Running else ret (Returned e)
    | Ok streams => handle_batch handler (concat (map xs_Messages streams)) ;;; ret Running
    | Panic s => gopanic s
    end.

Fixpoint consume_loop (rounds : nat) (handler : Message → M unit) : M Loop :=
  match rounds with
  | O => ret Running
  | S n =>
      let! r := consume_round handler in
      match r with Running => consume_loop n handler | Returned e => ret (Returned e) end
  end.

Definition Consume (rounds : nat) (handler : Message → M unit) : M Loop :=
  let! r := attempt ensureGroup in
  match r with Err e => ret (Returned e) | _ => consume_loop rounds handler end.

End Queue.

End queue.

(** ** [worker.Runner] *)

Module worker.
Section Worker.
Context {E : Env}.

(** [time.Duration(1+msg.RetryCount) * time.Second]. *)
Definition backoff (msg : queue.Message) : Z := int64 (int64 (1 + queue.RetryCount msg) * Second).

Definition handle (Handler : queue.Message → M unit) (msg : queue.Message) : M unit :=
  let! r := attempt (Handler msg) in
  match r with
  | Err e => let! _ := Wait (backoff msg) in fail e
  | _ => ret tt
  end.

(** [Start] with a configured queue and handler; [None] when either is nil. *)
Definition Start (consume : option ((queue.Message → M unit) → M queue.Loop))
    (Handler : option (queue.Message → M unit)) : M (option queue.Loop) :=
  match consume, Handler with
  | Some c, Some h => let! r := c (handle h) in ret (Some r)
  | _, _ => ret None
  end.

End Worker.
End worker.

(** ** [RedisSyncQueue] *)

Section SyncQueue.
Context {E : Env}.

Definition EnqueueSyncJob (producer : option queue.Producer) (job : service.SyncJob) : M unit :=
  match producer with
  | None => ret tt
  | Some p => queue.pr_Enqueue p
      (queue.mkMessage "" (service.Entity job) (service.Operation job) (service.Payload job) 0)
  end.

Definition NewRedisSyncQueue (producer : option queue.Producer) : service.SyncQueue :=
  service.mkSyncQueue (EnqueueSyncJob producer).

End SyncQueue.

(** ** The schema round trip *)

Import queue.

(** What the client library writes on the wire for a field value: text, raw
    bytes and decimal integers; reading an entry gives strings back. *)
Class RedisLib := { redis_wire : RedisValue → string }.
Class RedisLaws (R : RedisLib) : Prop := {
  wire_string s : redis_wire (RString s) = s;
  wire_bytes s : redis_wire (RBytes s) = s;
  wire_int z : in_int64 z → redis_wire (RInt z) = Itoa z;
}.

Definition delivered `{R : RedisLib} (id : string) (values : gmap string RedisValue) : XMessage :=
  mkXMessage id ((λ v, RString (redis_wire v)) <$> values).

Lemma message_values_fields msg :
  message_values msg !! fieldEntity = Some (RString (Entity msg)) ∧
  message_values msg !! fieldOperation = Some (RString (Operation msg)) ∧
  message_values msg !! fieldPayload = Some (RBytes (Payload msg)) ∧
  message_values msg !! fieldRetryCount =
    if 0 <? RetryCount msg then Some (RInt (RetryCount msg)) else None.
Proof.
  unfold message_values. destruct (0 <? RetryCount msg);
    repeat match goal with |- context [<[?k := _]> _ !! ?k'] =>
      destruct (decide (k = k')) as [E|E]; [try done; rewrite E, lookup_insert_eq|rewrite lookup_insert_ne by done] end;
    split_and!; done.
Qed.

Lemma decode_values `{R : RedisLib} {RL : RedisLaws R} id msg :
  0 <= RetryCount msg <= max_int64 →
  decodeMessage (delivered id (message_values msg))
  = mkMessage id (Entity msg) (Operation msg) (Payload msg) (RetryCount msg).
Proof.
  intros Hr. destruct (message_values_fields msg) as (E1 & E2 & E3 & E4).
  unfold decodeMessage, delivered. simpl xm_Values. rewrite !lookup_fmap, E1, E2, E3, E4. simpl.
  rewrite !wire_string, wire_bytes. f_equal.
  destruct (Z.ltb_spec 0 (RetryCount msg)) as [H|H]; simpl; [|lia].
  assert (in_int64 (RetryCount msg)) by (unfold in_int64, min_int64; lia).
  by rewrite wire_int, Atoi_Itoa.
Qed.

(** What [Enqueue] writes, [decodeMessage] reads back under the id the
    stream assigned: entity, operation, payload bytes and retry count, the
    latter being left out of the entry when it is zero. *)
Theorem decode_enqueued `{R : RedisLib} {RL : RedisLaws R} id msg :
  0 <= RetryCount msg <= max_int64 →
  decodeMessage (delivered id (message_values msg))
  = mkMessage id (Entity msg) (Operation msg) (Payload msg) (RetryCount msg).
Proof. apply decode_values. Qed.

(** ** Acknowledgements *)

(** One run of a handler: the message, the worlds before and after it, its
    result and what it sent to other services. *)
Record Run := mkRun {
  run_message : XMessage; run_before : World; run_result : outcome unit; run_sent : list Event;
  run_after : World }.

Definition ran {E : Env} (handler : Message → M unit) (x : Run) : Prop :=
  handler (decodeMessage (run_message x)) (run_before x) = (run_result x, run_after x) ∧
  w_trace (run_after x) = w_trace (run_before x) ++ run_sent x.

(** The tables and the open transactions are the same. *)
Definition same_state (w w' : World) : Prop := w_db w' = w_db w ∧ w_txs w' = w_txs w.

(** The runs from [w] to [w'], each from the state the one before left. *)
Fixpoint in_turn (w : World) (runs : list Run) (w' : World) : Prop :=
  match runs with
  | [] => same_state w w'
  | x :: rest => same_state w (run_before x) ∧ in_turn (run_after x) rest w'
  end.

(** The acknowledgement of a run: one for a nil result, none for an error. *)
Definition acknowledged (cfg : RedisStreamConfig) (x : Run) : list Event :=
  match run_result x with
  | Ok _ => [EvXAck (Stream cfg) (Group cfg) (xm_ID (run_message x))]
  | _ => []
  end.

(** What the handler sends is added to what was sent before. *)
Definition appends {E : Env} (handler : Message → M unit) : Prop :=
  ∀ m w, ∃ evs, w_trace (snd (handler m w)) = w_trace w ++ evs.

(** All messages were handled, or the handler panicked on the last of them. *)
Definition all_handled (ms : list XMessage) (runs : list Run) (r : outcome unit) : Prop :=
  match r with
  | Ok _ => map run_message runs = ms ∧ ∀ x s, x ∈ runs → run_result x ≠ Panic s
  | Err _ => False
  | Panic s => (∃ x, last runs = Some x ∧ run_result x = Panic s) ∧ map run_message runs `prefix_of` ms
  end.

Section Acks.
Context {E : Env}.
Variables (cfg : RedisStreamConfig) (handler : Message → M unit).
Hypothesis handler_appends : appends handler.

(** The runs of a batch, and what was sent in it. *)
Definition batch_post (ms : list XMessage) (w : World) (r : outcome unit) (w' : World) : Prop :=
  ∃ runs, Forall (ran handler) runs ∧ in_turn w runs w' ∧ all_handled ms runs r ∧
    w_trace w' = w_trace w ++ concat (map (λ x, run_sent x ++ acknowledged cfg x) runs).

Lemma same_state_trans w1 w2 w3 : same_state w1 w2 → same_state w2 w3 → same_state w1 w3.
Proof. unfold same_state. naive_solver congruence. Qed.

Lemma in_turn_from w0 w runs w' : same_state w0 w → in_turn w runs w' → in_turn w0 runs w'.
Proof.
  intros H0. destruct runs as [|x rest]; simpl; [by apply same_state_trans|].
  intros [H Hrest]. split; [by eapply same_state_trans|done].
Qed.

(** One more run in front. *)
Lemma batch_post_cons m ms w r1 w1 w2 r w' :
  handler (decodeMessage m) w = (r1, w1) → (∀ s, r1 ≠ Panic s) → same_state w1 w2 →
  w_trace w2 = w_trace w1 ++ acknowledged cfg (mkRun m w r1 [] w1) →
  batch_post ms w2 r w' → batch_post (m :: ms) w r w'.
Proof using handler_appends.
  intros Hh Hr1 H12 Ht2 (runs & Hran & Hturn & Hall & Htr).
  destruct (handler_appends (decodeMessage m) w) as [evs Hevs]. rewrite Hh in Hevs. cbn in Hevs.
  exists (mkRun m w r1 evs w1 :: runs). split_and!.
  - by constructor.
  - split; [done|]. by eapply in_turn_from.
  - destruct r as [u|e|s]; cbn in *; [|done|].
    + destruct Hall as [<- Hp]. split; [done|]. intros x s [->|Hx]%elem_of_cons; [apply Hr1|by apply Hp].
    + destruct Hall as [(x & Hx & Hs) Hpre]. split; [|by apply prefix_cons]. exists x. split; [|done].
      rewrite last_cons. by rewrite Hx.
  - rewrite Htr, Ht2, Hevs. cbn. by rewrite <- !app_assoc.
Qed.

Lemma wp_handle_batch ms w : wp (handle_batch cfg handler ms) (λ r w', batch_post ms w r w') w.
Proof using handler_appends.
  revert w. induction ms as [|m ms IH]; intros w; cbn [handle_batch].
  - wp_step. exists []. cbn. rewrite app_nil_r. split_and!; try done. by intros x s ?%elem_of_nil.
  - wp_step. unfold handle_one. wp_step. wp_step. destruct (handler (decodeMessage m) w) as [r1 w1] eqn:Eh.
    unfold wp at 1. rewrite Eh. destruct r1 as [[]|e|s].
    + wp_step. apply wp_command. intros r Hr. set (w2 := mkWorld _ _ _ _).
      assert (Hw2 : wp (handle_batch cfg handler ms) (λ r w', batch_post (m :: ms) w r w') w2).
      { eapply wp_mono; [apply IH|]. intros r' w'. by eapply batch_post_cons. }
      by destruct (env_redis (w_tick w1)); subst r.
    + wp_step. eapply wp_mono; [apply IH|]. intros r' w'. eapply batch_post_cons; [done..|]. cbn. by rewrite app_nil_r.
    + destruct (handler_appends (decodeMessage m) w) as [evs Hevs]. rewrite Eh in Hevs. cbn in Hevs.
      exists [mkRun m w (Panic s) evs w1]. cbn. split; [by constructor|]. split; [by repeat split|].
      split; [split; [by eexists|apply prefix_cons, prefix_nil]|by rewrite !app_nil_r].
Qed.

End Acks.

(** C30: in a round that delivers messages, the consumer runs the handler on
    each of them in delivery order, and acknowledges a message exactly when
    its handler has returned nil, before it turns to the next; the others
    stay pending.  It stays in its loop whatever the handlers answer; only a
    panic of the handler ends the round, at the message that caused it.  All
    that is asked of the handler is that it cannot take back what was sent. *)
Theorem consume_round_acks {E : Env} cfg handler streams w :
  appends handler → env_done (w_tick w) = false → env_read (S (w_tick w)) = Ok streams →
  wp (consume_round cfg handler) (λ r w', ∃ runs,
    Forall (ran handler) runs ∧ in_turn w runs w' ∧
    all_handled (concat (map xs_Messages streams)) runs (omap_out (λ _, tt) r) ∧
    (∀ l, r = Ok l → l = Running) ∧
    w_trace w' = w_trace w
      ++ [EvXReadGroup (Stream cfg) (Group cfg) (ConsumerName cfg) 10 (BlockTimeout cfg)]
      ++ concat (map (λ x, run_sent x ++ acknowledged cfg x) runs)) w.
Proof.
  intros Ha Hdone Hread. unfold consume_round. wp_step. wp_step. rewrite Hdone. wp_step. wp_step.
  unfold wp at 1, XReadGroup. simpl w_tick. rewrite Hread. wp_step. eapply wp_mono; [by apply wp_handle_batch|].
  intros r w' (runs & Hran & Hturn & Hall & Htr).
  assert (Hturn' : in_turn w runs w') by (by eapply in_turn_from; [|exact Hturn]).
  cbn in Htr. rewrite <- app_assoc in Htr.
  assert (Hres : ∀ r', omap_out (λ _, tt) r' = r → (∀ l, r' = Ok l → l = Running) → ∃ runs,
    Forall (ran handler) runs ∧ in_turn w runs w' ∧
    all_handled (concat (map xs_Messages streams)) runs (omap_out (λ _, tt) r') ∧ (∀ l, r' = Ok l → l = Running) ∧
    w_trace w' = w_trace w ++ [EvXReadGroup (Stream cfg) (Group cfg) (ConsumerName cfg) 10 (BlockTimeout cfg)]
      ++ concat (map (λ x, run_sent x ++ acknowledged cfg x) runs)).
  { intros r' <- Hl. by exists runs. }
  destruct r as [[]|e|s]; [wp_step|done|]; apply Hres; try done. by intros l [= <-].
Qed.

(** ** Leaving the loop *)

Section Stop.
Context {E : Env}.

(** Effects only move forward in the environment's schedule. *)
Definition ticks_forward {A} (m : M A) : Prop := ∀ w, wp m (λ _ w', (w_tick w <= w_tick w')%nat) w.

Lemma handle_one_forward cfg handler m :
  (∀ msg, ticks_forward (handler msg)) → ticks_forward (handle_one cfg handler m).
Proof.
  intros Hh w. unfold handle_one. repeat wp_step. eapply wp_mono; [apply Hh|].
  intros r w' Hw. destruct r as [[]|e|s]; [|by wp_step|done].
  wp_step. apply wp_command. intros r Hr. destruct r; simpl; lia.
Qed.

Lemma handle_batch_forward cfg handler ms :
  (∀ msg, ticks_forward (handler msg)) → ticks_forward (handle_batch cfg handler ms).
Proof.
  intros Hh. induction ms as [|m ms IH]; intros w; cbn [handle_batch]; [by wp_step|].
  wp_step. eapply wp_mono; [by apply handle_one_forward|].
  intros r w' Hw. destruct r; [|done..]. eapply wp_mono; [apply IH|]. simpl. intros _ w'' ?. lia.
Qed.

Lemma consume_round_forward cfg handler w :
  (∀ msg, ticks_forward (handler msg)) →
  wp (consume_round cfg handler) (λ _ w', (w_tick w < w_tick w')%nat) w.
Proof.
  intros Hh. unfold consume_round. wp_step. wp_step. destruct (env_done (w_tick w)); cbn iota.
  { wp_step. simpl. lia. }
  wp_step. wp_step. unfold wp, XReadGroup. simpl.
  destruct (env_read (S (w_tick w))) as [st|e|s]; simpl; [|destruct (bool_decide _); simpl; lia|lia].
  match goal with |- context [bind ?m ?k ?w'] =>
    assert (Hb : wp (bind m k) (λ _ w'', (w_tick w' <= w_tick w'')%nat) w') end.
  { wp_step. eapply wp_mono; [by apply handle_batch_forward|]. intros r w' Hw. by destruct r. }
  unfold wp in Hb. destruct (bind _ _ _) as [r w']. simpl in Hb. lia.
Qed.

(** C31: [Consume] leaves its loop once the context is cancelled: from some
    effect on, [ctx.Done()] is closed, and enough rounds make the consumer
    return (an error, the cancellation or a crash of the handler). *)
Theorem Consume_returns cfg handler w N :
  (∀ msg, ticks_forward (handler msg)) → (∀ n, (N <= n)%nat → env_done n = true) →
  ∃ rounds, wp (Consume cfg rounds handler) (λ r _, r ≠ Ok Running) w.
Proof.
  intros Hh Hdone.
  assert (Hloop : ∀ k w, (N <= w_tick w + k)%nat →
    wp (consume_loop cfg (S k) handler) (λ r _, r ≠ Ok Running) w).
  { induction k as [|k IH]; intros w1 Hk; cbn [consume_loop]; wp_step.
    - unfold consume_round. wp_step. wp_step. rewrite Hdone by lia. by repeat wp_step.
    - eapply wp_mono; [by apply consume_round_forward|]. intros r w' Hw.
      destruct r as [[|e]|e|s]; [|by wp_step|done..]. apply IH. lia. }
  exists (S N). unfold Consume. wp_step. wp_step.
  unfold wp, ensureGroup, XGroupCreateMkStream, command.
  destruct (env_redis (w_tick w)) as [e|]; [destruct (String.eqb _ _)|];
    [apply (Hloop N); lia|done|apply (Hloop N); lia].
Qed.

End Stop.

(** The worker wrapper reports its handler's error unchanged, after
    waiting [1 + retry_count] seconds, and adds nothing on success. *)
Theorem worker_handle_backoff {E : Env} Handler msg w :
  0 <= RetryCount msg <= 9000000000 →
  wp (worker.handle Handler msg) (λ r w', ∃ w1, Handler msg w = (r, w1) ∧ same_state w1 w' ∧
    w_trace w' = w_trace w1 ++ match r with
                               | Err _ => [EvWait ((1 + RetryCount msg) * Second)]
                               | _ => []
                               end) w.
Proof.
  intros Hr. unfold worker.handle. wp_step. wp_step. destruct (Handler msg w) as [r w1] eqn:Eh.
  unfold wp at 1. rewrite Eh. destruct r as [[]|e|s].
  - wp_step. exists w1. by rewrite app_nil_r.
  - unfold Wait. repeat wp_step. exists w1. split_and!; [done..|]. simpl.
    unfold worker.backoff. rewrite (int64_id (1 + RetryCount msg)), int64_id by (unfold in_int64, min_int64, max_int64, Second; lia). done.
  - exists w1. by rewrite app_nil_r.
Qed.
