(* ===== verification/TransactionService.v ===== *)
(** * TransactionService: the application use cases

    Models [internal/service/transaction_service.go] and
    [pkg/shared/pagination]: create, list, get, update and soft delete of a
    user's transactions over the service interfaces, with the change event
    written next to the row and the sync job enqueued afterwards, and the
    service as [newApp] of the finance-api composes it. *)

From S2P Require Import Prelude GoInt GoStrings GoTime GoValues Json Pgtypex Schema Sqlc Effects TxRunner Models Repositories Wiring Queue.
Import service.

Module pagination.

Definition DefaultLimit : Z := 50.
Definition MaxLimit : Z := 200.

Definition Normalize (limit offset : Z) : Z * Z :=
  let limit := if limit <=? 0 then DefaultLimit else limit in
  let limit := if MaxLimit <? limit then MaxLimit else limit in
  let offset := if offset <? 0 then 0 else offset in
  (limit, offset).

End pagination.

Record TransactionService := mkTransactionService {
  repo : TransactionRepository;
  events : option ChangeEventWriter;
  syncQ : option SyncQueue;
  txRunner : option TxManager;
}.

Record CreateTransactionInput := mkCreateTransactionInput {
  ci_UserID : string; ci_AccountID : string; ci_Amount : float64; ci_Currency : string;
  ci_Type : string; ci_CategoryID : option string; ci_Description : option string;
  ci_OccurredAt : Time; ci_Metadata : JsonMap; ci_Source : string }.

Record UpdateTransactionInput := mkUpdateTransactionInput {
  ui_AccountID : string; ui_Amount : float64; ui_Currency : string; ui_Type : string;
  ui_CategoryID : option string; ui_Description : option string; ui_OccurredAt : Time;
  ui_Metadata : JsonMap; ui_Source : string }.

Record PaginationResult := mkPaginationResult { Limit : Z; Offset : Z; Total : Z }.

Section Service.
Context {E : Env}.
Variable s : TransactionService.

(** [json.Marshal] of the map literal: members in key order. *)
Definition syncPayloadForUser (userID : string) (sinceVersion : Z) : string :=
  strings.of_chars (Json.object [("sinceVersion", Json.int_text sinceVersion); ("userId", Json.quote userID)])%string.

Definition change_event (op : string) (tx : domain.Transaction) : ChangeEventInput :=
  mkChangeEventInput "transaction" (domain.ID tx) (domain.UserID tx) op (domain.Version tx)
    (Transaction_json tx).

(** [if s.events != nil { ... uow.ChangeEvents().Create(...) }]: inside the
    transaction an error aborts it. *)
Definition write_event (uow : TransactionUnitOfWork) (op : string) (tx : domain.Transaction) : M unit :=
  match events s with
  | Some _ => cew_Create (uow_ChangeEvents uow) (change_event op tx)
  | None => ret tt
  end.

(** Without a transaction manager the event is written best effort. *)
Definition write_event_best_effort (op : string) (tx : domain.Transaction) : M unit :=
  match events s with
  | Some w => discard (cew_Create w (change_event op tx))
  | None => ret tt
  end.

(** The sync job of an operation; its error is ignored. *)
Definition enqueue_job (op userID : string) (sinceVersion : Z) : M unit :=
  match syncQ s with
  | Some q => discard (EnqueueSyncJob q (mkSyncJob "transaction" op (syncPayloadForUser userID sinceVersion)))
  | None => ret tt
  end.

Definition ListUserTransactions (userID : string) (limit offset : Z) : M (list domain.Transaction) :=
  let '(limit, offset) := pagination.Normalize limit offset in
  ListByUser (repo s) userID limit offset.

Definition or_default (v d : string) : string := if String.eqb v "" then d else v.

Definition new_transaction (inp : CreateTransactionInput) (now : Time) : domain.Transaction :=
  domain.mkTransaction "" (ci_UserID inp) (ci_AccountID inp) (ci_Amount inp)
    (or_default (ci_Currency inp) "IDR") (ci_Type inp) (ci_CategoryID inp) (ci_Description inp)
    (ci_OccurredAt inp) (ci_Metadata inp) 1 now (or_default (ci_Source inp) "app") None now now time.zero.

Definition create_in_tx (tx : domain.Transaction) (uow : TransactionUnitOfWork) : M domain.Transaction :=
  let! tx := Create (uow_Transactions uow) tx in
  write_event uow "create" tx ;;; ret tx.

Definition CreateTransaction (inp : CreateTransactionInput) : M domain.Transaction :=
  let! now := Now in
  let tx := new_transaction inp now in
  let! tx :=
    match txRunner s with
    | None => Create (repo s) tx
    | Some m => tm_RunInTx m _ (create_in_tx tx)
    end in
  enqueue_job "create" (domain.UserID tx) 0 ;;; ret tx.

Definition ListUserTransactionsWithCount (userID : string) (limit offset : Z) :
    M (list domain.Transaction * PaginationResult) :=
  let '(limit, offset) := pagination.Normalize limit offset in
  let! items := ListByUser (repo s) userID limit offset in
  let! total := CountByUser (repo s) userID in
  ret (items, mkPaginationResult limit offset total).

Definition GetTransaction (userID id : string) : M domain.Transaction := GetByID (repo s) userID id.

Definition applyUpdates (inp : UpdateTransactionInput) (now : Time) (t : domain.Transaction) : domain.Transaction :=
  domain.mkTransaction (domain.ID t) (domain.UserID t) (ui_AccountID inp) (ui_Amount inp)
    (or_default (ui_Currency inp) (domain.Currency t)) (or_default (ui_Type inp) (domain.Type_ t))
    (ui_CategoryID inp) (ui_Description inp) (ui_OccurredAt inp) (ui_Metadata inp) (domain.Version t)
    now (or_default (ui_Source inp) (domain.Source t)) (domain.SheetsRowID t) (domain.CreatedAt t)
    (domain.UpdatedAt t) (domain.DeletedAt t).

Definition update_in_tx (existing : domain.Transaction) (inp : UpdateTransactionInput)
    (uow : TransactionUnitOfWork) : M domain.Transaction :=
  let! now := Now in
  let! tx := Update (uow_Transactions uow) (applyUpdates inp now existing) in
  write_event uow "update" tx ;;; ret tx.

Definition since_version (tx : domain.Transaction) : Z := int64 (domain.Version tx - 1).

Definition UpdateTransaction (userID id : string) (inp : UpdateTransactionInput) : M domain.Transaction :=
  let! existing := GetByID (repo s) userID id in
  match txRunner s with
  | None =>
      let! now := Now in
      let! tx := Update (repo s) (applyUpdates inp now existing) in
      write_event_best_effort "update" tx ;;;
      enqueue_job "update" (domain.UserID tx) (since_version tx) ;;; ret tx
  | Some m =>
      let! tx := tm_RunInTx m _ (update_in_tx existing inp) in
      enqueue_job "update" (domain.UserID tx) (since_version tx) ;;; ret tx
  end.

Definition delete_in_tx (userID id : string) (uow : TransactionUnitOfWork) : M domain.Transaction :=
  let! deleted := SoftDelete (uow_Transactions uow) userID id in
  write_event uow "delete" deleted ;;; ret deleted.

Definition SoftDeleteTransaction (userID id : string) : M domain.Transaction :=
  match txRunner s with
  | None =>
      let! deleted := SoftDelete (repo s) userID id in
      write_event_best_effort "delete" deleted ;;;
      enqueue_job "delete" (domain.UserID deleted) (since_version deleted) ;;; ret deleted
  | Some m =>
      let! deleted := tm_RunInTx m _ (delete_in_tx userID id) in
      enqueue_job "delete" (domain.UserID deleted) (since_version deleted) ;;; ret deleted
  end.

End Service.

(** ** The service of the finance-api ([newApp]) *)

Section App.
Context {E : Env} {UL : UuidLib} {PL : PgtypeLib} {PS : queries.PgServer}.

(** [redis] is the client of the optional Redis configuration. *)
Definition sync_stream : queue.RedisStreamConfig :=
  queue.NewRedisStreamQueue (queue.mkRedisStreamConfig "sync_queue" "" "" 0).

Definition app_sync_queue (redis : bool) : option SyncQueue :=
  if redis then Some (NewRedisSyncQueue (Some (queue.redis_producer sync_stream))) else None.

Definition NewTransactionService (redis : bool) : TransactionService :=
  let repos := NewRepositories in
  mkTransactionService
    (NewServiceTransactionAdapter (Transactions repos) None)
    (Some (NewDBChangeEventWriter (Some (ChangeEvents repos))))
    (app_sync_queue redis)
    (Some (NewTxManagerAdapter NewTxRunner (Transactions repos) (ChangeEvents repos))).

End App.
