(* ===== verification/Outbox.v ===== *)
(** * Outbox: the contract of the transaction service

    The abstract specification of a write of [TransactionService]: one atomic
    step on the database that stores one row of [transactions] and appends the
    one change event that describes it ([recorded]), followed by the sync job
    ([written]); for updates and deletes, of the row that the requested id
    names, and with the contents that the input gives it ([step_on]).
    The theorems show that the composed service implements that step under
    every schedule of failures, and that the event log of every transaction
    lists the versions 1, 2, ... up to the row's version. *)

From S2P Require Import Prelude GoInt GoStrings GoTime GoValues Json Pgtypex Schema Sqlc Effects TxRunner Models Repositories Wiring Queue TransactionService.
Import pgtypex uuidx queries.

Section Outbox.
Context {E : Env} {UL : UuidLib} {ULaws : UuidLaws UL} {PL : PgtypeLib} {PS : PgServer}.

(** ** The abstract step *)

(** What a repository operation hands back of a stored row. *)
Definition returned (op : string) (row : sqlcdb.Transaction) : sqlcdb.Transaction :=
  if String.eqb op "create" then created_row row else row.

(** [d'] is [d] with [row] stored under [id]: a new row of version 1, or the
    next version of the row that was there, its owner unchanged; [tx] is the
    row as the service returns it. *)
Definition stored (op : string) (d d' : DB) (id : UUID) (row : sqlcdb.Transaction) (tx : domain.Transaction) : Prop :=
  d' = set_transactions (<[id := row]> (transactions d)) d ∧
  sqlcdb.ID row = UUIDToPG id ∧
  (∃ t, sqlcTransactionToDB (returned op row) = Ok t ∧ tx = dbTransactionToDomain t) ∧
  match transactions d !! id with
  | None => op = "create"%string ∧ sqlcdb.Version row = 1
  | Some old => op ≠ "create"%string ∧ sqlcdb.Version row = sqlcdb.Version old + 1
                ∧ sqlcdb.UserID row = sqlcdb.UserID old
  end.

(** The event of a stored row. *)
Definition event_of (op : string) (serial : Z) (ts : Timestamptz) (row : sqlcdb.Transaction)
    (payload : option json) : sqlcdb.ChangeEvent :=
  sqlcdb.mkChangeEvent serial "transaction" (sqlcdb.ID row) (sqlcdb.UserID row) op payload
    (sqlcdb.Version row) ts ts Timestamptz_zero.

(** Row and event together; the payload is the JSON of what the service
    returns. *)
Definition recorded_at (op : string) (d d' : DB) (tx : domain.Transaction) (id : UUID)
    (row : sqlcdb.Transaction) : Prop :=
  ∃ d1 serial ts payload,
    stored op d d1 id row tx ∧ Transaction_json tx = Some payload ∧
    d' = set_change_events (change_events d1 ++ [event_of op serial ts row (Some payload)]) d1.

Definition recorded (op : string) (d d' : DB) (tx : domain.Transaction) : Prop :=
  ∃ id row, recorded_at op d d' tx id row.

(** The same for a row and id that satisfy [R]. *)
Definition recorded_as (R : UUID → sqlcdb.Transaction → Prop) (op : string) (d d' : DB)
    (tx : domain.Transaction) : Prop :=
  ∃ id row, R id row ∧ recorded_at op d d' tx id row.

(** The sync job of an operation, sent once the step is committed. *)
Definition job_event (op : string) (tx : domain.Transaction) (since : Z) : Event :=
  EvXAdd "sync_queue" (queue.message_values
    (queue.mkMessage "" "transaction" op (syncPayloadForUser (domain.UserID tx) since) 0)).

(** A write of the service from database [d] and trace [tr], whose step on
    the database is [step]. *)
Definition written (step : DB → DB → domain.Transaction → Prop) (op : string) (redis : bool)
    (since : domain.Transaction → Z) (d : DB) (tr : list Event) (r : outcome domain.Transaction)
    (w' : World) : Prop :=
  match r with
  | Ok tx => step d (w_db w') tx
             ∧ w_trace w' = tr ++ (if redis then [job_event op tx (since tx)] else [])
  | Err e => w_trace w' = tr ∧ (w_db w' = d ∨ (db_fault e ∧ ∃ tx, step d (w_db w') tx))
  | Panic _ => w_trace w' = tr ∧ w_db w' = d
  end.

Definition write_post (op : string) : bool → (domain.Transaction → Z) → DB → list Event →
    outcome domain.Transaction → World → Prop := written (recorded op) op.

(** *** What an update and a delete store *)

(** The row that the update [inp] makes of [old]: id, owner, times of
    creation and deletion and the sheet row are kept, an empty currency, type
    or source keeps the old one, and every other column is the input's, the
    amount rounded to cents and the times to microseconds. *)
Definition updated_row (inp : UpdateTransactionInput) (old row : sqlcdb.Transaction) : Prop :=
  sqlcdb.ID row = sqlcdb.ID old ∧ sqlcdb.UserID row = sqlcdb.UserID old ∧
  sqlcdb.CreatedAt row = sqlcdb.CreatedAt old ∧ sqlcdb.DeletedAt row = sqlcdb.DeletedAt old ∧
  sqlcdb.SheetsRowID row = store_text (sqlcdb.SheetsRowID old) ∧
  (∃ account, uuid_FromString (ui_AccountID inp) = Ok account ∧ sqlcdb.AccountID row = mkPgUUID account true) ∧
  (∃ n, numeric_Scan (ui_Amount inp) = Ok n ∧ numeric_18_2 n = Ok (sqlcdb.Amount row)) ∧
  char3 (if String.eqb (ui_Currency inp) "" then sqlcdb.Currency old else ui_Currency inp) = Ok (sqlcdb.Currency row) ∧
  sqlcdb.Type_ row = (if String.eqb (ui_Type inp) "" then sqlcdb.Type_ old else ui_Type inp) ∧
  sqlcdb.Source row = (if String.eqb (ui_Source inp) "" then sqlcdb.Source old else ui_Source inp) ∧
  match ui_CategoryID inp with
  | None => sqlcdb.CategoryID row = UUID_zero
  | Some s => ∃ category, uuid_FromString s = Ok category ∧ sqlcdb.CategoryID row = mkPgUUID category true
  end ∧
  sqlcdb.Description row = match ui_Description inp with None => Text_zero | Some s => mkText s true end ∧
  sqlcdb.OccurredAt row = mkTimestamptz (trunc_us (ui_OccurredAt inp)) true ∧
  sqlcdb.Metadata row = Some (json_of_map (ui_Metadata inp)) ∧
  sqlcdb.LastModified row = sqlcdb.UpdatedAt row.

(** The row that a delete makes of [old]: it is marked deleted, at the time
    of its last change, and is otherwise the old one. *)
Definition deleted_of (old row : sqlcdb.Transaction) : Prop :=
  ts_Valid (sqlcdb.DeletedAt row) = true ∧
  row = sqlcdb.mkTransaction (sqlcdb.ID old) (sqlcdb.UserID old) (sqlcdb.AccountID old) (sqlcdb.Amount old)
    (sqlcdb.Currency old) (sqlcdb.Type_ old) (sqlcdb.CategoryID old) (sqlcdb.Description old)
    (sqlcdb.OccurredAt old) (sqlcdb.Metadata old) (sqlcdb.Version old + 1) (sqlcdb.DeletedAt row)
    (sqlcdb.Source old) (sqlcdb.SheetsRowID old) (sqlcdb.CreatedAt old) (sqlcdb.DeletedAt row)
    (sqlcdb.DeletedAt row).

(** [row] replaces, by [change], the row that [d] has under the id [id]
    names, which is not deleted. *)
Definition replaces (change : sqlcdb.Transaction → sqlcdb.Transaction → Prop) (id : string) (d : DB)
    (uid : UUID) (row : sqlcdb.Transaction) : Prop :=
  uuid_FromString id = Ok uid ∧
  ∃ old, transactions d !! uid = Some old ∧ ts_Valid (sqlcdb.DeletedAt old) = false ∧ change old row.

Definition step_on (change : sqlcdb.Transaction → sqlcdb.Transaction → Prop) (op id : string) (d d' : DB)
    (tx : domain.Transaction) : Prop :=
  recorded_as (replaces change id d) op d d' tx.

Lemma recorded_as_recorded R op d d' tx : recorded_as R op d d' tx → recorded op d d' tx.
Proof. intros (id & row & _ & H). by exists id, row. Qed.

Lemma recorded_as_mono (R S : UUID → sqlcdb.Transaction → Prop) op d d' tx :
  (∀ id row, R id row → S id row) → recorded_as R op d d' tx → recorded_as S op d d' tx.
Proof. intros HRS (id & row & HR & H). exists id, row. auto. Qed.

Lemma written_mono (P Q : DB → DB → domain.Transaction → Prop) op redis since d tr r w' :
  (∀ d' tx, P d d' tx → Q d d' tx) → written P op redis since d tr r w' → written Q op redis since d tr r w'.
Proof. intros HPQ. destruct r as [tx|e|m]; simpl; naive_solver. Qed.

(** ** The concrete operations inside a transaction *)

Lemma sqlcTransactionToDB_Ok row t :
  sqlcTransactionToDB row = Ok t →
  sqlcdb.ID row = UUIDToPG (db.ID t) ∧ sqlcdb.UserID row = UUIDToPG (db.UserID t)
  ∧ db.Version t = sqlcdb.Version row.
Proof.
  unfold sqlcTransactionToDB. intros H. inv_try H. injection H as <-. simpl.
  assert (HU : ∀ c p u, with_context c (PGToUUID p) = Ok u → p = UUIDToPG u).
  { intros c [b v] u. unfold PGToUUID. simpl. destruct v; simpl; [|done]. by intros [= ->]. }
  split_and!; eauto.
Qed.

Definition keyed (d : DB) : Prop :=
  ∀ id t, transactions d !! id = Some t → sqlcdb.ID t = UUIDToPG id.

Definition ok_post {A} (P : A → DB → Prop) (r : outcome A) (d' : DB) : Prop :=
  match r with Ok a => P a d' | _ => True end.

Lemma ok_post_context {A} (P : A → DB → Prop) ctx r d : ok_post P r d → ok_post P (with_context ctx r) d.
Proof. by destruct r. Qed.

(** Sequencing under [ok_post]: only successes are followed. *)
Lemma txwp_bind_ok {A B} rest (m : M A) (k : A → M B) (P : A → DB → Prop) (Q : B → DB → Prop) d :
  txwp m (ok_post P) rest d →
  (∀ a d', P a d' → txwp (k a) (ok_post Q) rest d') →
  txwp (bind m k) (ok_post Q) rest d.
Proof.
  intros Hm Hk. tx_step. eapply txwp_mono; [done|]. intros [a|e|s] d' H; [by apply Hk|done..].
Qed.

Lemma txwp_lift_ok {A B} rest (o : outcome A) (k : A → M B) (Q : B → DB → Prop) d :
  (∀ a, o = Ok a → txwp (k a) (ok_post Q) rest d) → txwp (bind (lift o) k) (ok_post Q) rest d.
Proof. intros H. tx_step. tx_step. destruct o; simpl; auto. Qed.

Lemma txwp_exec_ok {A} rest (s : stmt A) (Q : A → DB → Prop) d :
  (∀ ctx a d', s ctx d = Ok (a, d') → Q a d') → txwp (exec (InTx (List.length rest)) s) (ok_post Q) rest d.
Proof.
  intros H. apply txwp_exec; [|done]. intros ctx. destruct (s ctx d) as [[a d']|e|m] eqn:Es; [|done..].
  by eapply H.
Qed.

Lemma txwp_query_ok {A B} rest ctx (st : stmt A) (k : A → M B) (Q : B → DB → Prop) d :
  (∀ c a d', st c d = Ok (a, d') → txwp (k a) (ok_post Q) rest d') →
  txwp (bind (wrap_err ctx (exec (InTx (List.length rest)) st)) k) (ok_post Q) rest d.
Proof.
  intros H. apply (txwp_bind_ok _ _ _ (λ a d', ∃ c, st c d = Ok (a, d'))).
  - tx_step. eapply txwp_mono; [apply (txwp_exec_ok _ _ (λ a d', ∃ c, st c d = Ok (a, d'))); eauto|].
    by intros [].
  - intros a d' [c Hc]. by eapply H.
Qed.

Lemma returned_fields op row :
  sqlcdb.ID (returned op row) = sqlcdb.ID row ∧ sqlcdb.UserID (returned op row) = sqlcdb.UserID row
  ∧ sqlcdb.Version (returned op row) = sqlcdb.Version row.
Proof. unfold returned. by destruct (String.eqb op "create"). Qed.

(** The three repository writes, up to the returned domain value. *)
Definition stored_as (R : UUID → sqlcdb.Transaction → Prop) (op : string) (d : DB) (t : db.Transaction)
    (d' : DB) : Prop :=
  ∃ id row, R id row ∧ d' = set_transactions (<[id := row]> (transactions d)) d ∧
    sqlcdb.ID row = UUIDToPG id ∧ sqlcTransactionToDB (returned op row) = Ok t ∧
    match transactions d !! id with
    | None => op = "create"%string ∧ sqlcdb.Version row = 1
    | Some old => op ≠ "create"%string ∧ sqlcdb.Version row = sqlcdb.Version old + 1
                  ∧ sqlcdb.UserID row = sqlcdb.UserID old
    end.

Definition any_row (id : UUID) (row : sqlcdb.Transaction) : Prop := True.

(** The row [Update] stores for its parameters. *)
Definition update_of (p : db.UpdateTransactionParams) (d : DB) (id : UUID) (row : sqlcdb.Transaction) : Prop :=
  id = db.up_ID p ∧
  ∃ arg old, update_arg p = Ok arg ∧ transactions d !! id = Some old ∧ update_row arg old row.

(** The row [SoftDelete] stores. *)
Definition delete_of (uid : UUID) (d : DB) (id : UUID) (row : sqlcdb.Transaction) : Prop :=
  id = uid ∧ ∃ old, transactions d !! id = Some old ∧ not_deleted old = true ∧ deleted_row old row.

Lemma txwp_repo_Create rest p d :
  db.cp_Version p = 1 →
  txwp (Create (Some (List.length rest)) p) (ok_post (stored_as any_row "create" d)) rest d.
Proof.
  intros Hp. unfold Create. apply txwp_lift_ok. intros arg Harg.
  assert (Ha : c_Version arg = 1).
  { unfold create_arg in Harg. inv_try Harg. by injection Harg as <-. }
  apply txwp_query_ok. intros ctx row d' (-> & Hfresh & Hid & _ & Hv & _)%CreateTransaction_Ok.
  tx_step. destruct (sqlcTransactionToDB (created_row row)) as [t|e|m] eqn:Et; [|done..].
  exists (sql_uuid ctx), row. rewrite Hfresh. split_and!; try done. congruence.
Qed.

Lemma txwp_repo_Update rest p d :
  keyed d →
  txwp (Update (Some (List.length rest)) p) (ok_post (stored_as (update_of p d) "update" d)) rest d.
Proof.
  intros Hk. unfold Update. apply txwp_lift_ok. intros arg Harg.
  assert (Hb : u_ID arg = UUIDToPG (db.up_ID p)).
  { unfold update_arg in Harg. inv_try Harg. by injection Harg as <-. }
  apply txwp_query_ok. intros ctx row d' (old & Hold & -> & _ & _ & _ & Hrow & _)%UpdateTransaction_Ok.
  destruct (update_row_fields _ _ _ Hrow) as (Hid & Hu & Hv & _). rewrite Hb in *.
  tx_step. destruct (sqlcTransactionToDB row) as [t|e|m] eqn:Et; [|done..].
  exists (db.up_ID p), row. cbn in Hold. rewrite Hold, Hid, (Hk _ _ Hold). split_and!; try done.
  split; [done|]. by exists arg, old.
Qed.

Lemma txwp_repo_SoftDelete rest id d :
  keyed d →
  txwp (SoftDelete (Some (List.length rest)) id) (ok_post (stored_as (delete_of id d) "delete" d)) rest d.
Proof.
  intros Hk. unfold SoftDelete.
  apply txwp_query_ok. intros ctx row d' (old & Hold & -> & _ & Hl & _ & Hrow)%SoftDeleteByID_Ok.
  destruct (deleted_row_fields _ _ Hrow) as (Hid & Hu & Hv & _).
  tx_step. destruct (sqlcTransactionToDB row) as [t|e|m] eqn:Et; [|done..].
  exists id, row. cbn in Hold. rewrite Hold, Hid, (Hk _ _ Hold). split_and!; try done.
  split; [done|]. by exists old.
Qed.

(** The event of a stored row, written on the same transaction. *)
Lemma txwp_write_event R rest op d d1 t redis :
  stored_as R op d t d1 →
  txwp (write_event (NewTransactionService redis)
          (txUnitOfWork NewTransactionRepository NewChangeEventRepository (List.length rest)) op
          (dbTransactionToDomain t) ;;; ret (dbTransactionToDomain t))
    (ok_post (λ tx d', tx = dbTransactionToDomain t ∧ recorded_as R op d d' tx)) rest d1.
Proof.
  intros (id & row & HR & Hd1 & Hid & Ht & Hver).
  destruct (sqlcTransactionToDB_Ok _ _ Ht) as (Hid' & Huser & Hversion).
  destruct (returned_fields op row) as (Rid & Ruser & Rversion). rewrite Rid, Ruser, Rversion in *.
  eapply txwp_bind_ok with (P := λ _ d', recorded_as R op d d' (dbTransactionToDomain t)).
  2: { intros _ d' Hrec. by tx_step. }
  simpl. unfold Insert. apply txwp_lift_ok. intros arg Harg. unfold insert_arg in Harg. inv_try Harg.
  injection Harg as <-. simpl in *. rewrite !StringToPGUUID_String in *. simpl in *.
  repeat match goal with H : Ok _ = Ok _ |- _ => injection H as <- end.
  apply txwp_exec_ok. intros ctx [] d' (Hpay & -> & _)%InsertChangeEvent_Ok. simpl in *.
  destruct (Transaction_json _) as [payload|] eqn:Ej; [|done].
  exists id, row. split; [done|]. exists d1, (sql_serial ctx), (ts_now ctx), payload.
  split_and!; [|done|unfold event_of; by rewrite Hversion, Hid', Huser].
  unfold stored. eauto 6.
Qed.

Definition adapted (R : UUID → sqlcdb.Transaction → Prop) (op : string) (d : DB) (tx : domain.Transaction)
    (d' : DB) : Prop :=
  ∃ t, tx = dbTransactionToDomain t ∧ stored_as R op d t d'.

(** An adapter method: parameters from the domain value, the repository
    operation, the domain value of its result. *)
Lemma txwp_adapter {A} R rest op (conv : outcome A) (rep : A → M db.Transaction) d :
  (∀ p, conv = Ok p → txwp (rep p) (ok_post (stored_as R op d)) rest d) →
  txwp (let! p := lift conv in let! row := rep p in ret (dbTransactionToDomain row))
    (ok_post (adapted R op d)) rest d.
Proof.
  intros H. apply txwp_lift_ok. intros p Hp. eapply txwp_bind_ok; [by apply H|].
  intros t d' Hst. tx_step. by exists t.
Qed.

(** ** The transactions of the service *)

Lemma txwp_row_and_event R rest op d (m : M domain.Transaction) redis :
  txwp m (ok_post (adapted R op d)) rest d →
  txwp (let! tx := m in
        write_event (NewTransactionService redis)
          (txUnitOfWork NewTransactionRepository NewChangeEventRepository (List.length rest)) op tx ;;; ret tx)
    (ok_post (λ tx d', recorded_as R op d d' tx)) rest d.
Proof.
  intros Hm. eapply txwp_bind_ok; [exact Hm|]. intros tx d1 (t & -> & Hst).
  eapply txwp_mono; [by apply txwp_write_event|]. intros [tx|e|s] d'; [by intros [-> ?]|done..].
Qed.

Definition app_uow (tx : Tx) : service.TransactionUnitOfWork :=
  txUnitOfWork NewTransactionRepository NewChangeEventRepository tx.

(** What a row's write gives and events do not affect holds after the body. *)
Lemma row_and_event_keeps {A} (P : DB → Prop) rest op redis (conv : outcome A) (rep : A → M db.Transaction) d :
  (∀ d' e, P d' → P (set_change_events (change_events d' ++ [e]) d')) →
  (∀ p, conv = Ok p → txwp (rep p) (ok_post (λ _ d', P d')) rest d) →
  txwp (let! tx := (let! p := lift conv in let! row := rep p in ret (dbTransactionToDomain row)) in
        write_event (NewTransactionService redis) (app_uow (List.length rest)) op tx ;;; ret tx)
    (ok_post (λ _ d', P d')) rest d.
Proof.
  intros He H. eapply (txwp_bind_ok _ _ _ (λ _ d', P d')).
  - apply txwp_lift_ok. intros p Hp. eapply txwp_bind_ok; [by apply H|]. intros row d' Hd'. by tx_step.
  - intros tx d' Hd'. eapply (txwp_bind_ok _ _ _ (λ _ d'', P d'')).
    + simpl. unfold Insert. apply txwp_lift_ok. intros arg _. apply txwp_exec_ok.
      intros ctx [] d'' (_ & -> & _)%InsertChangeEvent_Ok. by apply He.
    + intros _ d'' Hd''. by tx_step.
Qed.

(** A body that records a row of a kind records a row. *)
Lemma tx_body_recorded R op (fn : Tx → M domain.Transaction) d :
  tx_body fn d (ok_post (λ tx d', recorded_as R op d d' tx)) →
  tx_body fn d (ok_post (λ tx d', recorded op d d' tx)).
Proof.
  intros H rest. eapply txwp_mono; [apply H|]. intros [tx|e|m] d'; simpl; [apply recorded_as_recorded|done..].
Qed.

Lemma body_create redis t d :
  domain.Version t = 1 →
  tx_body (λ tx, create_in_tx (NewTransactionService redis) t (app_uow tx)) d
    (ok_post (λ tx d', recorded "create" d d' tx)).
Proof.
  intros Hv. apply (tx_body_recorded any_row). intros rest. apply txwp_row_and_event, txwp_adapter.
  intros p Hp. apply txwp_repo_Create.
  unfold domainTransactionToCreateParams in Hp. inv_try Hp. by injection Hp as <-.
Qed.

(** The row an update of [existing] stores. *)
Definition update_of_existing (existing : domain.Transaction) (inp : UpdateTransactionInput) (d : DB)
    (id : UUID) (row : sqlcdb.Transaction) : Prop :=
  ∃ now p, domainTransactionToUpdateParams (applyUpdates inp now existing) = Ok p ∧ update_of p d id row.

Lemma stored_as_mono (R S : UUID → sqlcdb.Transaction → Prop) op d t d' :
  (∀ id row, R id row → S id row) → stored_as R op d t d' → stored_as S op d t d'.
Proof. intros HRS (id & row & HR & H). exists id, row. auto. Qed.

Lemma body_update_row redis existing inp d :
  keyed d →
  tx_body (λ tx, update_in_tx (NewTransactionService redis) existing inp (app_uow tx)) d
    (ok_post (λ tx d', recorded_as (update_of_existing existing inp d) "update" d d' tx)).
Proof.
  intros Hk rest. unfold update_in_tx. tx_step. tx_step. apply txwp_row_and_event, txwp_adapter.
  intros p Hp. eapply txwp_mono; [by apply txwp_repo_Update|]. intros [row|e|m] d'; simpl; [|done..].
  apply stored_as_mono. intros id row' H. by exists t, p.
Qed.

Lemma body_update redis existing inp d :
  keyed d →
  tx_body (λ tx, update_in_tx (NewTransactionService redis) existing inp (app_uow tx)) d
    (ok_post (λ tx d', recorded "update" d d' tx)).
Proof. intros Hk. by eapply tx_body_recorded, body_update_row. Qed.

Lemma deleted_row_of old row : deleted_row old row → deleted_of old row.
Proof. by intros (now & Hv & ->). Qed.

Lemma body_delete_row redis user id d :
  keyed d →
  tx_body (λ tx, delete_in_tx (NewTransactionService redis) user id (app_uow tx)) d
    (ok_post (λ tx d', step_on deleted_of "delete" id d d' tx)).
Proof.
  intros Hk rest. apply txwp_row_and_event, txwp_adapter. intros p Hp.
  eapply txwp_mono; [by apply txwp_repo_SoftDelete|]. intros [row|e|m] d'; simpl; [|done..].
  apply stored_as_mono. intros uid row' (-> & old & Hold & Hl & Hrow). split; [done|].
  exists old. split_and!; [done| |by apply deleted_row_of]. unfold not_deleted, is_null_ts in Hl. by bool_to_prop.
Qed.

Lemma body_delete redis user id d :
  keyed d →
  tx_body (λ tx, delete_in_tx (NewTransactionService redis) user id (app_uow tx)) d
    (ok_post (λ tx d', recorded "delete" d d' tx)).
Proof. intros Hk. by eapply tx_body_recorded, body_delete_row. Qed.

(** Commit, then the job: a failure to enqueue is not reported. *)
Lemma wp_write step op redis since (fn : Tx → M domain.Transaction) w :
  tx_body fn (w_db w) (ok_post (λ tx d', step (w_db w) d' tx)) →
  wp (let! tx := RunInTx fn in
      enqueue_job (NewTransactionService redis) op (domain.UserID tx) (since tx) ;;; ret tx)
    (λ r w', w_txs w' = w_txs w ∧ written step op redis since (w_db w) (w_trace w) r w') w.
Proof.
  intros Hb. wp_step. eapply wp_mono; [by apply wp_RunInTx|].
  intros [tx|e|m] w' (Htx & Htr & Hpost); simpl in Hpost.
  - wp_step. unfold enqueue_job. destruct redis; simpl.
    + wp_step. unfold EnqueueSyncJob, queue.Enqueue, XAdd; simpl. apply wp_command.
      intros r Hr. destruct (env_redis _); subst r; wp_step; simpl; by rewrite Htr.
    + wp_step. wp_step. simpl. by rewrite app_nil_r.
  - split; [done|]. split; [done|]. destruct Hpost as [[-> _]|[Hf [tx Hrec]]]; eauto.
  - destruct Hpost as [Hd _]. by split_and!.
Qed.

(** ** The service *)

(** A read through the pool. *)
Definition unchanged {A} (w : World) (r : outcome A) (w' : World) : Prop :=
  w_db w' = w_db w ∧ w_txs w' = w_txs w ∧ w_trace w' = w_trace w.

Lemma wp_read {A B} ctx (f : DB → outcome A) (k : A → outcome B) w :
  wp (let! a := wrap_err ctx (exec Pool (read_stmt f)) in lift (k a)) (unchanged w) w.
Proof.
  wp_step. wp_step. apply wp_exec_pool.
  - unfold read_stmt. destruct (f (w_db w)); simpl; [|done..].
    split; [by wp_step|done].
  - done.
Qed.

Lemma wp_adapter_GetByID user id w :
  wp (adapter_GetByID NewTransactionRepository None user id) (unchanged w) w.
Proof.
  unfold adapter_GetByID. wp_step. wp_step. destruct (uuid_FromString id); [|done..].
  wp_step. eapply wp_mono; [apply wp_read|]. intros [] w' H; by try wp_step.
Qed.

(** What the adapter's [GetByID] returns. *)
Definition found (id : string) (d : DB) (tx : domain.Transaction) : Prop :=
  ∃ uid old t, uuid_FromString id = Ok uid ∧ transactions d !! uid = Some old ∧
    ts_Valid (sqlcdb.DeletedAt old) = false ∧ sqlcTransactionToDB old = Ok t ∧ tx = dbTransactionToDomain t.

Lemma wp_adapter_GetByID_found user id w :
  wp (adapter_GetByID NewTransactionRepository None user id)
    (λ r w', unchanged w r w' ∧ ∀ tx, r = Ok tx → found id (w_db w) tx) w.
Proof.
  unfold adapter_GetByID. wp_step. wp_step. destruct (uuid_FromString id) as [uid|e|m] eqn:Eid; [|done..].
  wp_step. cbn [tr_GetByID NewTransactionRepository]. unfold GetByID, GetTransactionByIDOnly.
  wp_step. wp_step. apply wp_exec_pool; [|by intros e He].
  unfold read_stmt. destruct (transaction_where _ _ _) as [old|e|m] eqn:Eold; simpl; [|done..].
  apply transaction_where_Ok in Eold as (_ & Hold & Hl). unfold not_deleted, is_null_ts in Hl.
  split; [|by intros e He]. wp_step. destruct (sqlcTransactionToDB old) as [t|e|m] eqn:Et; [|done..].
  wp_step. split; [done|]. intros tx [= <-]. exists uid, old, t. split_and!; try done. by apply negb_true_iff.
Qed.

Lemma UUID_bytes_eq p u : PGToUUID p = Ok u → p = UUIDToPG u.
Proof. destruct p as [b v]. unfold PGToUUID. simpl. destruct v; simpl; [|done]. by intros [= ->]. Qed.

(** An update of the row that was read stores what [updated_row] says. *)
Section UpdatedRow.
Context {PLaws : PgtypeLaws PL}.

Lemma TextFromStringPtr_stored s t :
  TextFromStringPtr s = Ok t → store_text t = match s with None => Text_zero | Some s => mkText s true end.
Proof. destruct s as [s|]; simpl; [rewrite text_Scan_valid|]; by intros [= <-]. Qed.

Lemma TimestamptzFromTime_stored t ts :
  TimestamptzFromTime t = Ok ts → store_ts ts = mkTimestamptz (trunc_us t) true.
Proof. unfold TimestamptzFromTime. rewrite timestamptz_Scan_valid. by intros [= <-]. Qed.

Lemma marshal_metadata_Ok m j : marshal_metadata m = Ok j → j = Some (json_of_map m).
Proof.
  unfold marshal_metadata, json_marshal. destruct (json_valid _); [|done]. by intros [= <-].
Qed.

Lemma parse_category_Ok c u :
  parse_category c = Ok u →
  match c with
  | None => store_uuid (UUIDPtrToPG u) = UUID_zero
  | Some s => ∃ v, uuid_FromString s = Ok v ∧ store_uuid (UUIDPtrToPG u) = mkPgUUID v true
  end.
Proof.
  unfold parse_category. destruct c as [s|]; intros H; [|by injection H as <-].
  inv_try H. injection H as <-. by eexists.
Qed.

(** The conversions of the repository, then of the adapter, undone. *)
Lemma update_arg_row p arg old row :
  update_arg p = Ok arg → update_row arg old row →
  sqlcdb.AccountID row = UUIDToPG (db.up_AccountID p) ∧
  (∃ n, numeric_Scan (db.up_Amount p) = Ok n ∧ numeric_18_2 n = Ok (sqlcdb.Amount row)) ∧
  char3 (db.up_Currency p) = Ok (sqlcdb.Currency row) ∧ sqlcdb.Type_ row = db.up_Type p ∧
  sqlcdb.Source row = db.up_Source p ∧ sqlcdb.CategoryID row = store_uuid (UUIDPtrToPG (db.up_CategoryID p)) ∧
  sqlcdb.Description row = match db.up_Description p with None => Text_zero | Some s => mkText s true end ∧
  sqlcdb.SheetsRowID row = match db.up_SheetsRowID p with None => Text_zero | Some s => mkText s true end ∧
  sqlcdb.OccurredAt row = mkTimestamptz (trunc_us (db.up_OccurredAt p)) true ∧
  sqlcdb.Metadata row = Some (json_of_map (db.up_Metadata p)) ∧ sqlcdb.LastModified row = sqlcdb.UpdatedAt row.
Proof.
  unfold update_arg. intros Ha (amount & currency & now & Hn & Hc & _ & ->). inv_try Ha. injection Ha as <-. simpl in *.
  repeat match goal with H : with_context _ _ = Ok _ |- _ => apply with_context_Ok in H end.
  split_and!; try done; eauto using marshal_metadata_Ok, TextFromStringPtr_stored, TimestamptzFromTime_stored.
Qed.

Lemma updated_existing id d existing inp uid row :
  keyed d → found id d existing → update_of_existing existing inp d uid row →
  replaces (updated_row inp) id d uid row.
Proof.
  intros Hk (uid' & old & t & Hid & Hold & Hl & Ht & ->) (now & p & Hp & -> & arg & old' & Harg & Hold' & Hrow).
  destruct (sqlcTransactionToDB_Ok _ _ Ht) as (Hid' & _ & _). rewrite (Hk _ _ Hold) in Hid'.
  unfold domainTransactionToUpdateParams, applyUpdates, dbTransactionToDomain in Hp. simpl in Hp.
  rewrite !uuid_FromString_String in Hp. simpl in Hp. inv_try Hp. injection Hp as <-. simpl in *.
  injection Hid' as Hid'. rewrite <- Hid' in *. rewrite Hold' in Hold. injection Hold as ->. split; [done|]. exists old. split_and!; try done.
  destruct (update_row_fields _ _ _ Hrow) as (H1 & H2 & _ & H3 & H4).
  destruct (update_arg_row _ _ _ _ Harg Hrow) as (G1 & G2 & G3 & G4 & G5 & G6 & G7 & G8 & G9 & G10 & G11).
  simpl in *. unfold sqlcTransactionToDB in Ht. inv_try Ht. injection Ht as <-. simpl in *. unfold or_default in *.
  unfold updated_row. split_and!; try done.
  - rewrite G8. unfold StringPtrFromText, store_text. by destruct (sqlcdb.SheetsRowID old) as [s []].
  - by eexists.
  - rewrite G6. match goal with H : parse_category _ = _ |- _ => by apply parse_category_Ok in H end.
Qed.

Lemma wp_UpdateTransaction_row redis user id inp w :
  keyed (w_db w) →
  wp (TransactionService.UpdateTransaction (NewTransactionService redis) user id inp)
    (λ r w', w_txs w' = w_txs w ∧
       written (step_on (updated_row inp) "update" id) "update" redis since_version (w_db w) (w_trace w) r w') w.
Proof.
  intros Hk. unfold TransactionService.UpdateTransaction. wp_step.
  eapply wp_mono; [apply wp_adapter_GetByID_found|]. intros r w' ((Hdb & Htx & Htr) & Hfound).
  rewrite <- Hdb in *. rewrite <- Htr, <- Htx.
  destruct r as [existing|e|m]; [|simpl; auto..]. specialize (Hfound _ eq_refl).
  apply (wp_write (step_on (updated_row inp) "update" id) "update" redis since_version
           (λ tx, update_in_tx _ _ _ (app_uow tx)) w').
  intros rest. eapply txwp_mono; [by apply body_update_row|]. intros [tx|e|m] d'; simpl; [|done..].
  apply recorded_as_mono. intros uid row. by apply updated_existing.
Qed.

End UpdatedRow.

Lemma wp_CreateTransaction redis inp w :
  wp (TransactionService.CreateTransaction (NewTransactionService redis) inp)
    (λ r w', w_txs w' = w_txs w ∧ write_post "create" redis (λ _, 0) (w_db w) (w_trace w) r w') w.
Proof.
  unfold TransactionService.CreateTransaction. wp_step. wp_step.
  apply (wp_write (recorded "create") "create" redis (λ _, 0) (λ tx, create_in_tx _ _ (app_uow tx)) (tick w)).
  by apply body_create.
Qed.

Lemma wp_UpdateTransaction redis user id inp w :
  keyed (w_db w) →
  wp (TransactionService.UpdateTransaction (NewTransactionService redis) user id inp)
    (λ r w', w_txs w' = w_txs w ∧ write_post "update" redis since_version (w_db w) (w_trace w) r w') w.
Proof.
  intros Hk. unfold TransactionService.UpdateTransaction. wp_step.
  eapply wp_mono; [apply wp_adapter_GetByID|]. intros r w' (Hdb & Htx & Htr).
  rewrite <- Hdb, <- Htr, <- Htx.
  destruct r as [existing|e|m]; [|simpl; auto..].
  apply (wp_write (recorded "update") "update" redis since_version (λ tx, update_in_tx _ _ _ (app_uow tx)) w').
  apply body_update. by rewrite Hdb.
Qed.

Lemma wp_SoftDeleteTransaction_row redis user id w :
  keyed (w_db w) →
  wp (TransactionService.SoftDeleteTransaction (NewTransactionService redis) user id)
    (λ r w', w_txs w' = w_txs w ∧
       written (step_on deleted_of "delete" id) "delete" redis since_version (w_db w) (w_trace w) r w') w.
Proof.
  intros Hk. unfold TransactionService.SoftDeleteTransaction.
  apply (wp_write (step_on deleted_of "delete" id) "delete" redis since_version
           (λ tx, delete_in_tx _ _ _ (app_uow tx)) w).
  by apply body_delete_row.
Qed.

Lemma wp_SoftDeleteTransaction redis user id w :
  keyed (w_db w) →
  wp (TransactionService.SoftDeleteTransaction (NewTransactionService redis) user id)
    (λ r w', w_txs w' = w_txs w ∧ write_post "delete" redis since_version (w_db w) (w_trace w) r w') w.
Proof.
  intros Hk. eapply wp_mono; [by apply wp_SoftDeleteTransaction_row|]. intros r w' [Htx H].
  split; [done|]. eapply written_mono; [|exact H]. intros d' tx. apply recorded_as_recorded.
Qed.

(** C1: creating a transaction stores the row and its change event in one
    atomic step, then enqueues the sync job; whatever database call fails,
    and wherever, an error leaves neither of them behind, but for the error
    of a commit that was applied, which leaves both. *)
Theorem CreateTransaction_outbox redis inp w :
  wp (TransactionService.CreateTransaction (NewTransactionService redis) inp)
    (λ r w', w_txs w' = w_txs w ∧ write_post "create" redis (λ _, 0) (w_db w) (w_trace w) r w') w.
Proof. apply wp_CreateTransaction. Qed.

(** C2: updating a transaction reads the row that the requested id names,
    which must not be deleted, then stores its next version with the input's
    columns ([updated_row]) and the change event of that row in one atomic
    step, and enqueues the sync job; an error leaves the database as it was,
    but for the error of an applied commit.  The table's rows are taken to be
    stored under their own ids. *)
Theorem UpdateTransaction_outbox {PLaws : PgtypeLaws PL} redis user id inp w :
  keyed (w_db w) →
  wp (TransactionService.UpdateTransaction (NewTransactionService redis) user id inp)
    (λ r w', w_txs w' = w_txs w ∧
       written (step_on (updated_row inp) "update" id) "update" redis since_version (w_db w) (w_trace w) r w') w.
Proof. apply wp_UpdateTransaction_row. Qed.

(** C3: deleting a transaction stores the next version of the row that the
    requested id names, marked deleted and otherwise as it was
    ([deleted_of]), and the change event of that row in one atomic step, and
    enqueues the sync job; a row that is deleted already is not found, and
    an error leaves the database as it was, but for the error of an applied
    commit.  The table's rows are taken to be stored under their own ids. *)
Theorem SoftDeleteTransaction_outbox redis user id w :
  keyed (w_db w) →
  wp (TransactionService.SoftDeleteTransaction (NewTransactionService redis) user id)
    (λ r w', w_txs w' = w_txs w ∧
       written (step_on deleted_of "delete" id) "delete" redis since_version (w_db w) (w_trace w) r w') w.
Proof. apply wp_SoftDeleteTransaction_row. Qed.

(** ** The event log *)

Definition is_event_of (id : UUID) (e : sqlcdb.ChangeEvent) : bool :=
  String.eqb (sqlcdb.ChangeEvent_EntityType e) "transaction"
  && bool_decide (sqlcdb.ChangeEvent_EntityID e = UUIDToPG id).

Definition events_of (d : DB) (id : UUID) : list sqlcdb.ChangeEvent :=
  List.filter (is_event_of id) (change_events d).

(** Rows are stored under their own id; the events of a transaction carry
    its owner and the versions 1, 2, ... up to the row's, in this order; ids
    without a row have no event. *)
Definition log_inv (d : DB) : Prop :=
  keyed d ∧
  ∀ id, match transactions d !! id with
        | Some t => 1 <= sqlcdb.Version t
                    ∧ map sqlcdb.ChangeEvent_Version (events_of d id) = seqZ 1 (sqlcdb.Version t)
                    ∧ Forall (λ e, sqlcdb.ChangeEvent_UserID e = sqlcdb.UserID t) (events_of d id)
        | None => events_of d id = []
        end.

Lemma events_of_app es id d : events_of (set_change_events (change_events d ++ es) d) id
  = events_of d id ++ List.filter (is_event_of id) es.
Proof. unfold events_of. simpl. apply List.filter_app. Qed.

Lemma is_event_of_event id op serial ts row payload :
  is_event_of id (event_of op serial ts row payload) = bool_decide (sqlcdb.ID row = UUIDToPG id).
Proof. done. Qed.

Lemma recorded_log_inv op d d' tx : log_inv d → recorded op d d' tx → log_inv d'.
Proof.
  intros [Hk Hl] (id & row & d1 & serial & ts & payload & (-> & Hid & _ & Hver) & _ & ->).
  split.
  - intros id' t. simpl. rewrite lookup_insert_Some. intros [[<- <-]|[_ Ht]]; [done|by apply Hk].
  - intros id'. rewrite (events_of_app _ _ (set_transactions _ d)).
    change (transactions (set_change_events _ _)) with (<[id := row]> (transactions d)).
    change (events_of (set_transactions _ d) id') with (events_of d id').
    specialize (Hl id'). cbn [List.filter]. rewrite is_event_of_event, Hid.
    destruct (decide (id = id')) as [<-|Hne].
    + rewrite bool_decide_eq_true_2, lookup_insert_eq by done.
      destruct (transactions d !! id) as [old|] eqn:Eo.
      * destruct Hver as (_ & Hv & Hu), Hl as (H1 & H2 & H3). split; [lia|]. split.
        -- rewrite List.map_app, H2. cbn. rewrite Hv.
           rewrite (seqZ_app 1 (sqlcdb.Version old) 1) by lia. f_equal. rewrite (Z.add_comm 1). unfold seqZ. simpl. by rewrite Z.add_0_l.
        -- apply Forall_app. rewrite Hu. split; [done|]. by constructor.
      * destruct Hver as [_ Hv]. rewrite Hl, Hv. split; [done|]. split; [by cbn; rewrite Hv|]. by repeat constructor.
    + rewrite bool_decide_eq_false_2, lookup_insert_ne, app_nil_r by (unfold UUIDToPG; congruence). done.
Qed.

(** Atomic steps of concurrent requests, whatever their outcome.  An update
    is two steps, the read of the row and the transaction that writes what
    was read, and other requests run in between. *)
Inductive ledger_step (redis : bool) (w : World) : World → Prop :=
| step_create inp :
    ledger_step redis w (snd (TransactionService.CreateTransaction (NewTransactionService redis) inp w))
| step_get user id :
    ledger_step redis w (snd (TransactionService.GetTransaction (NewTransactionService redis) user id w))
| step_update existing inp :
    ledger_step redis w
      (snd (RunInTx (λ tx, update_in_tx (NewTransactionService redis) existing inp (app_uow tx)) w))
| step_delete user id :
    ledger_step redis w (snd (TransactionService.SoftDeleteTransaction (NewTransactionService redis) user id w))
| step_enqueue op user since :
    ledger_step redis w (snd (enqueue_job (NewTransactionService redis) op user since w)).

Lemma wp_enqueue_job redis op user since w :
  wp (enqueue_job (NewTransactionService redis) op user since) (λ _ w', w_db w' = w_db w) w.
Proof.
  unfold enqueue_job. destruct redis; simpl; [|by wp_step].
  wp_step. unfold EnqueueSyncJob, queue.Enqueue, XAdd. simpl. apply wp_command.
  intros r Hr. by destruct (env_redis _); subst r.
Qed.

(** A relation that holds of the bodies of the three writes holds of every
    step. *)
Section StepRelation.
Variables (redis : bool) (T : DB → DB → Prop).
Hypothesis T_refl : ∀ d, T d d.

Lemma wp_RunInTx_rel {A} (fn : Tx → M A) w :
  tx_body fn (w_db w) (ok_post (λ _ d', T (w_db w) d')) →
  wp (RunInTx fn) (λ _ w', T (w_db w) (w_db w')) w.
Proof.
  intros Hb. eapply wp_mono; [by apply wp_RunInTx|]. intros [a|e|m] w' (_ & _ & H); simpl in H.
  - done.
  - destruct H as [[-> _]|[_ [_ H]]]; done.
  - by destruct H as [-> _].
Qed.

Lemma wp_write_rel op since (fn : Tx → M domain.Transaction) w :
  tx_body fn (w_db w) (ok_post (λ _ d', T (w_db w) d')) →
  wp (let! tx := RunInTx fn in
      enqueue_job (NewTransactionService redis) op (domain.UserID tx) (since tx) ;;; ret tx)
    (λ _ w', T (w_db w) (w_db w')) w.
Proof.
  intros Hb. wp_step. eapply wp_mono; [by apply wp_RunInTx_rel|]. intros [tx|e|m] w' H; [|done..].
  wp_step. eapply wp_mono; [apply wp_enqueue_job|]. intros r w'' Hw. rewrite <- Hw in H. by destruct r.
Qed.

Lemma ledger_step_rel w w' :
  (∀ t, domain.Version t = 1 →
     tx_body (λ tx, create_in_tx (NewTransactionService redis) t (app_uow tx)) (w_db w)
       (ok_post (λ _ d', T (w_db w) d'))) →
  (∀ existing inp,
     tx_body (λ tx, update_in_tx (NewTransactionService redis) existing inp (app_uow tx)) (w_db w)
       (ok_post (λ _ d', T (w_db w) d'))) →
  (∀ user id,
     tx_body (λ tx, delete_in_tx (NewTransactionService redis) user id (app_uow tx)) (w_db w)
       (ok_post (λ _ d', T (w_db w) d'))) →
  ledger_step redis w w' → T (w_db w) (w_db w').
Proof.
  intros Hc Hu Hd Hstep. destruct Hstep; apply wp_snd.
  - unfold TransactionService.CreateTransaction. wp_step. wp_step.
    apply (wp_write_rel "create" (λ _, 0) (λ tx, create_in_tx _ _ (app_uow tx)) (tick w)). by apply Hc.
  - eapply wp_mono; [apply wp_adapter_GetByID|]. by intros r w' [-> _].
  - by apply wp_RunInTx_rel.
  - apply (wp_write_rel "delete" since_version (λ tx, delete_in_tx _ _ _ (app_uow tx)) w). by apply Hd.
  - eapply wp_mono; [apply wp_enqueue_job|]. by intros r w' ->.
Qed.

End StepRelation.

(** A property that a stored row and a new event keep holds after every step. *)
Section StepKeeps.
Variables (redis : bool) (P : DB → Prop).
Hypothesis keeps_rows : ∀ t d, P d → P (set_transactions t d).
Hypothesis keeps_events : ∀ e d, P d → P (set_change_events (change_events d ++ [e]) d).

Lemma repo_Create_keeps rest p d : P d → txwp (Create (Some (List.length rest)) p) (ok_post (λ _ d', P d')) rest d.
Proof.
  intros Hd. unfold Create. apply txwp_lift_ok. intros arg _. apply txwp_query_ok.
  intros ctx row d' (-> & _)%CreateTransaction_Ok. tx_step. destruct (sqlcTransactionToDB _); [by apply keeps_rows|done..].
Qed.

Lemma repo_Update_keeps rest p d : P d → txwp (Update (Some (List.length rest)) p) (ok_post (λ _ d', P d')) rest d.
Proof.
  intros Hd. unfold Update. apply txwp_lift_ok. intros arg _. apply txwp_query_ok.
  intros ctx row d' (old & _ & -> & _)%UpdateTransaction_Ok. tx_step. destruct (sqlcTransactionToDB _); [by apply keeps_rows|done..].
Qed.

Lemma repo_SoftDelete_keeps rest id d :
  P d → txwp (SoftDelete (Some (List.length rest)) id) (ok_post (λ _ d', P d')) rest d.
Proof.
  intros Hd. unfold SoftDelete. apply txwp_query_ok.
  intros ctx row d' (old & _ & -> & _)%SoftDeleteByID_Ok. tx_step. destruct (sqlcTransactionToDB _); [by apply keeps_rows|done..].
Qed.

Lemma ledger_step_keeps w w' : P (w_db w) → ledger_step redis w w' → P (w_db w').
Proof using keeps_rows keeps_events.
  intros Hd Hstep. enough (H : P (w_db w) → P (w_db w')) by exact (H Hd).
  apply (ledger_step_rel redis (λ d d', P d → P d') (λ d H, H)) with (w := w);
    [intros t _ rest|intros existing inp rest|intros user id rest|done];
    (apply (txwp_mono _ _ (ok_post (λ _ d', P d'))); [|intros [] d' H; simpl; auto]).
  - apply row_and_event_keeps; [auto|]. intros p _. by apply repo_Create_keeps.
  - unfold update_in_tx. tx_step. tx_step. apply row_and_event_keeps; [auto|]. intros p _. by apply repo_Update_keeps.
  - apply row_and_event_keeps; [auto|]. intros p _. by apply repo_SoftDelete_keeps.
Qed.

End StepKeeps.

(** A step either leaves the database alone or records one write. *)
Lemma ledger_step_cases redis w w' :
  keyed (w_db w) → ledger_step redis w w' →
  w_db w' = w_db w ∨ ∃ op tx, recorded op (w_db w) (w_db w') tx.
Proof.
  intros Hk. apply (ledger_step_rel redis (λ d d', d' = d ∨ ∃ op tx, recorded op d d' tx)); [by left|..].
  - intros t Ht rest. eapply txwp_mono; [by apply body_create|]. intros [tx|e|m] d' H; simpl in *; eauto.
  - intros existing inp rest. eapply txwp_mono; [by apply body_update|]. intros [tx|e|m] d' H; simpl in *; eauto.
  - intros user id rest. eapply txwp_mono; [by apply body_delete|]. intros [tx|e|m] d' H; simpl in *; eauto.
Qed.

Lemma recorded_keyed op d d' tx : keyed d → recorded op d d' tx → keyed d'.
Proof.
  intros Hk (id & row & d1 & serial & ts & payload & (-> & Hid & _) & _ & ->) id' t. simpl.
  rewrite lookup_insert_Some. intros [[<- <-]|[_ Ht]]; [done|by apply Hk].
Qed.

(** Rule induction: a property of the database that implies [keyed] and is
    kept by every recorded write holds in every reachable world. *)
Lemma ledger_invariant (I : DB → Prop) redis w w' :
  (∀ d, I d → keyed d) → (∀ op d d' tx, I d → recorded op d d' tx → I d') →
  I (w_db w) → rtc (ledger_step redis) w w' → I (w_db w').
Proof.
  intros HIk HIr HI Hrtc. induction Hrtc as [|w w1 w2 Hstep _ IH]; [done|]. apply IH.
  destruct (ledger_step_cases _ _ _ (HIk _ HI) Hstep) as [->|(op & tx & H)]; eauto.
Qed.

(** C4: in every interleaving of requests, under every schedule of failures,
    the event log of each transaction lists the versions 1, 2, ... up to the
    version of its row, once each and in order, all under its owner. *)
Theorem event_log_complete redis w w' :
  log_inv (w_db w) → rtc (ledger_step redis) w w' → log_inv (w_db w').
Proof.
  apply ledger_invariant; [by intros d [Hk _]|]. intros op d d' tx. apply recorded_log_inv.
Qed.

End Outbox.
