(* ===== verification/Locking.v ===== *)
(** * Locking: optimistic concurrency of updates

    An update writes what an earlier read returned, guarded by the version
    it read ([UPDATE ... WHERE version = $12]).  The theorems show that the
    guard works: versions only grow, an update based on a stale read never
    succeeds, so two updates based on the same read never both do, whatever
    requests run in between. *)

From S2P Require Import Prelude GoInt GoStrings GoTime GoValues Json Pgtypex Schema Sqlc Effects TxRunner Models Repositories Wiring Queue TransactionService Outbox.

Section Locking.
Context {E : Env} {UL : UuidLib} {ULaws : UuidLaws UL} {PL : PgtypeLib} {PS : queries.PgServer}.

(** The transactional part of [UpdateTransaction] for a value read before. *)
Definition write_back (redis : bool) (existing : domain.Transaction) (inp : UpdateTransactionInput) :
    M domain.Transaction :=
  RunInTx (λ tx, update_in_tx (NewTransactionService redis) existing inp (app_uow tx)).

(** Version of the row stored under an id. *)
Definition version_at (d : DB) (id : UUID) : option Z := sqlcdb.Version <$> transactions d !! id.

(** [later d d']: every row of [d] is still there in [d'], with the same or
    a higher version. *)
Definition later (d d' : DB) : Prop :=
  ∀ id v, version_at d id = Some v → ∃ v', version_at d' id = Some v' ∧ v <= v'.

#[export] Instance later_preorder : PreOrder later.
Proof.
  split; [intros d id v H; by exists v|].
  intros d1 d2 d3 H12 H23 id v (v2 & H2 & Hv2)%H12. apply H23 in H2 as (v3 & H3 & ?).
  exists v3. split; [done|lia].
Qed.

Lemma recorded_later op d d' tx : recorded op d d' tx → later d d'.
Proof.
  intros (id & row & d1 & serial & ts & payload & (-> & _ & _ & Hver) & _ & ->) id' v.
  unfold version_at. simpl. destruct (decide (id = id')) as [<-|Hne].
  - rewrite lookup_insert_eq. destruct (transactions d !! id) as [old|]; [|done].
    simpl. intros [= <-]. exists (sqlcdb.Version row). destruct Hver as (_ & -> & _). split; [done|lia].
  - rewrite lookup_insert_ne by done. intros H. exists v. split; [done|lia].
Qed.

(** What a successful write back replaced and left. *)
Definition replaced (existing : domain.Transaction) (d : DB) (d' : DB) : Prop :=
  ∃ id, uuid_FromString (domain.ID existing) = Ok id ∧
        version_at d id = Some (domain.Version existing) ∧
        version_at d' id = Some (domain.Version existing + 1).

Lemma body_replaced redis existing inp d :
  tx_body (λ tx, update_in_tx (NewTransactionService redis) existing inp (app_uow tx)) d
    (ok_post (λ _ d', replaced existing d d')).
Proof.
  intros rest. unfold update_in_tx. tx_step. tx_step. apply row_and_event_keeps; [done|]. intros p Hp.
  simpl. unfold Update. apply txwp_lift_ok. intros arg Harg. apply txwp_query_ok.
  intros ctx row d' (old & Hold & -> & _ & Hv & _ & (_ & _ & Hv' & _)%update_row_fields & _)%UpdateTransaction_Ok.
  tx_step. destruct (sqlcTransactionToDB row); [|done..].
  unfold domainTransactionToUpdateParams in Hp. inv_try Hp. injection Hp as <-.
  unfold update_arg in Harg. inv_try Harg. injection Harg as <-. simpl in *.
  eexists. split; [done|]. unfold version_at. rewrite Hold. simpl. rewrite lookup_insert_eq. simpl.
  split; congruence.
Qed.

Lemma write_back_Ok redis existing inp w tx w' :
  write_back redis existing inp w = (Ok tx, w') → replaced existing (w_db w) (w_db w').
Proof.
  intros H. pose proof (wp_RunInTx _ _ w (body_replaced redis existing inp (w_db w))) as Hwp.
  destruct (wp_use _ _ _ _ _ Hwp H) as (_ & _ & Hr). exact Hr.
Qed.

Lemma ledger_steps_later redis w w' :
  keyed (w_db w) → rtc (ledger_step redis) w w' → keyed (w_db w') ∧ later (w_db w) (w_db w').
Proof.
  intros Hk. apply (ledger_invariant (λ d, keyed d ∧ later (w_db w) d)); [by intros d [? _]| |by split].
  intros op d d' tx [Hkd Hl] Hr. split; [by eapply recorded_keyed|].
  etrans; [done|by eapply recorded_later].
Qed.

(** Versions only grow: in every interleaving of requests and failures a
    stored transaction stays stored, and its version never goes back. *)
Theorem versions_grow redis w w' id v :
  keyed (w_db w) → rtc (ledger_step redis) w w' → version_at (w_db w) id = Some v →
  ∃ v', version_at (w_db w') id = Some v' ∧ v <= v'.
Proof. intros Hk Hrtc. apply (ledger_steps_later _ _ _ Hk Hrtc). Qed.

(** An update based on a stale read is refused: when the stored version
    differs from the one that was read, no schedule lets the write back
    succeed. *)
Theorem stale_update_refused redis existing inp w id v :
  uuid_FromString (domain.ID existing) = Ok id →
  version_at (w_db w) id = Some v → v ≠ domain.Version existing →
  wp (write_back redis existing inp) (λ r _, is_ok r = false) w.
Proof.
  intros Hid Hv Hne. unfold wp. destruct (write_back redis existing inp w) as [[tx|e|m] w'] eqn:Hw; [|done..].
  apply write_back_Ok in Hw as (id' & Hid' & Hv' & _). congruence.
Qed.

(** C5: no lost update: of two updates based on the same read at most one
    succeeds, whatever requests run between them. *)
Theorem no_lost_update redis existing inp1 inp2 w w1 w2 tx1 :
  keyed (w_db w) →
  write_back redis existing inp1 w = (Ok tx1, w1) →
  rtc (ledger_step redis) w1 w2 →
  wp (write_back redis existing inp2) (λ r _, is_ok r = false) w2.
Proof.
  intros Hk H1 Hrtc. pose proof H1 as Hrep. apply write_back_Ok in Hrep as (id & Hid & _ & Hv1).
  assert (Hk1 : keyed (w_db w1)).
  { apply (ledger_steps_later redis w w1 Hk), rtc_once.
    replace w1 with (snd (write_back redis existing inp1 w)) by (by rewrite H1). constructor. }
  destruct (ledger_steps_later redis w1 w2 Hk1 Hrtc) as [_ Hl]. destruct (Hl id _ Hv1) as (v2 & Hv2 & Hle).
  unfold wp. destruct (write_back redis existing inp2 w2) as [[tx|e|m] w'] eqn:Hw; [|done..].
  apply write_back_Ok in Hw as (id' & Hid' & Hv' & _). rewrite Hid in Hid'. simplify_eq. lia.
Qed.

End Locking.
