(* ===== verification/Sessions.v ===== *)
(** * Sessions: what the authentication service guarantees

    Registration creates one user per normalised address; a login proves
    knowledge of the password and a refresh knowledge of the secret of a live
    token, whatever repositories the service runs on; a token that has been
    exchanged is refused from then on by any store that keeps it; on the repositories of
    the repository no session is ever issued, because the row of a refresh
    token cannot be stored. *)

From S2P Require Import Prelude GoInt GoStrings Base64 Aes GoTime GoValues Pgtypex Schema Sqlc Effects Crypto AuthTokens TxRunner Models Repositories AuthService Outbox.
Import strings stringsx auth crypto pgtypex uuidx.

Section Sessions.
Context {E : Env} {P : Process} {U : Unicode} {UL : UuidLib} {J : JwtLib} {B : BcryptLib}.

(** ** Checks, for any repositories *)

(** *** The two phases of a refresh *)

(** [Refresh] up to its transaction: the id of the token, the row of the new
    one and the answer. *)
Definition refresh_checks (s : authServiceImpl) (refreshToken : string) : M (UUID * db.RefreshToken * (string * string)) :=
  match DecodeRefreshToken refreshToken with
  | Err _ => fail (sentinel ErrRefreshTokenInvalid)
  | Panic m => gopanic m
  | Ok (tokenID, secret) =>
      let! r := attempt (rt_GetByID (tokens s) tokenID) in
      match r with
      | Err e => if Is e ErrNoRows then fail (sentinel ErrRefreshTokenInvalid)
                 else fail (wrapf "get refresh token" e)
      | Panic m => gopanic m
      | Ok row =>
          if db.RefreshToken_Revoked row then fail (sentinel ErrRefreshTokenInvalid)
          else
            let! now := Now in
            if time.After now (db.RefreshToken_ExpiresAt row) then fail (sentinel ErrRefreshTokenInvalid)
            else if negb (secret_matches row secret) then fail (sentinel ErrRefreshTokenInvalid)
            else
              let! u := wrap_err "get user" (ur_GetByID (users s) (db.RefreshToken_UserID row)) in
              let! newAccessToken := wrap_err "sign access token"
                (Sign (uuid_String (db.User_ID u)) (db.User_Email u) AccessTokenExpiry) in
              let! t := new_token (db.User_ID u) in
              let '(newID, newSecret, newTok) := t in
              ret (tokenID, newTok, (newAccessToken, EncodeRefreshToken newID newSecret))
      end
  end.

(** Its transaction. *)
Definition refresh_commit (s : authServiceImpl) (plan : UUID * db.RefreshToken * (string * string)) : M (string * string) :=
  let '(tokenID, newTok, answer) := plan in
  wrap_err "rotate refresh token" (tr_RunInTx (txRunner s) _ (rotate s tokenID newTok)) ;;; ret answer.

Lemma bind_assoc_ext {A C D} (m : M A) (k : A → M C) (h : C → M D) (g : A → M D) w :
  (∀ a w, g a w = bind (k a) h w) → bind m g w = bind (bind m k) h w.
Proof. intros Hg. unfold bind at 1 2 3. destruct (m w) as [[a|e|s] w1]; [apply Hg|done..]. Qed.

Lemma Refresh_phases s token w :
  Refresh s token w = (let! plan := refresh_checks s token in refresh_commit s plan) w.
Proof.
  unfold Refresh, refresh_checks. destruct (DecodeRefreshToken token) as [[id secret]|e|m]; [|done..].
  apply bind_assoc_ext. intros [row|e|m] w1; [|by destruct (Is e ErrNoRows)|done].
  destruct (db.RefreshToken_Revoked row); [done|]. apply bind_assoc_ext. intros now w2.
  destruct (time.After _ _); [done|]. destruct (negb _); [done|].
  apply bind_assoc_ext. intros u w3. apply bind_assoc_ext. intros access w4. apply bind_assoc_ext.
  by intros [[newID newSecret] newTok] w5.
Qed.

Lemma attempt_Ok_inv {A} (m : M A) w r w' :
  attempt m w = (Ok r, w') → m w = (r, w') ∧ ∀ msg, r ≠ Panic msg.
Proof. unfold attempt. destruct (m w) as [[]]; naive_solver. Qed.

Lemma wrap_err_Ok_inv {A} ctx (m : M A) w a w' : wrap_err ctx m w = (Ok a, w') → m w = (Ok a, w').
Proof. unfold wrap_err. destruct (m w) as [[]]; naive_solver. Qed.

(** C12: A refresh only succeeds for the secret of a stored token that is
    neither revoked nor expired; it revokes that token and stores its
    successor in one transaction. *)
Theorem Refresh_sound s token access refresh w w' :
  Refresh s token w = (Ok (access, refresh), w') →
  ∃ id secret row w1, DecodeRefreshToken token = Ok (id, secret) ∧
    rt_GetByID (tokens s) id w = (Ok row, w1) ∧ db.RefreshToken_Revoked row = false ∧
    env_clock (w_tick w1) <= db.RefreshToken_ExpiresAt row ∧
    (∃ encrypted, base64.DecodeString (db.RefreshToken_EncryptedToken row) = Some encrypted ∧
       Decrypt encrypted = Ok secret) ∧
    ∃ newID newSecret newTok w2, refresh = EncodeRefreshToken newID newSecret ∧
      tr_RunInTx (txRunner s) _ (rotate s id newTok) w2 = (Ok tt, w').
Proof.
  unfold Refresh. destruct (DecodeRefreshToken token) as [[id secret]|e|m]; [|done..]. intros H.
  apply bind_Ok_inv in H as (r & w1 & Hr & H). apply attempt_Ok_inv in Hr as [Hr _].
  destruct r as [row|e|m]; [|by destruct (Is e ErrNoRows)|done].
  destruct (db.RefreshToken_Revoked row) eqn:Erev; [done|].
  apply bind_Ok_inv in H as (now & w2 & [= <- <-] & H). cbn [w_tick] in H.
  destruct (time.After _ _) eqn:Eexp; [done|]. destruct (secret_matches row secret) eqn:Esec; [|done]. cbn [negb] in H.
  apply bind_Ok_inv in H as (u & w3 & _ & H). apply bind_Ok_inv in H as (tok & w4 & _ & H).
  apply bind_Ok_inv in H as ([[newID newSecret] newTok] & w5 & _ & H).
  apply bind_Ok_inv in H as ([] & w6 & Htx & H). injection H as <- <- <-. apply wrap_err_Ok_inv in Htx.
  exists id, secret, row, w1. split_and!; [done..| | |by exists newID, newSecret, newTok, w5].
  - unfold time.After in Eexp. lia.
  - unfold secret_matches in Esec. destruct (base64.DecodeString _) as [enc|]; [|done]. exists enc. split; [done|].
    destruct (Decrypt enc) as [stored|e|m]; [|done..]. f_equal.
    unfold ConstantTimeCompare in Esec. destruct (Z.eqb_spec (len stored) (len secret)) as [Hl|]; [|done].
    apply Z.eqb_eq in Esec. by apply differences_zero in Esec as [_ Heq].
Qed.

(** An unknown user and a wrong password. *)
Definition rejected (r : outcome db.User) (password : string) : Prop :=
  match r with
  | Err e => Is e ErrNoRows = true
  | Ok u => is_ok (bcrypt_CompareHashAndPassword (db.User_HashedPassword u) password) = false
            ∧ ∀ m, bcrypt_CompareHashAndPassword (db.User_HashedPassword u) password ≠ Panic m
  | Panic _ => False
  end.

Lemma Authenticate_rejects s email password w r w1 :
  NormalizeEmail email ≠ ""%string → password ≠ ""%string →
  ur_GetByEmail (users s) (NormalizeEmail email) w = (r, w1) → rejected r password →
  Authenticate s email password w = (Err (sentinel ErrInvalidCredentials), w1).
Proof.
  intros He Hp Hr Hcase. unfold Authenticate.
  destruct (String.eqb_spec (NormalizeEmail email) "") as [|_]; [done|].
  destruct (String.eqb_spec password "") as [|_]; [done|]. cbn [orb].
  unfold bind, attempt. rewrite Hr. destruct r as [u|e|m]; simpl in Hcase; [|by rewrite Hcase|done].
  destruct Hcase as [Hno Hnp]. by destruct (bcrypt_CompareHashAndPassword _ _) as [[]| |m] eqn:Ec; [|done|by destruct (Hnp m)].
Qed.

(** C14: A login succeeds only with the password of the live user with that
    address; a missing user and a wrong password are answered alike. *)
Theorem Authenticate_sound s email password w :
  (∀ access refresh w', Authenticate s email password w = (Ok (access, refresh), w') →
     NormalizeEmail email ≠ ""%string ∧ password ≠ ""%string ∧
     ∃ u w1, ur_GetByEmail (users s) (NormalizeEmail email) w = (Ok u, w1) ∧
       bcrypt_CompareHashAndPassword (db.User_HashedPassword u) password = Ok tt) ∧
  (NormalizeEmail email ≠ ""%string → password ≠ ""%string →
   ∀ r w1, ur_GetByEmail (users s) (NormalizeEmail email) w = (r, w1) → rejected r password →
     Authenticate s email password w = (Err (sentinel ErrInvalidCredentials), w1)).
Proof.
  split; [|intros; by eapply Authenticate_rejects]. intros access refresh w' H. unfold Authenticate in H.
  destruct (String.eqb_spec (NormalizeEmail email) "") as [|He]; [done|].
  destruct (String.eqb_spec password "") as [|Hp]; [done|]. cbn [orb] in H.
  split; [done|]. split; [done|].
  apply bind_Ok_inv in H as (r & w1 & Hr & H). apply attempt_Ok_inv in Hr as [Hr _].
  destruct r as [u|e|m]; [|by destruct (Is e ErrNoRows)|done].
  exists u, w1. split; [done|]. by destruct (bcrypt_CompareHashAndPassword _ _) as [[]| |].
Qed.

End Sessions.

(** ** The service of the finance-api *)

Section App.
Context {E : Env} {P : Process} {U : Unicode} {UL : UuidLib} {J : JwtLib} {B : BcryptLib} {PL : PgtypeLib} {PS : queries.PgServer}.

Lemma reads_no_rows_or {A} ctx (m : M A) : reads m → reads (no_rows_or ctx m).
Proof.
  intros Hm w. specialize (Hm w). unfold wp, no_rows_or in *. destruct (m w) as [[]]; repeat case_match; simplify_eq; done.
Qed.

#[local] Hint Resolve reads_no_rows_or : reads.

Lemma reads_GetByEmail email : reads (GetByEmail email).
Proof. apply reads_bind; [apply reads_no_rows_or, reads_exec|auto with reads]. Qed.

Lemma reads_User_GetByID id : reads (User_GetByID id).
Proof. apply reads_bind; [apply reads_no_rows_or, reads_exec|auto with reads]. Qed.

Lemma reads_Token_GetByID id : reads (Token_GetByID id).
Proof. apply reads_bind; [apply reads_no_rows_or, reads_exec|auto with reads]. Qed.

Lemma reads_Sign user email exp : reads (Sign user email exp).
Proof.
  repeat (apply reads_bind; [|intros ?]); auto with reads. apply (reads_tick (λ w, Ok (env_clock (w_tick w)))).
Qed.

Lemma reads_Encrypt p : reads (Encrypt p).
Proof.
  repeat (apply reads_bind; [|intros ?]); auto with reads.
  apply reads_wrap_err, (reads_tick (λ w, env_rand (w_tick w) gcm.NonceSize)).
Qed.

Lemma reads_new_token user : reads (new_token user).
Proof.
  repeat (apply reads_bind; [|intros ?]); auto using reads_Encrypt with reads.
  - apply (reads_tick (λ w, must (env_newv4 (w_tick w)))).
  - apply reads_wrap_err, (reads_tick (λ w, env_rand (w_tick w) 32)).
  - apply (reads_tick (λ w, Ok (env_clock (w_tick w)))).
Qed.

(** The row of a refresh token is refused: [updated_at] is NULL. *)
Lemma body_Token_Create t d :
  tx_body (λ tx, Token_Create (Some tx) t) d (λ r d', is_ok r = false).
Proof.
  intros rest. unfold Token_Create. tx_step. tx_step. destruct (with_context _ _); [|done..].
  tx_step. tx_step. destruct (with_context _ _); [|done..].
  tx_step. apply txwp_exec; [|done]. intros ctx. unfold queries.CreateRefreshToken.
  by rewrite !andb_false_r.
Qed.

Lemma txwp_Token_Revoke rest id d :
  txwp (Token_Revoke (Some (List.length rest)) id) (λ _ _, True) rest d.
Proof.
  unfold Token_Revoke. tx_step. apply txwp_exec; [|done]. intros ctx. by destruct (queries.RevokeRefreshToken _ ctx d) as [[]| |].
Qed.

Lemma body_rotate id t d :
  tx_body (rotate NewAuthService id t) d (λ r d', is_ok r = false).
Proof.
  intros rest. unfold rotate. tx_step. eapply txwp_mono; [apply txwp_Token_Revoke|].
  intros [[]|e|m] d' _; [|done..]. apply body_Token_Create.
Qed.

(** A transaction whose body never succeeds changes nothing. *)
Lemma wp_RunInTx_fails {A} (fn : Tx → M A) w :
  tx_body fn (w_db w) (λ r _, is_ok r = false) →
  wp (RunInTx fn) (λ r w', is_ok r = false ∧ w_db w' = w_db w ∧ w_txs w' = w_txs w ∧ w_trace w' = w_trace w) w.
Proof.
  intros Hb. eapply wp_mono; [by apply wp_RunInTx|]. intros r w' (Htx & Htr & Hp). destruct r as [a|e|m]; simpl in Hp.
  - done.
  - destruct Hp as [[Hd _]|[_ (a & Ha)]]; [by split_and!|done].
  - destruct Hp as [Hd _]. by split_and!.
Qed.

Definition refused {A} (w : World) (r : outcome A) (w' : World) : Prop :=
  is_ok r = false ∧ w_db w' = w_db w ∧ w_txs w' = w_txs w ∧ w_trace w' = w_trace w.

(** Reading first does not help. *)
Lemma refused_after {A C} (m : M A) (k : A → M C) w :
  reads m → (∀ a w1, wp (k a) (refused w1) w1) → wp (bind m k) (refused w) w.
Proof.
  intros Hm Hk. wp_step. eapply wp_mono; [apply Hm|]. intros r w1 (H1 & H2 & H3).
  destruct r as [a|e|m']; [|by split_and!..]. eapply wp_mono; [apply Hk|].
  intros r w2 (H4 & H5 & H6 & H7). split_and!; congruence.
Qed.

Lemma refused_fail {A} e w : wp (fail (A := A) e) (refused w) w.
Proof. wp_step. by split_and!. Qed.

Lemma refused_commit {A C} ctx (fn : Tx → M A) (k : A → M C) w :
  (∀ d, tx_body fn d (λ r _, is_ok r = false)) → wp (bind (wrap_err ctx (RunInTx fn)) k) (refused w) w.
Proof.
  intros Hb. wp_step. wp_step. eapply wp_mono; [by apply wp_RunInTx_fails|].
  intros [a|e|m] w1 (H0 & H1 & H2 & H3); [done|by split_and!..].
Qed.

Lemma Authenticate_refused email password w :
  wp (Authenticate NewAuthService email password) (refused w) w.
Proof.
  unfold Authenticate. destruct (_ || _); [apply refused_fail|].
  apply refused_after; [apply reads_attempt, reads_GetByEmail|]. intros [u|e|m] w1; [|by destruct (Is e ErrNoRows); apply refused_fail|done].
  destruct (bcrypt_CompareHashAndPassword _ _); [|apply refused_fail|done].
  apply refused_after; [apply reads_wrap_err, reads_Sign|]. intros access w2.
  apply refused_after; [apply reads_new_token|]. intros [[id secret] tok] w3.
  apply refused_commit. intros d. apply body_Token_Create.
Qed.

Lemma Refresh_refused token w : wp (Refresh NewAuthService token) (refused w) w.
Proof.
  unfold Refresh. destruct (DecodeRefreshToken token) as [[id secret]|e|m]; [|apply refused_fail|done].
  apply refused_after; [apply reads_attempt, reads_Token_GetByID|]. intros [row|e|m] w1; [|by destruct (Is e ErrNoRows); apply refused_fail|done].
  destruct (db.RefreshToken_Revoked row); [apply refused_fail|].
  apply refused_after; [apply (reads_tick (λ w, Ok (env_clock (w_tick w))))|]. intros now w2.
  destruct (time.After _ _); [apply refused_fail|]. destruct (negb _); [apply refused_fail|].
  apply refused_after; [apply reads_wrap_err, reads_User_GetByID|]. intros u w3.
  apply refused_after; [apply reads_wrap_err, reads_Sign|]. intros access w4.
  apply refused_after; [apply reads_new_token|]. intros [[newID newSecret] newTok] w5.
  apply refused_commit. intros d. apply body_rotate.
Qed.

(** C21: no session is ever issued: the row of a refresh token is stored with
    a NULL [updated_at], which the table refuses, so that no login and no
    refresh succeeds, and neither leaves anything behind. *)
Theorem no_session_issued w :
  (∀ email password, wp (Authenticate NewAuthService email password) (refused w) w) ∧
  (∀ token, wp (Refresh NewAuthService token) (refused w) w).
Proof. split; intros; [apply Authenticate_refused|apply Refresh_refused]. Qed.

(** ** Registration *)

(** [d'] is [d] with the new user: one row under the normalised address,
    which no row had, with a hash of the password. *)
Definition registered (d d' : DB) (email password : string) (u : User) : Prop :=
  ∃ row, d' = set_users (<[User_ID u := row]> (Schema.users d)) d ∧
    Schema.users d !! User_ID u = None ∧
    sqlcdb.User_Email row = User_Email u ∧ User_Email u = NormalizeEmail email ∧
    User_Email u ≠ ""%string ∧ password ≠ ""%string ∧
    (∀ id v, Schema.users d !! id = Some v → sqlcdb.User_Email v ≠ User_Email u) ∧
    bcrypt_CompareHashAndPassword (sqlcdb.User_HashedPassword row) password = Ok tt ∧
    queries.user_live row = true.

Lemma CreateUser_Ok arg ctx d d' :
  queries.CreateUser arg ctx d = Ok (tt, d') →
  ∃ row, d' = set_users (<[UUID_Bytes (queries.cu_ID arg) := row]> (Schema.users d)) d ∧
    Schema.users d !! UUID_Bytes (queries.cu_ID arg) = None ∧
    sqlcdb.User_Email row = queries.cu_Email arg ∧ sqlcdb.User_HashedPassword row = queries.cu_HashedPassword arg ∧
    sqlcdb.User_DeletedAt row = store_ts (queries.cu_DeletedAt arg) ∧
    ∀ id v, Schema.users d !! id = Some v → sqlcdb.User_Email v ≠ queries.cu_Email arg.
Proof.
  unfold queries.CreateUser. intros H. inv_try H. injection H as <-.
  match goal with H : require _ "users_pkey" = _ |- _ => apply require_Ok, negb_true_iff in H; rename H into Hpk end.
  match goal with H : require _ "users_email_key" = _ |- _ => apply require_Ok in H; rename H into Hem end.
  eexists. split_and!; try done; [by destruct (Schema.users d !! _)|intros id v Hv He; by pose proof (email_free_spec _ _ _ _ _ Hem Hv He)].
Qed.

Lemma body_User_Create u d :
  tx_body (λ tx, User_Create (Some tx) u) d (ok_post (λ _ d', ∃ row,
    d' = set_users (<[db.User_ID u := row]> (Schema.users d)) d ∧ Schema.users d !! db.User_ID u = None ∧
    sqlcdb.User_Email row = db.User_Email u ∧ sqlcdb.User_HashedPassword row = db.User_HashedPassword u ∧
    queries.user_live row = true ∧
    ∀ id v, Schema.users d !! id = Some v → sqlcdb.User_Email v ≠ db.User_Email u)).
Proof.
  intros rest. unfold User_Create. apply txwp_lift_ok. intros ca _. apply txwp_lift_ok. intros ua _.
  tx_step. apply txwp_exec; [|done]. intros ctx.
  destruct (queries.CreateUser _ ctx d) as [[[] d']|e|m] eqn:Ec; [|done..].
  apply CreateUser_Ok in Ec as (row & -> & Hn & He & Hh & Hd & Hfree). exists row. split_and!; try done.
  unfold queries.user_live. by rewrite Hd.
Qed.

Lemma wp_Register {BL : BcryptLaws B} email password w :
  wp (Register NewAuthService email password) (λ r w', w_txs w' = w_txs w ∧ w_trace w' = w_trace w ∧
    match r with
    | Ok u => registered (w_db w) (w_db w') email password u
    | Err e => w_db w' = w_db w ∨
        ((∃ e', e = wrapf "create user" e' ∧ db_fault e') ∧ ∃ u, registered (w_db w) (w_db w') email password u)
    | Panic _ => w_db w' = w_db w
    end) w.
Proof.
  unfold Register. destruct (String.eqb_spec (NormalizeEmail email) ""); [apply wp_fail; auto|].
  destruct (String.eqb_spec password ""); [apply wp_fail; auto|]. cbn [orb].
  wp_step. wp_step. unfold GenerateFromPassword, wp at 1.
  destruct (bcrypt_GenerateFromPassword (w_tick w) password) as [hash|e'|m] eqn:Eh; [|simpl; auto..]. cbn [with_context].
  apply bcrypt_matches in Eh. wp_step. wp_step. wp_step. wp_step.
  destruct (must _) as [id|e'|m]; [|simpl; auto..].
  wp_step. wp_step. eapply wp_mono; [apply wp_RunInTx, body_User_Create|].
  set (now := env_clock _). intros r w' (Htx & Htr & Hp). simpl in Htx, Htr, Hp.
  assert (Hreg : ∀ d', (∃ row, d' = set_users (<[id := row]> (Schema.users (w_db w))) (w_db w) ∧
      Schema.users (w_db w) !! id = None ∧ sqlcdb.User_Email row = NormalizeEmail email ∧
      sqlcdb.User_HashedPassword row = hash ∧ queries.user_live row = true ∧
      ∀ i v, Schema.users (w_db w) !! i = Some v → sqlcdb.User_Email v ≠ NormalizeEmail email) →
      registered (w_db w) d' email password (mkAuthUser id (NormalizeEmail email) now)).
  { intros d' (row & ? & ? & ? & Hh & ? & ?). exists row. rewrite Hh. by split_and!. }
  destruct r as [[]|e'|m]; simpl.
  - wp_step. split_and!; [done..|]. by apply Hreg.
  - split_and!; [done..|]. destruct Hp as [[Hd _]|[Hf ([] & Ha)]]; [by left|right].
    split; [by exists e'|]. eexists. by apply Hreg.
  - split_and!; [done..|]. by destruct Hp.
Qed.

(** C15: registering stores one user under the normalised address and a hash
    of the password, in one atomic step, and only if no user, deleted or not,
    has the address. *)
Theorem Register_spec {BL : BcryptLaws B} email password w :
  wp (Register NewAuthService email password) (λ r w', w_txs w' = w_txs w ∧ w_trace w' = w_trace w ∧
    match r with
    | Ok u => registered (w_db w) (w_db w') email password u
    | Err e => w_db w' = w_db w ∨
        ((∃ e', e = wrapf "create user" e' ∧ db_fault e') ∧ ∃ u, registered (w_db w) (w_db w') email password u)
    | Panic _ => w_db w' = w_db w
    end) w.
Proof. apply wp_Register. Qed.

Lemma registered_unique d d' email password u :
  emails_unique d → registered d d' email password u → emails_unique d'.
Proof.
  intros Hu (row & -> & _ & Hrow & _ & _ & _ & Hfree & _) i j a b. simpl.
  rewrite !lookup_insert_Some. intros [[<- <-]|[? Ha]] [[<- <-]|[? Hb]] Heq; [done|..].
  - exfalso. apply (Hfree _ _ Hb). congruence.
  - exfalso. apply (Hfree _ _ Ha). congruence.
  - by apply (Hu i j a b).
Qed.

(** C16: addresses stay unique whatever is registered and whichever calls
    fail, and an address in use cannot be registered again. *)
Theorem Register_unique {BL : BcryptLaws B} email password w :
  emails_unique (w_db w) →
  wp (Register NewAuthService email password) (λ r w', emails_unique (w_db w') ∧
    ((∃ id v, Schema.users (w_db w) !! id = Some v ∧ sqlcdb.User_Email v = NormalizeEmail email) →
     is_ok r = false ∧ w_db w' = w_db w)) w.
Proof.
  intros Hu. eapply wp_mono; [apply wp_Register|]. intros r w' (_ & _ & Hr).
  assert (Hno : (∃ id v, Schema.users (w_db w) !! id = Some v ∧ sqlcdb.User_Email v = NormalizeEmail email) →
    ∀ u, ¬ registered (w_db w) (w_db w') email password u).
  { intros (id & v & Hv & Hem) u (row & _ & _ & _ & He & _ & _ & Hfree & _). apply (Hfree _ _ Hv). congruence. }
  destruct r as [u|e|m].
  - split; [by eapply registered_unique|]. intros Hin. by destruct (Hno Hin u).
  - destruct Hr as [Hd|[_ (u & Hreg)]]; [by rewrite Hd|]. split; [by eapply registered_unique|].
    intros Hin. by destruct (Hno Hin u).
  - by rewrite Hr.
Qed.

(** ** Revocation *)

Lemma Token_GetByID_quiet id w :
  env_fault (w_tick w) = None →
  Token_GetByID id w = (match refresh_tokens (w_db w) !! id with
                        | Some r => Ok (sqlcRefreshTokenToToken r)
                        | None => Err (sentinel ErrNoRows)
                        end, tick w).
Proof.
  intros Hf. unfold Token_GetByID, bind, no_rows_or, exec. rewrite Hf.
  unfold queries.GetRefreshTokenByID, read_stmt. simpl. by destruct (refresh_tokens (w_db w) !! id).
Qed.

(** Logging out is effective: once a token is revoked, no state that
    keeps its row revoked lets it be refreshed. *)
Theorem Revoke_effective token w w' :
  Revoke NewAuthService token w = (Ok tt, w') →
  ∃ id secret, DecodeRefreshToken token = Ok (id, secret) ∧
    (∀ row, refresh_tokens (w_db w') !! id = Some row → sqlcdb.RefreshToken_Revoked row = true) ∧
    ∀ w2, env_fault (w_tick w2) = None →
      (∀ row, refresh_tokens (w_db w2) !! id = Some row → sqlcdb.RefreshToken_Revoked row = true) →
      Refresh NewAuthService token w2 = (Err (sentinel ErrRefreshTokenInvalid), tick w2).
Proof.
  unfold Revoke, Refresh. destruct (DecodeRefreshToken token) as [[id secret]|e|m]; [|done..].
  intros H. exists id, secret. split; [done|]. split.
  - simpl in H. unfold Token_Revoke in H. apply wrap_err_Ok_inv in H. intros row.
    unfold exec, q, queries.RevokeRefreshToken in H. simpl in H.
    destruct (env_fault (w_tick w)) as [[]|]; [done..|]. injection H as <-. simpl.
    rewrite lookup_alter_eq. intros Hrow. apply fmap_Some in Hrow as (old & _ & ->). done.
  - intros w2 Hf Hrev. unfold bind at 1, attempt. cbn [tokens NewAuthService RefreshTokens NewRepositories rt_GetByID NewRefreshTokenRepository].
    rewrite Token_GetByID_quiet by done. destruct (refresh_tokens (w_db w2) !! id) as [row|] eqn:Er; [|done].
    simpl. by rewrite (Hrev row eq_refl).
Qed.

End App.

(** ** Rotation, on any store of tokens *)

(** What the service needs of a refresh token repository: reads see the
    stored tokens, a stored token is a new one, and a revocation marks its
    token and no other. *)
Class TokenStore `{E : Env} (R : RefreshTokenRepository) := {
  stored_token : DB → UUID → option db.RefreshToken;
  store_GetByID id w : wp (rt_GetByID R id) (λ r w',
    w_db w' = w_db w ∧ w_txs w' = w_txs w ∧ w_trace w' = w_trace w ∧
    match r with Ok t => stored_token (w_db w) id = Some t | _ => True end) w;
  store_Create t rest d : txwp (rt_Create R (Some (List.length rest)) t) (ok_post (λ _ d',
    stored_token d (db.RefreshToken_ID t) = None ∧
    ∀ id, id ≠ db.RefreshToken_ID t → stored_token d' id = stored_token d id)) rest d;
  store_Revoke id rest d : txwp (rt_Revoke R (Some (List.length rest)) id) (ok_post (λ _ d',
    ∀ t, stored_token d id = Some t → ∃ t', stored_token d' id = Some t' ∧ db.RefreshToken_Revoked t' = true)) rest d;
}.

Section Rotation.
Context {E : Env} {P : Process} {U : Unicode} {UL : UuidLib} {J : JwtLib} {B : BcryptLib} {PL : PgtypeLib} {PS : queries.PgServer}.
Context (R : RefreshTokenRepository) {TS : TokenStore R}.

(** The service of the repository on another store of tokens. *)
Definition with_store : authServiceImpl := mkauthServiceImpl (Users NewRepositories) R NewTxRunner.

Definition is_revoked (d : DB) (id : UUID) : Prop :=
  ∃ t, stored_token d id = Some t ∧ db.RefreshToken_Revoked t = true.

Lemma body_rotate_store id t old d :
  stored_token d id = Some old → tx_body (rotate with_store id t) d (ok_post (λ _ d', is_revoked d' id)).
Proof.
  intros Hold rest. unfold rotate. eapply txwp_bind_ok; [apply store_Revoke|]. intros u d1 Hrev.
  destruct (Hrev old Hold) as (t' & Ht' & Hr).
  eapply txwp_mono; [apply store_Create|]. intros [[]|e|m] d2; [|done..]. intros [Hnew Hother].
  exists t'. rewrite Hother; [done|]. intros Heq. rewrite Heq in *. congruence.
Qed.

(** What a token that is exchanged was when it was read, and is after it was
    revoked. *)
Definition checked (token : string) (plan : UUID * db.RefreshToken * (string * string)) (d : DB) : Prop :=
  let '(id, _, _) := plan in
  (∃ secret, DecodeRefreshToken token = Ok (id, secret)) ∧ ¬ is_revoked d id ∧ is_Some (stored_token d id).

Lemma wp_refresh_checks token w :
  wp (refresh_checks with_store token) (λ r w', w_db w' = w_db w ∧ ∀ plan, r = Ok plan → checked token plan (w_db w)) w.
Proof.
  unfold refresh_checks. destruct (DecodeRefreshToken token) as [[id secret]|e|m] eqn:Edec; [|by wp_step|done].
  wp_step. wp_step. eapply wp_mono; [apply store_GetByID|]. intros r w1 (Hd1 & _ & _ & Hr).
  destruct r as [row|e|m]; [|by destruct (Is e ErrNoRows)|done].
  destruct (db.RefreshToken_Revoked row) eqn:Erev; [by wp_step|].
  change (tokens with_store) with R in Hr.
  assert (Hlive : ¬ is_revoked (w_db w) id) by (intros (t & Ht & Hrt); simplify_eq; congruence).
  rewrite <- Hd1 in *. clear Hd1.
  assert (Hreads : ∀ A (m : M A) (k : A → M _) w2, reads m → w_db w2 = w_db w1 →
    (∀ a w3, w_db w3 = w_db w1 → wp (k a) (λ r w', w_db w' = w_db w1 ∧ ∀ plan, r = Ok plan → checked token plan (w_db w1)) w3) →
    wp (bind m k) (λ r w', w_db w' = w_db w1 ∧ ∀ plan, r = Ok plan → checked token plan (w_db w1)) w2).
  { intros A m k w2 Hm Hd Hk. wp_step. eapply wp_mono; [apply Hm|]. intros [a|e|msg] w3 (Hd3 & _); [|by rewrite Hd3..].
    apply Hk. congruence. }
  apply Hreads; [apply (reads_tick (λ w, Ok (env_clock (w_tick w))))|done|]. intros now w2 Hd2.
  destruct (time.After _ _); [by wp_step|]. destruct (negb _); [by wp_step|].
  apply Hreads; [apply reads_wrap_err, reads_User_GetByID|done|]. intros u w3 Hd3.
  apply Hreads; [apply reads_wrap_err, reads_Sign|done|]. intros access w4 Hd4.
  apply Hreads; [apply reads_new_token|done|]. intros [[newID newSecret] newTok] w5 Hd5.
  wp_step. split; [done|]. intros plan [= <-]. split; [by exists secret|]. split; [done|by exists row].
Qed.

Lemma wp_refresh_commit id tok answer w :
  is_Some (stored_token (w_db w) id) →
  wp (refresh_commit with_store (id, tok, answer)) (λ r w', is_ok r = true → is_revoked (w_db w') id) w.
Proof.
  intros [old Hold]. unfold refresh_commit. wp_step. wp_step.
  eapply wp_mono; [by apply wp_RunInTx, (body_rotate_store id tok old)|].
  intros [[]|e|m] w1 (_ & _ & Hp); [|done..]. simpl in Hp |- *. by wp_step.
Qed.

(** Stored tokens stay, and revoked ones stay revoked. *)
Definition keeps_tokens (d d' : DB) : Prop :=
  ∀ id t, stored_token d id = Some t →
    ∃ t', stored_token d' id = Some t' ∧ (db.RefreshToken_Revoked t = true → db.RefreshToken_Revoked t' = true).

Lemma keeps_revoked d d' id : keeps_tokens d d' → is_revoked d id → is_revoked d' id.
Proof. intros Hk (t & Ht & Hr). destruct (Hk id t Ht) as (t' & Ht' & Hr'). exists t'. auto. Qed.

(** C13: a spent refresh token is refused: on any store of tokens, once a
    refresh has exchanged its token, no refresh that starts later succeeds
    with that token, as long as the store keeps its tokens and their
    revocations.  A refresh is two phases, the checks, which read, and the
    transaction that revokes and replaces the token, and other requests may
    run between them.  The revocation does not look at the token again: of
    refreshes that have all passed the checks before the first of them
    commits, every one may succeed. *)
Theorem spent_token_refused token plan answer wa w1 wb w' w2 :
  (∀ w, Refresh with_store token w = (let! plan := refresh_checks with_store token in refresh_commit with_store plan) w) ∧
  (refresh_checks with_store token wa = (Ok plan, w1) → keeps_tokens (w_db wa) (w_db wb) →
   refresh_commit with_store plan wb = (Ok answer, w') → keeps_tokens (w_db w') (w_db w2) →
   wp (Refresh with_store token) (λ r _, is_ok r = false) w2).
Proof.
  split; [apply Refresh_phases|]. intros Hchecks Hab Hcommit Hk.
  destruct plan as [[id tok] pr]. pose proof (wp_refresh_checks token wa) as Hc. unfold wp in Hc. rewrite Hchecks in Hc.
  destruct Hc as [_ Hc]. destruct (Hc _ eq_refl) as ((secret & Hdec) & _ & [old Hold]).
  destruct (Hab id old Hold) as (t' & Ht' & _).
  pose proof (wp_refresh_commit id tok pr wb (mk_is_Some _ _ Ht')) as Hw. unfold wp in Hw. rewrite Hcommit in Hw.
  specialize (Hw eq_refl). apply (keeps_revoked _ _ _ Hk) in Hw.
  unfold wp. rewrite Refresh_phases. apply wp_bind. eapply wp_mono; [apply wp_refresh_checks|].
  intros [[[id' tok'] pr']|e|m] w3 [_ H]; [|done..]. destruct (H _ eq_refl) as ((secret' & Hdec') & Hno & _).
  rewrite Hdec in Hdec'. by simplify_eq.
Qed.

End Rotation.
