(* ===== verification/Access.v ===== *)
(** * Access: what a user of the transaction service can reach

    Reads of the composed service: the page [List] selects and its bounds,
    the count, visibility of created rows, and ownership.  Several of them differ from what comments and tests of the
    source say; the theorems state what the code does. *)

From S2P Require Import Prelude GoInt GoStrings GoTime GoValues Json Pgtypex Schema Sqlc Effects TxRunner Models Repositories Wiring Queue TransactionService Outbox.
Import pgtypex uuidx.
#[local] Existing Instance queries.occurred_desc_dec.

(** ** Page normalisation *)

Lemma Normalize_range limit offset :
  let '(l, o) := pagination.Normalize limit offset in 1 <= l <= pagination.MaxLimit ∧ 0 <= o.
Proof.
  unfold pagination.Normalize, pagination.MaxLimit, pagination.DefaultLimit. bool_lia_split.
Qed.

Lemma Normalize_id limit offset :
  1 <= limit <= pagination.MaxLimit → 0 <= offset → pagination.Normalize limit offset = (limit, offset).
Proof.
  unfold pagination.Normalize, pagination.MaxLimit, pagination.DefaultLimit. intros Hl Ho.
  destruct (Z.leb_spec limit 0); [lia|]. destruct (Z.ltb_spec 200 limit); [lia|].
  by destruct (Z.ltb_spec offset 0); [lia|].
Qed.

(** Normalised limits lie between 1 and the maximum and offsets are not
    negative; a page already in range is kept, and a missing limit becomes
    the default. *)
Theorem Normalize_bounds limit offset :
  let '(l, o) := pagination.Normalize limit offset in
  1 <= l <= pagination.MaxLimit ∧ 0 <= o
  ∧ pagination.Normalize l o = (l, o)
  ∧ l = (if bool_decide (1 <= limit) then Z.min limit pagination.MaxLimit else pagination.DefaultLimit)
  ∧ o = Z.max 0 offset.
Proof.
  pose proof (Normalize_range limit offset) as H.
  destruct (pagination.Normalize limit offset) as [l o] eqn:Ep. destruct H as [H1 H2].
  split; [done|]. split; [done|]. split; [by apply Normalize_id|].
  unfold pagination.Normalize, pagination.MaxLimit, pagination.DefaultLimit in *. injection Ep as <- <-.
  case_bool_decide; bool_lia_split.
Qed.

Section Access.
Context {E : Env} {UL : UuidLib} {ULaws : UuidLaws UL} {PL : PgtypeLib} {PS : queries.PgServer}.

(** Live rows of a user, most recent first: what a page is cut from. *)
Definition live_rows (d : DB) (u : UUID) : list sqlcdb.Transaction :=
  merge_sort queries.occurred_desc
    (List.filter (λ t, queries.owned_by (UUIDToPG u) t && queries.not_deleted t) (queries.transactions_list d)).

(** The rows of a page as domain values. *)
Definition page (d : DB) (u : UUID) (limit offset : Z) : outcome (list domain.Transaction) :=
  omap_out (map dbTransactionToDomain)
    (rows_to_db (take (Z.to_nat limit) (drop (Z.to_nat offset) (live_rows d u)))).

Lemma filter_matches_user u l o t :
  queries.filter_matches (toListFilterParams (db.mkTransactionFilter u None None None None l o)) t
  = queries.owned_by (UUIDToPG u) t && queries.not_deleted t.
Proof. unfold queries.filter_matches. simpl. by rewrite !andb_true_r. Qed.

Lemma list_filter_ext {A} (p q : A → bool) l : (∀ x, p x = q x) → List.filter p l = List.filter q l.
Proof. intros H. induction l as [|x l IH]; simpl; [done|]. by rewrite H, IH. Qed.

Lemma list_filter_none {A} (p : A → bool) l : (∀ x, x ∈ l → p x = false) → List.filter p l = [].
Proof.
  intros H. induction l as [|x l IH]; simpl; [done|]. rewrite H by constructor.
  apply IH. intros y Hy. apply H. by constructor.
Qed.

(** [List] as the adapter calls it, with a limit in range. *)
Lemma adapter_list_spec u l o w :
  env_fault (w_tick w) = None → 1 <= l <= pagination.MaxLimit → 0 <= o →
  tr_List NewTransactionRepository None (db.mkTransactionFilter u None None None None l o) w
  = (if int32 o <? 0 then Err (wrapf "list transactions" (pg_error "OFFSET must not be negative"))
     else rows_to_db (take (Z.to_nat l) (drop (Z.to_nat (int32 o)) (live_rows (w_db w) u))), tick w).
Proof.
  unfold pagination.MaxLimit. intros Hf Hl Ho. simpl. unfold List_. simpl db.f_Limit. simpl db.f_Offset.
  destruct (Z.leb_spec l 0); [lia|]. destruct (Z.ltb_spec o 0); [lia|].
  unfold bind, wrap_err, exec, q, lift, queries.ListTransactionsByFilter, read_stmt. rewrite Hf.
  rewrite (list_filter_ext _ _ _ (filter_matches_user u l o)).
  fold (live_rows (w_db w) u). simpl queries.l_Limit. simpl queries.l_Offset.
  unfold queries.limit_offset. rewrite (int32_id l) by (unfold in_int32; lia).
  destruct (Z.ltb_spec l 0); [lia|]. destruct (int32 o <? 0); [done|]. simpl.
  by destruct (rows_to_db _).
Qed.

Lemma rows_to_db_length rows ts : rows_to_db rows = Ok ts → List.length ts = List.length rows.
Proof.
  revert ts. induction rows as [|r rows IH]; intros ts H; simpl in H; [by injection H as <-|].
  inv_try H. injection H as <-. simpl. f_equal. by apply IH.
Qed.

Lemma wp_adapter_ListByUser user l o w :
  wp (adapter_ListByUser NewTransactionRepository None user l o) (unchanged w) w.
Proof.
  unfold adapter_ListByUser. wp_step. wp_step. destruct (uuid_FromString user); [|done..].
  wp_step. simpl. unfold List_. eapply wp_mono; [apply wp_read|].
  intros [] w' H; by try wp_step.
Qed.

(** A page at an offset as the query sees it. *)
Definition query_page (d : DB) (u : UUID) (limit offset : Z) : outcome (list domain.Transaction) :=
  if int32 offset <? 0
  then Err (wrapf "list transactions" (pg_error "OFFSET must not be negative"))
  else page d u limit (int32 offset).

Lemma ListUserTransactions_spec redis user u limit offset w :
  uuid_FromString user = Ok u → env_fault (w_tick w) = None →
  ListUserTransactions (NewTransactionService redis) user limit offset w
  = (let '(l, o) := pagination.Normalize limit offset in query_page (w_db w) u l o, tick w).
Proof.
  intros Hu Hf. unfold ListUserTransactions. pose proof (Normalize_range limit offset) as Hn.
  destruct (pagination.Normalize limit offset) as [l o].
  simpl. unfold adapter_ListByUser, bind at 1, lift. rewrite Hu.
  unfold bind. rewrite adapter_list_spec by tauto. unfold query_page, page.
  destruct (int32 o <? 0); [done|]. by destruct (rows_to_db _).
Qed.

Lemma Normalize_offset limit offset l o :
  pagination.Normalize limit offset = (l, o) → o = Z.max 0 offset.
Proof. unfold pagination.Normalize. intros [= _ <-]. bool_lia_split. Qed.

(** A row's owner is [u] and it is not deleted. *)
Definition live_of (u : UUID) (t : sqlcdb.Transaction) : Prop :=
  UUID_Bytes (sqlcdb.UserID t) = u ∧ ts_Valid (sqlcdb.DeletedAt t) = false.
#[global] Instance live_of_dec u t : Decision (live_of u t).
Proof. unfold live_of. apply _. Defined.

(** No row of the list is more recent than one before it. *)
Definition newest_first : list sqlcdb.Transaction → Prop :=
  StronglySorted (λ t t', ts_Time (sqlcdb.OccurredAt t') <= ts_Time (sqlcdb.OccurredAt t)).

Lemma list_filter_prop {A} (p : A → bool) (P : A → Prop) `{∀ x, Decision (P x)} l :
  (∀ x, p x = true ↔ P x) → List.filter p l = filter P l.
Proof.
  intros Hp. induction l as [|x l IH]; [done|]. simpl. rewrite filter_cons, IH.
  specialize (Hp x). destruct (p x), (decide (P x)); naive_solver.
Qed.

Lemma live_rows_spec d u :
  live_rows d u ≡ₚ filter (live_of u) (map_to_list (transactions d)).*2 ∧ newest_first (live_rows d u).
Proof.
  unfold live_rows, queries.transactions_list. split.
  - rewrite merge_sort_Permutation. erewrite list_filter_prop; [done|]. intros t.
    unfold live_of, queries.owned_by, queries.not_deleted, is_null_ts. cbn.
    rewrite andb_true_iff, bool_decide_eq_true, negb_true_iff. done.
  - apply StronglySorted_merge_sort; unfold queries.occurred_desc; intros ?; lia.
Qed.

Lemma Normalize_window limit offset :
  pagination.Normalize limit offset = (if limit <=? 0 then 50 else Z.min limit 200, Z.max 0 offset).
Proof.
  unfold pagination.Normalize, pagination.MaxLimit, pagination.DefaultLimit. f_equal; bool_lia_split.
Qed.

(** C22: listing returns one page of the user's own live transactions, most
    recent first, and changes nothing: with a limit between 1 and 200, or 50
    when none is asked for, the rows from the offset on, a negative one
    counting as 0.  It is stated for a query that does not fail and an offset
    below 2^31. *)
Theorem ListUserTransactions_page redis user u limit offset w :
  uuid_FromString user = Ok u → env_fault (w_tick w) = None → offset < 2 ^ 31 →
  let l := if limit <=? 0 then 50 else Z.min limit 200 in
  let o := Z.max 0 offset in
  ∃ rows,
    rows ≡ₚ filter (live_of u) (map_to_list (transactions (w_db w))).*2 ∧ newest_first rows ∧
    ListUserTransactions (NewTransactionService redis) user limit offset w
    = (omap_out (map dbTransactionToDomain) (rows_to_db (take (Z.to_nat l) (drop (Z.to_nat o) rows))), tick w).
Proof.
  intros Hu Hf Ho l o. destruct (live_rows_spec (w_db w) u) as [HP HS].
  exists (live_rows (w_db w) u). split; [done|]. split; [done|].
  rewrite (ListUserTransactions_spec redis user u), Normalize_window by done. fold l o.
  unfold query_page. rewrite int32_id by (unfold in_int32; lia).
  destruct (Z.ltb_spec o 0); [lia|done].
Qed.

(** C40: the offset reaches the query as an [int32]: from 2^31 on it turns
    negative and the query fails, and from 2^32 on the pages start over. *)
Theorem ListUserTransactions_offset_wraps redis user u limit offset w :
  uuid_FromString user = Ok u → env_fault (w_tick w) = None → 0 <= offset →
  (2 ^ 31 <= offset < 2 ^ 32 →
     fst (ListUserTransactions (NewTransactionService redis) user limit offset w)
     = Err (wrapf "list transactions" (pg_error "OFFSET must not be negative"))) ∧
  ListUserTransactions (NewTransactionService redis) user limit (offset + 2 ^ 32) w
  = ListUserTransactions (NewTransactionService redis) user limit offset w.
Proof.
  intros Hu Hf Ho. rewrite !(ListUserTransactions_spec redis user u) by done.
  destruct (pagination.Normalize limit offset) as [l o] eqn:En.
  destruct (pagination.Normalize limit (offset + 2 ^ 32)) as [l' o'] eqn:En'.
  assert (l' = l) as -> by (unfold pagination.Normalize in *; congruence).
  apply Normalize_offset in En as ->, En' as ->.
  rewrite !Z.max_r by lia. unfold query_page. split.
  - intros Hr. simpl. assert (int32 offset = offset - 2 ^ 32) as ->.
    { unfold int32. rewrite <- (Z.mod_unique (offset + 2 ^ 31) (2 ^ 32) 1 (offset - 2 ^ 31)); lia. }
    by destruct (Z.ltb_spec (offset - 2 ^ 32) 0); [|lia].
  - assert (int32 (offset + 2 ^ 32) = int32 offset) as ->; [|done].
    unfold int32. replace (offset + 2 ^ 32 + 2 ^ 31) with (offset + 2 ^ 31 + 1 * 2 ^ 32) by lia.
    by rewrite Z_mod_plus_full.
Qed.

(** The total next to a page does not count the user's transactions: it
    is read off a page of size one, and is 0 or 1. *)
Theorem ListUserTransactionsWithCount_total redis user u limit offset w items p w' :
  uuid_FromString user = Ok u → (∀ n, env_fault n = None) →
  ListUserTransactionsWithCount (NewTransactionService redis) user limit offset w = (Ok (items, p), w') →
  Total p = Z.min 1 (Z.of_nat (List.length (live_rows (w_db w) u))).
Proof.
  intros Hu Hf H. unfold ListUserTransactionsWithCount in H.
  pose proof (Normalize_range limit offset) as Hn.
  destruct (pagination.Normalize limit offset) as [l o] eqn:En.
  apply bind_Ok_inv in H as (its & w1 & H1 & H). apply bind_Ok_inv in H as (total & w2 & H2 & H).
  injection H as <- <- <-. simpl.
  assert (w_db w1 = w_db w) as Hw1.
  { pose proof (wp_adapter_ListByUser user l o w) as Hwp. by destruct (wp_use _ _ _ _ _ Hwp H1). }
  simpl in H2. unfold adapter_CountByUser, bind at 1, lift in H2. rewrite Hu in H2.
  apply bind_Ok_inv in H2 as (rows & w3 & H2 & H3). injection H3 as <- <-.
  rewrite adapter_list_spec in H2 by (try done; unfold pagination.MaxLimit; lia).
  change (int32 0 <? 0) with false in H2. cbn iota in H2. injection H2 as H2 _.
  rewrite Hw1 in H2. apply rows_to_db_length in H2. rewrite H2. change (int32 0) with 0.
  destruct (live_rows (w_db w) u); simpl; lia.
Qed.

(** ** Ownership *)

(** C25: the user argument of a read or a delete is not checked against the
    row: a live row is returned to every caller, whoever owns it, and a delete
    does the same thing for every caller. *)
Theorem ownership_not_enforced redis caller other id t u w :
  env_fault (w_tick w) = None → transactions (w_db w) !! id = Some t →
  queries.not_deleted t = true → sqlcTransactionToDB t = Ok u →
  GetTransaction (NewTransactionService redis) caller (uuid_String id) w = (Ok (dbTransactionToDomain u), tick w)
  ∧ SoftDeleteTransaction (NewTransactionService redis) caller (uuid_String id) w
    = SoftDeleteTransaction (NewTransactionService redis) other (uuid_String id) w.
Proof.
  intros Hf Ht Hl Hu. split; [|done].
  unfold GetTransaction. simpl. unfold adapter_GetByID, bind, lift. rewrite uuid_FromString_String.
  simpl. unfold GetByID, bind, wrap_err, exec, q, queries.GetTransactionByIDOnly, read_stmt.
  rewrite Hf. unfold queries.transaction_where. simpl. rewrite Ht, Hl. simpl. unfold lift. by rewrite Hu.
Qed.

(** ** Visibility of created rows *)

Section Visibility.
Context {PLaws : PgtypeLaws PL}.

(** Every stored row is marked deleted. *)
Definition no_live (d : DB) : Prop :=
  ∀ id t, transactions d !! id = Some t → queries.not_deleted t = false.

Lemma no_live_insert d id row :
  no_live d → queries.not_deleted row = false → no_live (set_transactions (<[id := row]> (transactions d)) d).
Proof. intros Hd Hr id' t. simpl. rewrite lookup_insert_Some. intros [[_ <-]|[_ Ht]]; [done|by eapply Hd]. Qed.

Lemma repo_Create_no_live rest t p d :
  domainTransactionToCreateParams t = Ok p → no_live d →
  txwp (Create (Some (List.length rest)) p) (ok_post (λ _ d', no_live d')) rest d.
Proof.
  intros Hp Hd. unfold Create. apply txwp_lift_ok. intros arg Harg.
  apply txwp_query_ok. intros ctx row d' (-> & _ & _ & _ & _ & Hdel & _)%CreateTransaction_Ok.
  tx_step. destruct (sqlcTransactionToDB _); [|done..]. apply no_live_insert; [done|].
  unfold queries.not_deleted, is_null_ts. rewrite Hdel.
  unfold create_arg in Harg. inv_try Harg. injection Harg as <-.
  match goal with H : with_context "convert deleted_at" _ = Ok _ |- _ => rename H into Hda end.
  unfold TimestamptzFromTime in Hda. rewrite timestamptz_Scan_valid in Hda. by injection Hda as <-.
Qed.

Lemma repo_Update_no_live rest p d :
  no_live d → txwp (Update (Some (List.length rest)) p) (ok_post (λ _ d', no_live d')) rest d.
Proof.
  intros Hd. unfold Update. apply txwp_lift_ok. intros arg _. apply txwp_query_ok.
  intros ctx row d' (old & Hold & -> & _ & _ & _ & (_ & _ & _ & _ & Hdel)%update_row_fields & _)%UpdateTransaction_Ok.
  tx_step. destruct (sqlcTransactionToDB _); [|done..]. apply no_live_insert; [done|].
  unfold queries.not_deleted. rewrite Hdel. by apply (Hd _ _ Hold).
Qed.

Lemma repo_SoftDelete_no_live rest id d :
  no_live d → txwp (SoftDelete (Some (List.length rest)) id) (ok_post (λ _ d', no_live d')) rest d.
Proof.
  intros Hd. unfold SoftDelete. apply txwp_query_ok.
  intros ctx row d' (old & Hold & _ & _ & Hlive & _)%SoftDeleteByID_Ok.
  by rewrite (Hd _ _ Hold) in Hlive.
Qed.

Lemma ledger_step_no_live redis w w' : no_live (w_db w) → ledger_step redis w w' → no_live (w_db w').
Proof.
  intros Hd Hstep.
  enough (H : w_db w = w_db w → no_live (w_db w')) by exact (H eq_refl).
  apply (ledger_step_rel redis (λ d d', d = w_db w → no_live d') (λ d E, eq_ind_r no_live Hd E)) with (w := w);
    [intros t _ rest|intros existing inp rest|intros user id rest|done];
    (apply (txwp_mono _ _ (ok_post (λ _ d', no_live d'))); [|intros [] d' H; simpl; auto]).
  - apply row_and_event_keeps; [done|]. intros p Hp. by eapply repo_Create_no_live.
  - unfold update_in_tx. tx_step. tx_step. apply row_and_event_keeps; [done|]. intros p _. by apply repo_Update_no_live.
  - apply row_and_event_keeps; [done|]. intros p _. by apply repo_SoftDelete_no_live.
Qed.

(** A listing query selects nothing, whatever its parameters. *)
Lemma list_dead arg ctx d rows d' :
  no_live d → queries.ListTransactionsByFilter arg ctx d = Ok (rows, d') → rows = [].
Proof.
  intros Hd. unfold queries.ListTransactionsByFilter, read_stmt, queries.limit_offset.
  replace (List.filter _ _) with (@nil sqlcdb.Transaction).
  - change (merge_sort queries.occurred_desc []) with (@nil sqlcdb.Transaction). rewrite drop_nil, take_nil.
    destruct (_ <? 0); [done|]. destruct (_ <? 0); [done|]. by intros [= <- _].
  - symmetry. unfold queries.transactions_list. apply list_filter_none. intros t Ht.
    apply list_elem_of_fmap in Ht as ([id t'] & -> & Hin%elem_of_map_to_list). simpl.
    unfold queries.filter_matches. by rewrite (Hd _ _ Hin), andb_false_r.
Qed.

Lemma listed_dead user l o w :
  no_live (w_db w) →
  wp (adapter_ListByUser NewTransactionRepository None user l o) (λ r _, ∀ ts, r = Ok ts → ts = []) w.
Proof.
  intros Hd. unfold adapter_ListByUser. wp_step. wp_step. destruct (uuid_FromString user) as [u|e|m]; [|done..].
  wp_step. cbn [tr_List NewTransactionRepository]. unfold List_. wp_step. wp_step. apply wp_exec_pool; [|done].
  destruct (queries.ListTransactionsByFilter _ _ _) as [[rows d']|e|m] eqn:Eq; [|done..].
  apply list_dead in Eq as ->; [|done]. split; [|done]. simpl. wp_step. simpl. wp_step. by intros ts [= <-].
Qed.

(** A delete finds no row to mark. *)
Lemma body_delete_dead redis user id d :
  no_live d →
  tx_body (λ tx, delete_in_tx (NewTransactionService redis) user id (app_uow tx)) d
    (ok_post (λ _ _, False)).
Proof.
  intros Hd rest. unfold delete_in_tx. eapply (txwp_bind_ok _ _ _ (λ _ _, False)); [|done].
  simpl. unfold adapter_SoftDelete. apply txwp_lift_ok. intros u _.
  eapply (txwp_bind_ok _ _ _ (λ _ _, False)); [|done].
  simpl. unfold SoftDelete. apply txwp_query_ok.
  intros ctx row d' (old & Hold & _ & _ & Hlive & _)%SoftDeleteByID_Ok.
  by rewrite (Hd _ _ Hold) in Hlive.
Qed.

Lemma read_dead user id w :
  no_live (w_db w) → wp (adapter_GetByID NewTransactionRepository None user id) (λ r _, is_ok r = false) w.
Proof.
  intros Hd. unfold adapter_GetByID. wp_step. wp_step. destruct (uuid_FromString id) as [u|e|m]; [|done..].
  wp_step. simpl. unfold GetByID. wp_step. wp_step. simpl. apply wp_exec_pool; [|done].
  unfold queries.GetTransactionByIDOnly, read_stmt, queries.transaction_where. simpl.
  destruct (transactions (w_db w) !! u) as [t|] eqn:Et; [|done]. by rewrite (Hd _ _ Et).
Qed.

(** C20: nothing a user creates is ever visible: [Create] stores the zero time
    as a deletion mark that is not NULL, so that, starting without live rows,
    after any requests no read, update or delete of a transaction succeeds
    and no listing, with or without the count, returns one, whatever calls
    fail. *)
Theorem created_rows_invisible redis w w' :
  no_live (w_db w) → rtc (ledger_step redis) w w' →
  (∀ user id, wp (GetTransaction (NewTransactionService redis) user id) (λ r _, is_ok r = false) w') ∧
  (∀ user id inp, wp (UpdateTransaction (NewTransactionService redis) user id inp) (λ r _, is_ok r = false) w') ∧
  (∀ user id, wp (SoftDeleteTransaction (NewTransactionService redis) user id) (λ r _, is_ok r = false) w') ∧
  (∀ user limit offset, wp (ListUserTransactions (NewTransactionService redis) user limit offset)
     (λ r _, ∀ items, r = Ok items → items = []) w') ∧
  (∀ user limit offset, wp (ListUserTransactionsWithCount (NewTransactionService redis) user limit offset)
     (λ r _, ∀ items total, r = Ok (items, total) → items = []) w').
Proof.
  intros Hd Hrtc.
  assert (Hd' : no_live (w_db w')).
  { induction Hrtc as [|w w1 w2 Hstep _ IH]; [done|]. by eapply IH, ledger_step_no_live. }
  split_and!.
  - intros user id. by apply read_dead.
  - intros user id inp. unfold UpdateTransaction. wp_step.
    eapply wp_mono; [by apply read_dead|]. by intros [].
  - intros user id. unfold SoftDeleteTransaction.
    apply (wp_bind (RunInTx (λ tx, delete_in_tx _ _ _ (app_uow tx)))).
    eapply wp_mono; [apply wp_RunInTx, body_delete_dead; done|].
    intros [tx|e|m] w'' (_ & _ & H); [done..|done].
  - intros user limit offset. unfold ListUserTransactions. destruct (pagination.Normalize limit offset).
    by apply listed_dead.
  - intros user limit offset. unfold ListUserTransactionsWithCount. destruct (pagination.Normalize limit offset) as [l o].
    wp_step. eapply wp_mono; [by apply listed_dead|]. intros [items|e|m] w1 H; [|done..].
    rewrite (H _ eq_refl). wp_step. apply wp_always. intros [n|e|m] w2; [|done..]. wp_step. by intros ? ? [= <- _].
Qed.

End Visibility.
End Access.
