(* ===== verification/Projection.v ===== *)
(** * Projection: read models fed from the change events

    Models [internal/service/projection]: the event source ([source.go],
    [source_db.go]), the cursor store ([cursor.go], [cursor_db.go]) and the
    two projectors ([transaction_summary.go], [monthly_balance.go]) with
    their upserts.  The runner is in [ProjectionRunner]. *)

From S2P Require Import Prelude GoInt GoStrings GoTime GoValues Json Pgtypex Schema Effects Models.
Import sqlcdb.

Module projection.

(** ** Interfaces *)

(** [Payload] is the JSON value of the column. *)
Record ChangeEventRow := mkChangeEventRow {
  ID : Z; EntityType : string; EntityID : string; UserID : string; OpType : string;
  Version : Z; Payload : option json; CreatedAt : Time }.

Record ChangeEventSource := mkChangeEventSource { ListSince : Z → Z → M (list ChangeEventRow) }.
Record CursorStore := mkCursorStore { Get : string → M Z; Set_ : string → Z → M unit }.
Record Processor := mkProcessor { Process : ChangeEventRow → M unit }.

(** What the server and the driver do with parameters: [$1::uuid] on a text,
    and a float64 sent to a NUMERIC column. *)
Class PgParams := {
  pg_uuid : string → option UUID;
  numeric_param : float64 → outcome Numeric;
}.

Class PgParamsLaws (L : UuidLib) (P : PgParams) : Prop := {
  pg_uuid_text u : pg_uuid (uuid_String u) = Some u;
  (** a finite float is sent as a finite number, its negation as the
      opposite number *)
  numeric_param_finite f : f64_finite f = true →
    ∃ i e, numeric_param f = Ok (mkNumeric (Some i) e false false true) ∧
           numeric_param (f64_opp f) = Ok (mkNumeric (Some (- i)) e false false true);
  (** a float is never sent as NULL *)
  numeric_param_valid f n : numeric_param f = Ok n → num_Valid n = true;
}.

Section Projection.
Context {E : Env} {UL : UuidLib} {PP : PgParams}.

(** ** [DBChangeEventSource] *)

Definition row_of (e : ChangeEvent) : ChangeEventRow :=
  mkChangeEventRow (ChangeEvent_ID e) (ChangeEvent_EntityType e)
    (uuid_String (UUID_Bytes (ChangeEvent_EntityID e))) (uuid_String (UUID_Bytes (ChangeEvent_UserID e)))
    (ChangeEvent_OpType e) (ChangeEvent_Version e) (ChangeEvent_Payload e)
    (ts_Time (ChangeEvent_CreatedAt e)).

Definition id_le (e f : ChangeEvent) : Prop := ChangeEvent_ID e <= ChangeEvent_ID f.
#[export] Instance id_le_dec : RelDecision id_le.
Proof. unfold id_le. intros e f. apply _. Defined.

Definition select_since (sinceID limit : Z) (d : DB) : list ChangeEvent :=
  take (Z.to_nat limit)
    (merge_sort id_le (List.filter (λ e, sinceID <? ChangeEvent_ID e) (change_events d))).

Definition listChangeEventsSinceSQL (sinceID limit : Z) : stmt (list ChangeEvent) :=
  read_stmt (λ d, Ok (select_since sinceID limit d)).

Definition source_ListSince (sinceID limit : Z) : M (list ChangeEventRow) :=
  let limit := if limit <=? 0 then 100 else limit in
  let! rows := exec Pool (listChangeEventsSinceSQL sinceID limit) in
  ret (map row_of rows).

Definition NewDBChangeEventSource : ChangeEventSource := mkChangeEventSource source_ListSince.

(** ** [DBCursorStore] *)

Definition select_cursor (name : string) : stmt Z :=
  read_stmt (λ d, match projection_cursors d !! name with
                  | Some c => Ok (ProjectionCursor_LastEventID c)
                  | None => Err (sentinel ErrNoRows)
                  end).

Definition cursor_Get (name : string) : M Z := λ w,
  match exec Pool (select_cursor name) w with
  | (Err e, w') => if Is e ErrNoRows then (Ok 0, w') else (Err e, w')
  | r => r
  end.

Definition upsert_cursor (name : string) (lastEventID : Z) : stmt unit := λ ctx d,
  let row :=
    match projection_cursors d !! name with
    | None => mkProjectionCursor name lastEventID (ts_now ctx) (ts_now ctx) Timestamptz_zero
    | Some c => mkProjectionCursor (ProjectionCursor_ProjectorName c) lastEventID
                  (ProjectionCursor_CreatedAt c) (ts_now ctx) (ProjectionCursor_DeletedAt c)
    end in
  Ok (tt, set_projection_cursors (<[name := row]> (projection_cursors d)) d).

Definition cursor_Set (name : string) (lastEventID : Z) : M unit := exec Pool (upsert_cursor name lastEventID).

Definition NewDBCursorStore : CursorStore := mkCursorStore cursor_Get cursor_Set.

(** ** Payload fields *)

Definition put_time (t : Time) (j : json) : outcome Time :=
  match j with
  | JNull => Ok t
  | JStr s =>
      match time.parseRFC3339 s with
      | Some t' => Ok t'
      | None => Err (errorString "parsing time")
      end
  | _ => Err (errorString "Time.UnmarshalJSON: input is not a JSON string")
  end.

Definition time_field (k : string) (fields : list (string * json)) : outcome Time :=
  decode_field put_time k fields time.zero.

(** [json.Unmarshal] of the payload column into a struct. *)
Definition json_members (payload : option json) : outcome (list (string * json)) :=
  match payload with
  | None => Err (errorString "unexpected end of JSON input")
  | Some j => Json.members_of j
  end.

(** ** [TransactionSummaryProjector] *)

Record TransactionPayload := mkTransactionPayload {
  tp_UserID : string; tp_Amount : float64; tp_Currency : string; tp_Type : string;
  tp_OccurredAt : Time; tp_Deleted : bool }.

Definition unmarshal_summary (payload : option json) : outcome TransactionPayload :=
  try fields := json_members payload in
  try user := Json.string_field "UserID" fields in
  try amount := Json.float_field "Amount" fields in
  try currency := Json.string_field "Currency" fields in
  try typ := Json.string_field "Type" fields in
  try occurred := time_field "OccurredAt" fields in
  try deleted := Json.bool_field "Deleted" fields in
  Ok (mkTransactionPayload user amount currency typ occurred deleted).

(** Sum of two numerics; NaN absorbs. *)
Definition numeric_add (a b : Numeric) : Numeric :=
  match num_Int a, num_Int b with
  | Some i, Some j =>
      let e := Z.min (num_Exp a) (num_Exp b) in
      mkNumeric (Some (i * 10 ^ (num_Exp a - e) + j * 10 ^ (num_Exp b - e))) e false false true
  | _, _ => mkNumeric None 0 true false true
  end.

Definition cast_uuid (s : string) : outcome UUID :=
  match pg_uuid s with
  | Some u => Ok u
  | None => Err (pg_error "invalid input syntax for type uuid")
  end.

Definition upsert_summary (userID periodKey currency txnType : string) (amount : float64) (countDelta : Z) :
    stmt unit := λ ctx d,
  try n := numeric_param amount in
  try user := cast_uuid userID in
  try total := numeric_18_2 n in
  try cur := char3 currency in
  try _ := require (is_some (users d !! user)) "transaction_summary_user_id_fkey" in
  let key := (user, periodKey, cur, txnType) in
  try row :=
    match transaction_summary d !! key with
    | None =>
        Ok (mkTransactionSummary (mkPgUUID user true) periodKey cur txnType total countDelta
              (ts_now ctx) (ts_now ctx) Timestamptz_zero)
    | Some old =>
        try total' := numeric_18_2 (numeric_add (TransactionSummary_TotalAmount old) total) in
        try count' := bigint (TransactionSummary_Count old + countDelta) in
        Ok (mkTransactionSummary (TransactionSummary_UserID old) (TransactionSummary_PeriodKey old)
              (TransactionSummary_Currency old) (TransactionSummary_Type old) total' count'
              (TransactionSummary_CreatedAt old) (ts_now ctx) (TransactionSummary_DeletedAt old))
    end in
  Ok (tt, set_transaction_summary (<[key := row]> (transaction_summary d)) d).

Definition summary_add (userID periodKey currency txnType : string) (amount : float64) (countDelta : Z) : M unit :=
  exec Pool (upsert_summary userID periodKey currency txnType amount countDelta).

Definition default_text (s d : string) : string := if String.eqb s "" then d else s.

Definition summary_Process (event : ChangeEventRow) : M unit :=
  if negb (String.eqb (EntityType event) "transaction") then ret tt
  else
    let! txn := lift (with_context "unmarshal transaction payload" (unmarshal_summary (Payload event))) in
    let periodKey := time.Format_year_month (tp_OccurredAt txn) in
    let currency := default_text (tp_Currency txn) "IDR" in
    let typ := default_text (tp_Type txn) "expense" in
    if String.eqb (OpType event) "create" then summary_add (tp_UserID txn) periodKey currency typ (tp_Amount txn) 1
    else if String.eqb (OpType event) "delete" then
      summary_add (tp_UserID txn) periodKey currency typ (f64_opp (tp_Amount txn)) (-1)
    else if String.eqb (OpType event) "update" then
      summary_add (tp_UserID txn) periodKey currency typ (tp_Amount txn) 1
    else ret tt.

Definition NewTransactionSummaryProjector : Processor := mkProcessor summary_Process.

(** ** [MonthlyBalanceProjector] *)

Record TransactionPayloadBalance := mkTransactionPayloadBalance {
  bp_UserID : string; bp_AccountID : string; bp_Amount : float64; bp_OccurredAt : Time }.

Definition unmarshal_balance (payload : option json) : outcome TransactionPayloadBalance :=
  try fields := json_members payload in
  try user := Json.string_field "UserID" fields in
  try account := Json.string_field "AccountID" fields in
  try amount := Json.float_field "Amount" fields in
  try occurred := time_field "OccurredAt" fields in
  Ok (mkTransactionPayloadBalance user account amount occurred).

Definition upsert_balance (userID accountID monthKey : string) (amount : float64) : stmt unit := λ ctx d,
  try n := numeric_param amount in
  try user := cast_uuid userID in
  try account := cast_uuid accountID in
  try balance := numeric_18_2 n in
  try _ := require (is_some (users d !! user)) "monthly_balance_user_id_fkey" in
  try _ := require (is_some (accounts d !! account)) "monthly_balance_account_id_fkey" in
  let key := (user, account, monthKey) in
  try row :=
    match monthly_balance d !! key with
    | None => Ok (mkMonthlyBalance (mkPgUUID user true) (mkPgUUID account true) monthKey balance
                    (ts_now ctx) (ts_now ctx) Timestamptz_zero)
    | Some old =>
        try balance' := numeric_18_2 (numeric_add (MonthlyBalance_Balance old) balance) in
        Ok (mkMonthlyBalance (MonthlyBalance_UserID old) (MonthlyBalance_AccountID old)
              (MonthlyBalance_MonthKey old) balance' (MonthlyBalance_CreatedAt old) (ts_now ctx)
              (MonthlyBalance_DeletedAt old))
    end in
  Ok (tt, set_monthly_balance (<[key := row]> (monthly_balance d)) d).

Definition balance_add (userID accountID monthKey : string) (amount : float64) : M unit :=
  exec Pool (upsert_balance userID accountID monthKey amount).

Definition balance_Process (event : ChangeEventRow) : M unit :=
  if negb (String.eqb (EntityType event) "transaction") then ret tt
  else
    let! txn := lift (with_context "unmarshal transaction payload" (unmarshal_balance (Payload event))) in
    let monthKey := time.Format_year_month (bp_OccurredAt txn) in
    if String.eqb (OpType event) "create" then balance_add (bp_UserID txn) (bp_AccountID txn) monthKey (bp_Amount txn)
    else if String.eqb (OpType event) "delete" then
      balance_add (bp_UserID txn) (bp_AccountID txn) monthKey (f64_opp (bp_Amount txn))
    else if String.eqb (OpType event) "update" then
      balance_add (bp_UserID txn) (bp_AccountID txn) monthKey (bp_Amount txn)
    else ret tt.

Definition NewMonthlyBalanceProjector : Processor := mkProcessor balance_Process.

End Projection.

End projection.
