(* ===== verification/ProjectionRunner.v ===== *)
(** * ProjectionRunner: the projection loop

    Models [internal/service/projection/runner.go].  Each round reads the
    cursor and the next batch of events, runs all processors on each event in
    order, and advances the cursor after a batch without failures.  The
    theorems are proved against an interface of additive processors
    ([Additive]) that both projectors implement. *)

From S2P Require Import Prelude GoInt GoStrings GoTime GoValues Json Pgtypex Schema Effects Models Queue Projection.
Import sqlcdb.

Module runner.
Import projection.

Record Runner := mkRunner {
  Name : string; Source : option ChangeEventSource; Cursor : option CursorStore;
  Processors : list Processor; BatchSize : Z; PollInterval : Z }.

Definition DefaultBatchSize : Z := 50.
Definition DefaultPollInterval : Z := 2 * Second.

Section Runner.
Context {E : Env}.

(** [for _, proc := range r.Processors]: false at the first failure. *)
Fixpoint run_processors (procs : list Processor) (ev : ChangeEventRow) : M bool :=
  match procs with
  | [] => ret true
  | p :: rest =>
      let! r := attempt (Process p ev) in
      match r with
      | Err _ => ret false
      | _ => run_processors rest ev
      end
  end.

(** The loop over a batch: whether all of it succeeded, and the largest id
    among the events that did. *)
Fixpoint run_batch (procs : list Processor) (evs : list ChangeEventRow) (maxID : Z) : M (bool * Z) :=
  match evs with
  | [] => ret (true, maxID)
  | ev :: rest =>
      let! ok := run_processors procs ev in
      if ok : bool then run_batch procs rest (if maxID <? ID ev then ID ev else maxID)
      else ret (false, maxID)
  end.

(** Wait for the poll interval, then go on unless cancelled. *)
Definition pause (pollInterval : Z) (k : M queue.Loop) : M queue.Loop :=
  let! cancelled := Wait pollInterval in
  if cancelled : bool then ret (queue.Returned (sentinel ErrCtxCanceled)) else k.

Section Rounds.
Variables (name : string) (source : ChangeEventSource) (cursor : CursorStore)
  (procs : list Processor) (batchSize pollInterval : Z).

(** The end of a round: a short batch waits before the next poll. *)
Definition finish (n : Z) : M queue.Loop :=
  if n <? batchSize then pause pollInterval (ret queue.Running) else ret queue.Running.

Definition process_events (events : list ChangeEventRow) : M queue.Loop :=
  let! res := run_batch procs events 0 in
  let '(ok, maxID) := res in
  let n := Z.of_nat (List.length events) in
  if ok && (0 <? maxID) then discard (Set_ cursor name maxID) ;;; finish n
  else if negb ok then pause pollInterval (finish n)
  else finish n.

Definition round : M queue.Loop :=
  let! cancelled := Done in
  if cancelled : bool then ret (queue.Returned (sentinel ErrCtxCanceled))
  else
    let! r := attempt (Get cursor name) in
    match r with
    | Ok lastID =>
        let! r := attempt (ListSince source lastID batchSize) in
        match r with
        | Ok [] => pause pollInterval (ret queue.Running)
        | Ok events => process_events events
        | _ => pause pollInterval (ret queue.Running)
        end
    | _ => pause pollInterval (ret queue.Running)
    end.

Fixpoint rounds (n : nat) : M queue.Loop :=
  match n with
  | O => ret queue.Running
  | S n' =>
      let! r := round in
      match r with queue.Running => rounds n' | queue.Returned e => ret (queue.Returned e) end
  end.

End Rounds.

(** [Start] for a number of rounds; [None] when the runner is not configured. *)
Definition Start (r : Runner) (n : nat) : M (option queue.Loop) :=
  match Source r, Cursor r, Processors r with
  | Some source, Some cursor, _ :: _ =>
      let batchSize := if BatchSize r <=? 0 then DefaultBatchSize else BatchSize r in
      let pollInterval := if PollInterval r <=? 0 then DefaultPollInterval else PollInterval r in
      let! l := rounds (Name r) source cursor (Processors r) batchSize pollInterval n in
      ret (Some l)
  | _, _, _ => ret None
  end.

End Runner.

(** The runner of the worker-service. *)
Definition worker_runner {E : Env} {UL : UuidLib} {PP : PgParams} : Runner :=
  mkRunner "default" (Some NewDBChangeEventSource) (Some NewDBCursorStore)
    [NewTransactionSummaryProjector; NewMonthlyBalanceProjector] 50 (2 * Second).

End runner.

Import projection runner.

(** ** The feed in id order *)

Definition by_id (e f : ChangeEvent) : Prop := ChangeEvent_ID e < ChangeEvent_ID f.

(** The table of events as inserts leave it: ids grow, from 1. *)
Definition feed_ok (d : DB) : Prop :=
  StronglySorted by_id (change_events d) ∧ Forall (λ e, 0 < ChangeEvent_ID e) (change_events d).

Lemma sorted_by_id_inj l e f :
  StronglySorted by_id l → e ∈ l → f ∈ l → ChangeEvent_ID e = ChangeEvent_ID f → e = f.
Proof.
  unfold by_id. intros Hs He Hf E. induction Hs as [|x l Hs IH Hx]; [by apply elem_of_nil in He|].
  rewrite Forall_forall in Hx.
  apply elem_of_cons in He as [->|He]; apply elem_of_cons in Hf as [->|Hf]; [done|..].
  - specialize (Hx _ Hf). lia.
  - specialize (Hx _ He). lia.
  - by apply IH.
Qed.

Lemma merge_sort_sorted l : StronglySorted by_id l → merge_sort id_le l = l.
Proof.
  intros Hs. apply (StronglySorted_unique_strong id_le).
  - intros e f He Hf H1 H2. rewrite (merge_sort_Permutation id_le l) in He.
    apply (sorted_by_id_inj l); [done..|]. unfold id_le in *. lia.
  - assert (Transitive id_le) by (intros x y z; unfold id_le; lia).
    assert (Total id_le) by (intros x y; unfold id_le; lia).
    by apply StronglySorted_merge_sort.
  - clear -Hs. induction Hs as [|x l Hs IH Hx]; constructor; [done|].
    eapply Forall_impl; [done|]. unfold by_id, id_le. simpl. intros. lia.
  - apply merge_sort_Permutation.
Qed.

(** The part of the feed up to a cursor, and the part after it. *)
Definition upto (c : Z) (l : list ChangeEvent) : list ChangeEvent := List.filter (λ e, ChangeEvent_ID e <=? c) l.
Definition after_ (c : Z) (l : list ChangeEvent) : list ChangeEvent := List.filter (λ e, c <? ChangeEvent_ID e) l.

Lemma upto_all c l : Forall (λ e, ChangeEvent_ID e <= c) l → upto c l = l ∧ after_ c l = [].
Proof.
  intros H. induction H as [|e l He _ [IH1 IH2]]; simpl; [done|].
  destruct (Z.leb_spec (ChangeEvent_ID e) c); [|lia]. destruct (Z.ltb_spec c (ChangeEvent_ID e)); [lia|].
  by rewrite IH1.
Qed.

Lemma upto_none c l : Forall (λ e, c < ChangeEvent_ID e) l → upto c l = [] ∧ after_ c l = l.
Proof.
  intros H. induction H as [|e l He _ [IH1 IH2]]; simpl; [done|].
  destruct (Z.leb_spec (ChangeEvent_ID e) c); [lia|]. destruct (Z.ltb_spec c (ChangeEvent_ID e)); [|lia].
  by rewrite IH2.
Qed.

Lemma upto_app c l1 l2 : upto c (l1 ++ l2) = upto c l1 ++ upto c l2.
Proof. apply List.filter_app. Qed.

Lemma feed_split c l : StronglySorted by_id l → l = upto c l ++ after_ c l.
Proof.
  intros Hs. induction Hs as [|e l Hs IH He]; [done|]. simpl.
  destruct (Z.leb_spec (ChangeEvent_ID e) c); destruct (Z.ltb_spec c (ChangeEvent_ID e)); try lia.
  - simpl. by f_equal.
  - destruct (upto_none c l) as [-> ->]; [|done].
    eapply Forall_impl; [done|]. unfold by_id. simpl. intros. lia.
Qed.

Lemma after_sorted c l : StronglySorted by_id l → StronglySorted by_id (after_ c l).
Proof. intros H. rewrite (feed_split c l H) in H. by apply StronglySorted_app_1_r in H. Qed.

Lemma select_since_spec c limit d :
  feed_ok d → select_since c limit d = take (Z.to_nat limit) (after_ c (change_events d)).
Proof. intros [Hs _]. unfold select_since. rewrite merge_sort_sorted; [done|by apply after_sorted]. Qed.

Lemma upto_elem c l e : e ∈ upto c l → ChangeEvent_ID e <= c ∧ e ∈ l.
Proof.
  unfold upto. rewrite !list_elem_of_In, filter_In. intros [? ?%Z.leb_le]. done.
Qed.

Lemma after_elem c l e : e ∈ after_ c l → c < ChangeEvent_ID e ∧ e ∈ l.
Proof.
  unfold after_. rewrite !list_elem_of_In, filter_In. intros [? ?%Z.ltb_lt]. done.
Qed.

(** Moving the cursor to the end of a batch adds exactly the batch. *)
Lemma upto_batch c n d pre e :
  feed_ok d → select_since c n d = pre ++ [e] →
  upto (ChangeEvent_ID e) (change_events d) = upto c (change_events d) ++ pre ++ [e].
Proof.
  intros Hd Hb. pose proof Hd as [Hs _]. rewrite select_since_spec in Hb by done.
  set (rest := after_ c (change_events d)) in *.
  assert (Hrest : StronglySorted by_id rest) by by apply after_sorted.
  assert (Hin : e ∈ rest).
  { rewrite <- (take_drop (Z.to_nat n) rest), Hb, !elem_of_app. left. right. by apply list_elem_of_singleton. }
  rewrite (feed_split c (change_events d) Hs) at 1. fold rest. rewrite upto_app.
  destruct (upto_all (ChangeEvent_ID e) (upto c (change_events d))) as [-> _].
  { apply Forall_forall. intros x [Hx _]%upto_elem. apply after_elem in Hin as [Hin _]. lia. }
  f_equal. rewrite <- (take_drop (Z.to_nat n) rest), Hb in Hrest |- *.
  apply StronglySorted_app in Hrest as (Hgt & Hpre & _). rewrite upto_app.
  destruct (upto_all (ChangeEvent_ID e) (pre ++ [e])) as [-> _].
  { apply Forall_app. split; [|by repeat constructor]. apply StronglySorted_app in Hpre as (Hlt & _ & _).
    apply Forall_forall. intros x Hx. specialize (Hlt x e Hx (list_elem_of_here _ _)). unfold by_id in Hlt. lia. }
  destruct (upto_none (ChangeEvent_ID e) (drop (Z.to_nat n) rest)) as [-> _]; [|by rewrite app_nil_r].
  apply Forall_forall. intros x Hx. apply (Hgt e x); [|done].
  apply elem_of_app. right. apply list_elem_of_here.
Qed.

(** ** Additive processors *)

(** Tables the runner reads itself. *)
Definition same_feed (d d' : DB) : Prop :=
  change_events d' = change_events d ∧ projection_cursors d' = projection_cursors d.

#[export] Instance same_feed_preorder : PreOrder same_feed.
Proof. split; [done|]. intros x y z [? ?] [? ?]. split; congruence. Qed.

(** A read model seen as counters: [view d k]; [inv] is what its table keeps
    true. *)
Record ReadModel (K : Type) := mkReadModel { view : DB → K → Z; inv : DB → Prop }.
Arguments view {K}.
Arguments inv {K}.

(** What a processor promises the runner when no call fails: an event that is
    processed adds its contribution to the counters, an event that is refused
    adds nothing, and the feed and the cursors are left alone. *)
Class Additive {E : Env} {K} (rm : ReadModel K) (p : Processor) (delta : ChangeEventRow → K → Z) : Prop :=
  additive ev w : inv rm (w_db w) →
    wp (Process p ev) (λ r w',
      same_feed (w_db w) (w_db w') ∧ inv rm (w_db w') ∧
      ∀ k, view rm (w_db w') k = view rm (w_db w) k + match r with Ok _ => delta ev k | _ => 0 end) w.

Section Rounds.
Context {E : Env} {UL : UuidLib} {PP : PgParams} {K : Type} (rm : ReadModel K).
Hypothesis no_faults : ∀ n, env_fault n = None.

(** The processors of a runner, with the contributions. *)
Variables (procs : list Processor) (deltas : list (ChangeEventRow → K → Z)).
Hypothesis procs_additive : Forall2 (Additive rm) procs deltas.

Definition total (ev : ChangeEventRow) (k : K) : Z := foldr Z.add 0 (map (λ f, f ev k) deltas).
Definition batch_total (evs : list ChangeEventRow) (k : K) : Z := foldr Z.add 0 (map (λ ev, total ev k) evs).

(** The counters hold exactly the events up to the cursor. *)
Definition cursor_of (name : string) (d : DB) : Z :=
  match projection_cursors d !! name with Some c => ProjectionCursor_LastEventID c | None => 0 end.
Definition counted_once (name : string) (d : DB) : Prop :=
  ∀ k, view rm d k = batch_total (map row_of (upto (cursor_of name d) (change_events d))) k.

Lemma wp_processors ps ds ev w :
  Forall2 (Additive rm) ps ds → inv rm (w_db w) →
  wp (run_processors ps ev) (λ r w', same_feed (w_db w) (w_db w') ∧ inv rm (w_db w') ∧
    (r = Ok true → ∀ k, view rm (w_db w') k = view rm (w_db w) k + foldr Z.add 0 (map (λ f, f ev k) ds))) w.
Proof.
  intros HF. revert w. induction HF as [|p f ps ds Hp HF IH]; intros w Hi; cbn [run_processors].
  - wp_step. split_and!; [done..|]. intros _ k. simpl. lia.
  - wp_step. wp_step. eapply wp_mono; [by apply Hp|]. intros r w1 (Hs1 & Hi1 & Hv1).
    destruct r as [[]|e|m].
    + eapply wp_mono; [by apply IH|]. intros r w2 (Hs2 & Hi2 & Hv2). split_and!; [by etrans|done|].
      intros Hr k. rewrite Hv2, Hv1 by done. simpl. lia.
    + wp_step. by split_and!.
    + by split_and!.
Qed.

Definition max_id (m : Z) (ev : ChangeEventRow) : Z := if m <? ID ev then ID ev else m.

Lemma wp_batch evs m w :
  inv rm (w_db w) →
  wp (run_batch procs evs m) (λ r w', same_feed (w_db w) (w_db w') ∧ inv rm (w_db w') ∧
    ∀ x, r = Ok (true, x) → x = foldl max_id m evs ∧
      ∀ k, view rm (w_db w') k = view rm (w_db w) k + batch_total evs k) w.
Proof.
  revert m w. induction evs as [|ev evs IH]; intros m w Hi; cbn [run_batch].
  - wp_step. split_and!; [done..|]. intros x [= <-]. split; [done|]. intros k. unfold batch_total. simpl. lia.
  - wp_step. eapply wp_mono; [by apply wp_processors|]. intros r w1 (Hs1 & Hi1 & Hv1).
    destruct r as [[]|e|s]; [|wp_step; by split_and!|by split_and!..].
    eapply wp_mono; [by apply IH|]. intros r w2 (Hs2 & Hi2 & Hv2). split_and!; [by etrans|done|].
    intros x [-> Hk]%Hv2. split; [done|]. intros k. rewrite Hk, Hv1 by done.
    unfold batch_total. simpl. unfold total at 2. lia.
Qed.

(** Statements on the pool without failures. *)
Lemma exec_pool_quiet {A} (s : stmt A) w :
  exec Pool s w = match s (ctx_at (w_tick w) None) (w_db w) with
                  | Ok (a, d') => (Ok a, set_db d' (tick w))
                  | Err e => (Err e, tick w)
                  | Panic m => (Panic m, tick w)
                  end.
Proof. unfold exec. rewrite no_faults. by destruct (s _ _) as [[]| |]. Qed.

Lemma cursor_Get_quiet name w : cursor_Get name w = (Ok (cursor_of name (w_db w)), tick w).
Proof.
  unfold cursor_Get. rewrite exec_pool_quiet. unfold select_cursor, read_stmt, cursor_of.
  by destruct (projection_cursors (w_db w) !! name).
Qed.

Lemma ListSince_quiet c n w : 0 < n →
  source_ListSince c n w = (Ok (map row_of (select_since c n (w_db w))), tick w).
Proof.
  intros Hn. unfold source_ListSince. destruct (Z.leb_spec n 0); [lia|].
  unfold bind. by rewrite exec_pool_quiet.
Qed.

Lemma wp_pause d (k : M queue.Loop) (Q : outcome queue.Loop → World → Prop) w :
  (∀ r w', w_db w' = w_db w → Q (Ok r) w') → (∀ w', w_db w' = w_db w → wp k Q w') → wp (pause d k) Q w.
Proof.
  intros HQ Hk. unfold pause, Wait. wp_step. wp_step. wp_step. wp_step. cbv beta iota.
  destruct (env_done _); [wp_step; by apply HQ|by apply Hk].
Qed.

Lemma wp_finish bs d n (Q : outcome queue.Loop → World → Prop) w :
  (∀ r w', w_db w' = w_db w → Q (Ok r) w') → wp (finish bs d n) Q w.
Proof.
  intros HQ. unfold finish. destruct (n <? bs); [|wp_step; by apply HQ].
  apply wp_pause; [done|]. intros w' Hw. wp_step. apply HQ. done.
Qed.

(** The counters do not depend on the cursors. *)
Hypothesis cursor_free : ∀ t d, inv rm d →
  inv rm (set_projection_cursors t d) ∧ ∀ k, view rm (set_projection_cursors t d) k = view rm d k.

(** What a round that moves the cursor did: the next batch, counted in full,
    with the cursor at its last event. *)
Definition round_post (name : string) (bs : Z) (d d' : DB) : Prop :=
  change_events d' = change_events d ∧ inv rm d' ∧
  (cursor_of name d' ≠ cursor_of name d →
     ∃ pre e, select_since (cursor_of name d) bs d = pre ++ [e] ∧ cursor_of name d' = ChangeEvent_ID e ∧
       ∀ k, view rm d' k = view rm d k + batch_total (map row_of (pre ++ [e])) k).

Lemma round_post_stays name bs d d' :
  inv rm d → same_feed d d' → inv rm d' → round_post name bs d d'.
Proof.
  intros _ [He Hc] Hi. split_and!; [done..|]. unfold cursor_of. rewrite Hc. done.
Qed.

(** The largest id of a sorted batch is the last one. *)
Lemma foldl_max_id_last evs e m :
  0 <= m → StronglySorted by_id (evs ++ [e]) → Forall (λ e, m < ChangeEvent_ID e) (evs ++ [e]) →
  foldl max_id m (map row_of (evs ++ [e])) = ChangeEvent_ID e.
Proof.
  revert m. induction evs as [|x evs IH]; intros m Hm Hs Hall; inversion Hall as [|? ? Hx Hrest]; subst; simpl.
  - unfold max_id. simpl. destruct (Z.ltb_spec m (ChangeEvent_ID e)); [done|lia].
  - inversion Hs as [|? ? Hs' Hlt]; subst. unfold max_id at 2. simpl.
    destruct (Z.ltb_spec m (ChangeEvent_ID x)); [|lia]. apply IH; [lia|done|done].
Qed.

Lemma select_since_sorted c n d :
  feed_ok d → StronglySorted by_id (select_since c n d) ∧ Forall (λ e, 0 < ChangeEvent_ID e) (select_since c n d).
Proof.
  intros Hd. rewrite select_since_spec by done. destruct Hd as [Hs Hpos]. split.
  - pose proof (after_sorted c _ Hs) as Ha. rewrite <- (take_drop (Z.to_nat n) (after_ c _)) in Ha.
    by apply StronglySorted_app_1_l in Ha.
  - apply Forall_take. apply Forall_forall. intros e [_ He]%after_elem. rewrite Forall_forall in Hpos. by apply Hpos.
Qed.

Lemma cursor_of_set name c ctx d :
  ∃ t, upsert_cursor name c ctx d = Ok (tt, set_projection_cursors t d) ∧
       cursor_of name (set_projection_cursors t d) = c.
Proof.
  unfold upsert_cursor. eexists. split; [done|]. unfold cursor_of. simpl. rewrite lookup_insert_eq.
  by destruct (projection_cursors d !! name).
Qed.

Lemma wp_process_events name bs poll w pre e :
  inv rm (w_db w) → feed_ok (w_db w) →
  select_since (cursor_of name (w_db w)) bs (w_db w) = pre ++ [e] →
  wp (process_events name NewDBCursorStore procs bs poll (map row_of (pre ++ [e])))
    (λ _ w', round_post name bs (w_db w) (w_db w')) w.
Proof.
  intros Hi Hfeed Hsel. unfold process_events. wp_step. eapply wp_mono; [by apply wp_batch|].
  intros r w1 (Hs1 & Hi1 & Hv1).
  destruct r as [[ok x]|er|s]; [|by apply round_post_stays..]. cbv beta iota zeta.
  destruct ok; cbn [andb negb].
  - destruct (Hv1 x eq_refl) as [Hx Hv]. clear Hv1.
    destruct (select_since_sorted (cursor_of name (w_db w)) bs (w_db w) Hfeed) as [Hsort Hpos].
    rewrite Hsel in Hsort, Hpos. rewrite foldl_max_id_last in Hx by done. subst x.
    assert (0 < ChangeEvent_ID e).
    { apply Forall_app in Hpos as [_ He]. by inversion He. }
    destruct (Z.ltb_spec 0 (ChangeEvent_ID e)); [|lia].
    wp_step. wp_step. unfold wp. simpl. unfold cursor_Set. rewrite exec_pool_quiet.
    destruct (cursor_of_set name (ChangeEvent_ID e) (ctx_at (w_tick w1) None) (w_db w1)) as (t & -> & Hc).
    apply wp_finish. intros r' w2 Hw2. rewrite Hw2. simpl.
    destruct (cursor_free t (w_db w1) Hi1) as [Hi2 Hv2]. destruct Hs1 as [He1 Hc1].
    split_and!; [done..|]. intros _. exists pre, e. split_and!; [done..|].
    intros k. by rewrite Hv2.
  - apply wp_pause.
    + intros r' w2 Hw2. rewrite Hw2. by apply round_post_stays.
    + intros w2 Hw2. apply wp_finish. intros r' w3 Hw3. rewrite Hw3, Hw2. by apply round_post_stays.
Qed.

Lemma wp_round name bs poll w :
  inv rm (w_db w) → feed_ok (w_db w) → 0 < bs →
  wp (round name NewDBChangeEventSource NewDBCursorStore procs bs poll)
    (λ _ w', round_post name bs (w_db w) (w_db w')) w.
Proof.
  intros Hi Hfeed Hbs. unfold round. wp_step. wp_step. cbv beta iota.
  destruct (env_done (w_tick w)); [wp_step; by apply round_post_stays|].
  wp_step. wp_step. unfold wp. simpl. rewrite cursor_Get_quiet. cbv beta iota.
  match goal with |- context [bind ?m ?k ?w1] => change (wp (bind m k) (λ _ w', round_post name bs (w_db w) (w_db w')) w1) end.
  wp_step. wp_step. unfold wp. rewrite ListSince_quiet by done. cbv beta iota.
  set (w2 := tick (tick (tick w))).
  change (wp match map row_of (select_since (cursor_of name (w_db w)) bs (w_db w)) with
             | [] => pause poll (ret queue.Running)
             | _ :: _ => process_events name NewDBCursorStore procs bs poll
                           (map row_of (select_since (cursor_of name (w_db w)) bs (w_db w)))
             end (λ _ w', round_post name bs (w_db w) (w_db w')) w2).
  assert (Hpause : wp (pause poll (ret queue.Running)) (λ _ w', round_post name bs (w_db w) (w_db w')) w2).
  { apply wp_pause; [|intros w3 Hw3; wp_step]; [intros r w3 Hw3|]; rewrite Hw3; by apply round_post_stays. }
  destruct (decide (select_since (cursor_of name (w_db w)) bs (w_db w) = [])) as [->|Hne]; [exact Hpause|].
  destruct (exists_last Hne) as (pre & e & Hsel). rewrite Hsel.
  pose proof (wp_process_events name bs poll w2 pre e Hi Hfeed Hsel) as Hp.
  destruct (map row_of (pre ++ [e])) as [|r rs] eqn:Er; [by destruct pre|exact Hp].
Qed.

(** A round that moves the cursor, or has nothing left to do. *)
Definition advancing (name : string) (bs poll : Z) (w w' : World) : Prop :=
  w' = snd (round name NewDBChangeEventSource NewDBCursorStore procs bs poll w) ∧
  (cursor_of name (w_db w') ≠ cursor_of name (w_db w) ∨ w_db w' = w_db w).

Lemma batch_total_app l1 l2 k : batch_total (l1 ++ l2) k = batch_total l1 k + batch_total l2 k.
Proof.
  unfold batch_total. induction l1 as [|x l1 IH]; simpl; [done|]. rewrite IH. lia.
Qed.

Lemma advancing_counted name bs poll w w' :
  0 < bs → inv rm (w_db w) → feed_ok (w_db w) → counted_once name (w_db w) → advancing name bs poll w w' →
  inv rm (w_db w') ∧ feed_ok (w_db w') ∧ counted_once name (w_db w').
Proof.
  intros Hbs Hi Hfeed Hc [-> Hadv].
  pose proof (wp_snd _ (λ w', round_post name bs (w_db w) (w_db w')) w (wp_round name bs poll w Hi Hfeed Hbs)) as Hr.
  simpl in Hr. destruct Hr as (He & Hi' & Hmove).
  split; [done|]. split; [by unfold feed_ok in *; rewrite He|].
  destruct Hadv as [Hne|Heq]; [|by rewrite Heq].
  destruct (Hmove Hne) as (pre & e & Hsel & Hcur & Hv). intros k.
  rewrite Hv, Hcur, He, (upto_batch _ _ _ _ _ Hfeed Hsel), (List.map_app row_of (upto _ _)), batch_total_app. f_equal. apply Hc.
Qed.

Lemma advancing_steps_counted name bs poll w w' :
  0 < bs → inv rm (w_db w) → feed_ok (w_db w) → counted_once name (w_db w) →
  rtc (advancing name bs poll) w w' → counted_once name (w_db w').
Proof using no_faults procs_additive cursor_free.
  intros Hbs Hi Hfeed Hc Hrtc. revert Hi Hfeed Hc.
  induction Hrtc as [|w w1 w2 Hstep _ IH]; [done|]. intros Hi Hfeed Hc.
  destruct (advancing_counted name bs poll w w1) as (? & ? & ?); auto.
Qed.

End Rounds.

(** ** An event that is always refused *)

(** Computations that leave the feed and the cursors alone, under every
    schedule of failures. *)
Definition keeps_feed {A} (m : M A) : Prop := ∀ w, wp m (λ _ w', same_feed (w_db w) (w_db w')) w.

Section Keeps.
Context {E : Env}.

Lemma keeps_feed_reads {A} (m : M A) : reads m → keeps_feed m.
Proof. intros Hm w. eapply wp_mono; [apply Hm|]. intros r w' (-> & _). done. Qed.

Lemma keeps_feed_bind {A B} (m : M A) (k : A → M B) :
  keeps_feed m → (∀ a, keeps_feed (k a)) → keeps_feed (bind m k).
Proof.
  intros Hm Hk w. wp_step. eapply wp_mono; [apply Hm|]. intros [a|e|msg] w1 H; [|done..].
  eapply wp_mono; [apply Hk|]. intros r w2 H2. by etrans.
Qed.

Lemma keeps_feed_attempt {A} (m : M A) : keeps_feed m → keeps_feed (attempt m).
Proof. intros Hm w. wp_step. eapply wp_mono; [apply Hm|]. by intros [] w1 H. Qed.

Lemma keeps_feed_exec {A} (s : stmt A) :
  (∀ ctx d a d', s ctx d = Ok (a, d') → same_feed d d') → keeps_feed (exec Pool s).
Proof.
  intros Hs w. apply wp_exec_pool; [|done].
  destruct (s _ (w_db w)) as [[a d']|e|m] eqn:Es; [|done..]. apply Hs in Es. by split.
Qed.

Lemma keeps_feed_pause d (k : M queue.Loop) : keeps_feed k → keeps_feed (pause d k).
Proof.
  intros Hk. unfold pause, Wait. apply keeps_feed_bind; [apply keeps_feed_bind|].
  - intros w. by apply wp_emit.
  - intros _ w. by apply wp_Done.
  - intros [|]; [apply keeps_feed_reads, reads_ret|done].
Qed.

End Keeps.

Section Blocked.
Context {E : Env} {UL : UuidLib} {PP : PgParams}.
Variable procs : list Processor.
Hypothesis procs_keep : ∀ p ev, p ∈ procs → keeps_feed (Process p ev).

(** Some processor answers the event with an error, whatever the state. *)
Definition refused (ev : ChangeEventRow) : Prop :=
  ∃ p, p ∈ procs ∧ ∀ w, wp (Process p ev) (λ r _, ∃ e, r = Err e) w.

Lemma keeps_feed_processors ev : keeps_feed (run_processors procs ev).
Proof.
  induction procs as [|p ps IH]; cbn [run_processors]; [apply keeps_feed_reads, reads_ret|].
  apply keeps_feed_bind; [apply keeps_feed_attempt, procs_keep; constructor|].
  intros [u|e|m]; [|apply keeps_feed_reads, reads_ret|]; apply IH; intros; apply procs_keep; by constructor.
Qed.

Lemma refused_processors ev w : refused ev → wp (run_processors procs ev) (λ r _, r ≠ Ok true) w.
Proof.
  clear procs_keep. intros (p & Hp & Herr). revert w. induction Hp as [|p q ps Hp IH]; intros w; cbn [run_processors]; wp_step; wp_step.
  - eapply wp_mono; [apply Herr|]. intros r w1 [e ->]. by wp_step.
  - destruct (Process q ev w) as [r w1] eqn:Eq. unfold wp at 1. rewrite Eq.
    destruct r as [u|e|m]; [by apply IH|by wp_step|done].
Qed.

Lemma keeps_feed_batch evs m : keeps_feed (run_batch procs evs m).
Proof.
  revert m. induction evs as [|ev evs IH]; intros m; cbn [run_batch]; [apply keeps_feed_reads, reads_ret|].
  apply keeps_feed_bind; [apply keeps_feed_processors|]. intros [|]; [apply IH|apply keeps_feed_reads, reads_ret].
Qed.

Lemma refused_batch evs ev m w :
  ev ∈ evs → refused ev → wp (run_batch procs evs m) (λ r _, ∀ x, r ≠ Ok (true, x)) w.
Proof.
  clear procs_keep. intros Hin Href. revert m w. induction Hin as [ev evs|ev x evs Hin IH]; intros m w; cbn [run_batch]; wp_step.
  - eapply wp_mono; [by apply refused_processors|]. intros [[|]|e|s] w1 H; [done|by wp_step|done..].
  - destruct (run_processors procs x w) as [r w1] eqn:Er. unfold wp at 1. rewrite Er.
    destruct r as [[|]|e|s]; [by apply IH|by wp_step|done..].
Qed.

(** What the reads of a round answer when they answer. *)
Lemma exec_read_inv {A} (f : DB → outcome A) w r w' :
  exec Pool (read_stmt f) w = (r, w') → w_db w' = w_db w ∧ (∀ a, r = Ok a → f (w_db w) = Ok a).
Proof.
  unfold exec, read_stmt. destruct (env_fault (w_tick w)) as [[m|m]|]; destruct (f (w_db w)) as [a|e|s]; intros H; simplify_eq;
    naive_solver.
Qed.

Lemma cursor_Get_inv name w r w' :
  cursor_Get name w = (r, w') → w_db w' = w_db w ∧ (∀ c, r = Ok c → c = cursor_of name (w_db w)).
Proof.
  unfold cursor_Get, exec, select_cursor, read_stmt, cursor_of.
  destruct (env_fault (w_tick w)) as [[m|m]|]; destruct (projection_cursors (w_db w) !! name); simpl; intros H;
    simplify_eq; naive_solver.
Qed.

Lemma ListSince_inv c n w r w' :
  0 < n → source_ListSince c n w = (r, w') →
  w_db w' = w_db w ∧ (∀ evs, r = Ok evs → evs = map row_of (select_since c n (w_db w))).
Proof.
  intros Hn. unfold source_ListSince. destruct (Z.leb_spec n 0); [lia|]. unfold bind, exec, listChangeEventsSinceSQL, read_stmt.
  destruct (env_fault (w_tick w)) as [[m|m]|]; simpl; intros [= <- <-]; (split; [done|]); intros evs Hevs; by simplify_eq.
Qed.

(** A round over a batch with such an event ends with the feed and the
    cursors as they were. *)
Lemma blocked_round name bs poll e w :
  0 < bs → e ∈ select_since (cursor_of name (w_db w)) bs (w_db w) → refused (row_of e) →
  wp (round name NewDBChangeEventSource NewDBCursorStore procs bs poll) (λ _ w', same_feed (w_db w) (w_db w')) w.
Proof.
  intros Hbs Hin Href. unfold round. wp_step. wp_step. destruct (env_done (w_tick w)); [by wp_step|].
  assert (Hpause : ∀ w', w_db w' = w_db w →
    wp (pause poll (ret queue.Running)) (λ _ w2, same_feed (w_db w) (w_db w2)) w').
  { intros w' <-. apply keeps_feed_pause, keeps_feed_reads, reads_ret. }
  wp_step. wp_step. simpl. destruct (cursor_Get name (tick w)) as [r w1] eqn:Eg.
  unfold wp at 1. rewrite Eg. apply cursor_Get_inv in Eg as [Hd1 Hc]. simpl in Hd1, Hc.
  destruct r as [c|er|s]; [|by apply Hpause|by rewrite Hd1]. specialize (Hc c eq_refl) as ->.
  wp_step. wp_step. destruct (source_ListSince (cursor_of name (w_db w)) bs w1) as [r w2] eqn:El.
  unfold wp at 1. rewrite El. apply ListSince_inv in El as [Hd2 Hl]; [|done]. rewrite Hd1 in Hd2, Hl.
  destruct r as [evs|er|s]; [|by apply Hpause|by rewrite Hd2]. specialize (Hl evs eq_refl) as ->.
  apply (list_elem_of_fmap_2 row_of) in Hin. change (row_of <$> select_since (cursor_of name (w_db w)) bs (w_db w))
    with (map row_of (select_since (cursor_of name (w_db w)) bs (w_db w))) in Hin.
  destruct (map row_of _) as [|ev evs] eqn:Em; [by apply elem_of_nil in Hin|]. rewrite <- Em in *.
  unfold process_events. wp_step.
  eapply wp_mono; [apply wp_and; [apply keeps_feed_batch|by apply (refused_batch _ (row_of e))]|].
  rewrite Hd2. intros r w3 [Hk Hr]. destruct r as [[[|] x]|er|s]; [by destruct (Hr x)| |done..]. cbn [andb negb].
  assert (Hend : keeps_feed (pause poll (finish bs poll (Z.of_nat (List.length (map row_of (select_since (cursor_of name (w_db w)) bs (w_db w)))))))).
  { apply keeps_feed_pause. unfold finish. destruct (_ <? bs); [apply keeps_feed_pause|]; apply keeps_feed_reads, reads_ret. }
  eapply wp_mono; [apply Hend|]. intros r w4 H4. by etrans.
Qed.

Lemma same_feed_next name bs d d' :
  same_feed d d' → cursor_of name d' = cursor_of name d ∧ select_since (cursor_of name d') bs d' = select_since (cursor_of name d) bs d.
Proof. intros [He Hc]. unfold cursor_of, select_since. by rewrite He, Hc. Qed.

Lemma blocked_rounds name bs poll e n w :
  0 < bs → e ∈ select_since (cursor_of name (w_db w)) bs (w_db w) → refused (row_of e) →
  wp (rounds name NewDBChangeEventSource NewDBCursorStore procs bs poll n) (λ _ w', same_feed (w_db w) (w_db w')) w.
Proof.
  intros Hbs. revert w. induction n as [|n IH]; intros w Hin Href; cbn [rounds]; [by wp_step|]. wp_step.
  eapply wp_mono; [by eapply blocked_round|]. intros r w1 H1. destruct r as [[|er]|er|s]; [|by wp_step|done..].
  destruct (same_feed_next name bs _ _ H1) as [_ Hsel].
  eapply wp_mono; [apply IH; [by rewrite Hsel|done]|]. intros r w2 H2. by etrans.
Qed.

End Blocked.
