(* ===== verification/ReadModels.v ===== *)
(** * ReadModels: what the projectors count

    The two projectors implement the [Additive] interface of the runner: the
    counters of [transaction_summary] and [monthly_balance] in cents, the
    contribution of each event, and, for the runner of the worker-service,
    exactly-once counting, with requests going on between its rounds.  A
    delete takes back what a create of the same payload added; an update adds
    it a second time. *)

From S2P Require Import Prelude GoInt GoStrings GoTime GoValues Json Pgtypex Schema Sqlc Effects Models Queue Outbox Projection ProjectionRunner.
Import sqlcdb projection runner.

(** ** Cents *)

Lemma round_half_away_opp n d : 0 < d → round_half_away (- n) d = - round_half_away n d.
Proof.
  intros Hd. unfold round_half_away.
  destruct (Z.leb_spec 0 n), (Z.leb_spec 0 (- n)); try lia.
  - assert (n = 0) as -> by lia. rewrite Z.opp_0, Z.mul_0_r, Z.add_0_l, (Z.div_small d) by lia. done.
  - by rewrite Z.opp_involutive.
Qed.

Lemma numeric_cents_opp i e : numeric_cents (- i) e = - numeric_cents i e.
Proof.
  unfold numeric_cents. destruct (0 <=? e + 2) eqn:E; [lia|]. bool_to_prop.
  apply round_half_away_opp, Z.pow_pos_nonneg; lia.
Qed.

(** A finite numeric is stored in cents, when it fits. *)
Lemma numeric_18_2_finite i e m :
  numeric_18_2 (mkNumeric (Some i) e false false true) = Ok m →
  m = cents (numeric_cents i e) ∧ Z.abs (numeric_cents i e) < 10 ^ 18.
Proof.
  unfold numeric_18_2. simpl. destruct (Z.ltb_spec (Z.abs (numeric_cents i e)) (10 ^ 18)); [|done].
  by intros [= <-].
Qed.

Lemma numeric_18_2_accepts i e :
  Z.abs (numeric_cents i e) < 10 ^ 18 →
  numeric_18_2 (mkNumeric (Some i) e false false true) = Ok (cents (numeric_cents i e)).
Proof. intros H%Z.ltb_lt. unfold numeric_18_2. simpl. by rewrite H. Qed.

Lemma bigint_accepts z : in_int64 z → bigint z = Ok z.
Proof. unfold bigint, in_int64. intros [->%Z.leb_le ->%Z.leb_le]. done. Qed.

Lemma numeric_cents_cents c : numeric_cents c (-2) = c.
Proof. unfold numeric_cents. simpl. apply Z.mul_1_r. Qed.

Lemma numeric_add_cents a b : numeric_add (cents a) (cents b) = cents (a + b).
Proof. unfold numeric_add, cents. simpl. by rewrite !Z.mul_1_r. Qed.

Section ReadModels.
Context {E : Env} {UL : UuidLib} {PP : PgParams} {PPL : PgParamsLaws UL PP}.

(** ** The counters *)

Inductive Counter :=
| Amount (user : UUID) (period currency type_ : string)
| Count (user : UUID) (period currency type_ : string)
| Balance (user account : UUID) (month : string).

#[export] Instance Counter_eq_dec : EqDecision Counter.
Proof. solve_decision. Defined.

Definition numeric_value (n : Numeric) : Z := default 0 (num_Int n).

Definition counters (d : DB) (k : Counter) : Z :=
  match k with
  | Amount u p c t => match transaction_summary d !! (u, p, c, t) with
                      | Some r => numeric_value (TransactionSummary_TotalAmount r) | None => 0 end
  | Count u p c t => match transaction_summary d !! (u, p, c, t) with
                     | Some r => TransactionSummary_Count r | None => 0 end
  | Balance u a m => match monthly_balance d !! (u, a, m) with
                     | Some r => numeric_value (MonthlyBalance_Balance r) | None => 0 end
  end.

(** Amounts are stored in cents. *)
Definition in_cents (d : DB) : Prop :=
  (∀ k r, transaction_summary d !! k = Some r → ∃ c, TransactionSummary_TotalAmount r = cents c) ∧
  (∀ k r, monthly_balance d !! k = Some r → ∃ c, MonthlyBalance_Balance r = cents c).

Definition read_models : ReadModel Counter := mkReadModel _ counters in_cents.

(** ** Contributions of an event *)

(** Cents of an amount as the column stores it. *)
Definition amount_cents (f : float64) : Z :=
  match numeric_param f with
  | Ok n => match num_Int n with Some i => numeric_cents i (num_Exp n) | None => 0 end
  | _ => 0
  end.

(** Sign of an operation: updates count like creates. *)
Definition op_sign (op : string) : Z :=
  if String.eqb op "create" then 1 else if String.eqb op "delete" then -1
  else if String.eqb op "update" then 1 else 0.

Definition counts (b : bool) (v : Z) : Z := if b then v else 0.

Definition summary_delta (ev : ChangeEventRow) (k : Counter) : Z :=
  if negb (String.eqb (EntityType ev) "transaction") then 0
  else
    match unmarshal_summary (Payload ev), k with
    | Ok t, Amount u p c ty =>
        counts (bool_decide (pg_uuid (tp_UserID t) = Some u ∧ p = time.Format_year_month (tp_OccurredAt t)
                  ∧ char3 (default_text (tp_Currency t) "IDR") = Ok c
                  ∧ ty = default_text (tp_Type t) "expense"))
          (op_sign (OpType ev) * amount_cents (tp_Amount t))
    | Ok t, Count u p c ty =>
        counts (bool_decide (pg_uuid (tp_UserID t) = Some u ∧ p = time.Format_year_month (tp_OccurredAt t)
                  ∧ char3 (default_text (tp_Currency t) "IDR") = Ok c
                  ∧ ty = default_text (tp_Type t) "expense"))
          (op_sign (OpType ev))
    | _, _ => 0
    end.

Definition balance_delta (ev : ChangeEventRow) (k : Counter) : Z :=
  if negb (String.eqb (EntityType ev) "transaction") then 0
  else
    match unmarshal_balance (Payload ev), k with
    | Ok t, Balance u a m =>
        counts (bool_decide (pg_uuid (bp_UserID t) = Some u ∧ pg_uuid (bp_AccountID t) = Some a
                  ∧ m = time.Format_year_month (bp_OccurredAt t)))
          (op_sign (OpType ev) * amount_cents (bp_Amount t))
    | _, _ => 0
    end.

(** ** The upserts *)

Lemma cast_uuid_Ok s u : cast_uuid s = Ok u → pg_uuid s = Some u.
Proof. unfold cast_uuid. destruct (pg_uuid s); [|done]. by intros [= ->]. Qed.

Lemma numeric_param_Ok f n : f64_finite f = true → numeric_param f = Ok n →
  ∃ i e, n = mkNumeric (Some i) e false false true ∧ amount_cents f = numeric_cents i e.
Proof.
  intros Hf Hn. destruct (numeric_param_finite f Hf) as (i & e & Hi & _). rewrite Hi in Hn. injection Hn as <-.
  exists i, e. split; [done|]. unfold amount_cents. by rewrite Hi.
Qed.

Lemma amount_cents_opp f : f64_finite f = true → amount_cents (f64_opp f) = - amount_cents f.
Proof.
  intros Hf. destruct (numeric_param_finite f Hf) as (i & e & Hi & Ho).
  unfold amount_cents. rewrite Hi, Ho. simpl. apply numeric_cents_opp.
Qed.

(** The counters of a summary upsert. *)
Lemma upsert_summary_Ok user period currency typ amount delta ctx d d' :
  f64_finite amount = true → in_cents d →
  upsert_summary user period currency typ amount delta ctx d = Ok (tt, d') →
  ∃ u c, pg_uuid user = Some u ∧ char3 currency = Ok c ∧ same_feed d d' ∧ in_cents d' ∧
    ∀ k, counters d' k = counters d k +
      (if decide (k = Amount u period c typ) then amount_cents amount
       else if decide (k = Count u period c typ) then delta else 0).
Proof.
  intros Hf [Hs Hb] H. unfold upsert_summary in H.
  apply obind_Ok_inv in H as (n & Hn & H). apply obind_Ok_inv in H as (u & Hu & H).
  apply obind_Ok_inv in H as (total & Ht & H). apply obind_Ok_inv in H as (c & Hc & H).
  apply obind_Ok_inv in H as (_ & _ & H). cbv zeta in H. apply obind_Ok_inv in H as (row & Hrow & H).
  injection H as <-.
  destruct (numeric_param_Ok _ _ Hf Hn) as (i & e & -> & Hi). apply numeric_18_2_finite in Ht as [-> _].
  apply cast_uuid_Ok in Hu. rewrite <- Hi in *.
  assert (Hval : ∃ old_c old_n, counters d (Amount u period c typ) = old_c ∧ counters d (Count u period c typ) = old_n ∧
    TransactionSummary_TotalAmount row = cents (old_c + amount_cents amount) ∧ TransactionSummary_Count row = old_n + delta).
  { cbn [counters]. destruct (transaction_summary d !! _) as [old|] eqn:Eo.
    - apply obind_Ok_inv in Hrow as (t' & Ht' & Hrow). apply obind_Ok_inv in Hrow as (n' & Hn' & Hrow).
      injection Hrow as <-. destruct (Hs _ _ Eo) as [oc Hoc]. rewrite Hoc, numeric_add_cents in Ht'.
      apply numeric_18_2_finite in Ht' as [-> _]. apply bigint_Ok in Hn' as [-> _].
      exists oc, (TransactionSummary_Count old). rewrite Hoc. simpl.
      unfold numeric_cents. simpl. rewrite Z.mul_1_r. done.
    - injection Hrow as <-. exists 0, 0. done. }
  destruct Hval as (oc & on & Hoc & Hon & Htot & Hcnt).
  exists u, c. split_and!; [done..| |].
  - split; [|exact Hb]. intros k r. simpl. rewrite lookup_insert_Some. intros [[_ <-]|[_ Hr]]; [eauto|by eapply Hs].
  - intros k. destruct (decide (k = Amount u period c typ)) as [->|Hne1].
    + rewrite Hoc. cbn [counters]. simpl. rewrite lookup_insert_eq, Htot. done.
    + destruct (decide (k = Count u period c typ)) as [->|Hne2].
      * rewrite Hon. cbn [counters]. simpl. by rewrite lookup_insert_eq, Hcnt.
      * rewrite Z.add_0_r. destruct k as [u' p' c' t'|u' p' c' t'|]; simpl; [|
          |done]; rewrite lookup_insert_ne; congruence.
Qed.

Lemma upsert_balance_Ok user account month amount ctx d d' :
  f64_finite amount = true → in_cents d →
  upsert_balance user account month amount ctx d = Ok (tt, d') →
  ∃ u a, pg_uuid user = Some u ∧ pg_uuid account = Some a ∧ same_feed d d' ∧ in_cents d' ∧
    ∀ k, counters d' k = counters d k + (if decide (k = Balance u a month) then amount_cents amount else 0).
Proof.
  intros Hf [Hs Hb] H. unfold upsert_balance in H.
  apply obind_Ok_inv in H as (n & Hn & H). apply obind_Ok_inv in H as (u & Hu & H).
  apply obind_Ok_inv in H as (a & Ha & H). apply obind_Ok_inv in H as (total & Ht & H).
  apply obind_Ok_inv in H as (_ & _ & H). apply obind_Ok_inv in H as (_ & _ & H).
  cbv zeta in H. apply obind_Ok_inv in H as (row & Hrow & H). injection H as <-.
  destruct (numeric_param_Ok _ _ Hf Hn) as (i & e & -> & Hi). apply numeric_18_2_finite in Ht as [-> _].
  apply cast_uuid_Ok in Hu, Ha. rewrite <- Hi in *.
  assert (Hval : ∃ oc, counters d (Balance u a month) = oc ∧
    MonthlyBalance_Balance row = cents (oc + amount_cents amount)).
  { cbn [counters]. destruct (monthly_balance d !! _) as [old|] eqn:Eo.
    - apply obind_Ok_inv in Hrow as (t' & Ht' & Hrow). injection Hrow as <-.
      destruct (Hb _ _ Eo) as [oc Hoc]. rewrite Hoc, numeric_add_cents in Ht'.
      apply numeric_18_2_finite in Ht' as [-> _]. exists oc. rewrite Hoc. simpl.
      unfold numeric_cents. simpl. by rewrite Z.mul_1_r.
    - injection Hrow as <-. by exists 0. }
  destruct Hval as (oc & Hoc & Htot). exists u, a. split_and!; [done..| |].
  - split; [exact Hs|]. intros k r. simpl. rewrite lookup_insert_Some. intros [[_ <-]|[_ Hr]]; [eauto|by eapply Hb].
  - intros k. destruct (decide (k = Balance u a month)) as [->|Hne].
    + rewrite Hoc. cbn [counters]. simpl. by rewrite lookup_insert_eq, Htot.
    + rewrite Z.add_0_r. destruct k; simpl; [done..|]. rewrite lookup_insert_ne; congruence.
Qed.

(** ** The projectors are additive *)

Lemma unmarshal_summary_finite p t : unmarshal_summary p = Ok t → f64_finite (tp_Amount t) = true.
Proof.
  unfold unmarshal_summary. intros H. inv_try H. injection H as <-. simpl. by eapply float_field_finite.
Qed.

Lemma unmarshal_balance_finite p t : unmarshal_balance p = Ok t → f64_finite (bp_Amount t) = true.
Proof.
  unfold unmarshal_balance. intros H. inv_try H. injection H as <-. simpl. by eapply float_field_finite.
Qed.

Lemma f64_finite_opp f : f64_finite (f64_opp f) = f64_finite f.
Proof. by destruct f. Qed.

Lemma summary_delta_key ev t u c k :
  EntityType ev = "transaction"%string → unmarshal_summary (Payload ev) = Ok t →
  pg_uuid (tp_UserID t) = Some u → char3 (default_text (tp_Currency t) "IDR") = Ok c →
  summary_delta ev k =
    let p := time.Format_year_month (tp_OccurredAt t) in
    let ty := default_text (tp_Type t) "expense" in
    if decide (k = Amount u p c ty) then op_sign (OpType ev) * amount_cents (tp_Amount t)
    else if decide (k = Count u p c ty) then op_sign (OpType ev) else 0.
Proof.
  intros He Ht Hu Hc. unfold summary_delta. rewrite He, Ht, Hu, Hc. simpl. unfold counts.
  destruct k as [u' p' c' ty'|u' p' c' ty'|]; repeat case_bool_decide; repeat case_decide; try done;
    destruct_and?; simplify_eq; by exfalso; auto.
Qed.

Lemma balance_delta_key ev t u a k :
  EntityType ev = "transaction"%string → unmarshal_balance (Payload ev) = Ok t →
  pg_uuid (bp_UserID t) = Some u → pg_uuid (bp_AccountID t) = Some a →
  balance_delta ev k =
    if decide (k = Balance u a (time.Format_year_month (bp_OccurredAt t)))
    then op_sign (OpType ev) * amount_cents (bp_Amount t) else 0.
Proof.
  intros He Ht Hu Ha. unfold balance_delta. rewrite He, Ht, Hu, Ha. simpl. unfold counts.
  destruct k; repeat case_bool_decide; repeat case_decide; try done;
    destruct_and?; simplify_eq; by exfalso; auto.
Qed.

Lemma summary_delta_zero ev k : op_sign (OpType ev) = 0 → summary_delta ev k = 0.
Proof.
  intros H. unfold summary_delta, counts. rewrite H. repeat case_match; done || lia.
Qed.

Lemma balance_delta_zero ev k : op_sign (OpType ev) = 0 → balance_delta ev k = 0.
Proof.
  intros H. unfold balance_delta, counts. rewrite H. repeat case_match; done || lia.
Qed.

Section NoFaults.
Hypothesis no_faults : ∀ n, env_fault n = None.

(** A statement on the pool: its change when it succeeds, nothing otherwise. *)
Lemma wp_exec_quiet {A} (s : stmt A) (Q : outcome A → World → Prop) w :
  (∀ a d' ctx, s ctx (w_db w) = Ok (a, d') → Q (Ok a) (set_db d' (tick w))) →
  (∀ r, is_ok r = false → Q r (tick w)) → wp (exec Pool s) Q w.
Proof.
  intros HOk Hno. unfold wp. rewrite exec_pool_quiet by done.
  destruct (s _ _) as [[a d']|e|m] eqn:Es; [by eapply HOk|by apply Hno..].
Qed.

(** What a projector leaves of a processed event: the feed and the cursors,
    and counters changed by [change] when it succeeds, by nothing otherwise. *)
Definition processed (change : DB → DB → Prop) (w : World) (r : outcome unit) (w' : World) : Prop :=
  same_feed (w_db w) (w_db w') ∧ in_cents (w_db w') ∧
  match r with Ok _ => change (w_db w) (w_db w') | _ => w_db w' = w_db w end.

Lemma processed_untouched (change : DB → DB → Prop) r w w' :
  in_cents (w_db w) → w_db w' = w_db w → (is_ok r = true → change (w_db w) (w_db w)) → processed change w r w'.
Proof. intros Hi Hw Hc. unfold processed. rewrite Hw. split; [done|]. split; [done|]. destruct r; auto. Qed.

(** The end of a projector: one upsert. *)
Lemma wp_upsert (s : stmt unit) (change : DB → DB → Prop) w :
  in_cents (w_db w) →
  (∀ ctx d', s ctx (w_db w) = Ok (tt, d') → same_feed (w_db w) d' ∧ in_cents d' ∧ change (w_db w) d') →
  wp (exec Pool s) (processed change w) w.
Proof.
  intros Hi Hs. apply wp_exec_quiet.
  - intros [] d' ctx H. by apply Hs in H.
  - intros r Hr. by apply processed_untouched; [|done|rewrite Hr].
Qed.

(** What [n] more transactions like the payload make of the counters of its
    user, month, currency and type. *)
Definition summary_change (t : TransactionPayload) (n : Z) (d d' : DB) : Prop :=
  ∃ u c,
    pg_uuid (tp_UserID t) = Some u ∧
    char3 (if String.eqb (tp_Currency t) "" then "IDR" else tp_Currency t) = Ok c ∧
    let p := time.Format_year_month (tp_OccurredAt t) in
    let ty := if String.eqb (tp_Type t) "" then "expense"%string else tp_Type t in
    counters d' (Amount u p c ty) = counters d (Amount u p c ty) + n * amount_cents (tp_Amount t) ∧
    counters d' (Count u p c ty) = counters d (Count u p c ty) + n ∧
    ∀ k, k ≠ Amount u p c ty → k ≠ Count u p c ty → counters d' k = counters d k.

(** The same for the balance of its account and month. *)
Definition balance_change (t : TransactionPayloadBalance) (n : Z) (d d' : DB) : Prop :=
  ∃ u a,
    pg_uuid (bp_UserID t) = Some u ∧ pg_uuid (bp_AccountID t) = Some a ∧
    let m := time.Format_year_month (bp_OccurredAt t) in
    counters d' (Balance u a m) = counters d (Balance u a m) + n * amount_cents (bp_Amount t) ∧
    ∀ k, k ≠ Balance u a m → counters d' k = counters d k.

(** What the columns can hold of it: the rows referred to exist, and the
    amount and the new values are in range. *)
Definition summary_fits (t : TransactionPayload) (n : Z) (d : DB) : Prop :=
  ∃ u c,
    pg_uuid (tp_UserID t) = Some u ∧ is_some (users d !! u) = true ∧
    char3 (if String.eqb (tp_Currency t) "" then "IDR" else tp_Currency t) = Ok c ∧
    let p := time.Format_year_month (tp_OccurredAt t) in
    let ty := if String.eqb (tp_Type t) "" then "expense"%string else tp_Type t in
    Z.abs (n * amount_cents (tp_Amount t)) < 10 ^ 18 ∧
    Z.abs (counters d (Amount u p c ty) + n * amount_cents (tp_Amount t)) < 10 ^ 18 ∧
    in_int64 (counters d (Count u p c ty) + n).

Definition balance_fits (t : TransactionPayloadBalance) (n : Z) (d : DB) : Prop :=
  ∃ u a,
    pg_uuid (bp_UserID t) = Some u ∧ pg_uuid (bp_AccountID t) = Some a ∧
    is_some (users d !! u) = true ∧ is_some (accounts d !! a) = true ∧
    let m := time.Format_year_month (bp_OccurredAt t) in
    Z.abs (n * amount_cents (bp_Amount t)) < 10 ^ 18 ∧
    Z.abs (counters d (Balance u a m) + n * amount_cents (bp_Amount t)) < 10 ^ 18.

Lemma upsert_summary_accepts user u period currency c typ f v delta ctx d :
  f64_finite f = true → in_cents d →
  pg_uuid user = Some u → is_some (users d !! u) = true → char3 currency = Ok c →
  amount_cents f = v → Z.abs v < 10 ^ 18 → Z.abs (counters d (Amount u period c typ) + v) < 10 ^ 18 →
  in_int64 (counters d (Count u period c typ) + delta) →
  is_ok (upsert_summary user period currency typ f delta ctx d) = true.
Proof.
  intros Hf [Hs _] Hu Hx Hc <- Ha Hsum Hcnt. destruct (numeric_param_finite f Hf) as (i & e & Hi & _).
  assert (Hcents : amount_cents f = numeric_cents i e) by (unfold amount_cents; by rewrite Hi).
  unfold upsert_summary, cast_uuid. rewrite Hi, Hu. cbn [obind].
  rewrite numeric_18_2_accepts by (by rewrite <- Hcents). rewrite Hc, Hx. cbn [obind require].
  cbn [counters] in Hsum, Hcnt. destruct (transaction_summary d !! _) as [old|] eqn:Eo; [|done].
  destruct (Hs _ _ Eo) as [oc Hoc]. rewrite Hoc in Hsum |- *. cbn [numeric_value cents num_Int default] in Hsum.
  rewrite <- Hcents, numeric_add_cents. unfold cents at 1.
  rewrite numeric_18_2_accepts by (by rewrite numeric_cents_cents). cbn [obind]. by rewrite bigint_accepts.
Qed.

Lemma upsert_balance_accepts user u account a month f v ctx d :
  f64_finite f = true → in_cents d →
  pg_uuid user = Some u → pg_uuid account = Some a → is_some (users d !! u) = true → is_some (accounts d !! a) = true →
  amount_cents f = v → Z.abs v < 10 ^ 18 → Z.abs (counters d (Balance u a month) + v) < 10 ^ 18 →
  is_ok (upsert_balance user account month f ctx d) = true.
Proof.
  intros Hf [_ Hb] Hu Hc Hx Hy <- Ha Hsum. destruct (numeric_param_finite f Hf) as (i & e & Hi & _).
  assert (Hcents : amount_cents f = numeric_cents i e) by (unfold amount_cents; by rewrite Hi).
  unfold upsert_balance, cast_uuid. rewrite Hi, Hu, Hc. cbn [obind].
  rewrite numeric_18_2_accepts by (by rewrite <- Hcents). cbn [obind]. rewrite Hx, Hy. cbn [obind require].
  cbn [counters] in Hsum. destruct (monthly_balance d !! _) as [old|] eqn:Eo; [|done].
  destruct (Hb _ _ Eo) as [oc Hoc]. rewrite Hoc in Hsum |- *. cbn [numeric_value cents num_Int default] in Hsum.
  rewrite <- Hcents, numeric_add_cents. unfold cents at 1.
  by rewrite numeric_18_2_accepts by (by rewrite numeric_cents_cents).
Qed.

Lemma wp_exec_accepts {A} (s : stmt A) w :
  (∀ ctx, is_ok (s ctx (w_db w)) = true) → wp (exec Pool s) (λ r _, is_ok r = true) w.
Proof using no_faults.
  intros H. unfold wp. rewrite exec_pool_quiet by done.
  match goal with |- context [s ?c _] => specialize (H c) end. by destruct (s _ _) as [[]|e|m].
Qed.

Lemma wp_summary_add t f n w :
  in_cents (w_db w) → f64_finite f = true → amount_cents f = n * amount_cents (tp_Amount t) →
  wp (summary_add (tp_UserID t) (time.Format_year_month (tp_OccurredAt t)) (default_text (tp_Currency t) "IDR")
        (default_text (tp_Type t) "expense") f n) (processed (summary_change t n) w) w.
Proof using no_faults PPL.
  intros Hi Hf Hn. apply wp_upsert; [done|]. intros ctx d' H.
  apply upsert_summary_Ok in H as (u & c & Hu & Hc & Hs & Hd' & Hk); [|done..].
  split_and!; [done..|]. exists u, c. rewrite Hn in Hk. unfold default_text in Hk, Hc. cbv zeta.
  split_and!; [done..| | |].
  - rewrite Hk. by rewrite decide_True.
  - rewrite Hk. by rewrite decide_False, decide_True.
  - intros k H1 H2. rewrite Hk. rewrite !decide_False by done. lia.
Qed.

Lemma wp_balance_add t f n w :
  in_cents (w_db w) → f64_finite f = true → amount_cents f = n * amount_cents (bp_Amount t) →
  wp (balance_add (bp_UserID t) (bp_AccountID t) (time.Format_year_month (bp_OccurredAt t)) f)
    (processed (balance_change t n) w) w.
Proof using no_faults PPL.
  intros Hi Hf Hn. apply wp_upsert; [done|]. intros ctx d' H.
  apply upsert_balance_Ok in H as (u & a & Hu & Ha & Hs & Hd' & Hk); [|done..].
  split_and!; [done..|]. exists u, a. rewrite Hn in Hk. cbv zeta. split_and!; [done..| |].
  - rewrite Hk. by rewrite decide_True.
  - intros k H1. rewrite Hk. rewrite decide_False by done. lia.
Qed.

(** The operations, with what they add. *)
Definition operations : list (string * Z) := [("create", 1); ("update", 1); ("delete", -1)]%string.

Lemma operations_cases op n :
  (op, n) ∈ operations → (op = "create" ∧ n = 1 ∨ op = "update" ∧ n = 1 ∨ op = "delete" ∧ n = -1)%string.
Proof. unfold operations. set_solver. Qed.

Lemma wp_summary_op ev t n w :
  EntityType ev = "transaction"%string → unmarshal_summary (Payload ev) = Ok t → (OpType ev, n) ∈ operations →
  in_cents (w_db w) → wp (summary_Process ev) (processed (summary_change t n) w) w.
Proof using no_faults PPL.
  intros He Ht Hop Hi. pose proof (unmarshal_summary_finite _ _ Ht) as Hf. unfold summary_Process. rewrite He, Ht.
  change (negb (String.eqb "transaction" "transaction")) with false. cbn iota. wp_step. wp_step. cbn [with_context].
  apply operations_cases in Hop as [[-> ->]|[[-> ->]|[-> ->]]]; apply wp_summary_add; try done;
    rewrite ?f64_finite_opp, ?amount_cents_opp by done; done || lia.
Qed.

Lemma wp_balance_op ev t n w :
  EntityType ev = "transaction"%string → unmarshal_balance (Payload ev) = Ok t → (OpType ev, n) ∈ operations →
  in_cents (w_db w) → wp (balance_Process ev) (processed (balance_change t n) w) w.
Proof using no_faults PPL.
  intros He Ht Hop Hi. pose proof (unmarshal_balance_finite _ _ Ht) as Hf. unfold balance_Process. rewrite He, Ht.
  change (negb (String.eqb "transaction" "transaction")) with false. cbn iota. wp_step. wp_step. cbn [with_context].
  apply operations_cases in Hop as [[-> ->]|[[-> ->]|[-> ->]]]; apply wp_balance_add; try done;
    rewrite ?f64_finite_opp, ?amount_cents_opp by done; done || lia.
Qed.

Lemma wp_summary_accepts ev t n w :
  EntityType ev = "transaction"%string → unmarshal_summary (Payload ev) = Ok t → (OpType ev, n) ∈ operations →
  in_cents (w_db w) → summary_fits t n (w_db w) → wp (summary_Process ev) (λ r _, is_ok r = true) w.
Proof using no_faults PPL.
  intros He Ht Hop Hi (u & c & Hu & Hx & Hc & Ha & Hs & Hn). pose proof (unmarshal_summary_finite _ _ Ht) as Hf.
  unfold summary_Process. rewrite He, Ht.
  change (negb (String.eqb "transaction" "transaction")) with false. cbn iota. wp_step. wp_step. cbn [with_context].
  remember (n * amount_cents (tp_Amount t)) as v eqn:Hv.
  apply operations_cases in Hop as [[-> ->]|[[-> ->]|[-> ->]]]; cbn [String.eqb Ascii.eqb Bool.eqb];
    apply wp_exec_accepts; intros ctx; eapply upsert_summary_accepts with (v := v); try done;
    rewrite ?f64_finite_opp, ?amount_cents_opp by done; done || lia.
Qed.

Lemma wp_balance_accepts ev t n w :
  EntityType ev = "transaction"%string → unmarshal_balance (Payload ev) = Ok t → (OpType ev, n) ∈ operations →
  in_cents (w_db w) → balance_fits t n (w_db w) → wp (balance_Process ev) (λ r _, is_ok r = true) w.
Proof using no_faults PPL.
  intros He Ht Hop Hi (u & a & Hu & Hc & Hx & Hy & Ha & Hs). pose proof (unmarshal_balance_finite _ _ Ht) as Hf.
  unfold balance_Process. rewrite He, Ht.
  change (negb (String.eqb "transaction" "transaction")) with false. cbn iota. wp_step. wp_step. cbn [with_context].
  remember (n * amount_cents (bp_Amount t)) as v eqn:Hv.
  apply operations_cases in Hop as [[-> ->]|[[-> ->]|[-> ->]]]; cbn [String.eqb Ascii.eqb Bool.eqb];
    apply wp_exec_accepts; intros ctx; eapply upsert_balance_accepts with (v := v); try done;
    rewrite ?f64_finite_opp, ?amount_cents_opp by done; done || lia.
Qed.

(** The contribution of an event, in the terms of the runner's interface. *)
Lemma op_sign_operations op : op_sign op = 0 ∧ String.eqb op "create" = false ∧ String.eqb op "delete" = false
  ∧ String.eqb op "update" = false ∨ (op, op_sign op) ∈ operations.
Proof.
  unfold op_sign, operations. destruct (String.eqb_spec op "create") as [->|]; [right; set_solver|].
  destruct (String.eqb_spec op "delete") as [->|]; [right; set_solver|].
  destruct (String.eqb_spec op "update") as [->|]; [right; set_solver|by left].
Qed.

Lemma processed_additive (change : DB → DB → Prop) (delta : Counter → Z) w r w' :
  (∀ d', change (w_db w) d' → ∀ k, counters d' k = counters (w_db w) k + delta k) →
  processed change w r w' →
  same_feed (w_db w) (w_db w') ∧ in_cents (w_db w') ∧
  ∀ k, counters (w_db w') k = counters (w_db w) k + match r with Ok _ => delta k | _ => 0 end.
Proof.
  intros Hc (H1 & H2 & H3). split_and!; [done..|]. destruct r; [by apply Hc|..]; intros k; rewrite H3; lia.
Qed.

Lemma summary_change_delta ev t d d' k :
  EntityType ev = "transaction"%string → unmarshal_summary (Payload ev) = Ok t →
  summary_change t (op_sign (OpType ev)) d d' → counters d' k = counters d k + summary_delta ev k.
Proof.
  intros He Ht (u & c & Hu & Hc & H1 & H2 & H3). rewrite (summary_delta_key ev t u c k) by done. simpl.
  destruct (decide (k = _)) as [->|Hk1]; [exact H1|]. destruct (decide (k = _)) as [->|Hk2]; [exact H2|].
  rewrite Z.add_0_r. by apply H3.
Qed.

Lemma balance_change_delta ev t d d' k :
  EntityType ev = "transaction"%string → unmarshal_balance (Payload ev) = Ok t →
  balance_change t (op_sign (OpType ev)) d d' → counters d' k = counters d k + balance_delta ev k.
Proof.
  intros He Ht (u & a & Hu & Ha & H1 & H2). rewrite (balance_delta_key ev t u a k) by done.
  destruct (decide (k = _)) as [->|Hk1]; [exact H1|]. rewrite Z.add_0_r. by apply H2.
Qed.

(** No change. *)
Lemma processed_nothing (delta : Counter → Z) (r : outcome unit) w w' :
  in_cents (w_db w) → w_db w' = w_db w → (is_ok r = true → ∀ k, delta k = 0) →
  same_feed (w_db w) (w_db w') ∧ in_cents (w_db w') ∧
  ∀ k, counters (w_db w') k = counters (w_db w) k + match r with Ok _ => delta k | _ => 0 end.
Proof.
  intros Hi -> Hd. split_and!; [done..|]. intros k. destruct r; [rewrite Hd by done|..]; lia.
Qed.

Lemma summary_additive : Additive read_models NewTransactionSummaryProjector summary_delta.
Proof using no_faults PPL.
  intros ev w Hi. cbn [Process NewTransactionSummaryProjector inv view read_models] in Hi |- *.
  destruct (String.eqb_spec (EntityType ev) "transaction") as [He|He].
  2: { apply String.eqb_neq in He. unfold summary_Process. rewrite He. cbn [negb]. wp_step. apply (processed_nothing (summary_delta ev) (Ok tt)); [done..|].
       intros _ k. unfold summary_delta. by rewrite He. }
  destruct (unmarshal_summary (Payload ev)) as [t|e|m] eqn:Et.
  2,3: by unfold summary_Process; rewrite He, Et; change (negb (String.eqb "transaction" "transaction")) with false; cbn iota; wp_step; wp_step; (split_and!; [done..|intros k; lia]).
  destruct (op_sign_operations (OpType ev)) as [(H0 & H1 & H2 & H3)|Hop].
  - unfold summary_Process. rewrite He, Et. change (negb (String.eqb "transaction" "transaction")) with false. cbn iota. wp_step. wp_step. cbn [with_context]. rewrite H1, H2, H3. wp_step.
    apply (processed_nothing (summary_delta ev) (Ok tt)); [done..|]. intros _ k. by apply summary_delta_zero.
  - eapply wp_mono; [by apply wp_summary_op|]. intros r w'. apply processed_additive.
    intros d' Hd' k. by eapply summary_change_delta.
Qed.

Lemma balance_additive : Additive read_models NewMonthlyBalanceProjector balance_delta.
Proof using no_faults PPL.
  intros ev w Hi. cbn [Process NewMonthlyBalanceProjector inv view read_models] in Hi |- *.
  destruct (String.eqb_spec (EntityType ev) "transaction") as [He|He].
  2: { apply String.eqb_neq in He. unfold balance_Process. rewrite He. cbn [negb]. wp_step. apply (processed_nothing (balance_delta ev) (Ok tt)); [done..|].
       intros _ k. unfold balance_delta. by rewrite He. }
  destruct (unmarshal_balance (Payload ev)) as [t|e|m] eqn:Et.
  2,3: by unfold balance_Process; rewrite He, Et; change (negb (String.eqb "transaction" "transaction")) with false; cbn iota; wp_step; wp_step; (split_and!; [done..|intros k; lia]).
  destruct (op_sign_operations (OpType ev)) as [(H0 & H1 & H2 & H3)|Hop].
  - unfold balance_Process. rewrite He, Et. change (negb (String.eqb "transaction" "transaction")) with false. cbn iota. wp_step. wp_step. cbn [with_context]. rewrite H1, H2, H3. wp_step.
    apply (processed_nothing (balance_delta ev) (Ok tt)); [done..|]. intros _ k. by apply balance_delta_zero.
  - eapply wp_mono; [by apply wp_balance_op|]. intros r w'. apply processed_additive.
    intros d' Hd' k. by eapply balance_change_delta.
Qed.

(** ** Properties *)

Definition worker_deltas : list (ChangeEventRow → Counter → Z) := [summary_delta; balance_delta].
Definition worker_procs : list Processor := [NewTransactionSummaryProjector; NewMonthlyBalanceProjector].

Lemma worker_additive : Forall2 (Additive read_models) worker_procs worker_deltas.
Proof using no_faults PPL. repeat constructor; [apply summary_additive|apply balance_additive]. Qed.

End NoFaults.

(** *** Requests between the rounds *)

Section Writers.
Context {ULaws : UuidLaws UL} {PL : PgtypeLib} {PS : queries.PgServer}.

(** What a request may do to the tables the rounds use: append events. *)
Definition appended (d d' : DB) : Prop :=
  (∃ es, change_events d' = change_events d ++ es) ∧ projection_cursors d' = projection_cursors d ∧
  transaction_summary d' = transaction_summary d ∧ monthly_balance d' = monthly_balance d.

Lemma ledger_step_appended redis w w' : ledger_step redis w w' → appended (w_db w) (w_db w').
Proof.
  apply (ledger_step_keeps redis (appended (w_db w))).
  - by intros t d H.
  - intros e d ([es He] & H). split; [|exact H]. exists (es ++ [e]). cbn. by rewrite He, app_assoc.
  - split_and!; [|done..]. exists []. by rewrite app_nil_r.
Qed.

(** The cursor is where it starts, or at an event of the feed. *)
Definition cursor_seen (name : string) (d : DB) : Prop :=
  cursor_of name d = 0 ∨ ∃ e, e ∈ change_events d ∧ ChangeEvent_ID e = cursor_of name d.

(** One step of the running system: a round of the worker-service that moves
    the cursor or finds nothing to do, or one step of a request, whose event
    becomes visible after those with smaller ids. *)
Inductive system_step (redis : bool) (w w' : World) : Prop :=
| system_round : advancing worker_procs "default" 50 (2 * Second) w w' → system_step redis w w'
| system_request : ledger_step redis w w' → feed_ok (w_db w') → system_step redis w w'.

(** What is true between the steps. *)
Definition counting (d : DB) : Prop :=
  in_cents d ∧ feed_ok d ∧ cursor_seen "default" d ∧ counted_once read_models worker_deltas "default" d.

Lemma appended_counting d d' : counting d → appended d d' → feed_ok d' → counting d'.
Proof.
  intros ([Hs Hb] & [_ Hpos] & Hseen & Hcount) ([es He] & Hcur & Hsum & Hbal) Hfeed.
  assert (Hc : cursor_of "default" d' = cursor_of "default" d) by (unfold cursor_of; by rewrite Hcur).
  split; [|split; [done|split]].
  - split; intros k r; [rewrite Hsum; apply Hs|rewrite Hbal; apply Hb].
  - unfold cursor_seen. rewrite Hc. destruct Hseen as [H0|(e & Hin & Hid)]; [by left|right].
    exists e. rewrite He. split; [|done]. apply elem_of_app. by left.
  - intros k. rewrite Hc, He, upto_app.
    destruct (upto_none (cursor_of "default" d) es) as [-> _].
    + destruct Hfeed as [Hsort Hpos']. rewrite He in Hsort, Hpos'. apply StronglySorted_app in Hsort as (Hlt & _ & _).
      apply Forall_app in Hpos' as [_ Hpos']. rewrite Forall_forall in Hpos' |- *. intros x Hx.
      destruct Hseen as [->|(e & Hin & <-)]; [by apply Hpos'|by apply (Hlt e x)].
    + rewrite app_nil_r, <- Hcount. destruct k; cbn; by rewrite ?Hsum, ?Hbal.
Qed.

Lemma round_counting w w' :
  (∀ n, env_fault n = None) → counting (w_db w) → advancing worker_procs "default" 50 (2 * Second) w w' → counting (w_db w').
Proof.
  intros Hnf (Hc & Hf & Hseen & Hcount) Hadv.
  assert (Hfree : ∀ t d, inv read_models d → inv read_models (set_projection_cursors t d) ∧
    ∀ k, view read_models (set_projection_cursors t d) k = view read_models d k) by (intros t d Hd; split; [exact Hd|by intros []]).
  destruct (advancing_counted read_models Hnf worker_procs worker_deltas (worker_additive Hnf) Hfree
    "default" 50 (2 * Second) w w') as (Hc' & Hf' & Hcount'); [lia|done..|].
  split_and!; try done. destruct Hadv as [-> [Hne|Heq]]; [|by rewrite Heq].
  pose proof (wp_snd _ (λ w', round_post read_models worker_deltas "default" 50 (w_db w) (w_db w')) w
    (wp_round read_models Hnf worker_procs worker_deltas (worker_additive Hnf) Hfree
    "default" 50 (2 * Second) w Hc Hf eq_refl)) as Hr. cbv beta in Hr. destruct Hr as (He & _ & Hmove).
  destruct (Hmove Hne) as (pre & e & Hsel & Hcur & _). right. exists e. split; [|by symmetry]. rewrite He.
  assert (Hin : e ∈ select_since (cursor_of "default" (w_db w)) 50 (w_db w)) by (rewrite Hsel; apply elem_of_app; right; apply list_elem_of_here).
  rewrite select_since_spec in Hin by done. apply (subseteq_take (Z.to_nat _)) in Hin. by apply after_elem in Hin as [_ Hin].
Qed.

Lemma system_step_counting redis w w' :
  (∀ n, env_fault n = None) → counting (w_db w) → system_step redis w w' → counting (w_db w').
Proof.
  intros Hnf Hc [Hadv|Hstep Hfeed]; [by eapply round_counting|].
  eapply appended_counting; [done|by eapply ledger_step_appended|done].
Qed.

(** C7: the worker-service counts each event once, while requests go on
    between its rounds: as long as no call fails, each round moves the cursor
    or finds nothing to do, and events become visible in the order of their
    ids, every counter of [transaction_summary] and [monthly_balance] is the
    sum of the contributions of the events up to the cursor, from any state
    of which this is true (one without counters and cursor, for example). *)
Theorem worker_counts_once redis w w' :
  (∀ n, env_fault n = None) → in_cents (w_db w) → feed_ok (w_db w) → cursor_seen "default" (w_db w) →
  counted_once read_models worker_deltas "default" (w_db w) →
  rtc (system_step redis) w w' →
  counted_once read_models worker_deltas "default" (w_db w').
Proof.
  intros Hnf H1 H2 H3 H4 Hrtc. assert (Hc : counting (w_db w)) by done. clear H1 H2 H3 H4.
  enough (counting (w_db w')) by (by destruct H as (_ & _ & _ & H)).
  induction Hrtc as [|w w1 w2 Hstep _ IH]; [done|]. by eapply IH, system_step_counting.
Qed.

End Writers.

(** C24: while no call fails, a projector changes the counters of an event's
    user, month, currency and type, or account, by exactly the payload: a
    create adds its amount, to the cent, and counts one transaction; a delete
    takes the same away; an update adds the amount and counts the transaction
    once more, whatever was there before.  No other counter changes, and an
    event that is refused changes nothing.  None is refused whose user and
    account exist and whose amount and sums the columns can hold. *)
Theorem projection_of_operations ev n t b w :
  (∀ m, env_fault m = None) → in_cents (w_db w) →
  EntityType ev = "transaction"%string →
  (OpType ev, n) ∈ [("create", 1); ("update", 1); ("delete", -1)]%string →
  unmarshal_summary (Payload ev) = Ok t → unmarshal_balance (Payload ev) = Ok b →
  wp (summary_Process ev)
    (λ r w', (summary_fits t n (w_db w) → is_ok r = true) ∧
       match r with Ok _ => summary_change t n (w_db w) (w_db w') | _ => w_db w' = w_db w end) w ∧
  wp (balance_Process ev)
    (λ r w', (balance_fits b n (w_db w) → is_ok r = true) ∧
       match r with Ok _ => balance_change b n (w_db w) (w_db w') | _ => w_db w' = w_db w end) w.
Proof.
  intros Hnf Hi He Hop Ht Hb. split; (apply wp_and; [apply wp_when; intros Hfit|]).
  - by apply (wp_summary_accepts Hnf ev t n).
  - eapply wp_mono; [by apply (wp_summary_op Hnf ev t n)|]. by intros r w' (_ & _ & H).
  - by apply (wp_balance_accepts Hnf ev b n).
  - eapply wp_mono; [by apply (wp_balance_op Hnf ev b n)|]. by intros r w' (_ & _ & H).
Qed.

(** ** Events that cannot be processed *)

Lemma upsert_summary_feed user p c t a n ctx d u d' :
  upsert_summary user p c t a n ctx d = Ok (u, d') → same_feed d d'.
Proof. unfold upsert_summary. intros H. inv_try H; cbv zeta in H; inv_try H; by simplify_eq. Qed.

Lemma upsert_balance_feed user acc m a ctx d u d' :
  upsert_balance user acc m a ctx d = Ok (u, d') → same_feed d d'.
Proof. unfold upsert_balance. intros H. inv_try H; cbv zeta in H; inv_try H; by simplify_eq. Qed.

Lemma worker_keeps_feed p ev : p ∈ worker_procs → keeps_feed (Process p ev).
Proof.
  unfold worker_procs. intros [->|[->|[]%elem_of_nil]%elem_of_cons]%elem_of_cons; cbn [Process NewTransactionSummaryProjector NewMonthlyBalanceProjector].
  - unfold summary_Process. destruct (negb _); [apply keeps_feed_reads, reads_ret|].
    apply keeps_feed_bind; [apply keeps_feed_reads, reads_lift|]. intros t.
    repeat match goal with |- context [if ?b then _ else _] => destruct b end;
      first [apply keeps_feed_reads, reads_ret|apply keeps_feed_exec; intros ???? H; by eapply upsert_summary_feed].
  - unfold balance_Process. destruct (negb _); [apply keeps_feed_reads, reads_ret|].
    apply keeps_feed_bind; [apply keeps_feed_reads, reads_lift|]. intros t.
    repeat match goal with |- context [if ?b then _ else _] => destruct b end;
      first [apply keeps_feed_reads, reads_ret|apply keeps_feed_exec; intros ???? H; by eapply upsert_balance_feed].
Qed.

(** An event whose payload is no transaction is refused in every state. *)
Lemma unreadable_refused ev :
  EntityType ev = "transaction"%string → (∃ e, unmarshal_summary (Payload ev) = Err e) → refused worker_procs ev.
Proof.
  intros He [e Hu]. exists NewTransactionSummaryProjector. split; [apply list_elem_of_here|]. intros w. simpl.
  unfold summary_Process. rewrite He. change (negb (String.eqb "transaction" "transaction")) with false. cbn iota.
  apply wp_bind, wp_lift. rewrite Hu. simpl. by eexists.
Qed.

(** C23: one event that a projector always refuses stops the read models for
    good: in any number of rounds, whichever calls fail, the cursor of the
    worker-service never moves past it. *)
Theorem refused_event_blocks rounds e w :
  e ∈ select_since (cursor_of "default" (w_db w)) 50 (w_db w) → refused worker_procs (row_of e) →
  wp (Start worker_runner rounds) (λ _ w', cursor_of "default" (w_db w') = cursor_of "default" (w_db w) ∧
    change_events (w_db w') = change_events (w_db w)) w.
Proof.
  intros Hin Href. unfold Start. cbn [Source Cursor Processors worker_runner Name BatchSize PollInterval].
  wp_step. eapply wp_mono; [eapply (blocked_rounds worker_procs worker_keeps_feed); [by vm_compute|exact Hin|exact Href]|].
  intros r w' H. assert (Hend : cursor_of "default" (w_db w') = cursor_of "default" (w_db w) ∧
    change_events (w_db w') = change_events (w_db w)).
  { split; [apply (same_feed_next "default" 50 _ _ H)|apply H]. }
  destruct r; [by wp_step|done..].
Qed.

End ReadModels.
