(* ===== verification/SyncService.v ===== *)
(** * SyncService: synchronisation with Google Sheets

    Models [internal/sync/service.go], the two sheet clients
    ([google_sheets_client.go], [noop_sheets_client.go]) and the repositories
    of [internal/db/sync_repositories.go].  A job names a user and possibly
    one of their connections; each connection is synchronised by reading the
    change events after a version, reading the sheet, merging the rows and
    writing the merged rows back. *)

From S2P Require Import Prelude GoInt GoStrings GoTime GoValues Json Mapx SheetMerge Pgtypex Schema Sqlc Effects Queue Projection.
Import strings syncworker.

Module sync.

Record SheetsConnection := mkSheetsConnection {
  ID : string; UserID : string; SheetID : string; SheetRange : string; SyncMode : string;
  LastSyncedAt : option Z }.

Record SheetMapping := mkSheetMapping {
  m_ID : string; m_ConnectionID : string; SheetColumn : string; DBField : string; Transform : option json }.

Record ChangeEvent := mkChangeEvent {
  ce_ID : Z; ce_EntityType : string; ce_EntityID : string; ce_UserID : string; ce_OpType : string;
  ce_Version : Z; ce_Payload : option json; ce_CreatedAt : Time }.

Record Changes := mkChanges { Local : list SheetRowChange; Remote : list SheetRowChange }.

Record SheetsConnectionRepository := mkSheetsConnectionRepository {
  GetByID : string → M SheetsConnection; ListActiveByUser : string → M (list SheetsConnection) }.
Record SheetMappingRepository := mkSheetMappingRepository {
  ListByConnection : string → M (list SheetMapping) }.
Record ChangeEventReader := mkChangeEventReader {
  ListTransactionEventsSince : string → Z → Z → M (list ChangeEvent) }.
Record SheetsClient := mkSheetsClient {
  FetchChanges : SheetsConnection → string → M (Changes * string);
  ApplyChanges : SheetsConnection → list SheetRowChange → M unit }.

(** ** Repositories *)

Section Repositories.
Context {E : Env} {UL : UuidLib} {PP : projection.PgParams}.

(** [EXTRACT(EPOCH FROM ...)] in a float64, then [int64(...)]. *)
Definition epoch (t : Timestamptz) : option Z :=
  if ts_Valid t then Some (int64_of_float (f64_of_ratio (ts_Time t / 1000) 1000000)) else None.

Definition connection_of (c : sqlcdb.SheetsConnection) : SheetsConnection :=
  mkSheetsConnection (uuid_String (UUID_Bytes (sqlcdb.SheetsConnection_ID c)))
    (uuid_String (UUID_Bytes (sqlcdb.SheetsConnection_UserID c))) (sqlcdb.SheetsConnection_SheetID c)
    (if txt_Valid (sqlcdb.SheetsConnection_SheetRange c) then txt_String (sqlcdb.SheetsConnection_SheetRange c) else "")
    (sqlcdb.SheetsConnection_SyncMode c) (epoch (sqlcdb.SheetsConnection_LastSyncedAt c)).

Definition select_connection (id : string) : stmt SheetsConnection :=
  read_stmt (λ d,
    try u := projection.cast_uuid id in
    match sheets_connections d !! u with
    | Some c => Ok (connection_of c)
    | None => Err (sentinel ErrNoRows)
    end).

Definition connections_list (d : DB) : list sqlcdb.SheetsConnection := (map_to_list (sheets_connections d)).*2.

Definition select_connections (user : string) : stmt (list SheetsConnection) :=
  read_stmt (λ d,
    try u := projection.cast_uuid user in
    Ok (map connection_of
          (List.filter (λ c, bool_decide (UUID_Bytes (sqlcdb.SheetsConnection_UserID c) = u)) (connections_list d)))).

Definition NewPGShedsConnectionRepository : SheetsConnectionRepository :=
  mkSheetsConnectionRepository (λ id, exec Pool (select_connection id)) (λ user, exec Pool (select_connections user)).

Definition mapping_of (m : sqlcdb.SheetMapping) : SheetMapping :=
  mkSheetMapping (uuid_String (UUID_Bytes (sqlcdb.SheetMapping_ID m)))
    (uuid_String (UUID_Bytes (sqlcdb.SheetMapping_ConnectionID m))) (sqlcdb.SheetMapping_SheetColumn m)
    (sqlcdb.SheetMapping_DbField m) (sqlcdb.SheetMapping_Transform m).

Definition column_le (a b : SheetMapping) : Prop := str_le (SheetColumn a) (SheetColumn b).
#[export] Instance column_le_dec : RelDecision column_le.
Proof. unfold column_le. intros a b. apply _. Defined.

Definition select_mappings (connectionID : string) : stmt (list SheetMapping) :=
  read_stmt (λ d,
    try u := projection.cast_uuid connectionID in
    Ok (merge_sort column_le (map mapping_of
          (List.filter (λ m, bool_decide (UUID_Bytes (sqlcdb.SheetMapping_ConnectionID m) = u))
             (map_to_list (sheet_mappings d)).*2)))).

Definition NewPGSheetMappingRepository : SheetMappingRepository :=
  mkSheetMappingRepository (λ id, exec Pool (select_mappings id)).

Definition event_of_row (e : sqlcdb.ChangeEvent) : ChangeEvent :=
  mkChangeEvent (sqlcdb.ChangeEvent_ID e) (sqlcdb.ChangeEvent_EntityType e)
    (uuid_String (UUID_Bytes (sqlcdb.ChangeEvent_EntityID e))) (uuid_String (UUID_Bytes (sqlcdb.ChangeEvent_UserID e)))
    (sqlcdb.ChangeEvent_OpType e) (sqlcdb.ChangeEvent_Version e) (sqlcdb.ChangeEvent_Payload e)
    (ts_Time (sqlcdb.ChangeEvent_CreatedAt e)).

(** [ORDER BY version]; events of equal versions come in some order. *)
Definition version_le (a b : sqlcdb.ChangeEvent) : Prop := sqlcdb.ChangeEvent_Version a <= sqlcdb.ChangeEvent_Version b.
#[export] Instance version_le_dec : RelDecision version_le.
Proof. unfold version_le. intros a b. apply _. Defined.

Definition select_events (userID : string) (sinceVersion limit : Z) : stmt (list ChangeEvent) :=
  read_stmt (λ d,
    try u := projection.cast_uuid userID in
    Ok (map event_of_row (take (Z.to_nat limit) (merge_sort version_le
      (List.filter (λ e, bool_decide (UUID_Bytes (sqlcdb.ChangeEvent_UserID e) = u)
                         && String.eqb (sqlcdb.ChangeEvent_EntityType e) "transaction"
                         && (sinceVersion <? sqlcdb.ChangeEvent_Version e)) (change_events d)))))).

Definition NewPGChangeEventReader : ChangeEventReader :=
  mkChangeEventReader (λ user since limit, exec Pool (select_events user since limit)).

End Repositories.

(** ** Sheet clients *)

Section Clients.
Context {E : Env}.

Definition NoopSheetsClient : SheetsClient :=
  mkSheetsClient (λ _ cursor, ret (mkChanges [] [], cursor)) (λ _ _, ret tt).

(** [svc.Spreadsheets.Values.Get(...).Do()] and [...Update(...).Do()]. *)
Definition values_get (sheet range : string) : M (list (list any)) := λ w,
  (env_sheets_get (w_tick w), snd (emit (EvSheetsGet sheet range) w)).
Definition values_update (sheet range : string) (rows : list (list any)) : M unit :=
  command (EvSheetsUpdate sheet range rows) env_sheets_update.

Definition range_of (conn : SheetsConnection) : string :=
  if String.eqb (SheetRange conn) "" then "Sheet1" else SheetRange conn.

(** The row at position [i] of the answer, counted from 0. *)
Definition remote_row (i : nat) (cells : list any) : SheetRowChange :=
  mkSheetRowChange (strconv.Itoa (Z.of_nat i + 1)) (Some (mapx.index_payload cells)).

Definition google_FetchChanges (configured : bool) (conn : SheetsConnection) (cursor : string) : M (Changes * string) :=
  if negb configured then fail (errorString "Google Sheets client not configured: wire *sheets.Service")
  else
    let! rows := wrap_err "sheets values get" (values_get (SheetID conn) (range_of conn)) in
    match rows with
    | [] => ret (mkChanges [] [], "")
    | _ :: data =>
        ret (mkChanges [] (imap (λ i cells, remote_row (S i) cells) data),
             if Nat.ltb 1 (List.length rows) then strconv.Itoa (Z.of_nat (List.length rows)) else "")
    end.

Fixpoint ordered_rows (rows : list SheetRowChange) : outcome (list (list any)) :=
  match rows with
  | [] => Ok []
  | r :: rest =>
      try row := mapx.OrderedSliceByIndex (default ∅ (Payload r)) in
      try more := ordered_rows rest in
      Ok (row :: more)
  end.

Definition google_ApplyChanges (configured : bool) (conn : SheetsConnection) (rows : list SheetRowChange) : M unit :=
  if negb configured then fail (errorString "Google Sheets client not configured: wire *sheets.Service")
  else
    match rows with
    | [] => ret tt
    | _ =>
        let! valueRows := lift (ordered_rows rows) in
        wrap_err "sheets values update" (values_update (SheetID conn) (range_of conn) valueRows)
    end.

Definition NewGoogleSheetsClient (configured : bool) : SheetsClient :=
  mkSheetsClient (google_FetchChanges configured) (google_ApplyChanges configured).

End Clients.

(** ** [SyncService] *)

Record SyncService := mkSyncService {
  connections : SheetsConnectionRepository; mappings : SheetMappingRepository;
  events : ChangeEventReader; sheets : SheetsClient }.

Record SyncJobPayload := mkSyncJobPayload {
  p_UserID : string; p_ConnectionID : string; p_Mode : string; p_SinceVersion : Z }.

Definition unmarshal_job (text : string) : outcome SyncJobPayload :=
  try j := Json.Unmarshal text in
  try fields := Json.members_of j in
  try user := Json.string_field "userId" fields in
  try conn := Json.string_field "connectionId" fields in
  try mode := Json.string_field "mode" fields in
  try since := Json.int64_field "sinceVersion" fields in
  Ok (mkSyncJobPayload user conn mode since).

(** The row a change event is put forward as. *)
Definition local_change (ev : ChangeEvent) : SheetRowChange :=
  mkSheetRowChange (ce_EntityID ev) (Some (<["raw" := match ce_Payload ev with Some j => ARawJSON j | None => ANil end]>
    (<["version" := AInt64 (ce_Version ev)]> (<["createdAt" := ATime (ce_CreatedAt ev)]> ∅))))%string.

Section Service.
Context {E : Env}.
Variable s : SyncService.

Definition SyncUserTransactions (userID connID mode : string) (sinceVersion : Z) : M unit :=
  let! conn := GetByID (connections s) connID in
  if negb (String.eqb (UserID conn) userID)
  then fail (errorString "connection not found or does not belong to user")
  else
    let! _ := ListByConnection (mappings s) connID in
    let! localEvents := ListTransactionEventsSince (events s) userID sinceVersion 1000 in
    let localChanges := map local_change localEvents in
    let! fetched := FetchChanges (sheets s) conn "" in
    let '(changes, _) := fetched in
    let merged := MergeSheetRows localChanges (Remote changes) in
    match merged with
    | [] => ret tt
    | _ => ApplyChanges (sheets s) conn merged
    end.

Fixpoint sync_all (userID mode : string) (sinceVersion : Z) (conns : list SheetsConnection) : M unit :=
  match conns with
  | [] => ret tt
  | conn :: rest =>
      SyncUserTransactions userID (ID conn) mode sinceVersion ;;; sync_all userID mode sinceVersion rest
  end.

Definition HandleSyncJob (msg : queue.Message) : M unit :=
  let! payload := lift (unmarshal_job (queue.Payload msg)) in
  if negb (String.eqb (p_ConnectionID payload) "")
  then SyncUserTransactions (p_UserID payload) (p_ConnectionID payload) (p_Mode payload) (p_SinceVersion payload)
  else
    let! conns := ListActiveByUser (connections s) (p_UserID payload) in
    sync_all (p_UserID payload) (p_Mode payload) (p_SinceVersion payload) conns.

End Service.

(** The services of the processes: the finance-api uses the configured
    client, the worker-service and the sync-service the stub. *)
Definition NewSyncService {E : Env} {UL : UuidLib} {PP : projection.PgParams} (client : SheetsClient) : SyncService :=
  mkSyncService NewPGShedsConnectionRepository NewPGSheetMappingRepository NewPGChangeEventReader client.

End sync.
