(* ===== verification/SyncFacts.v ===== *)
(** * SyncFacts: what synchronisation does

    The jobs the service enqueues are understood by the handler; a connection
    is only synchronised for its owner; with the stub client nothing happens
    at all; with the Google client, local changes reach the sheet as empty
    rows, and a sheet without local changes is overwritten by its own data
    rows, the header excluded. *)

From S2P Require Import Prelude GoInt GoStrings GoTime GoValues Json Mapx SheetMerge Pgtypex Schema Sqlc Effects Wiring Queue TransactionService Projection SyncService.
Import strings syncworker sync.

(** ** Jobs *)

Lemma unmarshal_syncPayload user since :
  is_ascii user = true → in_int64 since →
  unmarshal_job (syncPayloadForUser user since) = Ok (mkSyncJobPayload user "" "" since).
Proof.
  intros Hu Hs. unfold unmarshal_job, syncPayloadForUser.
  rewrite Unmarshal_object_int_string by done. cbn [obind Json.members_of].
  unfold Json.string_field, Json.int64_field. cbn -[Json.put_string Json.put_int64 in_int64].
  unfold Json.put_int64. by rewrite bool_decide_eq_true_2.
Qed.

(** A job the transaction service enqueues, delivered by the stream, runs
    a synchronisation of all connections of its user from its version on. *)
Theorem sync_job_understood `{R : RedisLib} {RL : RedisLaws R} {E : Env} s id op user since w :
  is_ascii user = true → in_int64 since →
  let m := queue.mkMessage "" "transaction" op (syncPayloadForUser user since) 0 in
  HandleSyncJob s (queue.decodeMessage (delivered id (queue.message_values m))) w
  = (let! conns := ListActiveByUser (connections s) user in sync_all s user "" since conns) w.
Proof.
  intros Hu Hs m. rewrite decode_values by (simpl; unfold max_int64; lia).
  unfold HandleSyncJob. cbn [queue.Payload]. unfold m. cbn [queue.Payload].
  by rewrite unmarshal_syncPayload.
Qed.

Section Facts.
Context {E : Env} {UL : UuidLib} {PP : projection.PgParams}.

(** ** The stub client *)

Lemma reads_Noop conn_id user mode since :
  reads (SyncUserTransactions (NewSyncService NoopSheetsClient) user conn_id mode since).
Proof.
  unfold SyncUserTransactions. apply reads_bind; [apply reads_exec|]. intros conn.
  destruct (negb _); [intros w; by wp_step|]. apply reads_bind; [apply reads_exec|]. intros _.
  apply reads_bind; [apply reads_exec|]. intros evs. apply reads_bind; [apply reads_ret|]. intros [changes cursor].
  destruct (MergeSheetRows _ _); apply reads_ret.
Qed.

Lemma reads_HandleSyncJob_noop msg : reads (HandleSyncJob (NewSyncService NoopSheetsClient) msg).
Proof.
  unfold HandleSyncJob. apply reads_bind; [apply reads_lift|]. intros p.
  destruct (negb _); [apply reads_Noop|]. apply reads_bind; [apply reads_exec|]. intros conns.
  induction conns as [|c conns IH]; cbn [sync_all]; [apply reads_ret|].
  apply reads_bind; [apply reads_Noop|]. done.
Qed.

(** In the worker-service and the sync-service, which use the stub
    client, handling a sync job sends nothing to any sheet and changes
    nothing in the database. *)
Theorem noop_sync_has_no_effect msg w :
  wp (HandleSyncJob (NewSyncService NoopSheetsClient) msg) (λ _ w',
    w_db w' = w_db w ∧ w_txs w' = w_txs w ∧ w_trace w' = w_trace w) w.
Proof. apply reads_HandleSyncJob_noop. Qed.

(** ** Ownership *)

(** C29: A connection is synchronised for its owner only: for any other user,
    or without such a connection, the call fails before the sheet is read or
    written, whatever client is configured. *)
Theorem sync_checks_owner client user connID mode since w :
  (∀ id c, projection.pg_uuid connID = Some id → sheets_connections (w_db w) !! id = Some c →
     uuid_String (UUID_Bytes (sqlcdb.SheetsConnection_UserID c)) ≠ user) →
  wp (SyncUserTransactions (NewSyncService client) user connID mode since) (λ r w',
    is_ok r = false ∧ w_db w' = w_db w ∧ w_trace w' = w_trace w) w.
Proof.
  intros Hno. unfold SyncUserTransactions. wp_step. simpl. apply wp_exec_pool; [|done].
  unfold select_connection, read_stmt, projection.cast_uuid.
  destruct (projection.pg_uuid connID) as [id|] eqn:Eid; cbn [obind]; [|done].
  destruct (sheets_connections (w_db w) !! id) as [c|] eqn:Ec; [|done]. split; [|done].
  specialize (Hno id c eq_refl Ec). unfold connection_of. cbn [UserID].
  destruct (String.eqb_spec (uuid_String (UUID_Bytes (sqlcdb.SheetsConnection_UserID c))) user); [done|].
  cbn [negb]. by wp_step.
Qed.

(** ** Rows *)

Lemma local_change_indices ev : mapx.indices (default ∅ (Payload (local_change ev))) ≡ₚ [0; 0; 0].
Proof.
  unfold mapx.indices. simpl. rewrite map_to_list_insert by (by rewrite !lookup_insert_ne, lookup_empty by done).
  rewrite map_to_list_insert by (by rewrite lookup_insert_ne, lookup_empty by done).
  rewrite map_to_list_insert by (by rewrite lookup_empty). rewrite map_to_list_empty. simpl.
  by vm_compute.
Qed.

(** A local change never reaches the sheet: the keys of its payload are
    no column indices, and the row that is written for it is a single empty
    cell. *)
Theorem local_change_blank ev :
  mapx.OrderedSliceByIndex (default ∅ (Payload (local_change ev))) = Ok [AString ""].
Proof.
  pose proof (local_change_indices ev) as Hi.
  rewrite (OrderedSliceByIndex_row _ 0).
  - reflexivity.
  - rewrite Hi. apply list_elem_of_here.
  - rewrite Hi. repeat constructor; lia.
  - unfold mapx.max_slice_len. lia.
Qed.

(** ** A sheet without local changes *)

Lemma with_id_unique r l : NoDup (map RowID l) → r ∈ l → with_id (RowID r) l = [r].
Proof.
  induction l as [|x l IH]; intros Hnd Hr; [by apply elem_of_nil in Hr|].
  inversion Hnd as [|? ? Hx Hl]; subst. unfold with_id in *. rewrite filter_cons.
  apply elem_of_cons in Hr as [<-|Hr].
  - rewrite decide_True by done. f_equal. by apply with_id_nil.
  - rewrite decide_False; [by apply IH|]. intros Heq. apply Hx. rewrite Heq. by apply list_elem_of_fmap_2.
Qed.

(** Merging remote rows of distinct ids alone permutes them. *)
Lemma MergeSheetRows_remote l : NoDup (map RowID l) → MergeSheetRows [] l ≡ₚ l.
Proof.
  intros Hnd. pose proof (merged_RowID [] l) as Hwf. unfold MergeSheetRows. apply NoDup_Permutation.
  - apply (NoDup_fmap_1 RowID). change (RowID <$> rows_of (merge_map [] l)) with (map RowID (rows_of (merge_map [] l))).
    rewrite rows_of_ids by done. apply sorted_ids_NoDup.
  - by apply (NoDup_fmap_1 RowID).
  - intros r. rewrite rows_of_elem, merge_map_lookup by done. cbn [with_id]. split.
    + intros [Hin _]%choose_winner. simpl in Hin. by apply list_elem_of_filter in Hin as [_ ?].
    + intros Hr. by rewrite (with_id_unique r l).
Qed.

(** The rows a fetch returns. *)
Definition remote_rows (data : list (list any)) : list SheetRowChange :=
  imap (λ i cells, remote_row (S i) cells) data.

Lemma remote_rows_ids data :
  Z.of_nat (List.length data) < mapx.max_slice_len → NoDup (map RowID (remote_rows data)).
Proof.
  intros Hlen. unfold remote_rows. apply NoDup_alt. intros i j x Hi Hj.
  apply list_lookup_fmap_Some in Hi as (ri & -> & Hi), Hj as (rj & Hx & Hj).
  apply list_lookup_imap_Some in Hi as (ci & Hi & ->), Hj as (cj & Hj & ->).
  apply lookup_lt_Some in Hi, Hj. unfold mapx.max_slice_len in Hlen. simpl in Hx.
  apply Itoa_inj in Hx; unfold in_int64, min_int64, max_int64; lia.
Qed.

Lemma ordered_rows_cells (rows : list SheetRowChange) (f : SheetRowChange → list any) :
  Forall (λ r, mapx.OrderedSliceByIndex (default ∅ (Payload r)) = Ok (f r)) rows →
  ordered_rows rows = Ok (map f rows).
Proof. induction 1 as [|r rows Hr _ IH]; [done|]. simpl. by rewrite Hr, IH. Qed.

(** Cells of a row by its payload. *)
Definition cells_of (r : SheetRowChange) : list any :=
  match mapx.OrderedSliceByIndex (default ∅ (Payload r)) with Ok row => row | _ => [] end.

Lemma remote_rows_cells data :
  Forall (λ cells, Z.of_nat (List.length cells) < mapx.max_slice_len) data →
  Forall (λ r, mapx.OrderedSliceByIndex (default ∅ (Payload r)) = Ok (cells_of r)) (remote_rows data) ∧
  map cells_of (remote_rows data) = map (map mapx.fill) data.
Proof.
  intros Hall. unfold remote_rows. generalize S. induction Hall as [|cells data Hc _ IH]; intros f; [done|].
  rewrite imap_cons. destruct (IH (f ∘ S)) as [H1 H2].
  assert (Hrow : mapx.OrderedSliceByIndex (mapx.index_payload cells) = Ok (map mapx.fill cells)) by by apply index_payload_row.
  split.
  - constructor; [|exact H1]. unfold cells_of. simpl. by rewrite Hrow.
  - cbn [map]. f_equal; [|exact H2]. unfold cells_of. simpl. by rewrite Hrow.
Qed.

Lemma wp_values_update sheet range rows (Q : outcome unit → World → Prop) w :
  (∀ r, Q r (mkWorld (w_db w) (w_txs w) (w_trace w ++ [EvSheetsUpdate sheet range rows]) (S (w_tick w)))) →
  wp (values_update sheet range rows) Q w.
Proof. intros H. apply wp_command. intros r _. apply H. Qed.

(** A sheet without local changes is overwritten by its own data rows:
    whatever the sheet held, the synchronisation reads it and writes the rows
    after the first one, in some order, to the range that starts with the
    first one. *)
Theorem remote_sync_drops_header user connID mode since w w' header data sheet :
  env_sheets_get (3 + w_tick w) = Ok (header :: data) → data ≠ [] →
  Z.of_nat (List.length data) < mapx.max_slice_len →
  Forall (λ cells, Z.of_nat (List.length cells) < mapx.max_slice_len) data →
  (∀ n, env_fault n = None) →
  (∀ ctx, ∃ conn, select_connection connID ctx (w_db w) = Ok (conn, w_db w) ∧ sheet = SheetID conn) →
  (∀ ctx, select_events user since 1000 ctx (w_db w) = Ok ([], w_db w)) →
  SyncUserTransactions (NewSyncService (NewGoogleSheetsClient true)) user connID mode since w = (Ok tt, w') →
  ∃ range rows, rows ≡ₚ map (map mapx.fill) data ∧
    w_trace w' = w_trace w ++ [EvSheetsGet sheet range; EvSheetsUpdate sheet range rows].
Proof.
  intros Hget Hne Hlen Hcells Hnf Hconn Hev H. unfold SyncUserTransactions in H.
  apply bind_Ok_inv in H as (conn & w1 & Hc & H). simpl in Hc. unfold exec in Hc. rewrite Hnf in Hc.
  destruct (Hconn (env_sql (w_tick w))) as (conn' & Hsel & ->). rewrite Hsel in Hc. injection Hc as <- <-.
  destruct (negb _); [done|].
  apply bind_Ok_inv in H as (maps & w2 & Hm & H). simpl in Hm. unfold exec, select_mappings, read_stmt in Hm. rewrite Hnf in Hm.
  simpl in Hm. destruct (obind _ _) as [ms| |] in Hm; [|done..]. injection Hm as _ <-.
  apply bind_Ok_inv in H as (evs & w3 & He & H). simpl in He. unfold exec in He. rewrite Hnf in He. simpl in He.
  rewrite Hev in He. injection He as <- <-.
  apply bind_Ok_inv in H as ([changes cursor] & w4 & Hf & H). simpl in Hf. unfold google_FetchChanges in Hf. cbn [negb] in Hf.
  apply bind_Ok_inv in Hf as (rows & w5 & Hr & Hf). unfold wrap_err, values_get in Hr. simpl in Hr.
  simpl in Hget. rewrite Hget in Hr. injection Hr as <- <-. injection Hf as <- _ <-.
  cbn [map Remote] in H. fold (remote_rows data) in H.
  pose proof (MergeSheetRows_remote (remote_rows data) (remote_rows_ids data Hlen)) as Hperm.
  destruct (MergeSheetRows [] (remote_rows data)) as [|r0 rest] eqn:Em.
  { apply Permutation_nil in Hperm. by destruct data. }
  rewrite <- Em in *. simpl in H. unfold google_ApplyChanges in H. cbn [negb] in H. rewrite Em in H. rewrite <- Em in H.
  destruct (remote_rows_cells data Hcells) as [Hok Hmap].
  rewrite (ordered_rows_cells _ cells_of) in H by (by rewrite Hperm).
  apply bind_Ok_inv in H as (vr & w6 & [= <- <-] & H).
  eexists (range_of conn'), (map cells_of (MergeSheetRows [] (remote_rows data))). split.
  - rewrite Hperm. by rewrite Hmap.
  - match type of H with ?m ?w0 = _ => assert (Hw : wp m (λ _ w', w_trace w' = w_trace w ++ [EvSheetsGet (SheetID conn') (range_of conn');
      EvSheetsUpdate (SheetID conn') (range_of conn') (map cells_of (MergeSheetRows [] (remote_rows data)))]) w0) end.
    { wp_step. apply wp_values_update. intros r. simpl. by rewrite <- app_assoc. }
    unfold wp in Hw. by rewrite H in Hw.
Qed.

End Facts.
