(* ===== verification/SheetsFactory.v ===== *)
(** * SheetsFactory: the sheets client of the environment

    Models [internal/sync/sheets_factory.go]: which credentials of the
    environment a Google client is built from.  Google's libraries are a
    parameter. *)

From S2P Require Import Prelude GoInt GoStrings Base64 GoValues Json Effects AuthTokens SyncService.
Import strings.
#[local] Open Scope string_scope.
#[local] Open Scope list_scope.
#[local] Open Scope Z_scope.
#[local] Open Scope outcome_scope.

(** ** [%q] *)

Module quoting.

(** [strconv.Quote] of text outside ASCII depends on the table of printable
    characters. *)
Class Printable := { quote_unicode : string → string }.

Definition quoted_byte (c : ascii) : list ascii :=
  let v := byte_val c in
  if (v =? 34) || (v =? 92) then [Json.ch 92; c]
  else if v =? 7 then to_chars "\a" else if v =? 8 then to_chars "\b"
  else if v =? 12 then to_chars "\f" else if v =? 10 then to_chars "\n"
  else if v =? 13 then to_chars "\r" else if v =? 9 then to_chars "\t"
  else if v =? 11 then to_chars "\v"
  else if (v <? 32) || (v =? 127) then to_chars "\x" ++ [Json.hex_digit (v / 16); Json.hex_digit (v mod 16)]
  else [c].

Definition Quote `{Printable} (s : string) : string :=
  if is_ascii s
  then of_chars (Json.ch 34 :: flat_map quoted_byte (to_chars s) ++ [Json.ch 34])
  else quote_unicode s.

End quoting.

(** ** [golang.org/x/oauth2/google] and [google.golang.org/api] *)

Inductive ClientOption (credentials : Type) :=
| WithCredentials (c : credentials)
| WithCredentialsFile (path : string).
Arguments WithCredentials {credentials} c.
Arguments WithCredentialsFile {credentials} path.

(** [google.CredentialsFromJSON(ctx, data, scope)] and
    [sheets.NewService(ctx, options...)]. *)
Class GoogleLib := {
  Credentials : Type;
  SheetsAPI : Type;
  CredentialsFromJSON : string → string → outcome Credentials;
  NewService : list (ClientOption Credentials) → outcome SheetsAPI;
}.

(** [sheets.SpreadsheetsScope]. *)
Definition SpreadsheetsScope : string := "https://www.googleapis.com/auth/spreadsheets".

(** [json.Valid]: a text that is one JSON value. *)
Definition json_Valid (data : string) : bool := is_ok (Json.Unmarshal data).

Module sheets_factory.
Import quoting.

Definition EnvCredentialsFile : string := "GOOGLE_APPLICATION_CREDENTIALS".
Definition EnvCredentialsJSON : string := "GOOGLE_SHEETS_CREDENTIALS_JSON".

Section Factory.
Context {P : Process} {U : Unicode} {Q : Printable} {G : GoogleLib}.

(** The credentials text: base64 is undone when only that makes it JSON. *)
Definition credentials_data (raw : string) : string :=
  if json_Valid raw then raw
  else match base64.DecodeString (TrimSpace raw) with
       | Some decoded => if json_Valid decoded then decoded else raw
       | None => raw
       end.

(** A nil service without an error is [Ok None]. *)
Definition NewSheetsServiceFromEnv : outcome (option SheetsAPI) :=
  if String.eqb (Getenv EnvCredentialsJSON) "" && String.eqb (Getenv EnvCredentialsFile) "" then Ok None
  else
    let raw := Getenv EnvCredentialsJSON in
    if negb (String.eqb raw "") then
      try creds := with_context "sheets credentials from JSON"
                     (CredentialsFromJSON (credentials_data raw) SpreadsheetsScope) in
      try svc := with_context "sheets new service from credentials" (NewService [WithCredentials creds]) in
      Ok (Some svc)
    else
      let path := Getenv EnvCredentialsFile in
      if negb (String.eqb path "") then
        try svc := with_context (String.append "sheets new service from file " (Quote path))
                     (NewService [WithCredentialsFile path]) in
        Ok (Some svc)
      else
        try svc := with_context "sheets new service (ADC)" (NewService []) in
        Ok (Some svc).

Definition NewGoogleSheetsClientFromEnv {E : Env} : outcome (option sync.SheetsClient) :=
  match NewSheetsServiceFromEnv with
  | Err e => Err e
  | Panic m => Panic m
  | Ok None => Ok None
  | Ok (Some _) => Ok (Some (sync.NewGoogleSheetsClient true))
  end.

(** [newApp]: whether it uses the client of the environment; any failure
    falls back to the stub. *)
Definition google_client_enabled {E : Env} : outcome bool :=
  match NewGoogleSheetsClientFromEnv with
  | Ok (Some _) => Ok true
  | Panic m => Panic m
  | _ => Ok false
  end.

End Factory.
End sheets_factory.

Import sheets_factory quoting.

(** ** Base64 text is not mistaken for JSON *)

Lemma enc_char_plain v :
  0 <= v < 64 → is_ascii_char (base64.enc_char v) = true ∧ ascii_space (base64.enc_char v) = false.
Proof.
  intros Hv.
  pose proof (forall_below_spec
    (λ v, is_ascii_char (base64.enc_char v) && negb (ascii_space (base64.enc_char v))) 64 ltac:(vm_compute; reflexivity) v Hv) as H.
  simpl in H. bool_to_prop. done.
Qed.

Definition base64_plain (c : ascii) : Prop := is_ascii_char c = true ∧ ascii_space c = false.

Lemma encode_plain s : Forall base64_plain (to_chars (base64.EncodeToString s)).
Proof.
  assert (Hp : base64_plain base64.pad_char) by done.
  induction s as [|a|a b|a b c s IH] using string_ind3; cbn [base64.EncodeToString to_chars];
    repeat (apply List.Forall_cons; [first [exact Hp|apply enc_char_plain, sextet_range]|]);
    [by constructor..|exact IH].
Qed.

Lemma strip_plain l : Forall base64_plain l → strip l = l.
Proof.
  assert (Hd : ∀ l, Forall base64_plain l → drop_space l = l).
  { intros [|c l'] H; [done|]. inversion H as [|? ? [_ Hc] _]; subst. simpl. by rewrite Hc. }
  intros H. unfold strip. rewrite (Hd l H), Hd by (by apply Forall_rev). apply rev_involutive.
Qed.

(** White space around an encoding is trimmed away. *)
Lemma TrimSpace_encoded {U : Unicode} pre s post :
  forallb ascii_space (to_chars pre) = true → forallb ascii_space (to_chars post) = true →
  TrimSpace (String.append pre (String.append (base64.EncodeToString s) post)) = base64.EncodeToString s.
Proof.
  intros Hpre Hpost.
  assert (Hsp : ∀ l, forallb ascii_space l = true → Forall (λ c, is_ascii_char c = true) l).
  { intros l H. apply Forall_forall. intros c Hc. rewrite forallb_forall in H.
    apply list_elem_of_In, H in Hc. unfold ascii_space, is_ascii_char in *.
    apply orb_true_iff in Hc as [Hc|Hc]; bool_to_prop; apply Z.ltb_lt; lia. }
  rewrite TrimSpace_ascii.
  - rewrite !Json.to_chars_append, strip_spaces by done. rewrite strip_plain by apply encode_plain.
    apply of_to_chars.
  - apply is_ascii_chars. rewrite !Json.to_chars_append, !Forall_app. split_and!; [by apply Hsp| |by apply Hsp].
    eapply Forall_impl; [apply encode_plain|]. by intros c [].
Qed.

(** What is left of white space before a letter e starts no JSON value. *)
Lemma skip_ws_spaces pre t :
  forallb ascii_space pre = true →
  ∃ c r, Json.skip_ws (pre ++ Json.ch 101 :: t) = c :: r ∧ c ∈ [Json.ch 101; Json.ch 11; Json.ch 12].
Proof.
  induction pre as [|c pre IH]; intros H; [by exists (Json.ch 101), t; split; [|left]|].
  cbn [forallb] in H. apply andb_true_iff in H as [Hc Hpre]. specialize (IH Hpre).
  cbn [app Json.skip_ws]. destruct (Json.is_ws c) eqn:Ew; [exact IH|]. exists c, (pre ++ Json.ch 101 :: t).
  split; [done|]. destruct c as [[][][][][][][][]]; try discriminate Hc; try discriminate Ew; set_solver.
Qed.

Lemma parse_value_bad f l c r :
  Json.skip_ws l = c :: r → c ∈ [Json.ch 101; Json.ch 11; Json.ch 12] → Json.parse_value f l = None.
Proof.
  intros E Hc. destruct f as [|f]; [done|]. cbn [Json.parse_value]. rewrite E.
  repeat (apply elem_of_cons in Hc as [->|Hc]; [reflexivity|]). by apply elem_of_nil in Hc.
Qed.

(** The encoding of a text that starts with a brace starts with e. *)
Lemma encode_brace s : ∃ t, base64.EncodeToString (String (Json.ch 123) s) = String (Json.ch 101) t.
Proof.
  assert (Hs : ∀ x, 0 <= x < 65536 → base64.enc_char (base64.sextet (123 * 65536 + x) 0) = Json.ch 101).
  { intros x Hx. rewrite sextet_val by lia. change (2 ^ (18 - 6 * 0)) with 262144.
    replace ((123 * 65536 + x) / 262144) with 30 by (Z.to_euclidean_division_equations; lia). reflexivity. }
  assert (Hv : byte_val (Json.ch 123) = 123) by reflexivity.
  destruct s as [|b [|c s]]; cbn [base64.EncodeToString]; rewrite Hv; eexists; f_equal.
  - pose proof (byte_val_range b). rewrite <- (Z.lor_0_r (Z.lor _ _)), quantum_of_bytes by lia.
    rewrite <- (Hs (byte_val b * 256)) by lia. do 2 f_equal. lia.
  - pose proof (byte_val_range b). pose proof (byte_val_range c). rewrite quantum_of_bytes by lia.
    rewrite <- (Hs (byte_val b * 256 + byte_val c)) by lia. do 2 f_equal. lia.
Qed.

Lemma encoded_not_json pre s post :
  forallb ascii_space (to_chars pre) = true →
  json_Valid (String.append pre (String.append (base64.EncodeToString (String (Json.ch 123) s)) post)) = false.
Proof.
  intros Hpre. destruct (encode_brace s) as [t Et]. unfold json_Valid, Json.Unmarshal.
  rewrite !Json.to_chars_append, Et. cbn [to_chars app].
  destruct (skip_ws_spaces (to_chars pre) (to_chars t ++ to_chars post) Hpre) as (c & r & E & Hc).
  by rewrite (parse_value_bad _ _ c r E Hc).
Qed.

(** ** What the environment decides *)

Section Facts.
Context {U : Unicode} {Q : Printable} {G : GoogleLib}.

(** C39: credentials that are a JSON object have the same effect written as they
    are and as base64 between white space, whatever the libraries answer. *)
Theorem credentials_base64 (P1 P2 : Process) s pre post :
  json_Valid (String (Json.ch 123) s) = true →
  forallb ascii_space (to_chars pre) = true → forallb ascii_space (to_chars post) = true →
  Getenv (Process := P1) EnvCredentialsJSON = String (Json.ch 123) s →
  Getenv (Process := P2) EnvCredentialsJSON =
    String.append pre (String.append (base64.EncodeToString (String (Json.ch 123) s)) post) →
  NewSheetsServiceFromEnv (P := P2) = NewSheetsServiceFromEnv (P := P1).
Proof.
  intros Hj Hpre Hpost H1 H2. pose proof (encoded_not_json pre s post Hpre) as Hb. set (data := String (Json.ch 123) s) in *.
  assert (Hd : credentials_data (Getenv (Process := P2) EnvCredentialsJSON) = data).
  { unfold credentials_data. rewrite H2, Hb, TrimSpace_encoded by done.
    rewrite DecodeString_EncodeToString. by rewrite Hj. }
  assert (Hd1 : credentials_data data = data) by (unfold credentials_data; by rewrite Hj).
  assert (Hne : String.eqb (Getenv (Process := P2) EnvCredentialsJSON) "" = false).
  { apply String.eqb_neq. intros E. rewrite E in Hd.
    unfold credentials_data in Hd. by vm_compute in Hd. }
  unfold NewSheetsServiceFromEnv. rewrite Hd, Hne, H1, Hd1. reflexivity.
Qed.

(** The order of preference: nothing configured is no service and no error;
    inline credentials win over a file; and the file is handed over as it is. *)
Theorem NewSheetsServiceFromEnv_spec {P : Process} :
  NewSheetsServiceFromEnv =
    match Getenv EnvCredentialsJSON, Getenv EnvCredentialsFile with
    | EmptyString, EmptyString => Ok None
    | EmptyString, path =>
        omap_out Some (with_context (String.append "sheets new service from file " (Quote path))
          (NewService [WithCredentialsFile path]))
    | raw, _ =>
        try creds := with_context "sheets credentials from JSON"
                       (CredentialsFromJSON (credentials_data raw) SpreadsheetsScope) in
        omap_out Some (with_context "sheets new service from credentials" (NewService [WithCredentials creds]))
    end%outcome.
Proof.
  unfold NewSheetsServiceFromEnv. destruct (Getenv EnvCredentialsJSON) as [|c raw]; cbn [String.eqb andb negb].
  - by destruct (Getenv EnvCredentialsFile).
  - by destruct (with_context _ (CredentialsFromJSON _ _)).
Qed.

(** A library whose default credentials are as good as [answer]. *)
Definition with_default_credentials (answer : outcome SheetsAPI) : GoogleLib := {|
  Credentials := Credentials; SheetsAPI := SheetsAPI; CredentialsFromJSON := CredentialsFromJSON;
  NewService options := match options with [] => answer | _ => NewService options end |}.

(** Application Default Credentials are never tried: whatever they would
    give, the result is the same. *)
Theorem default_credentials_unused {P : Process} answer :
  NewSheetsServiceFromEnv (G := with_default_credentials answer) = NewSheetsServiceFromEnv (G := G).
Proof.
  unfold NewSheetsServiceFromEnv. destruct (Getenv EnvCredentialsJSON); [|reflexivity].
  cbn [String.eqb andb negb]. by destruct (Getenv EnvCredentialsFile).
Qed.

(** A failure to read credentials is silent: the process runs on the stub. *)
Lemma sheets_client_fallback {P : Process} {E : Env} e :
  NewSheetsServiceFromEnv = Err e → google_client_enabled = Ok false.
Proof. intros H. unfold google_client_enabled, NewGoogleSheetsClientFromEnv. by rewrite H. Qed.

End Facts.
