(* ===== verification/AppRun.v ===== *)
(** * AppRun: the life of the finance-api's HTTP server

    Models [App.Run] of [cmd/api/finance-api/main.go] as a state machine: the
    goroutine that runs [ListenAndServe], the signals, the parent context and
    the requests take steps between those of [Run] itself, in any order.
    [step] says which state a step leads to, or that it is not possible;
    an execution is a list of steps.  A [select] may take any of its cases
    that is ready. *)

From S2P Require Import Prelude GoValues.

Module apprun.

Inductive Signal := SIGINT | SIGTERM.

(** Where [Run] is: before [signal.Notify], in the [select], on its way to
    [Shutdown], inside [Shutdown], returned. *)
Inductive MainPC := Starting | Selecting | Stopping | Draining | Returned (o : outcome unit).

(** Where the goroutine is: before [ListenAndServe] listens, serving, with
    the error of [ListenAndServe] before [errCh <- err], before [cancel()],
    finished. *)
Inductive ServerPC := NotListening | Serving | Failed (e : error) | Sent | Finished.

Record State := mkState {
  main : MainPC;
  server : ServerPC;
  errCh : option error;
  sigCh : option Signal;
  base_done : bool;        (* [baseCtx], the context of every request, is done *)
  in_shutdown : bool;      (* [http.Server.Shutdown] was called *)
  inflight : nat           (* requests being served *)
}.

Definition init : State := mkState Starting NotListening None None false false 0.

Inductive Label :=
| Notify                        (* [signal.Notify(sigCh, ...)] *)
| Signalled (s : Signal)        (* the process receives a signal *)
| ParentCancel                  (* the context given to [Run] is cancelled *)
| Listen                        (* [ListenAndServe] starts to accept *)
| ServerFail (e : error)        (* it returns an error other than [ErrServerClosed] *)
| ServerClosed                  (* it returns [ErrServerClosed] *)
| SendErr                       (* [errCh <- err] *)
| CancelBase                    (* [cancel()] after it *)
| Request                       (* a request is accepted *)
| Answer                        (* a request is answered *)
| SelectSignal | SelectDone | SelectErr
| BeginShutdown                 (* [a.srv.Shutdown(shutdownCtx)] is called *)
| ShutdownIdle                  (* it returns nil: no request is left *)
| ShutdownDeadline              (* it returns [context.DeadlineExceeded] *)
| ShutdownError (e : error).    (* it returns the error of closing a listener *)

Definition set_main (pc : MainPC) (s : State) : State :=
  mkState pc (server s) (errCh s) (sigCh s) (base_done s) (in_shutdown s) (inflight s).
Definition set_server (pc : ServerPC) (s : State) : State :=
  mkState (main s) pc (errCh s) (sigCh s) (base_done s) (in_shutdown s) (inflight s).
Definition set_errCh (e : option error) (s : State) : State :=
  mkState (main s) (server s) e (sigCh s) (base_done s) (in_shutdown s) (inflight s).
Definition set_sigCh (g : option Signal) (s : State) : State :=
  mkState (main s) (server s) (errCh s) g (base_done s) (in_shutdown s) (inflight s).
Definition cancel (s : State) : State :=
  mkState (main s) (server s) (errCh s) (sigCh s) true (in_shutdown s) (inflight s).
Definition set_shutdown (s : State) : State :=
  mkState (main s) (server s) (errCh s) (sigCh s) (base_done s) true (inflight s).
Definition set_inflight (n : nat) (s : State) : State :=
  mkState (main s) (server s) (errCh s) (sigCh s) (base_done s) (in_shutdown s) n.

(** [return] runs the deferred [cancel()]. *)
Definition return_ (o : outcome unit) (s : State) : State := cancel (set_main (Returned o) s).

(** [signal.Notify] sends without blocking: a signal that finds the channel
    full is dropped. *)
Definition deliver (g : Signal) (s : State) : State :=
  set_sigCh (Some (default g (sigCh s))) s.

Definition step (s : State) (l : Label) : option State :=
  match l, main s, server s with
  | Notify, Starting, _ => Some (set_main Selecting s)
  | Signalled _, Starting, _ => None
  | Signalled g, _, _ => Some (deliver g s)
  | ParentCancel, _, _ => Some (cancel s)
  | Listen, _, NotListening => if in_shutdown s then None else Some (set_server Serving s)
  | ServerFail e, _, (NotListening | Serving) =>
      if in_shutdown s then None else Some (set_server (Failed e) s)
  | ServerClosed, _, (NotListening | Serving) =>
      if in_shutdown s then Some (set_server Finished s) else None
  | SendErr, _, Failed e =>
      match errCh s with None => Some (set_errCh (Some e) (set_server Sent s)) | Some _ => None end
  | CancelBase, _, Sent => Some (cancel (set_server Finished s))
  | Request, _, Serving => if in_shutdown s then None else Some (set_inflight (S (inflight s)) s)
  | Answer, _, _ => match inflight s with S n => Some (set_inflight n s) | O => None end
  | SelectSignal, Selecting, _ =>
      match sigCh s with Some _ => Some (set_main Stopping (set_sigCh None s)) | None => None end
  | SelectDone, Selecting, _ => if base_done s then Some (set_main Stopping s) else None
  | SelectErr, Selecting, _ =>
      match errCh s with Some e => Some (return_ (Err e) (set_errCh None s)) | None => None end
  | BeginShutdown, Stopping, _ => Some (set_main Draining (set_shutdown s))
  | ShutdownIdle, Draining, _ =>
      match inflight s with O => Some (return_ (Ok tt) s) | S _ => None end
  | ShutdownDeadline, Draining, _ => Some (return_ (Ok tt) s)
  | ShutdownError e, Draining, _ =>
      match inflight s with O => Some (return_ (Err e) s) | S _ => None end
  | _, _, _ => None
  end.

Fixpoint execute (s : State) (ls : list Label) : option State :=
  match ls with
  | [] => Some s
  | l :: ls' => match step s l with Some s' => execute s' ls' | None => None end
  end.

Definition reachable (ls : list Label) (s : State) : Prop := execute init ls = Some s.

(** The steps that are statements of [Run]. *)
Definition is_main (l : Label) : bool :=
  match l with
  | Notify | SelectSignal | SelectDone | SelectErr | BeginShutdown
  | ShutdownIdle | ShutdownDeadline | ShutdownError _ => true
  | _ => false
  end.

Definition main_steps (ls : list Label) : nat := List.length (List.filter is_main ls).

(** What ends the [select]. *)
Definition triggered (s : State) : Prop :=
  is_Some (sigCh s) ∨ base_done s = true ∨ is_Some (errCh s).

End apprun.

Import apprun.

(** ** Executions *)

Lemma execute_app s ls ls' :
  execute s (ls ++ ls') = match execute s ls with Some s' => execute s' ls' | None => None end.
Proof. revert s. induction ls as [|l ls IH]; intros s; [done|]. cbn. destruct (step s l); [apply IH|done]. Qed.

(** Rule induction: a predicate of the steps taken and the state. *)
Lemma reachable_ind (Q : list Label → State → Prop) :
  Q [] init →
  (∀ ls s l s', reachable ls s → Q ls s → step s l = Some s' → Q (ls ++ [l]) s') →
  ∀ ls s, reachable ls s → Q ls s.
Proof.
  intros H0 HS ls. induction ls as [|l ls IH] using rev_ind; intros s H; [by injection H as <-|].
  unfold reachable in H. rewrite execute_app in H.
  destruct (execute init ls) as [s1|] eqn:E; [|done]. cbn in H.
  destruct (step s1 l) as [s2|] eqn:El; [|done]. injection H as <-. eapply HS; eauto.
Qed.

(** The cases of a step that is possible. *)
Ltac step_cases H :=
  unfold step in H; repeat (go_case_in H; try discriminate H); injection H as <-; cbn in *;
  repeat match goal with E : main _ = _ |- _ => rewrite E in * | E : server _ = _ |- _ => rewrite E in * end.

(** ** Errors *)

(** An error in transit or returned comes from the server or from [Shutdown]. *)
Definition error_known (ls : list Label) (s : State) : Prop :=
  (∀ e, server s = Failed e ∨ errCh s = Some e → ServerFail e ∈ ls) ∧
  (∀ e, main s = Returned (Err e) → ServerFail e ∈ ls ∨ ShutdownError e ∈ ls) ∧
  (∀ m, main s ≠ Returned (Panic m)).

Lemma error_known_reachable ls s : reachable ls s → error_known ls s.
Proof.
  revert ls s. apply reachable_ind; [by split_and!; [intros ? [|]|..]|].
  intros ls s l s' _ (H1 & H2 & H3) Hl. unfold error_known.
  setoid_rewrite elem_of_app. setoid_rewrite list_elem_of_singleton.
  step_cases Hl; naive_solver.
Qed.

(** What [Run] reports is true: an error it returns is the error
    [ListenAndServe] or [Shutdown] returned, and it never panics. *)
Theorem run_error_sound ls s o :
  reachable ls s → main s = Returned o →
  match o with
  | Ok _ => True
  | Err e => ServerFail e ∈ ls ∨ ShutdownError e ∈ ls
  | Panic _ => False
  end.
Proof.
  intros Hr Hm. destruct (error_known_reachable ls s Hr) as (_ & H2 & H3).
  destruct o as [[]|e|m]; [done|by apply H2|]. by apply (H3 m).
Qed.

(** The schedule in which the goroutine leaves both its error and a cancelled
    context and the [select] sees the context first. *)
Definition race (e : error) : list Label :=
  [ServerFail e; SendErr; CancelBase; Notify; SelectDone; BeginShutdown; ShutdownIdle].

Lemma race_ends e : reachable (race e) (mkState (Returned (Ok tt)) Finished (Some e) None true true 0).
Proof. reflexivity. Qed.

(** No signal was received and nobody cancelled: the server failed. *)
Definition failed_alone (e : error) (ls : list Label) : Prop :=
  ServerFail e ∈ ls ∧ (ParentCancel ∉ ls) ∧ (∀ g, Signalled g ∉ ls).

Lemma race_alone e : failed_alone e (race e).
Proof.
  split_and!; [by left| |]; [intros H|intros g H];
    (repeat (apply elem_of_cons in H as [H|H]; [done|]); by apply elem_of_nil in H).
Qed.

(** ** Graceful shutdown *)

Definition has_returned (s : State) : bool := match main s with Returned _ => true | _ => false end.

Lemma base_done_reachable ls s :
  reachable ls s → base_done s = true ↔ ParentCancel ∈ ls ∨ CancelBase ∈ ls ∨ has_returned s = true.
Proof.
  revert ls s. apply reachable_ind; [split; [done|set_solver]|].
  intros ls s l s' _ IH Hl. rewrite !elem_of_app, !list_elem_of_singleton.
  unfold has_returned in *. step_cases Hl; naive_solver.
Qed.

(** Phases: what [Run] and the server are doing agrees with the shutdown flag
    and with the requests that may still come. *)
Definition phases (s : State) : Prop :=
  match main s with
  | Starting | Selecting | Stopping => in_shutdown s = false
  | Draining | Returned (Ok _) => in_shutdown s = true
  | Returned _ => in_shutdown s = true ∨ server s = Sent ∨ server s = Finished
  end ∧
  (is_Some (errCh s) → server s = Sent ∨ server s = Finished) ∧
  (server s = Sent → is_Some (errCh s) ∨ has_returned s = true).

Lemma phases_reachable ls s : reachable ls s → phases s.
Proof.
  revert ls s. apply reachable_ind; [by split_and!; [|intros []|]|].
  intros ls s l s' _ IH Hl. unfold phases, has_returned, is_Some in *.
  destruct s as [[| | | |[]] srv ec sc bd sh n]; cbn in IH; step_cases Hl; naive_solver.
Qed.

(** The goroutine cancels and stops by itself only after a failure. *)
Definition failure_known (ls : list Label) (s : State) : Prop :=
  (CancelBase ∈ ls ∨ server s = Sent → ∃ e, ServerFail e ∈ ls) ∧
  (server s = Finished → in_shutdown s = true ∨ ∃ e, ServerFail e ∈ ls).

Lemma failure_known_reachable ls s : reachable ls s → failure_known ls s.
Proof.
  revert ls s. apply reachable_ind; [split; [intros [?%elem_of_nil|]; done|done]|].
  intros ls s l s' Hr IH Hl. destruct (error_known_reachable ls s Hr) as (He & _ & _).
  unfold failure_known in *. setoid_rewrite elem_of_app. setoid_rewrite list_elem_of_singleton.
  step_cases Hl; naive_solver.
Qed.

(** C34: A signal, with no failure of the server and no cancellation from above,
    leaves the contexts of the requests alone until [Run] returns, and by then
    the server has been shut down. *)
Theorem graceful_shutdown ls s :
  reachable ls s → (ParentCancel ∉ ls) → (∀ e, ServerFail e ∉ ls) →
  base_done s = true → in_shutdown s = true ∧ ∃ o, main s = Returned o.
Proof.
  intros Hr Hp Hf Hb. destruct (failure_known_reachable ls s Hr) as [Hc Hfin].
  assert (Hret : has_returned s = true).
  { apply (base_done_reachable ls s Hr) in Hb as [Hb|[Hb|Hb]]; [done| |done].
    destruct Hc as [e He]; [by left|]. by apply Hf in He. }
  unfold has_returned in Hret. destruct (main s) as [| | | |o] eqn:Em; try discriminate Hret.
  split; [|by exists o]. destruct (phases_reachable ls s Hr) as [Hph _]. rewrite Em in Hph.
  destruct o as [u|e|m]; [done| |]; (destruct Hph as [|[Hs|Hs]]; [done|exfalso|];
    [destruct Hc as [e' He]; [by right|by apply Hf in He]|
     destruct (Hfin Hs) as [|[e' He]]; [done|by apply Hf in He]]).
Qed.

(** Once [Run] has returned, with an error or without, no request is
    accepted any more. *)
Theorem no_request_after_run ls s o :
  reachable ls s → main s = Returned o → step s Request = None.
Proof.
  intros Hr Hm. destruct (phases_reachable ls s Hr) as [Hph _]. rewrite Hm in Hph.
  unfold step. destruct (server s) eqn:Es; [done| |done..].
  destruct (in_shutdown s); [done|]. destruct o; naive_solver.
Qed.

(** ** Termination *)

Definition rank (pc : MainPC) : nat :=
  match pc with Starting => 0 | Selecting => 1 | Stopping => 2 | Draining => 3 | Returned _ => 4 end.

Lemma main_steps_rank ls s : reachable ls s → (main_steps ls <= rank (main s))%nat.
Proof.
  revert ls s. apply reachable_ind; [done|]. intros ls s l s' _ IH Hl. unfold main_steps in *.
  rewrite List.filter_app, length_app. step_cases Hl; cbn in *; lia.
Qed.

(** What makes [Run] leave the [select] has happened. *)
Definition stopping (s : State) : Prop := triggered s ∨ main s = Stopping ∨ main s = Draining.

Lemma main_enabled s :
  has_returned s = false → stopping s →
  ∃ l s', is_main l = true ∧ step s l = Some s' ∧ (stopping s' ∨ has_returned s' = true) ∧
    (rank (main s) < rank (main s'))%nat.
Proof.
  intros Hret Hst. unfold stopping, triggered, has_returned in *.
  destruct s as [[| | | |o] srv ec sc bd sh n]; cbn in *; [| | | |done].
  - eexists Notify, _. split_and!; [done..| |cbn; lia]. naive_solver.
  - destruct Hst as [[[g ->]|[->|[e ->]]]|[|]]; [..|done|done].
    + eexists SelectSignal, _. split_and!; [done..| |cbn; lia]. cbn. naive_solver.
    + eexists SelectDone, _. split_and!; [done..| |cbn; lia]. cbn. naive_solver.
    + eexists SelectErr, _. split_and!; [done..| |cbn; lia]. cbn. naive_solver.
  - eexists BeginShutdown, _. split_and!; [done..| |cbn; lia]. cbn. naive_solver.
  - eexists ShutdownDeadline, _. split_and!; [done..| |cbn; lia]. cbn. naive_solver.
Qed.

(** C33: [Run] returns: after a signal, a cancellation or an error sent by the
    goroutine, its own steps are possible until it has returned, whatever the
    rest does, and no execution has more than four of them.  A failed server
    can always send its error. *)
Theorem Run_returns ls s :
  reachable ls s →
  (main_steps ls <= 4)%nat ∧
  (∀ e, server s = Failed e → is_Some (step s SendErr)) ∧
  (has_returned s = false → stopping s → ∃ ls' s', forallb is_main ls' = true ∧
     execute s ls' = Some s' ∧ has_returned s' = true).
Proof.
  intros Hr. split_and!.
  - etransitivity; [by apply main_steps_rank|]. destruct (main s); cbn; lia.
  - intros e Hs. destruct (phases_reachable ls s Hr) as (_ & He & _). unfold step. rewrite Hs in *.
    destruct (errCh s) as [e'|]; [|by destruct (main s); eexists]. by destruct He as [|]; [eexists|..].
  - clear Hr. remember (4 - rank (main s))%nat as n eqn:En.
    assert (Hn : (4 - rank (main s) <= n)%nat) by lia. clear En. revert s Hn.
    induction n as [|n IH]; intros s Hn Hret Hst;
      destruct (main_enabled s Hret Hst) as (l & s1 & Hl & E & Hst1 & Hrk);
      [destruct (main s1); cbn in *; lia|].
    destruct (has_returned s1) eqn:Er1.
    { exists [l], s1. cbn. rewrite Hl, E. by split_and!. }
    destruct (IH s1) as (ls' & s' & Hls & E' & Hr'); [lia|done|by destruct Hst1 as [|]|].
    exists (l :: ls'), s'. cbn. rewrite Hl, E. by split_and!.
Qed.
