(* ===== verification/Config.v ===== *)
(** * Config: configuration and the logger in a context

    Models [pkg/shared/config/config.go] and [pkg/shared/logging/logging.go].
    Viper and zap are parameters: a [*viper.Viper] is a value that each call
    on it replaces. *)

From S2P Require Import Prelude GoInt GoStrings GoValues.
#[local] Open Scope string_scope.
#[local] Open Scope outcome_scope.

Module config.

Record ServerConfig := mkServerConfig { Addr : string }.
Record DatabaseConfig := mkDatabaseConfig { DatabaseURL : string }.
Record RedisConfig := mkRedisConfig { RedisURL : string }.
Record AuthConfig := mkAuthConfig { JWTSecret : string }.
Record LoggingConfig := mkLoggingConfig { Level : string }.

Record Config := mkConfig {
  AppName : string; Server : ServerConfig; Database : DatabaseConfig;
  Redis : RedisConfig; Auth : AuthConfig; Logging : LoggingConfig }.

(** [github.com/spf13/viper]; [viper_global] is the instance behind the
    functions of the package. *)
Class ViperLib := {
  Viper : Type;
  viper_New : Viper;
  viper_global : Viper;
  GetString : Viper → string → string;
  SetConfigName : string → Viper → Viper;
  SetConfigType : string → Viper → Viper;
  AddConfigPath : string → Viper → Viper;
  SetEnvPrefix : string → Viper → Viper;
  AutomaticEnv : Viper → Viper;
  ReadInConfig : Viper → outcome Viper;
  Unmarshal : Viper → outcome Config;
}.

(** The documentation of [Get] and its variants: a key that nothing has
    defined gives the zero value.  The program sets no value, default, flag,
    variable or file on the global instance. *)
Class ViperLaws (V : ViperLib) : Prop := {
  viper_undefined key : GetString viper_global key = "";
}.

Section Load.
Context {V : ViperLib}.

Definition load_env (env serviceName : string) : outcome Config :=
  let v := SetConfigName env viper_New in
  let v := AddConfigPath "configs" (SetConfigType "yaml" v) in
  let v := AutomaticEnv (SetEnvPrefix serviceName v) in
  try v := with_context "read config" (ReadInConfig v) in
  try cfg := with_context "unmarshal config" (Unmarshal v) in
  if String.eqb (Addr (Server cfg)) ""
  then Ok (mkConfig (AppName cfg) (mkServerConfig ":8080") (Database cfg) (Redis cfg) (Auth cfg) (Logging cfg))
  else Ok cfg.

Definition Load (serviceName : string) : outcome Config :=
  let env := GetString viper_global "APP_ENV" in
  load_env (if String.eqb env "" then "dev" else env) serviceName.

(** A configuration always has an address to listen on, and nothing else is
    made up. *)
Theorem Load_address service cfg :
  Load service = Ok cfg →
  Addr (Server cfg) ≠ "" ∧
  ∃ v read, Unmarshal v = Ok read ∧
    Database cfg = Database read ∧ Redis cfg = Redis read ∧ Auth cfg = Auth read ∧
    Addr (Server cfg) = (if String.eqb (Addr (Server read)) "" then ":8080" else Addr (Server read)).
Proof.
  unfold Load, load_env. intros H. apply obind_Ok_inv in H as (v & _ & H).
  apply obind_Ok_inv in H as (read & Hu & H). apply with_context_Ok in Hu.
  destruct (String.eqb_spec (Addr (Server read)) "") as [E|E]; injection H as <-.
  - split; [done|]. exists v, read. rewrite E. by split_and!.
  - split; [done|]. exists v, read. apply String.eqb_neq in E. rewrite E. by split_and!.
Qed.

(** Every process reads the configuration of the environment named dev: the
    variable APP_ENV is asked of an instance that never looks at the
    environment. *)
Theorem Load_reads_dev {L : ViperLaws V} service : Load service = load_env "dev" service.
Proof. unfold Load. by rewrite viper_undefined. Qed.

(** What cannot be read or decoded is an error with its reason. *)
Lemma Load_read_error service e :
  ReadInConfig (AutomaticEnv (SetEnvPrefix service (AddConfigPath "configs" (SetConfigType "yaml"
    (SetConfigName (if String.eqb (GetString viper_global "APP_ENV") "" then "dev"
                    else GetString viper_global "APP_ENV") viper_New))))) = Err e →
  Load service = Err (wrapf "read config" e).
Proof. intros H. unfold Load, load_env. by rewrite H. Qed.

End Load.
End config.

(** ** Loggers in a context *)

Module logging.

Class ZapLib := { Logger : Type; NewNop : Logger; Build : outcome Logger }.

(** A key is its type and its value; [loggerKey{}] has a type of its own. *)
Inductive Key := loggerKey | stringKey (name : string).
#[export] Instance Key_eq_dec : EqDecision Key.
Proof. solve_decision. Defined.
#[export] Instance Key_countable : Countable Key.
Proof.
  refine (inj_countable' (λ k, match k with loggerKey => None | stringKey n => Some n end)
    (λ o, match o with None => loggerKey | Some n => stringKey n end) _).
  by intros [].
Defined.

Section Logging.
Context {Z : ZapLib}.

(** Values are of any type; a [*zap.Logger] may be nil. *)
Inductive Value := loggerValue (l : option Logger) | otherValue (s : string).
Definition Context : Type := gmap Key Value.

Definition NewLogger : outcome Logger := Build.

Definition WithLogger (ctx : Context) (l : option Logger) : Context := <[loggerKey := loggerValue l]> ctx.

Definition FromContext (ctx : option Context) : Logger :=
  match ctx with
  | None => NewNop
  | Some c =>
      match c !! loggerKey with
      | Some (loggerValue (Some l)) => l
      | _ => NewNop
      end
  end.

(** A context gives back the last logger it was given, whatever else it
    carries, and a usable one in every case. *)
Theorem FromContext_WithLogger ctx l key value :
  FromContext (Some (WithLogger ctx l)) = default NewNop l ∧
  FromContext (Some (<[stringKey key := value]> (WithLogger ctx l))) = default NewNop l ∧
  FromContext None = NewNop.
Proof.
  assert (H1 : WithLogger ctx l !! loggerKey = Some (loggerValue l)) by apply lookup_insert_eq.
  assert (H2 : (<[stringKey key := value]> (WithLogger ctx l) : Context) !! loggerKey = Some (loggerValue l))
    by (etrans; [by apply lookup_insert_ne|done]).
  unfold FromContext. rewrite H1, H2. by destruct l.
Qed.

End Logging.
End logging.
