(* ===== verification/SyncPipeline.v ===== *)
(** * SyncPipeline: the consumers of sync jobs

    Models the parts of [cmd/api/sync-service/main.go] and
    [cmd/api/worker-service/main.go] that consume the stream the finance-api
    writes to: the same group, one consumer each, the retry wrapper and the
    handler of [SyncService] over the stub client. *)

From S2P Require Import Prelude GoInt GoStrings GoTime GoValues Json SheetMerge Pgtypex Schema Sqlc Effects Wiring Queue TransactionService Projection SyncService SyncFacts.
Import strings queue sync syncworker.

(** ** The processes *)

Definition sync_service_stream : RedisStreamConfig :=
  NewRedisStreamQueue (mkRedisStreamConfig "sync_queue" "sync_workers" "sync-service" 0).
Definition worker_service_stream : RedisStreamConfig :=
  NewRedisStreamQueue (mkRedisStreamConfig "sync_queue" "sync_workers" "worker-service" (5 * Second)).

Section Processes.
Context {E : Env} {UL : UuidLib} {PP : projection.PgParams}.

Definition stub_handler : Message → M unit := HandleSyncJob (NewSyncService NoopSheetsClient).

Definition sync_worker (cfg : RedisStreamConfig) (rounds : nat) : M (option Loop) :=
  worker.Start (Some (Consume cfg rounds)) (Some stub_handler).

Definition sync_service_worker (rounds : nat) : M (option Loop) := sync_worker sync_service_stream rounds.

(** Without a Redis configuration the worker-service has no sync worker. *)
Definition worker_service_worker (redisURL : string) (rounds : nat) : M (option Loop) :=
  if negb (String.eqb redisURL "") then sync_worker worker_service_stream rounds else ret None.

(** ** What a consumer sends *)

Definition queue_event (cfg : RedisStreamConfig) (ev : Event) : Prop :=
  match ev with
  | EvXGroupCreate s g | EvXReadGroup s g _ _ _ | EvXAck s g _ => s = Stream cfg ∧ g = Group cfg
  | EvWait _ => True
  | _ => False
  end.

(** The database stays as it is, and only commands on the stream are sent. *)
Definition only_queue (cfg : RedisStreamConfig) {A} (m : M A) : Prop :=
  ∀ w, wp m (λ _ w', w_db w' = w_db w ∧ w_txs w' = w_txs w ∧
    ∃ evs, w_trace w' = w_trace w ++ evs ∧ Forall (queue_event cfg) evs) w.

Variable cfg : RedisStreamConfig.

Lemma only_queue_reads {A} (m : M A) : reads m → only_queue cfg m.
Proof.
  intros Hm w. eapply wp_mono; [apply Hm|]. intros r w' (H1 & H2 & H3). split_and!; [done..|].
  exists []. by rewrite app_nil_r.
Qed.

Lemma only_queue_bind {A B} (m : M A) (k : A → M B) :
  only_queue cfg m → (∀ a, only_queue cfg (k a)) → only_queue cfg (bind m k).
Proof.
  intros Hm Hk w. wp_step. eapply wp_mono; [apply Hm|]. intros r w1 (Hd & Ht & evs & Htr & Hev).
  destruct r as [a|e|msg]; [|by split_and!; eauto..].
  eapply wp_mono; [apply Hk|]. intros r w2 (Hd2 & Ht2 & evs2 & Htr2 & Hev2). split_and!; [congruence..|].
  exists (evs ++ evs2). rewrite Htr2, Htr, <- app_assoc. split; [done|]. by apply Forall_app.
Qed.

Lemma only_queue_attempt {A} (m : M A) : only_queue cfg m → only_queue cfg (attempt m).
Proof. intros Hm w. wp_step. eapply wp_mono; [apply Hm|]. by intros [] w1 H. Qed.

Lemma only_queue_command ev reply : queue_event cfg ev → only_queue cfg (command ev reply).
Proof. intros Hev w. apply wp_command. intros r _. split_and!; [done..|]. exists [ev]. by repeat constructor. Qed.

Lemma only_queue_emit ev : queue_event cfg ev → only_queue cfg (emit ev).
Proof. intros Hev w. apply wp_emit. split_and!; [done..|]. exists [ev]. by repeat constructor. Qed.

Lemma only_queue_Done : only_queue cfg Done.
Proof. apply only_queue_reads, (reads_tick (λ w, Ok (env_done (w_tick w)))). Qed.

Lemma only_queue_ret {A} (a : A) : only_queue cfg (ret a).
Proof. apply only_queue_reads, reads_ret. Qed.

Lemma only_queue_handle h msg : only_queue cfg (h msg) → only_queue cfg (worker.handle h msg).
Proof.
  intros Hh. unfold worker.handle. apply only_queue_bind; [by apply only_queue_attempt|].
  intros [u|e|m]; [apply only_queue_ret| |apply only_queue_ret].
  apply only_queue_bind; [|intros ?; apply only_queue_reads, reads_fail].
  apply only_queue_bind; [by apply only_queue_emit|intros ?; apply only_queue_Done].
Qed.

Lemma only_queue_batch h ms :
  (∀ msg, only_queue cfg (h msg)) → only_queue cfg (handle_batch cfg h ms).
Proof.
  intros Hh. induction ms as [|m ms IH]; cbn [handle_batch]; [apply only_queue_ret|].
  apply only_queue_bind; [|done]. apply only_queue_bind; [apply only_queue_attempt, Hh|].
  intros [u|e|s]; [|apply only_queue_ret..]. apply only_queue_bind; [|intros ?; apply only_queue_ret].
  by apply only_queue_attempt, only_queue_command.
Qed.

Lemma only_queue_round h : (∀ msg, only_queue cfg (h msg)) → only_queue cfg (consume_round cfg h).
Proof.
  intros Hh. apply only_queue_bind; [apply only_queue_Done|]. intros [|]; [apply only_queue_ret|].
  apply only_queue_bind.
  { apply only_queue_attempt. intros w. unfold wp, XReadGroup. simpl. split_and!; [done..|].
    eexists. split; [done|]. by repeat constructor. }
  intros [streams|e|s]; [|destruct (bool_decide _); apply only_queue_ret|by apply only_queue_reads].
  apply only_queue_bind; [by apply only_queue_batch|intros ?; apply only_queue_ret].
Qed.

Lemma only_queue_Consume h rounds : (∀ msg, only_queue cfg (h msg)) → only_queue cfg (Consume cfg rounds h).
Proof.
  intros Hh. apply only_queue_bind.
  - apply only_queue_attempt. intros w. unfold wp, ensureGroup.
    pose proof (only_queue_command (EvXGroupCreate (Stream cfg) (Group cfg)) env_redis (conj eq_refl eq_refl) w) as H.
    unfold XGroupCreateMkStream. unfold wp in H. destruct (command _ _ w) as [[u|e|m] w']; [done| |done].
    by destruct (String.eqb _ _).
  - intros [u|e|m]; [|apply only_queue_ret|]; clear u || clear m;
      (induction rounds as [|n IH]; cbn [consume_loop]; [apply only_queue_ret|];
       apply only_queue_bind; [by apply only_queue_round|]; intros [|e]; [done|apply only_queue_ret]).
Qed.

Lemma only_queue_sync_worker rounds : only_queue cfg (sync_worker cfg rounds).
Proof.
  apply only_queue_bind; [|intros ?; apply only_queue_ret]. apply only_queue_Consume. intros msg.
  apply only_queue_handle, only_queue_reads, reads_HandleSyncJob_noop.
Qed.

End Processes.

(** C28: whatever is delivered to them, for however long they run and whichever
    calls fail, the consumers of sync jobs change no table and call no sheet:
    all they send are commands on the stream. *)
Theorem sync_workers_only_queue {E : Env} {UL : UuidLib} {PP : projection.PgParams} redisURL rounds w :
  wp (sync_service_worker rounds) (λ _ w', w_db w' = w_db w ∧ w_txs w' = w_txs w ∧
    ∃ evs, w_trace w' = w_trace w ++ evs ∧ Forall (queue_event sync_service_stream) evs) w ∧
  wp (worker_service_worker redisURL rounds) (λ _ w', w_db w' = w_db w ∧ w_txs w' = w_txs w ∧
    ∃ evs, w_trace w' = w_trace w ++ evs ∧ Forall (queue_event worker_service_stream) evs) w.
Proof.
  split; [apply only_queue_sync_worker|]. unfold worker_service_worker.
  destruct (negb _); [apply only_queue_sync_worker|apply only_queue_ret].
Qed.

(** ** Delivery of the jobs of the transaction service *)

Lemma uuid_String_ascii {UL : UuidLib} {ULaws : UuidLaws UL} u : is_ascii (uuid_String u) = true.
Proof.
  pose proof (uuid_String_chars u) as H. unfold is_ascii. induction (uuid_String u) as [|c s IH]; [done|].
  cbn [str_forall] in *. apply andb_true_iff in H as [Hc Hs]. rewrite IH by done. rewrite andb_true_r.
  unfold is_ascii_char, strconv.is_digit in *. bool_lia_split.
Qed.

Section Jobs.
Context {E : Env} {UL : UuidLib} {ULaws : UuidLaws UL} {PP : projection.PgParams} {PPL : projection.PgParamsLaws UL PP}.
Hypothesis no_faults : ∀ n, env_fault n = None.

(** Rows are stored under their id. *)
Definition connections_keyed (d : DB) : Prop :=
  ∀ id c, sheets_connections d !! id = Some c → sqlcdb.SheetsConnection_ID c = mkPgUUID id true.

Lemma exec_read_ok {A} (f : DB → outcome A) a w :
  f (w_db w) = Ok a → exec Pool (read_stmt f) w = (Ok a, tick w).
Proof. intros Hf. unfold exec, read_stmt. by rewrite no_faults, Hf. Qed.

(** Nothing went wrong and the database is as it was. *)
Definition quietly {A} (m : M A) (w : World) : Prop :=
  wp m (λ r w', is_ok r = true ∧ w_db w' = w_db w ∧ w_trace w' = w_trace w) w.

Lemma quietly_sync user id c mode since w :
  sheets_connections (w_db w) !! id = Some c → UUID_Bytes (sqlcdb.SheetsConnection_UserID c) = user →
  quietly (SyncUserTransactions (NewSyncService NoopSheetsClient) (uuid_String user) (uuid_String id) mode since) w.
Proof.
  intros Hc Hu. unfold quietly, SyncUserTransactions. wp_step. simpl.
  unfold select_connection, projection.cast_uuid, wp at 1.
  rewrite (exec_read_ok _ (connection_of c)) by (by rewrite projection.pg_uuid_text; cbn [obind]; rewrite Hc).
  assert (UserID (connection_of c) = uuid_String user) as -> by (simpl; by rewrite Hu).
  rewrite String.eqb_refl. cbn [negb]. wp_step. simpl. unfold select_mappings, projection.cast_uuid, wp at 1.
  erewrite exec_read_ok by (by rewrite projection.pg_uuid_text).
  wp_step. simpl. unfold select_events, projection.cast_uuid, wp at 1.
  erewrite exec_read_ok by (by rewrite projection.pg_uuid_text).
  wp_step. wp_step. simpl. by destruct (MergeSheetRows _ _).
Qed.

Lemma quietly_sync_all user mode since conns w :
  (∀ c, c ∈ conns → ∃ id row, sheets_connections (w_db w) !! id = Some row ∧
     ID c = uuid_String id ∧ UUID_Bytes (sqlcdb.SheetsConnection_UserID row) = user) →
  quietly (sync_all (NewSyncService NoopSheetsClient) (uuid_String user) mode since conns) w.
Proof.
  revert w. induction conns as [|c conns IH]; intros w Hall; cbn [sync_all]; [by unfold quietly; wp_step|].
  unfold quietly. wp_step. destruct (Hall c) as (id & row & Hrow & -> & Hu); [apply list_elem_of_here|].
  eapply wp_mono; [by eapply quietly_sync|]. intros [u|e|m] w1 (Hok & Hd & Ht); [|done..].
  eapply wp_mono; [apply IH; intros c' Hc'; rewrite Hd; apply Hall; by apply list_elem_of_further|].
  intros r w2 (H1 & H2 & H3). split_and!; congruence.
Qed.

(** A job of the transaction service succeeds. *)
Lemma quietly_job user since w :
  connections_keyed (w_db w) →
  quietly (let! conns := ListActiveByUser (connections (NewSyncService NoopSheetsClient)) (uuid_String user) in
           sync_all (NewSyncService NoopSheetsClient) (uuid_String user) "" since conns) w.
Proof.
  intros Hk. unfold quietly. wp_step. simpl. unfold select_connections, projection.cast_uuid, wp at 1.
  erewrite exec_read_ok by (by rewrite projection.pg_uuid_text).
  eapply wp_mono; [apply quietly_sync_all|].
  - intros c Hc. apply list_elem_of_fmap in Hc as (row & -> & Hin). apply list_elem_of_In, filter_In in Hin as [Hin Hu].
    apply bool_decide_eq_true in Hu. apply list_elem_of_In, list_elem_of_fmap in Hin as ([id r] & -> & Hin).
    apply elem_of_map_to_list in Hin. exists id, r. split; [done|]. split; [|done]. simpl.
    by rewrite (Hk id r Hin).
  - done.
Qed.

(** A job as the stream delivers it. *)
Record Job := mkJob { j_entry : string; j_op : string; j_user : UUID; j_since : Z }.

Definition job_message (j : Job) : Message :=
  mkMessage "" "transaction" (j_op j) (syncPayloadForUser (uuid_String (j_user j)) (j_since j)) 0.

Definition entry_of `{R : RedisLib} (j : Job) : XMessage := delivered (j_entry j) (message_values (job_message j)).

Lemma quietly_stub_job `{R : RedisLib} {RL : RedisLaws R} j w :
  connections_keyed (w_db w) → in_int64 (j_since j) →
  quietly (worker.handle stub_handler (decodeMessage (entry_of j))) w.
Proof.
  intros Hk Hs. unfold quietly, worker.handle. wp_step. wp_step. unfold stub_handler, entry_of, job_message, wp at 1.
  rewrite decode_values by (simpl; unfold max_int64; lia). unfold HandleSyncJob. cbn [queue.Payload].
  unfold bind at 1, lift. rewrite unmarshal_syncPayload by (try apply uuid_String_ascii; done).
  cbn [p_ConnectionID p_UserID p_Mode p_SinceVersion]. change (negb (String.eqb "" "")) with false. cbn iota.
  pose proof (quietly_job (j_user j) (j_since j) w Hk) as H. unfold quietly, wp in H.
  destruct (bind _ _ w) as [[u|e|m] w']; [|by destruct H..]. by wp_step.
Qed.

Lemma batch_of_jobs `{R : RedisLib} {RL : RedisLaws R} cfg jobs w :
  connections_keyed (w_db w) → Forall (λ j, in_int64 (j_since j)) jobs →
  wp (handle_batch cfg (worker.handle stub_handler) (map entry_of jobs)) (λ r w', r = Ok tt ∧ w_db w' = w_db w ∧
    w_trace w' = w_trace w ++ map (λ j, EvXAck (Stream cfg) (Group cfg) (j_entry j)) jobs) w.
Proof.
  intros Hk Hall. revert w Hk. induction Hall as [|j jobs Hj _ IH]; intros w Hk; cbn [map handle_batch].
  { wp_step. by rewrite app_nil_r. }
  wp_step. unfold handle_one. wp_step. wp_step. eapply wp_mono; [by apply quietly_stub_job|].
  intros [u|e|m] w1 (Hok & Hd & Ht); [|done..]. wp_step. apply wp_command. intros r Hr.
  assert (Hnext : ∀ w2, w_db w2 = w_db w1 → w_trace w2 = w_trace w1 ++ [EvXAck (Stream cfg) (Group cfg) (j_entry j)] →
    wp (handle_batch cfg (worker.handle stub_handler) (map entry_of jobs)) (λ r w', r = Ok tt ∧ w_db w' = w_db w ∧
      w_trace w' = w_trace w ++ EvXAck (Stream cfg) (Group cfg) (j_entry j)
        :: map (λ j, EvXAck (Stream cfg) (Group cfg) (j_entry j)) jobs) w2).
  { intros w2 Hd2 Ht2. eapply wp_mono; [apply IH; by rewrite Hd2, Hd|]. intros r' w3 (-> & Hd3 & Ht3).
    split_and!; [done|congruence|]. rewrite Ht3, Ht2, Ht, <- app_assoc. done. }
  destruct (env_redis (w_tick w1)); subst r; by apply Hnext.
Qed.

(** Every job of the transaction service that a consumer is delivered is
    acknowledged, in order, with no table changed and no sheet called. *)
Theorem service_jobs_acknowledged `{R : RedisLib} {RL : RedisLaws R} cfg jobs w :
  connections_keyed (w_db w) → Forall (λ j, in_int64 (j_since j)) jobs →
  env_done (w_tick w) = false →
  env_read (S (w_tick w)) = Ok [mkXStream (Stream cfg) (map entry_of jobs)] →
  wp (consume_round cfg (worker.handle stub_handler)) (λ r w', r = Ok Running ∧ w_db w' = w_db w ∧
    w_trace w' = w_trace w ++ EvXReadGroup (Stream cfg) (Group cfg) (ConsumerName cfg) 10 (BlockTimeout cfg)
      :: map (λ j, EvXAck (Stream cfg) (Group cfg) (j_entry j)) jobs) w.
Proof.
  intros Hk Hall Hdone Hread. unfold consume_round. wp_step. wp_step. rewrite Hdone. wp_step. wp_step.
  unfold wp at 1, XReadGroup. simpl w_tick. rewrite Hread. cbn [map xs_Messages concat]. rewrite app_nil_r.
  wp_step. eapply wp_mono; [by apply batch_of_jobs|]. intros r w' (-> & Hd & Ht). wp_step.
  split_and!; [done|done|]. rewrite Ht. simpl. by rewrite <- app_assoc.
Qed.

End Jobs.

(** ** A failed read *)

(** One failed read ends a consumer: [Start] returns the error in its first
    round, however many rounds it is given, and nothing is acknowledged
    again. *)
Theorem read_error_ends_worker {E : Env} {UL : UuidLib} {PP : projection.PgParams} cfg rounds e w :
  env_redis (w_tick w) = None → env_done (S (w_tick w)) = false →
  env_read (S (S (w_tick w))) = Err e → e ≠ sentinel ErrRedisNil →
  wp (sync_worker cfg (S rounds)) (λ r w', r = Ok (Some (Returned e)) ∧ w_db w' = w_db w ∧
    w_trace w' = w_trace w ++ [EvXGroupCreate (Stream cfg) (Group cfg);
      EvXReadGroup (Stream cfg) (Group cfg) (ConsumerName cfg) 10 (BlockTimeout cfg)]) w.
Proof.
  intros Hr Hd Hread Hne. unfold sync_worker, worker.Start. wp_step. unfold Consume. wp_step. wp_step.
  unfold wp at 1, ensureGroup, XGroupCreateMkStream, command. rewrite Hr. simpl.
  wp_step. unfold consume_round. wp_step. wp_step. simpl. rewrite Hd. wp_step. wp_step.
  unfold wp at 1, XReadGroup. simpl. rewrite Hread. rewrite bool_decide_eq_false_2 by done. wp_step. wp_step. wp_step.
  split_and!; [done|done|]. simpl. by rewrite <- app_assoc.
Qed.
