(* ===== verification/SyncWorker.v ===== *)
(** * SyncWorker: the worker on the [sync_queue] table

    Models [internal/sync/worker.go]: one round takes the due item that has
    waited longest, processes it, and deletes it or puts it off with a
    backoff that doubles.  [database/sql] reports a missing row with its own
    sentinel. *)

From S2P Require Import Prelude GoInt GoStrings GoTime GoValues Json Pgtypex Schema Sqlc Effects.
Import sqlcdb.

Module syncworker.

Record SyncQueueItem := mkSyncQueueItem {
  ID : Z; UserID : string; OpType : string; Payload : option json; Attempts : Z; AvailableAt : Time;
  MaxAttempts : Z; CreatedAt : Time }.

Section Worker.
Context {E : Env} {UL : UuidLib}.

(** ** Statements *)

Definition available_le (a b : SyncQueue) : Prop :=
  ts_Time (SyncQueue_AvailableAt a) <= ts_Time (SyncQueue_AvailableAt b).
#[export] Instance available_le_dec : RelDecision available_le.
Proof. unfold available_le. intros a b. apply _. Defined.

Definition item_of (r : SyncQueue) : SyncQueueItem :=
  mkSyncQueueItem (SyncQueue_ID r) (uuid_String (UUID_Bytes (SyncQueue_UserID r))) (SyncQueue_OpType r)
    (SyncQueue_Payload r) (SyncQueue_Attempts r) (ts_Time (SyncQueue_AvailableAt r)) (SyncQueue_MaxAttempts r)
    (ts_Time (SyncQueue_CreatedAt r)).

(** [WHERE available_at <= now() ORDER BY available_at LIMIT 1]. *)
Definition due (ctx : SqlCtx) (d : DB) : list SyncQueue :=
  merge_sort available_le
    (List.filter (λ r, ts_Time (SyncQueue_AvailableAt r) <=? ts_Time (ts_now ctx)) (map_to_list (sync_queue d)).*2).

Definition select_due : stmt SyncQueueItem := λ ctx d,
  match due ctx d with
  | r :: _ => Ok (item_of r, d)
  | [] => Err (sentinel ErrSqlNoRows)
  end.

Definition put_off (id attempts : Z) (available : SqlCtx → Timestamptz) : stmt unit := λ ctx d,
  try _ := require (bool_decide (in_int32 attempts)) "integer out of range" in
  Ok (tt, set_sync_queue (alter (λ r,
    mkSyncQueue (SyncQueue_ID r) (SyncQueue_UserID r) (SyncQueue_OpType r) (SyncQueue_Payload r) attempts
      (available ctx) (SyncQueue_MaxAttempts r) (SyncQueue_CreatedAt r) (SyncQueue_UpdatedAt r)
      (SyncQueue_DeletedAt r) (SyncQueue_Version r)) id (sync_queue d)) d).

Definition delete_item (id : Z) : stmt unit := λ _ d,
  Ok (tt, set_sync_queue (delete id (sync_queue d)) d).

(** ** One round *)

(** [time.Sleep]. *)
Definition Sleep (d : Z) : M unit := emit (EvWait d).

Definition processQueueItem (item : SyncQueueItem) : M unit := Sleep (100 * Millisecond).

(** [time.Duration(1<<item.Attempts) * time.Second]: a negative shift count
    panics. *)
Definition backoff (attempts : Z) : outcome Z :=
  if attempts <? 0 then Panic "negative shift amount" else Ok (int64 (shl1 attempts * Second)).

Definition markAttemptFailure (item : SyncQueueItem) : M unit :=
  let attempts := int64 (Attempts item + 1) in
  let! delay := lift (backoff attempts) in
  if MaxAttempts item <=? attempts then exec Pool (put_off (ID item) attempts ts_now)
  else
    let! now := Now in
    exec Pool (put_off (ID item) attempts (λ _, store_ts (mkTimestamptz (time.Add now delay) true))).

Definition deleteQueueItem (id : Z) : M unit := exec Pool (delete_item id).

(** The deferred rollback sees the error the function ends with: after an
    empty read the error is cleared, and the transaction stays open. *)
Definition rolling_back {A} (tx : Tx) (m : M A) : M A := λ w,
  match m w with
  | (Err e, w') => (Err e, snd (Rollback tx w'))
  | r => r
  end.

(** The part between [BeginTx] and the commit: the item, if there is one. *)
Definition take_item (tx : Tx) : M (option SyncQueueItem) := λ w,
  match exec (InTx tx) select_due w with
  | (Ok item, w') => (Ok (Some item), w')
  | (Err e, w') => if bool_decide (e = sentinel ErrSqlNoRows) then (Ok None, w') else (Err e, w')
  | (Panic s, w') => (Panic s, w')
  end.

Definition finish_item (item : SyncQueueItem) : M unit :=
  if ID item =? 0 then ret tt
  else
    let! r := attempt (processQueueItem item) in
    match r with
    | Err _ => markAttemptFailure item
    | _ => deleteQueueItem (ID item)
    end.

Definition consumeOnce : M unit :=
  let! tx := BeginTx in
  rolling_back tx
    (let! item := take_item tx in
     match item with
     | None => ret tt
     | Some item => Commit tx ;;; finish_item item
     end).

(** [StartWorker] for a number of ticks; it stops when the context is done. *)
Fixpoint StartWorker (ticks : nat) : M bool :=
  match ticks with
  | O => ret false
  | S n =>
      let! cancelled := Wait (5 * Second) in
      if cancelled : bool then ret true else discard consumeOnce ;;; StartWorker n
  end.

End Worker.

End syncworker.

Import syncworker.

(** ** The backoff *)

(** The delay doubles with each attempt up to the thirty-third, after
    which it leaves the range of a duration: the thirty-fourth is negative,
    and from the sixty-fourth on there is none. *)
Theorem backoff_doubles n :
  0 <= n →
  (n <= 33 → backoff n = Ok (2 ^ n * Second)) ∧
  (n = 34 → backoff n = Ok (2 ^ 34 * Second - 2 ^ 64) ∧ 2 ^ 34 * Second - 2 ^ 64 < 0) ∧
  (64 <= n → backoff n = Ok 0).
Proof.
  intros Hn. unfold backoff. destruct (Z.ltb_spec n 0); [lia|]. split_and!.
  - intros H33. rewrite shl1_small by lia. rewrite int64_id; [done|].
    pose proof (Z.pow_le_mono_r 2 n 33). pose proof (Z.pow_pos_nonneg 2 n).
    unfold in_int64, min_int64, max_int64, Second. lia.
  - intros ->. split; [by vm_compute|]. unfold Second. lia.
  - intros H64. by rewrite shl1_large.
Qed.

Section Facts.
Context {E : Env} {UL : UuidLib}.

(** Without a failure of [BeginTx] or of the read. *)
Lemma consumeOnce_quiet w :
  (∀ n, env_fault n = None) →
  consumeOnce w =
    let now := sql_now (env_sql (w_tick w)) in
    let w1 := set_txs ((w_db w, now) :: w_txs w) (tick (tick w)) in
    match due (ctx_at (S (w_tick w)) (Some now)) (w_db w) with
    | [] => (Ok tt, w1)
    | r :: _ => rolling_back (List.length (w_txs w)) (finish_item (item_of r)) (set_txs (w_txs w) (tick w1))
    end.
Proof.
  intros Hf. unfold consumeOnce, bind at 1, BeginTx. rewrite Hf. unfold rolling_back, bind at 1, take_item, exec.
  simpl. rewrite bool_decide_eq_true_2 by done. rewrite Hf. unfold select_due.
  destruct (due _ _) as [|r rest]; simpl; [done|].
  unfold bind at 1, Commit. simpl. rewrite bool_decide_eq_true_2 by done. by rewrite Hf.
Qed.

Lemma due_empty ctx d : sync_queue d = ∅ → due ctx d = [].
Proof. intros H. unfold due. by rewrite H. Qed.

(** A round that finds nothing to do leaves its transaction open: after
    [n] such rounds there are [n] more open transactions. *)
Theorem idle_rounds_leak n w :
  (∀ k, env_fault k = None) → (∀ k, env_done k = false) → sync_queue (w_db w) = ∅ →
  wp (StartWorker n) (λ r w', r = Ok false ∧ w_db w' = w_db w ∧
    List.length (w_txs w') = (n + List.length (w_txs w))%nat) w.
Proof.
  intros Hf Hd. revert w. induction n as [|n IH]; intros w Hq; cbn [StartWorker]; [by wp_step|].
  wp_step. unfold Wait. wp_step. wp_step. wp_step. rewrite Hd. wp_step. wp_step.
  unfold wp. rewrite consumeOnce_quiet by done. cbv zeta. rewrite due_empty by exact Hq.
  match goal with |- context [StartWorker n ?w1] => specialize (IH w1) end.
  eapply wp_mono; [apply IH; exact Hq|]. intros r w' (-> & Hdb & Hlen). split_and!; [done|done|].
  rewrite Hlen. simpl. lia.
Qed.

(** A round that finds due items takes one that has waited longest and
    deletes it, and leaves every other item as it was. *)
Theorem due_item_deleted w :
  (∀ n, env_fault n = None) →
  (∀ id r, sync_queue (w_db w) !! id = Some r → SyncQueue_ID r = id ∧ id ≠ 0) →
  (∃ id r, sync_queue (w_db w) !! id = Some r ∧
     ts_Time (SyncQueue_AvailableAt r) <= ts_Time (ts_now (mkSqlCtx (sql_now (env_sql (w_tick w))) 0 uuid_Nil))) →
  ∃ id r, sync_queue (w_db w) !! id = Some r ∧
    (∀ id' r', sync_queue (w_db w) !! id' = Some r' →
       ts_Time (SyncQueue_AvailableAt r) <= ts_Time (SyncQueue_AvailableAt r')) ∧
    wp consumeOnce (λ res w', res = Ok tt ∧ w_txs w' = w_txs w ∧
      w_db w' = set_sync_queue (delete id (sync_queue (w_db w))) (w_db w)) w.
Proof.
  intros Hf Hids (id0 & r0 & Hr0 & Hdue).
  set (ctx := ctx_at (S (w_tick w)) (Some (sql_now (env_sql (w_tick w))))).
  set (p := λ r, ts_Time (SyncQueue_AvailableAt r) <=? ts_Time (ts_now ctx)).
  assert (Hin : ∀ r, r ∈ due ctx (w_db w) ↔ p r = true ∧ ∃ id, sync_queue (w_db w) !! id = Some r).
  { intros r. unfold due. rewrite (merge_sort_Permutation available_le), list_elem_of_In, filter_In, <- list_elem_of_In.
    rewrite list_elem_of_fmap. split.
    - intros [([id x] & -> & Hx%elem_of_map_to_list) ?]. eauto.
    - intros [? [id Hx]]. split; [|done]. exists (id, r). by rewrite elem_of_map_to_list. }
  assert (Hsorted : StronglySorted available_le (due ctx (w_db w))).
  { assert (Transitive available_le) by (intros x y z; unfold available_le; lia).
    assert (Total available_le) by (intros x y; unfold available_le; lia). by apply StronglySorted_merge_sort. }
  assert (Hr0in : r0 ∈ due ctx (w_db w)).
  { apply Hin. split; [|eauto]. unfold p. apply Z.leb_le. exact Hdue. }
  destruct (due ctx (w_db w)) as [|r rest] eqn:Ed; [by apply elem_of_nil in Hr0in|].
  destruct (Hin r) as [Hr _]. destruct Hr as [Hp [id Hid]]; [apply list_elem_of_here|].
  destruct (Hids id r Hid) as [Hrid Hne].
  exists id, r. split; [done|]. split.
  - intros id' r' Hr'. destruct (p r') eqn:Ep.
    + assert (Hr'in : r' ∈ r :: rest) by (apply Hin; eauto).
      apply elem_of_cons in Hr'in as [->|Hr'in]; [done|].
      inversion Hsorted as [|? ? _ Hall]; subst. rewrite Forall_forall in Hall. by apply Hall.
    + unfold p in Hp, Ep. lia.
  - unfold wp. rewrite consumeOnce_quiet by done. cbv zeta. fold ctx. rewrite Ed.
    unfold rolling_back, finish_item. cbn [item_of ID]. rewrite Hrid.
    destruct (Z.eqb_spec id 0); [done|]. unfold processQueueItem, Sleep, emit, deleteQueueItem, bind, attempt, exec.
    rewrite Hf. simpl. done.
Qed.

End Facts.
