(* ===== verification/Http.v ===== *)
(** * Http: requests, responses and the authentication middleware

    Models [pkg/shared/httpx], [internal/auth/jwt_middleware.go] and what the
    handlers read of a request: headers, the query of its URL
    ([net/url.ParseQuery]), path parameters, body and context. *)

From S2P Require Import Prelude GoInt GoStrings GoTime GoValues Json Pgtypex Schema Effects Crypto AuthTokens.
Import strings.

(** ** [net/url] *)

Module url.

(** The pieces of a text between the occurrences of a byte. *)
Fixpoint split_on (c : ascii) (l : list ascii) : list (list ascii) :=
  match l with
  | [] => [[]]
  | d :: rest =>
      if Ascii.eqb c d then [] :: split_on c rest
      else match split_on c rest with
           | piece :: more => (d :: piece) :: more
           | [] => [[d]]
           end
  end.

(** [QueryUnescape]; [None] is an escape that is not followed by two
    hexadecimal digits. *)
Fixpoint unescape (l : list ascii) : option (list ascii) :=
  match l with
  | [] => Some []
  | c :: rest =>
      if Json.isb 37 c then
        match rest with
        | a :: b :: rest' =>
            hi ← hex.fromHexChar a; lo ← hex.fromHexChar b; t ← unescape rest'; Some (Json.ch (16 * hi + lo) :: t)
        | _ => None
        end
      else t ← unescape rest; Some ((if Json.isb 43 c then Json.ch 32 else c) :: t)
  end.

Definition QueryUnescape (l : list ascii) : option string := l ← unescape l; Some (of_chars l).

(** One piece of a query: pieces with a semicolon, empty ones and ones that
    cannot be unescaped are left out. *)
Definition pair_of (piece : list ascii) : list (string * string) :=
  if existsb (Json.isb 59) piece then []
  else
    match piece with
    | [] => []
    | _ =>
        let '(k, v) :=
          match SplitN2 (of_chars piece) (Json.ch 61) with
          | [k; v] => (k, v)
          | _ => (of_chars piece, ""%string)
          end in
        match QueryUnescape (to_chars k), QueryUnescape (to_chars v) with
        | Some k, Some v => [(k, v)]
        | _, _ => []
        end
    end.

(** [r.URL.Query()]. *)
Definition Query (raw : string) : list (string * string) :=
  flat_map pair_of (split_on (Json.ch 38) (to_chars raw)).

(** [Values.Get]: the first value of a key, or nothing. *)
Fixpoint Get (values : list (string * string)) (key : string) : string :=
  match values with
  | [] => ""
  | (k, v) :: rest => if String.eqb k key then v else Get rest key
  end.

End url.

(** ** [net/http] and chi *)

Module http.

(** Headers under their canonical names, path parameters as chi extracts
    them. *)
Record Request := mkRequest {
  Header : gmap string string; RawQuery : string; URLParams : gmap string string;
  Body : string; Context : auth.Context }.

Inductive ResponseBody :=
| BodyEmpty
| BodyText (s : string)
| BodyJSON (j : json).

Record Response := mkResponse { Status : Z; ContentType : string; Content : ResponseBody }.

Definition Handler : Type := Request → M Response.

(** [CanonicalHeaderKey] of a name made of token characters: a letter is
    upper case at the start and after a dash, and lower case elsewhere. *)
Fixpoint canonical_from (upper : bool) (s : string) : string :=
  match s with
  | EmptyString => EmptyString
  | String c rest =>
      String (if upper then upper_char c else lower_char c) (canonical_from (Json.isb 45 c) rest)
  end.

Definition CanonicalHeaderKey (key : string) : string := canonical_from true key.

Example debug_header_key : CanonicalHeaderKey "X-Debug-User-ID" = "X-Debug-User-Id"%string.
Proof. reflexivity. Qed.

(** [r.Header.Get] and [chi.URLParam]. *)
Definition header (r : Request) (key : string) : string := default "" (Header r !! CanonicalHeaderKey key).
Definition URLParam (r : Request) (key : string) : string := default "" (URLParams r !! key).

Definition WithContext (r : Request) (ctx : auth.Context) : Request :=
  mkRequest (Header r) (RawQuery r) (URLParams r) (Body r) ctx.

Definition StatusOK : Z := 200.
Definition StatusCreated : Z := 201.
Definition StatusAccepted : Z := 202.
Definition StatusNoContent : Z := 204.
Definition StatusBadRequest : Z := 400.
Definition StatusUnauthorized : Z := 401.
Definition StatusInternalServerError : Z := 500.
Definition StatusNotImplemented : Z := 501.

(** [w.WriteHeader(status)] and nothing else. *)
Definition WriteHeader (status : Z) : M Response := ret (mkResponse status "" BodyEmpty).

End http.

(** ** [httpx] *)

Module httpx.
Import http.

(** A value that cannot be encoded leaves the body empty, after the status
    was sent. *)
Definition WriteJSON (status : Z) (v : option json) : M Response :=
  ret (mkResponse status "application/json" (match v with Some j => BodyJSON j | None => BodyEmpty end)).

(** The error envelope, its inner struct flattened; [errorEnvelope] of
    [response.go] has the same fields. *)
Record ErrorBody := mkErrorBody { Error_Code : string; Error_Message : string }.

Definition ErrorBody_json (b : ErrorBody) : json :=
  JObj [("error", JObj [("code", JStr (Error_Code b)); ("message", JStr (Error_Message b))])]%string.

Definition error_json (code message : string) : json := ErrorBody_json (mkErrorBody code message).

Definition WriteError (status : Z) (code message : string) : M Response :=
  WriteJSON status (Some (error_json code message)).

End httpx.

(** ** Errors of a call

    [x, err := m; if err != nil { return h(err) }; k(x)]. *)
Definition on_error {A B} (m : M A) (h : error → M B) (k : A → M B) : M B := λ w,
  match m w with
  | (Ok a, w') => k a w'
  | (Err e, w') => h e w'
  | (Panic s, w') => (Panic s, w')
  end.

Lemma wp_on_error {A B} (m : M A) (h : error → M B) (k : A → M B) Q w :
  wp m (λ r w', match r with
                | Ok a => wp (k a) Q w'
                | Err e => wp (h e) Q w'
                | Panic s => Q (Panic s) w'
                end) w →
  wp (on_error m h k) Q w.
Proof. unfold wp, on_error. destruct (m w) as [[]]; auto. Qed.

Lemma reads_on_error {A B} (m : M A) (h : error → M B) (k : A → M B) :
  reads m → (∀ e, reads (h e)) → (∀ a, reads (k a)) → reads (on_error m h k).
Proof.
  intros Hm Hh Hk w. apply wp_on_error. eapply wp_mono; [apply Hm|]. intros r w1 (H1 & H2 & H3).
  destruct r as [a|e|msg]; [| |done].
  - eapply wp_mono; [apply Hk|]. intros ? w2 (?&?&?). split_and!; congruence.
  - eapply wp_mono; [apply Hh|]. intros ? w2 (?&?&?). split_and!; congruence.
Qed.

Lemma wp_WriteError status code message Q w :
  Q (Ok (http.mkResponse status "application/json" (http.BodyJSON (httpx.error_json code message)))) w →
  wp (httpx.WriteError status code message) Q w.
Proof. done. Qed.

Lemma reads_WriteJSON status v : reads (httpx.WriteJSON status v).
Proof. apply reads_ret. Qed.

Lemma reads_WriteError status code message : reads (httpx.WriteError status code message).
Proof. apply reads_WriteJSON. Qed.

#[export] Hint Resolve reads_on_error reads_WriteJSON reads_WriteError : reads.

(** ** [JWTMiddleware] *)

Section Middleware.
Context {P : Process} {J : JwtLib} {E : Env}.
Import http httpx.

Definition space : ascii := ascii_of_N 32.

(** The token of an [Authorization] header, or the message of its error. *)
Definition bearer_token (authHeader : string) : string + string :=
  if String.eqb authHeader "" then inr "missing Authorization header"%string
  else
    match SplitN2 authHeader space with
    | [scheme; token] =>
        if EqualFold_ascii scheme "Bearer" then inl token else inr "invalid Authorization header"%string
    | _ => inr "invalid Authorization header"%string
    end.

Definition JWTMiddleware (next : Handler) : Handler := λ r,
  match bearer_token (header r "Authorization") with
  | inr message => WriteError StatusUnauthorized "unauthorized" message
  | inl token =>
      on_error (auth.Verify token)
        (λ _, WriteError StatusUnauthorized "unauthorized" "invalid token")
        (λ '(userID, email),
           next (WithContext r (auth.WithEmail (auth.WithUserID (Context r) userID) email)))
  end.

End Middleware.
