(* ===== verification/Api.v ===== *)
(** * Api: the HTTP handlers and their routes

    Models [internal/api]: the handlers of transactions, sheet connections,
    synchronisation and authentication, the JSON they read and write, and
    the table of routes [registerAPIRoutes] builds, with the services
    [newApp] gives them.  Which route a request takes is decided by chi. *)

From S2P Require Import Prelude GoInt GoStrings GoTime GoValues Json Pgtypex Schema Sqlc Effects Crypto AuthTokens TxRunner Models Repositories AuthService Wiring Queue TransactionService Projection SyncService Http.
Import strings http httpx.
#[local] Open Scope string_scope.
#[local] Open Scope list_scope.

(** ** Requests and responses of transactions *)

Record createTransactionRequest := mkcreateTransactionRequest {
  cr_AccountID : string; cr_Amount : float64; cr_Currency : string; cr_Type : string;
  cr_CategoryID : option string; cr_Description : option string; cr_OccurredAt : string;
  cr_Metadata : JsonMap; cr_Source : string }.

Definition decode_transaction (body : string) : outcome createTransactionRequest :=
  try j := Json.Decode body in
  try fields := Json.members_of j in
  try account := Json.string_field "accountId" fields in
  try amount := Json.float_field "amount" fields in
  try currency := Json.string_field "currency" fields in
  try typ := Json.string_field "type" fields in
  try category := Json.string_ptr_field "categoryId" fields in
  try description := Json.string_ptr_field "description" fields in
  try occurred := Json.string_field "occurredAt" fields in
  try metadata := Json.map_field "metadata" fields in
  try source := Json.string_field "source" fields in
  Ok (mkcreateTransactionRequest account amount currency typ category description occurred metadata source).

Record transactionResponse := mktransactionResponse {
  tr_ID : string; tr_UserID : string; tr_AccountID : string; tr_Amount : float64; tr_Currency : string;
  tr_Type : string; tr_CategoryID : option string; tr_Description : option string; tr_OccurredAt : Time;
  tr_Metadata : JsonMap; tr_Version : Z; tr_LastModified : Time; tr_Source : string;
  tr_SheetsRowID : option string; tr_CreatedAt : Time; tr_UpdatedAt : Time; tr_DeletedAt : Time }.

(** The services never return a nil transaction without an error. *)
Definition mapTransaction (t : domain.Transaction) : transactionResponse :=
  mktransactionResponse (domain.ID t) (domain.UserID t) (domain.AccountID t) (domain.Amount t)
    (domain.Currency t) (domain.Type_ t) (domain.CategoryID t) (domain.Description t) (domain.OccurredAt t)
    (domain.Metadata t) (domain.Version t) (domain.LastModified t) (domain.Source t) (domain.SheetsRowID t)
    (domain.CreatedAt t) (domain.UpdatedAt t) (domain.DeletedAt t).

Definition mapTransactions (l : list domain.Transaction) : list transactionResponse := map mapTransaction l.

(** Members with [omitempty]. *)
Definition omit_nil (key : string) (v : option string) : list (string * json) :=
  match v with Some s => [(key, JStr s)] | None => [] end.
Definition omit_empty_map (key : string) (m : JsonMap) : list (string * json) :=
  match m with
  | Some m' => if bool_decide (m' = ∅) then [] else [(key, json_of_map m)]
  | None => []
  end.

(** [json.Marshal] of the response: none for a float that is not finite or a
    time outside the years 0 to 9999. *)
Definition transaction_json (t : transactionResponse) : option json :=
  occurred ← time.MarshalText (tr_OccurredAt t);
  modified ← time.MarshalText (tr_LastModified t);
  created ← time.MarshalText (tr_CreatedAt t);
  updated ← time.MarshalText (tr_UpdatedAt t);
  deleted ← time.MarshalText (tr_DeletedAt t);
  json_marshal (JObj (
    [("id", JStr (tr_ID t)); ("userId", JStr (tr_UserID t)); ("accountId", JStr (tr_AccountID t));
     ("amount", JFloat (tr_Amount t)); ("currency", JStr (tr_Currency t)); ("type", JStr (tr_Type t))]
    ++ omit_nil "categoryId" (tr_CategoryID t) ++ omit_nil "description" (tr_Description t)
    ++ [("occurredAt", JStr occurred)] ++ omit_empty_map "metadata" (tr_Metadata t)
    ++ [("version", JInt (tr_Version t)); ("lastModified", JStr modified); ("source", JStr (tr_Source t))]
    ++ omit_nil "sheetsRowId" (tr_SheetsRowID t)
    ++ [("createdAt", JStr created); ("updatedAt", JStr updated); ("deletedAt", JStr deleted)])).

Definition pagination_json (p : PaginationResult) : json :=
  JObj [("limit", JInt (Limit p)); ("offset", JInt (Offset p)); ("total", JInt (Total p))].

Definition list_json (items : list transactionResponse) (p : PaginationResult) : option json :=
  items ← mapM transaction_json items;
  Some (JObj [("items", JArr items); ("pagination", pagination_json p)]).

(** ** Requests and responses of authentication *)

Record loginRequest := mkloginRequest { lr_Email : string; lr_Password : string }.

(** [registerRequest] and [loginRequest] have the same fields. *)
Definition decode_login (body : string) : outcome loginRequest :=
  try j := Json.Decode body in
  try fields := Json.members_of j in
  try email := Json.string_field "email" fields in
  try password := Json.string_field "password" fields in
  Ok (mkloginRequest email password).

(** [refreshRequest] and [logoutRequest]. *)
Definition decode_refresh (body : string) : outcome string :=
  try j := Json.Decode body in
  try fields := Json.members_of j in
  Json.string_field "refreshToken" fields.

Record userResponse := mkuserResponse { us_ID : string; us_Email : string; us_CreatedAt : string }.
Record registerResponse := mkregisterResponse { rr_User : userResponse }.

Definition userResponse_json (u : userResponse) : json :=
  JObj [("id", JStr (us_ID u)); ("email", JStr (us_Email u)); ("createdAt", JStr (us_CreatedAt u))].
Definition registerResponse_json (r : registerResponse) : json :=
  JObj [("user", userResponse_json (rr_User r))].

Definition tokens_json (access refresh : string) : json :=
  JObj [("accessToken", JStr access); ("refreshToken", JStr refresh)].

(** ** Synchronisation *)

Definition connection_json (c : sync.SheetsConnection) : json :=
  JObj ([("id", JStr (sync.ID c)); ("userId", JStr (sync.UserID c)); ("sheetId", JStr (sync.SheetID c));
         ("sheetRange", JStr (sync.SheetRange c)); ("syncMode", JStr (sync.SyncMode c))]
        ++ match sync.LastSyncedAt c with Some n => [("lastSyncedAt", JInt n)] | None => [] end).

(** [_ = json.NewDecoder(r.Body).Decode(&req)]: a field that is refused
    keeps what it has, and decoding goes on; a text that is no JSON value
    leaves the request empty. *)
Definition trigger_put (s : string) (j : json) : outcome string :=
  Ok (match j with JStr t => t | JNull => "" | _ => s end).

Definition trigger_connection (body : string) : string :=
  match (try j := Json.Decode body in try fields := Json.members_of j in
         decode_field trigger_put "connectionId" fields "") with
  | Ok s => s
  | _ => ""
  end.

(** [json.Marshal] of the map literal: members in key order. *)
Definition trigger_payload (userID connID : string) : string :=
  of_chars (Json.object [("connectionId", Json.quote connID); ("mode", Json.quote "full");
    ("sinceVersion", Json.int_text 0); ("userId", Json.quote userID)]).

(** ** Handlers *)

Record Services := mkServices {
  Transactions : TransactionService; Auth : option authServiceImpl; Sync : sync.SyncService;
  SyncQueue : option service.SyncQueue; Connections : option sync.SheetsConnectionRepository }.

Section Handlers.
Context {E : Env} {P : Process} {U : Unicode} {UL : UuidLib} {J : JwtLib} {B : BcryptLib}.

(** The user in the context, or the debug header. *)
Definition userIDFromRequest (r : Request) : string :=
  let id := auth.UserIDFromContext (Context r) in
  if negb (String.eqb id "") then id else header r "X-Debug-User-ID".

Definition handleHealth : Handler := λ _, ret (mkResponse StatusOK "application/json" (BodyText (of_chars (Json.object [("status", Json.quote "ok")])))).

Definition handleOAuthCallback : Handler := λ _,
  ret (mkResponse StatusNotImplemented "" (BodyText "oauth callback not implemented yet")).

Definition unauthorized : M Response := WriteError StatusUnauthorized "unauthorized" "missing user".
Definition invalid_request (message : string) : M Response := WriteError StatusBadRequest "invalid_request" message.
Definition internal_error (message : string) : M Response :=
  WriteError StatusInternalServerError "internal_error" message.

Definition handleListTransactions (h : Services) : Handler := λ r,
  let userID := userIDFromRequest r in
  if String.eqb userID "" then unauthorized
  else
    let limit := fst (strconv.Atoi (url.Get (url.Query (RawQuery r)) "limit")) in
    let offset := fst (strconv.Atoi (url.Get (url.Query (RawQuery r)) "offset")) in
    on_error (ListUserTransactionsWithCount (Transactions h) userID limit offset)
      (λ _, internal_error "failed to list transactions")
      (λ '(items, page), WriteJSON StatusOK (list_json (mapTransactions items) page)).

(** The body of create and update requests, with its parsed time. *)
Definition with_transaction (r : Request) (k : createTransactionRequest → Time → M Response) : M Response :=
  match decode_transaction (Body r) with
  | Err _ => invalid_request "invalid body"
  | Panic m => gopanic m
  | Ok req =>
      match time.Parse_RFC3339 (cr_OccurredAt req) with
      | None => invalid_request "invalid occurredAt"
      | Some occurredAt => k req occurredAt
      end
  end.

Definition create_input (userID : string) (req : createTransactionRequest) (occurredAt : Time) : CreateTransactionInput :=
  mkCreateTransactionInput userID (cr_AccountID req) (cr_Amount req) (cr_Currency req) (cr_Type req)
    (cr_CategoryID req) (cr_Description req) occurredAt (cr_Metadata req) (cr_Source req).

Definition handleCreateTransaction (h : Services) : Handler := λ r,
  let userID := userIDFromRequest r in
  if String.eqb userID "" then unauthorized
  else
    with_transaction r (λ req occurredAt,
      on_error (CreateTransaction (Transactions h) (create_input userID req occurredAt))
        (λ _, internal_error "failed to create transaction")
        (λ tx, WriteJSON StatusCreated (transaction_json (mapTransaction tx)))).

Definition handleGetTransaction (h : Services) : Handler := λ r,
  let userID := userIDFromRequest r in
  if String.eqb userID "" then unauthorized
  else
    let id := URLParam r "id" in
    if String.eqb id "" then invalid_request "missing id"
    else
      on_error (GetTransaction (Transactions h) userID id)
        (λ _, internal_error "failed to get transaction")
        (λ tx, WriteJSON StatusOK (transaction_json (mapTransaction tx))).

Definition update_input (req : createTransactionRequest) (occurredAt : Time) : UpdateTransactionInput :=
  mkUpdateTransactionInput (cr_AccountID req) (cr_Amount req) (cr_Currency req) (cr_Type req)
    (cr_CategoryID req) (cr_Description req) occurredAt (cr_Metadata req) (cr_Source req).

Definition handleUpdateTransaction (h : Services) : Handler := λ r,
  let userID := userIDFromRequest r in
  if String.eqb userID "" then unauthorized
  else
    let id := URLParam r "id" in
    if String.eqb id "" then invalid_request "missing id"
    else
      with_transaction r (λ req occurredAt,
        on_error (UpdateTransaction (Transactions h) userID id (update_input req occurredAt))
          (λ _, internal_error "failed to update transaction")
          (λ tx, WriteJSON StatusOK (transaction_json (mapTransaction tx)))).

Definition handleDeleteTransaction (h : Services) : Handler := λ r,
  let userID := userIDFromRequest r in
  if String.eqb userID "" then unauthorized
  else
    let id := URLParam r "id" in
    if String.eqb id "" then invalid_request "missing id"
    else
      on_error (SoftDeleteTransaction (Transactions h) userID id)
        (λ _, internal_error "failed to delete transaction")
        (λ _, WriteHeader StatusNoContent).

Definition handleListSheetsConnections (connections : sync.SheetsConnectionRepository) : Handler := λ r,
  let userID := userIDFromRequest r in
  if String.eqb userID "" then unauthorized
  else
    on_error (sync.ListActiveByUser connections userID)
      (λ _, internal_error "failed to list connections")
      (λ l, WriteJSON StatusOK (Some (JObj [("connections", JArr (map connection_json l))]))).

Definition handleSyncTrigger (queue : service.SyncQueue) : Handler := λ r,
  let userID := userIDFromRequest r in
  if String.eqb userID "" then unauthorized
  else
    let payload := trigger_payload userID (trigger_connection (Body r)) in
    on_error (service.EnqueueSyncJob queue (service.mkSyncJob "sync" "trigger" payload))
      (λ _, internal_error "failed to enqueue sync")
      (λ _, WriteJSON StatusAccepted (Some (JObj [("status", JStr "accepted")]))).

(** ** Authentication *)

Definition userToResponse (u : User) : userResponse :=
  mkuserResponse (uuid_String (User_ID u)) (User_Email u) (time.Format_millis (User_CreatedAt u)).

Definition with_login (r : Request) (k : loginRequest → M Response) : M Response :=
  match decode_login (Body r) with
  | Err _ => invalid_request "invalid body"
  | Panic m => gopanic m
  | Ok req =>
      if String.eqb (lr_Email req) "" || String.eqb (lr_Password req) ""
      then WriteError StatusBadRequest "validation_error" "email and password required"
      else k req
  end.

Definition with_refresh_token (r : Request) (k : string → M Response) : M Response :=
  match decode_refresh (Body r) with
  | Err _ => invalid_request "invalid body"
  | Panic m => gopanic m
  | Ok token =>
      if String.eqb token "" then WriteError StatusBadRequest "validation_error" "refreshToken required"
      else k token
  end.

Definition handleRegister (svc : authServiceImpl) : Handler := λ r,
  with_login r (λ req,
    on_error (Register svc (lr_Email req) (lr_Password req))
      (λ e, WriteError StatusBadRequest "registration_failed" (Error e))
      (λ user, WriteJSON StatusCreated (Some (registerResponse_json (mkregisterResponse (userToResponse user)))))).

Definition handleLogin (svc : authServiceImpl) : Handler := λ r,
  with_login r (λ req,
    on_error (Authenticate svc (lr_Email req) (lr_Password req))
      (λ e, if Is e ErrInvalidCredentials
            then WriteError StatusUnauthorized "invalid_credentials" "invalid email or password"
            else internal_error "authentication failed")
      (λ '(access, refresh), WriteJSON StatusOK (Some (tokens_json access refresh)))).

Definition handleRefresh (svc : authServiceImpl) : Handler := λ r,
  with_refresh_token r (λ token,
    on_error (Refresh svc token)
      (λ e, if Is e ErrRefreshTokenInvalid
            then WriteError StatusUnauthorized "invalid_refresh_token" "refresh token invalid or expired"
            else internal_error "refresh failed")
      (λ '(access, refresh), WriteJSON StatusOK (Some (tokens_json access refresh)))).

Definition handleLogout (svc : authServiceImpl) : Handler := λ r,
  with_refresh_token r (λ token,
    on_error (Revoke svc token)
      (λ e, if Is e ErrRefreshTokenInvalid
            then WriteError StatusBadRequest "invalid_refresh_token" "refresh token invalid"
            else internal_error "revoke failed")
      (λ _, WriteHeader StatusNoContent)).

(** ** Routes *)

Record Route := mkRoute { Method : string; Pattern : string; Handle : Handler }.

Definition RegisterAuthHandlers (svc : authServiceImpl) : list Route :=
  [mkRoute "POST" "/api/v1/auth/register" (handleRegister svc);
   mkRoute "POST" "/api/v1/auth/login" (handleLogin svc);
   mkRoute "POST" "/api/v1/auth/refresh" (handleRefresh svc);
   mkRoute "POST" "/api/v1/auth/logout" (handleLogout svc)].

(** The routes of the group, before the middleware is put around them. *)
Definition group_routes (h : Services) : list Route :=
  [mkRoute "GET" "/api/v1/transactions/" (handleListTransactions h);
   mkRoute "POST" "/api/v1/transactions/" (handleCreateTransaction h);
   mkRoute "GET" "/api/v1/transactions/{id}" (handleGetTransaction h);
   mkRoute "PUT" "/api/v1/transactions/{id}" (handleUpdateTransaction h);
   mkRoute "DELETE" "/api/v1/transactions/{id}" (handleDeleteTransaction h)]
  ++ match Connections h with
     | Some c => [mkRoute "GET" "/api/v1/sheets/connections" (handleListSheetsConnections c)]
     | None => []
     end
  ++ match SyncQueue h with
     | Some q => [mkRoute "POST" "/api/v1/sync/trigger" (handleSyncTrigger q)]
     | None => []
     end.

Definition guarded (t : Route) : Route := mkRoute (Method t) (Pattern t) (JWTMiddleware (Handle t)).

Definition registerAPIRoutes (h : Services) : list Route :=
  match Auth h with Some svc => RegisterAuthHandlers svc | None => [] end ++ map guarded (group_routes h).

Definition RegisterAPIRoutes (h : Services) : list Route := registerAPIRoutes h.

Definition RegisterRoutes (h : Services) : list Route :=
  mkRoute "GET" "/health" handleHealth :: mkRoute "GET" "/auth/oauth-callback" handleOAuthCallback
  :: registerAPIRoutes h.

End Handlers.

(** ** The services of the finance-api ([newApp])

    [redis] and [sheets]: whether Redis and the Google client are
    configured. *)
Section App.
Context {E : Env} {UL : UuidLib} {PL : PgtypeLib} {PS : queries.PgServer} {PP : projection.PgParams}.

Definition newApp (redis sheets : bool) : Services :=
  mkServices (NewTransactionService redis) (Some NewAuthService)
    (sync.NewSyncService (if sheets then sync.NewGoogleSheetsClient true else sync.NoopSheetsClient))
    (app_sync_queue redis) (Some sync.NewPGShedsConnectionRepository).

End App.
