(* ===== verification/ApiFacts.v ===== *)
(** * ApiFacts: what the HTTP API guarantees

    Routes outside [/api/v1/auth] act for the user of a valid token and for
    nobody else; GET changes nothing; the status of a write tells what
    happened to the database; a failed login tells nothing about the account;
    the job of a sync trigger is understood by its handler. *)

From S2P Require Import Prelude GoInt GoStrings Base64 GoTime GoValues Json Pgtypex Schema Sqlc Effects Crypto AuthTokens TxRunner Models Repositories AuthService Wiring Queue TransactionService Outbox Access Sessions Projection SyncService SyncFacts Http Api.
Import strings http httpx stringsx.

(** ** Authentication of requests *)

Section Routes.
Context {E : Env} {P : Process} {U : Unicode} {UL : UuidLib} {J : JwtLib} {B : BcryptLib}.

(** The routes for which no token is asked. *)
Definition is_auth_route (t : Route) : bool := String.prefix "/api/v1/auth/" (Pattern t).

Lemma group_not_auth h t : t ∈ group_routes h → is_auth_route t = false.
Proof.
  unfold group_routes. rewrite !elem_of_app. intros [H|[H|H]].
  - by repeat (apply elem_of_cons in H as [->|H]; [done|]); apply elem_of_nil in H.
  - destruct (Connections h); [|by apply elem_of_nil in H]. apply list_elem_of_singleton in H as ->. done.
  - destruct (SyncQueue h); [|by apply elem_of_nil in H]. apply list_elem_of_singleton in H as ->. done.
Qed.

Lemma protected_guarded h t :
  t ∈ registerAPIRoutes h → is_auth_route t = false → ∃ t0, t0 ∈ group_routes h ∧ t = guarded t0.
Proof.
  unfold registerAPIRoutes. rewrite elem_of_app. intros [H|H] Hp.
  - destruct (Auth h); [|by apply elem_of_nil in H]. unfold RegisterAuthHandlers in H.
    repeat (apply elem_of_cons in H as [->|H]; [done|]); by apply elem_of_nil in H.
  - apply list_elem_of_fmap in H as (t0 & -> & H). eauto.
Qed.

(** The token of a request that the middleware accepts, and its user. *)
Definition authenticated (r : Request) (w : World) (user email : string) (w' : World) : Prop :=
  ∃ token, bearer_token (header r "Authorization") = inl token ∧ auth.Verify token w = (Ok (user, email), w').

Lemma reads_Verify token : reads (auth.Verify token).
Proof.
  unfold auth.Verify. apply reads_bind; [auto with reads|]. intros jwtKey.
  apply reads_bind; [apply (reads_tick (λ w, Ok (env_clock (w_tick w))))|]. intros now.
  apply reads_bind; [auto with reads|]. intros [claims valid].
  destruct (negb valid); auto with reads.
Qed.

Lemma wp_unauthorized h t r w :
  t ∈ registerAPIRoutes h → is_auth_route t = false →
  (∀ token, bearer_token (header r "Authorization") = inl token → ∃ e, fst (auth.Verify token w) = Err e) →
  wp (Handle t r) (λ res w', unchanged w res w' ∧
    ∃ message, res = Ok (mkResponse 401 "application/json" (BodyJSON (error_json "unauthorized" message)))) w.
Proof.
  intros Ht Hp Hbad. destruct (protected_guarded h t Ht Hp) as (t0 & _ & ->). simpl. unfold JWTMiddleware.
  destruct (bearer_token _) as [token|message]; [|apply wp_WriteError; split; [done|by eexists]].
  specialize (Hbad token eq_refl) as [e He]. apply wp_on_error.
  eapply wp_mono; [apply wp_and; [apply reads_Verify|]|].
  - instantiate (1 := λ r _, r = Err e). unfold wp. by destruct (auth.Verify token w).
  - intros res w' [Hu ->]. apply wp_WriteError. split; [done|by eexists].
Qed.

(** A token that does not parse under the key is refused. *)
Lemma Verify_unparsed token key w e :
  auth.initJWTKey = Ok key → jwt_ParseWithClaims (env_clock (w_tick w)) (auth.keyfunc key) token = Err e →
  ∃ e', fst (auth.Verify token w) = Err e'.
Proof.
  intros Hk He. unfold auth.Verify, bind, lift, Now. rewrite Hk. cbn. rewrite He. cbn. by eexists.
Qed.

(** C8: every route outside [/api/v1/auth] answers 401 to a request without a
    token that verifies, and does nothing else. *)
Theorem protected_needs_token h t r w :
  t ∈ registerAPIRoutes h → is_auth_route t = false →
  (∀ token, bearer_token (header r "Authorization") = inl token → ∃ e, fst (auth.Verify token w) = Err e) →
  wp (Handle t r) (λ res w', unchanged w res w' ∧
    ∃ message, res = Ok (mkResponse 401 "application/json" (BodyJSON (error_json "unauthorized" message)))) w.
Proof. apply wp_unauthorized. Qed.

(** What a handler of the group reads of a request. *)
Definition same_request (r1 r2 : Request) : Prop :=
  userIDFromRequest r1 = userIDFromRequest r2 ∧ RawQuery r1 = RawQuery r2 ∧
  URLParams r1 = URLParams r2 ∧ Body r1 = Body r2.

Lemma group_reads h t r1 r2 : t ∈ group_routes h → same_request r1 r2 → Handle t r1 = Handle t r2.
Proof.
  intros Ht (Hu & Hq & Hp & Hb). unfold group_routes in Ht. rewrite !elem_of_app in Ht.
  assert (Hid : URLParam r1 "id" = URLParam r2 "id") by (unfold URLParam; by rewrite Hp).
  destruct Ht as [H|[H|H]].
  - repeat (apply elem_of_cons in H as [->|H]); [..|by apply elem_of_nil in H]; cbn [Handle];
      unfold handleListTransactions, handleCreateTransaction, handleGetTransaction, handleUpdateTransaction,
        handleDeleteTransaction, with_transaction; by rewrite ?Hu, ?Hq, ?Hid, ?Hb.
  - destruct (Connections h); [|by apply elem_of_nil in H]. apply list_elem_of_singleton in H as ->. cbn [Handle].
    unfold handleListSheetsConnections. by rewrite Hu.
  - destruct (SyncQueue h); [|by apply elem_of_nil in H]. apply list_elem_of_singleton in H as ->. cbn [Handle].
    unfold handleSyncTrigger. by rewrite Hu, Hb.
Qed.

(** C9: with a token that verifies, a request acts for the user the token
    names: two requests with the same query, path, body and user in their
    tokens are answered alike, whatever the other headers and the context
    they come with, the debug header included. *)
Theorem token_decides_user h t r1 r2 user e1 e2 w w' :
  t ∈ registerAPIRoutes h → is_auth_route t = false → user ≠ ""%string →
  authenticated r1 w user e1 w' → authenticated r2 w user e2 w' →
  RawQuery r1 = RawQuery r2 → URLParams r1 = URLParams r2 → Body r1 = Body r2 →
  Handle t r1 w = Handle t r2 w.
Proof.
  intros Ht Hp Huser (k1 & Hk1 & Hv1) (k2 & Hk2 & Hv2) Hq Hpar Hb.
  destruct (protected_guarded h t Ht Hp) as (t0 & Ht0 & ->). simpl. unfold JWTMiddleware, on_error.
  rewrite Hk1, Hk2, Hv1, Hv2. apply (f_equal (λ m : M Response, m w')), (group_reads h t0); [done|].
  assert (Hid : ∀ r e, userIDFromRequest (WithContext r (auth.WithEmail (auth.WithUserID (Context r) user) e)) = user).
  { intros r e. unfold userIDFromRequest. cbn [WithContext Context]. rewrite auth.UserIDFromContext_With. by destruct (String.eqb_spec user ""). }
  split; [by rewrite !Hid|done].
Qed.

End Routes.

(** ** The API of the finance-api *)

Section App.
Context {E : Env} {P : Process} {U : Unicode} {UL : UuidLib} {ULaws : UuidLaws UL} {J : JwtLib} {B : BcryptLib}.
Context {PL : PgtypeLib} {PS : queries.PgServer} {PP : projection.PgParams}.

(** *** Safe methods *)

Lemma reads_JWTMiddleware next : (∀ r, reads (next r)) → ∀ r, reads (JWTMiddleware next r).
Proof.
  intros Hn r. unfold JWTMiddleware. destruct (bearer_token _); [|auto with reads].
  apply reads_on_error; [apply reads_Verify|auto with reads|]. by intros [user email].
Qed.

Lemma reads_ListUserTransactionsWithCount redis user limit offset :
  reads (ListUserTransactionsWithCount (NewTransactionService redis) user limit offset).
Proof.
  unfold ListUserTransactionsWithCount. destruct (pagination.Normalize limit offset) as [l o].
  apply reads_bind; [intros w; apply wp_adapter_ListByUser|]. intros items.
  apply reads_bind; [|auto with reads]. apply reads_bind; [auto with reads|]. intros u.
  apply reads_bind; [|auto with reads]. intros w. simpl. unfold List_. apply wp_read.
Qed.

Lemma reads_GetTransaction redis user id : reads (GetTransaction (NewTransactionService redis) user id).
Proof. intros w. apply wp_adapter_GetByID. Qed.

(** C32: GET is safe: no request to a GET route changes the database, sends a
    command to Redis or calls a sheet. *)
Theorem get_is_safe redis sheets t r w :
  t ∈ RegisterRoutes (newApp redis sheets) → Method t = "GET"%string → wp (Handle t r) (unchanged w) w.
Proof.
  intros Ht Hm. revert w. change (reads (Handle t r)). unfold RegisterRoutes in Ht.
  apply elem_of_cons in Ht as [->|Ht]; [apply reads_ret|].
  apply elem_of_cons in Ht as [->|Ht]; [apply reads_ret|].
  unfold registerAPIRoutes in Ht. apply elem_of_app in Ht as [Ht|Ht].
  - unfold newApp in Ht. cbn [Auth] in Ht. unfold RegisterAuthHandlers in Ht.
    by repeat (apply elem_of_cons in Ht as [->|Ht]; [done|]); apply elem_of_nil in Ht.
  - apply list_elem_of_fmap in Ht as (t0 & -> & Ht). apply reads_JWTMiddleware. clear r. intros r.
    unfold group_routes in Ht. rewrite !elem_of_app in Ht. destruct Ht as [Ht|[Ht|Ht]].
    + repeat (apply elem_of_cons in Ht as [->|Ht]; [try done; cbn [Handle]|]); [..|by apply elem_of_nil in Ht].
      * unfold handleListTransactions. destruct (String.eqb _ _); [apply reads_WriteError|].
        apply reads_on_error; [apply reads_ListUserTransactionsWithCount|intros; apply reads_WriteError|].
        intros [items p]. apply reads_WriteJSON.
      * unfold handleGetTransaction. destruct (String.eqb _ _); [apply reads_WriteError|].
        destruct (String.eqb _ _); [apply reads_WriteError|].
        apply reads_on_error; [apply reads_GetTransaction|intros; apply reads_WriteError|].
        intros tx. apply reads_WriteJSON.
    + cbn [newApp Connections] in Ht. apply list_elem_of_singleton in Ht as ->. cbn [Handle].
      unfold handleListSheetsConnections. destruct (String.eqb _ _); [apply reads_WriteError|].
      apply reads_on_error; [apply reads_exec|intros; apply reads_WriteError|]. intros l. apply reads_WriteJSON.
    + unfold newApp, app_sync_queue in Ht. cbn [SyncQueue] in Ht. destruct redis; [|by apply elem_of_nil in Ht].
      apply list_elem_of_singleton in Ht as ->. done.
Qed.

(** *** Writes *)

(** The answer to a write: its success status says that the write was
    recorded and its job sent, any other status that nothing was, but for the
    internal error of a commit that was applied. *)
Definition answered (op : string) (redis : bool) (since : domain.Transaction → Z) (success : Z)
    (w : World) (r : outcome Response) (w' : World) : Prop :=
  w_txs w' = w_txs w ∧
  match r with
  | Ok resp =>
      if Status resp =? success
      then ∃ tx, recorded op (w_db w) (w_db w') tx ∧
             w_trace w' = w_trace w ++ (if redis then [job_event op tx (since tx)] else []) ∧
             (Content resp = BodyEmpty ∨ ∃ j, transaction_json (mapTransaction tx) = Some j ∧ Content resp = BodyJSON j)
      else w_trace w' = w_trace w ∧
           (w_db w' = w_db w ∨ (Status resp = 500 ∧ ∃ tx, recorded op (w_db w) (w_db w') tx))
  | Err _ => False
  | Panic _ => w_trace w' = w_trace w ∧ w_db w' = w_db w
  end.

Lemma answered_refused op redis since success w status code message :
  status ≠ success → wp (WriteError status code message) (answered op redis since success w) w.
Proof.
  intros Hne. apply wp_WriteError. split; [done|]. cbn [Status]. by destruct (Z.eqb_spec status success); [|auto].
Qed.

(** A service call behind a handler. *)
Lemma answered_call op redis since success message (m : M domain.Transaction) (k : domain.Transaction → M Response) w :
  success ≠ 500 →
  wp m (λ r w', w_txs w' = w_txs w ∧ write_post op redis since (w_db w) (w_trace w) r w') w →
  (∀ tx w1, ∃ resp, k tx w1 = (Ok resp, w1) ∧ Status resp = success ∧
     (Content resp = BodyEmpty ∨ ∃ j, transaction_json (mapTransaction tx) = Some j ∧ Content resp = BodyJSON j)) →
  wp (on_error m (λ _, internal_error message) k) (answered op redis since success w) w.
Proof.
  intros Hs Hm Hk. apply wp_on_error. eapply wp_mono; [exact Hm|]. intros [tx|e|msg] w1 [Htx Hpost]; simpl in Hpost.
  - destruct (Hk tx w1) as (resp & Hr & Hst & Hb). unfold wp. rewrite Hr. split; [done|]. rewrite Hst, Z.eqb_refl.
    destruct Hpost. eauto.
  - apply wp_WriteError. split; [done|]. cbn [Status]. destruct (Z.eqb_spec StatusInternalServerError success); [done|].
    destruct Hpost as [Htr [Hd|[_ Hrec]]]; eauto.
  - by destruct Hpost.
Qed.

Lemma written_json status tx w1 :
  ∃ resp, WriteJSON status (transaction_json (mapTransaction tx)) w1 = (Ok resp, w1) ∧ Status resp = status ∧
    (Content resp = BodyEmpty ∨ ∃ j, transaction_json (mapTransaction tx) = Some j ∧ Content resp = BodyJSON j).
Proof. eexists. split; [reflexivity|]. split; [done|]. destruct (transaction_json _); simpl; eauto. Qed.

Lemma answered_with_transaction op redis since success r k w :
  success ≠ 400 → (∀ req t, wp (k req t) (answered op redis since success w) w) →
  wp (with_transaction r k) (answered op redis since success w) w.
Proof.
  intros Hs Hk. unfold with_transaction. destruct (decode_transaction (Body r)) as [req|e|m]; [|by apply answered_refused|done].
  destruct (time.Parse_RFC3339 _); [apply Hk|by apply answered_refused].
Qed.

(** C10: the status of a write tells what happened: 201, 200 and 204 that the
    row and its event were stored in one step and the job sent, every other
    status that none of it was, but for an internal error after a commit that
    was applied and whose answer was lost. *)
Theorem write_status redis sheets r w :
  keyed (w_db w) →
  wp (handleCreateTransaction (newApp redis sheets) r) (answered "create" redis (λ _, 0) 201 w) w ∧
  wp (handleUpdateTransaction (newApp redis sheets) r) (answered "update" redis since_version 200 w) w ∧
  wp (handleDeleteTransaction (newApp redis sheets) r) (answered "delete" redis since_version 204 w) w.
Proof.
  intros Hk. unfold handleCreateTransaction, handleUpdateTransaction, handleDeleteTransaction. cbv zeta.
  destruct (String.eqb (userIDFromRequest r) ""); [split_and!; by apply answered_refused|].
  split_and!; [|destruct (String.eqb _ _); [by apply answered_refused|]..].
  - apply answered_with_transaction; [done|]. intros req t. apply answered_call; [done|apply wp_CreateTransaction|].
    intros. apply written_json.
  - apply answered_with_transaction; [done|]. intros req t. apply answered_call; [done|by apply wp_UpdateTransaction|].
    intros. apply written_json.
  - apply answered_call; [done|by apply wp_SoftDeleteTransaction|]. intros tx w1. eexists. split; [reflexivity|].
    split; [done|by left].
Qed.

(** *** Login *)

Lemma GetByEmail_found email w :
  (∀ n, env_fault n = None) →
  GetByEmail email w =
    (match List.find (λ u, String.eqb (queries.pg_lower (sqlcdb.User_Email u)) (queries.pg_lower email) && queries.user_live u)
             (queries.users_list (w_db w)) with
     | Some u => Ok (sqlcRowToUser u)
     | None => Err (sentinel ErrNoRows)
     end, tick w).
Proof.
  intros Hf. unfold GetByEmail, bind, no_rows_or, exec, queries.GetUserByEmail, read_stmt. rewrite Hf.
  by destruct (List.find _ _).
Qed.

(** An unknown address and a wrong password are answered alike: any login
    with credentials that match no live user gets the same 401 and leaves
    nothing behind. *)
Theorem login_uniform {BL : BcryptLaws B} req r w :
  (∀ n, env_fault n = None) → decode_login (Body r) = Ok req →
  lr_Email req ≠ ""%string → lr_Password req ≠ ""%string →
  (∀ u, u ∈ queries.users_list (w_db w) → queries.user_live u = true →
     queries.pg_lower (sqlcdb.User_Email u) = queries.pg_lower (NormalizeEmail (lr_Email req)) →
     is_ok (bcrypt_CompareHashAndPassword (sqlcdb.User_HashedPassword u) (lr_Password req)) = false) →
  wp (handleLogin NewAuthService r) (λ res w', unchanged w res w' ∧ res = Ok (mkResponse 401 "application/json"
    (BodyJSON (error_json "invalid_credentials" "invalid email or password")))) w.
Proof.
  intros Hf Hreq He Hp Hno. unfold handleLogin, with_login. rewrite Hreq.
  destruct (String.eqb_spec (lr_Email req) "") as [|_]; [done|].
  destruct (String.eqb_spec (lr_Password req) "") as [|_]; [done|]. cbn [orb].
  assert (Hauth : ∃ w1, Authenticate NewAuthService (lr_Email req) (lr_Password req) w
    = (Err (sentinel ErrInvalidCredentials), w1) ∧ (w1 = w ∨ w1 = tick w)).
  { destruct (decide (NormalizeEmail (lr_Email req) = ""%string)) as [E0|Hne].
    - exists w. split; [|by left]. unfold Authenticate. rewrite E0. done.
    - exists (tick w). split; [|by right]. eapply Authenticate_rejects; [done..|by apply GetByEmail_found|].
      unfold rejected. destruct (List.find _ _) as [u|] eqn:Efind; [|done]. apply find_some in Efind as [Hin Hu].
      apply andb_true_iff in Hu as [Hu Hlive]. split; [|intros m; by apply (bcrypt_no_panic 0)].
      apply Hno; [by apply list_elem_of_In|done|]. by apply String.eqb_eq in Hu. }
  destruct Hauth as (w1 & Ha & Hw1). apply wp_on_error. unfold wp at 1. rewrite Ha. cbn [Is].
  apply wp_WriteError. split; [|done]. by destruct Hw1 as [-> | ->].
Qed.

(** *** The sync trigger *)

Lemma unmarshal_trigger user conn :
  is_ascii user = true → is_ascii conn = true →
  sync.unmarshal_job (trigger_payload user conn) = Ok (sync.mkSyncJobPayload user conn "full" 0).
Proof.
  intros Hu Hc. unfold sync.unmarshal_job, trigger_payload.
  set (l := [("connectionId", Json.quote conn, JStr conn); ("mode", Json.quote "full", JStr "full");
    ("sinceVersion", Json.int_text 0, JInt 0); ("userId", Json.quote user, JStr user)]%string).
  assert (Hl : Json.Unmarshal (of_chars (Json.object (map fst l))) = Ok (JObj (values_of l))).
  { apply Unmarshal_object; [done|].
    repeat (constructor; [split; [done|first [by apply reads_as_quote|by apply reads_as_int]]|]). constructor. }
  cbn [map fst l] in Hl. rewrite Hl. reflexivity.
Qed.

(** The members of the body that [connectionId] is filled from: those of its
    name, whatever the case of the letters.  Only a text or null counts. *)
Definition sets_connection (m : string * json) : Prop :=
  fold_name m.1 = fold_name "connectionId" ∧ (m.2 = JNull ∨ ∃ s, m.2 = JStr s).

(** The connection a body names: the text of the last such member; none (the
    empty text) when that is null, when there is no such member, or when the
    body does not start with a JSON object. *)
Inductive named_connection (body : string) : string → Prop :=
| named_text pre k conn post :
    Json.Decode body = Ok (JObj (pre ++ (k, JStr conn) :: post)) → sets_connection (k, JStr conn) →
    Forall (λ m, ¬ sets_connection m) post → named_connection body conn
| named_null pre k post :
    Json.Decode body = Ok (JObj (pre ++ (k, JNull) :: post)) → sets_connection (k, JNull) →
    Forall (λ m, ¬ sets_connection m) post → named_connection body ""
| named_none :
    (∀ ms, Json.Decode body = Ok (JObj ms) → Forall (λ m, ¬ sets_connection m) ms) → named_connection body "".

Lemma field_name k : (String.eqb "connectionId" k || String.eqb (fold_name "connectionId") (fold_name k)) = true ↔
  fold_name k = fold_name "connectionId".
Proof. rewrite orb_true_iff, !String.eqb_eq. naive_solver. Qed.

Lemma decode_connection_skip ms a :
  Forall (λ m, ¬ sets_connection m) ms → decode_field trigger_put "connectionId" ms a = Ok a.
Proof.
  induction 1 as [|[k v] ms Hm _ IH]; [done|]. cbn [decode_field].
  destruct (_ || _) eqn:Ek; [|exact IH]. apply field_name in Ek. unfold trigger_put. cbn [obind].
  destruct v; try exact IH; destruct Hm; (split; [exact Ek|]); cbn; eauto.
Qed.

Lemma decode_connection_last pre k v post a :
  fold_name k = fold_name "connectionId" → Forall (λ m, ¬ sets_connection m) post →
  ∃ b, decode_field trigger_put "connectionId" (pre ++ (k, v) :: post) a = trigger_put b v.
Proof.
  intros Hk Hpost. revert a. induction pre as [|[k' v'] pre IH]; intros a; cbn [app decode_field].
  - apply field_name in Hk. rewrite Hk. exists a. unfold trigger_put. cbn [obind]. by apply decode_connection_skip.
  - destruct (_ || _); [|apply IH]. unfold trigger_put at 1. cbn [obind]. apply IH.
Qed.

Lemma named_connection_decoded body conn : named_connection body conn → trigger_connection body = conn.
Proof.
  unfold trigger_connection. intros [pre k c post Hd [Hk _] Hpost|pre k post Hd [Hk _] Hpost|Hno].
  - rewrite Hd. cbn [obind Json.members_of]. by destruct (decode_connection_last pre k (JStr c) post "" Hk Hpost) as [b ->].
  - rewrite Hd. cbn [obind Json.members_of]. by destruct (decode_connection_last pre k JNull post "" Hk Hpost) as [b ->].
  - destruct (Json.Decode body) as [j|e|m]; cbn [obind]; [|done..]. destruct j; try done.
    cbn [obind Json.members_of]. by rewrite decode_connection_skip by by apply Hno.
Qed.

(** The queue [newApp] gives the handler. *)
Definition app_queue : service.SyncQueue := NewRedisSyncQueue (Some (queue.redis_producer sync_stream)).

(** C27: a sync trigger changes no table, sends one job, answers 202 when Redis
    took it and 500 otherwise, and that job, delivered, synchronises the
    connection the body names ([named_connection]), or all of them when it
    names none, for the user of the request.  The ids of the user and the
    connection are taken to be ASCII, as UUIDs are. *)
Theorem trigger_understood `{R : RedisLib} {RL : RedisLaws R} r conn w :
  let user := userIDFromRequest r in
  named_connection (Body r) conn →
  user ≠ ""%string → is_ascii user = true → is_ascii conn = true →
  wp (handleSyncTrigger app_queue r) (λ res w', w_db w' = w_db w ∧ ∃ values,
    w_trace w' = w_trace w ++ [EvXAdd "sync_queue" values] ∧
    (∃ resp, res = Ok resp ∧ Status resp = match env_redis (w_tick w) with None => 202 | Some _ => 500 end) ∧
    ∀ s id w2, sync.HandleSyncJob s (queue.decodeMessage (delivered id values)) w2
      = if String.eqb conn "" then (let! conns := sync.ListActiveByUser (sync.connections s) user in
                                    sync.sync_all s user "full" 0 conns) w2
        else sync.SyncUserTransactions s user conn "full" 0 w2) w.
Proof.
  intros user Hconn Hne Hu Hc. unfold handleSyncTrigger. rewrite (named_connection_decoded _ _ Hconn). fold user.
  destruct (String.eqb_spec user "") as [|_]; [done|].
  set (m := queue.mkMessage "" "sync" "trigger" (trigger_payload user conn) 0).
  assert (Hm : ∀ s id w2, sync.HandleSyncJob s (queue.decodeMessage (delivered id (queue.message_values m))) w2
      = if String.eqb conn "" then (let! conns := sync.ListActiveByUser (sync.connections s) user in
                                    sync.sync_all s user "full" 0 conns) w2
        else sync.SyncUserTransactions s user conn "full" 0 w2).
  { intros s id w2. rewrite decode_values by (simpl; unfold max_int64; lia).
    unfold sync.HandleSyncJob. cbn [queue.Payload m]. rewrite unmarshal_trigger by done.
    unfold bind at 1, lift. cbn [sync.p_ConnectionID sync.p_UserID sync.p_Mode sync.p_SinceVersion].
    by destruct (String.eqb conn ""). }
  apply wp_on_error. unfold app_queue, NewRedisSyncQueue, EnqueueSyncJob, queue.Enqueue, XAdd. simpl.
  apply wp_command. intros res Hres.
  destruct (env_redis (w_tick w)); subst res; (split; [done|]); exists (queue.message_values m);
    (split; [done|]); (split; [by eexists|done]).
Qed.

End App.
