(* ===== verification/Integrity.v ===== *)
(** * Integrity: what is true of every stored row

    [db_wf] collects what the migrations guarantee to readers, table by
    table: rows sit under their keys, references lead to rows, e-mail
    addresses and event ids are unique, times that are NOT NULL are set,
    amounts have the precision of their column and versions, counters and
    cursors the width of theirs.  Every statement of the program preserves it, so ([Invariants])
    every request, job and round of the consumers does, whatever fails. *)

From S2P Require Import Prelude GoInt GoStrings GoTime GoValues Json Pgtypex Schema Sqlc Effects Crypto AuthTokens TxRunner Models Invariants Repositories AuthService Wiring Queue TransactionService Projection ProjectionRunner SyncService SyncFacts SyncPipeline SyncWorker Http Api ApiFacts.
Import strings sqlcdb.

(** ** Column types *)

(** A value of [NUMERIC(18,2) NOT NULL]. *)
Definition numeric_ok (n : Numeric) : Prop :=
  n = mkNumeric None 0 true false true ∨ ∃ c, n = cents c ∧ Z.abs c < 10 ^ 18.

(** A value of [CHAR(3)]. *)
Definition char3_ok (s : string) : Prop := String.length s = 3%nat.

Lemma numeric_18_2_ok n n' : numeric_18_2 n = Ok n' → num_Valid n' = true → numeric_ok n'.
Proof.
  unfold numeric_18_2, numeric_ok. intros H Hv. repeat (go_case_in H; try discriminate H); injection H as <-.
  - discriminate Hv.
  - by left.
  - right. eexists. split; [done|]. by apply Z.ltb_lt.
Qed.

Lemma numeric_18_2_valid n n' : numeric_18_2 n = Ok n' → num_Valid n = true → num_Valid n' = true.
Proof.
  unfold numeric_18_2. intros H Hv. rewrite Hv in H. cbn in H.
  repeat (go_case_in H; try discriminate H); by injection H as <-.
Qed.

Lemma numeric_ok_valid n : numeric_ok n → num_Valid n = true.
Proof. by intros [->|(c & -> & _)]. Qed.

Lemma char3_result s s' : char3 s = Ok s' → char3_ok s'.
Proof.
  unfold char3, char3_ok. intros H. destruct s as [|a [|b [|c rest]]]; try by injection H as <-.
  destruct (strings.str_forall _ rest); [|done]. by injection H as <-.
Qed.

(** ** Tables *)

(** A NOT NULL key of table [m], where it leads to a row. *)
Definition refers {V} (p : pgUUID) (m : gmap UUID V) : Prop :=
  UUID_Valid p = true ∧ is_some (m !! UUID_Bytes p) = true.

(** NOT NULL times. *)
Definition times_set (ts : list Timestamptz) : Prop := Forall (λ t, ts_Valid t = true) ts.

Record user_ok (k : UUID) (u : User) : Prop := {
  user_id : User_ID u = mkPgUUID k true;
  user_times : times_set [User_CreatedAt u; User_UpdatedAt u];
  user_version : in_int64 (User_Version u) }.

Record account_ok (us : gmap UUID User) (k : UUID) (a : Account) : Prop := {
  account_id : Account_ID a = mkPgUUID k true;
  account_user : refers (Account_UserID a) us;
  account_currency : char3_ok (Account_Currency a);
  account_times : times_set [Account_CreatedAt a; Account_UpdatedAt a];
  account_version : in_int64 (Account_Version a) }.

Record category_ok (us : gmap UUID User) (cats : gmap UUID Category) (k : UUID) (c : Category) : Prop := {
  category_id : Category_ID c = mkPgUUID k true;
  category_user : refers (Category_UserID c) us;
  category_parent : UUID_Valid (Category_ParentID c) = true → refers (Category_ParentID c) cats;
  category_times : times_set [Category_CreatedAt c; Category_UpdatedAt c];
  category_version : in_int64 (Category_Version c) }.

Record connection_ok (us : gmap UUID User) (k : UUID) (c : SheetsConnection) : Prop := {
  connection_id : SheetsConnection_ID c = mkPgUUID k true;
  connection_user : refers (SheetsConnection_UserID c) us;
  connection_times : times_set [SheetsConnection_CreatedAt c; SheetsConnection_UpdatedAt c];
  connection_version : in_int64 (SheetsConnection_Version c) }.

Record mapping_ok (conns : gmap UUID SheetsConnection) (k : UUID) (m : SheetMapping) : Prop := {
  mapping_id : SheetMapping_ID m = mkPgUUID k true;
  mapping_connection : refers (SheetMapping_ConnectionID m) conns;
  mapping_times : times_set [SheetMapping_CreatedAt m; SheetMapping_UpdatedAt m];
  mapping_version : in_int64 (SheetMapping_Version m) }.

Record transaction_ok (us : gmap UUID User) (accs : gmap UUID Account) (cats : gmap UUID Category) (k : UUID) (t : Transaction) : Prop := {
  transaction_id : ID t = mkPgUUID k true;
  transaction_user : refers (UserID t) us;
  transaction_account : refers (AccountID t) accs;
  transaction_category : UUID_Valid (CategoryID t) = true → refers (CategoryID t) cats;
  transaction_type : Type_ t ∈ ["expense"; "income"; "transfer"]%string;
  transaction_times : times_set [OccurredAt t; LastModified t; CreatedAt t; UpdatedAt t];
  transaction_amount : numeric_ok (Amount t);
  transaction_currency : char3_ok (Currency t);
  transaction_version : in_int64 (Version t) }.

Record event_ok (e : ChangeEvent) : Prop := {
  event_id : in_int64 (ChangeEvent_ID e);
  event_refs : UUID_Valid (ChangeEvent_EntityID e) = true ∧ UUID_Valid (ChangeEvent_UserID e) = true;
  event_payload : is_some (ChangeEvent_Payload e) = true;
  event_op : ChangeEvent_OpType e ∈ ["create"; "update"; "delete"]%string;
  event_version : in_int64 (ChangeEvent_Version e);
  event_times : times_set [ChangeEvent_CreatedAt e; ChangeEvent_UpdatedAt e] }.

Record token_ok (us : gmap UUID User) (k : UUID) (r : RefreshToken) : Prop := {
  token_id : RefreshToken_ID r = mkPgUUID k true;
  token_user : refers (RefreshToken_UserID r) us;
  token_times : times_set [RefreshToken_ExpiresAt r; RefreshToken_CreatedAt r; RefreshToken_UpdatedAt r] }.

Record item_ok (k : Z) (q : SyncQueue) : Prop := {
  item_id : SyncQueue_ID q = k ∧ in_int64 k;
  item_user : UUID_Valid (SyncQueue_UserID q) = true;
  item_payload : is_some (SyncQueue_Payload q) = true;
  item_attempts : in_int32 (SyncQueue_Attempts q) ∧ in_int32 (SyncQueue_MaxAttempts q);
  item_times : times_set [SyncQueue_AvailableAt q; SyncQueue_CreatedAt q; SyncQueue_UpdatedAt q];
  item_version : in_int64 (SyncQueue_Version q) }.

Record cursor_ok (k : string) (c : ProjectionCursor) : Prop := {
  cursor_name : ProjectionCursor_ProjectorName c = k;
  cursor_event : in_int64 (ProjectionCursor_LastEventID c);
  cursor_times : times_set [ProjectionCursor_CreatedAt c; ProjectionCursor_UpdatedAt c] }.

Record summary_ok (us : gmap UUID User) (k : UUID * string * string * string) (s : TransactionSummary) : Prop := {
  summary_key : k = (UUID_Bytes (TransactionSummary_UserID s), TransactionSummary_PeriodKey s,
                     TransactionSummary_Currency s, TransactionSummary_Type s);
  summary_user : refers (TransactionSummary_UserID s) us;
  summary_currency : char3_ok (TransactionSummary_Currency s);
  summary_total : numeric_ok (TransactionSummary_TotalAmount s);
  summary_count : in_int64 (TransactionSummary_Count s);
  summary_times : times_set [TransactionSummary_CreatedAt s; TransactionSummary_UpdatedAt s] }.

Record balance_ok (us : gmap UUID User) (accs : gmap UUID Account) (k : UUID * UUID * string) (b : MonthlyBalance) : Prop := {
  balance_key : k = (UUID_Bytes (MonthlyBalance_UserID b), UUID_Bytes (MonthlyBalance_AccountID b),
                     MonthlyBalance_MonthKey b);
  balance_user : refers (MonthlyBalance_UserID b) us;
  balance_account : refers (MonthlyBalance_AccountID b) accs;
  balance_total : numeric_ok (MonthlyBalance_Balance b);
  balance_times : times_set [MonthlyBalance_CreatedAt b; MonthlyBalance_UpdatedAt b] }.

Record db_wf (d : DB) : Prop := mk_db_wf {
  wf_users : map_Forall user_ok (Schema.users d);
  wf_emails : emails_unique d;
  wf_accounts : map_Forall (account_ok (Schema.users d)) (accounts d);
  wf_categories : map_Forall (category_ok (Schema.users d) (categories d)) (categories d);
  wf_transactions : map_Forall (transaction_ok (Schema.users d) (accounts d) (categories d)) (transactions d);
  wf_events : Forall event_ok (change_events d);
  wf_event_ids : NoDup (map ChangeEvent_ID (change_events d));
  wf_connections : map_Forall (connection_ok (Schema.users d)) (sheets_connections d);
  wf_mappings : map_Forall (mapping_ok (sheets_connections d)) (sheet_mappings d);
  wf_queue : map_Forall item_ok (sync_queue d);
  wf_tokens : map_Forall (token_ok (Schema.users d)) (refresh_tokens d);
  wf_cursors : map_Forall cursor_ok (projection_cursors d);
  wf_summaries : map_Forall (summary_ok (Schema.users d)) (transaction_summary d);
  wf_balances : map_Forall (balance_ok (Schema.users d) (accounts d)) (monthly_balance d);
}.

(** References keep leading somewhere when rows are only added. *)
Lemma refers_insert {V} p (m : gmap UUID V) k v : refers p m → refers p (<[k := v]> m).
Proof.
  intros [Hv Hm]. split; [done|].
  destruct (decide (k = UUID_Bytes p)) as [->|]; [by rewrite lookup_insert_eq|by rewrite lookup_insert_ne].
Qed.

(** A row that passes the constraints of the table, with the values its
    columns make of what was sent, is well formed. *)
Lemma transaction_ok_intro d k t :
  ID t = mkPgUUID k true → queries.check_transaction d t = Ok tt →
  (num_Valid (Amount t) = true → numeric_ok (Amount t)) → char3_ok (Currency t) → in_int64 (Version t) →
  transaction_ok (Schema.users d) (accounts d) (categories d) k t.
Proof.
  unfold queries.check_transaction. intros Hid Hc Ha Hcur Hv.
  apply obind_Ok_inv in Hc as ([] & H1 & Hc). apply obind_Ok_inv in Hc as ([] & H2 & Hc).
  apply obind_Ok_inv in Hc as ([] & H3 & Hc). apply obind_Ok_inv in Hc as ([] & H4 & H5).
  apply require_Ok in H1, H2, H3, H4, H5. apply bool_decide_eq_true in H2. bool_to_prop.
  constructor; [done..| |done| |auto|done|done].
  - intros Hcat. split; [done|]. by rewrite Hcat in H5.
  - repeat constructor; done.
Qed.

(** Adding or replacing a user keeps every reference. *)
Lemma users_insert_refs d k u :
  db_wf d → user_ok k u → emails_unique (set_users (<[k := u]> (Schema.users d)) d) →
  db_wf (set_users (<[k := u]> (Schema.users d)) d).
Proof.
  intros [] Hu He.
  constructor; cbn; try done; first [by apply map_Forall_insert_2|
    eapply map_Forall_impl; [eassumption|]; intros k' r []; constructor; try done; by apply refers_insert].
Qed.

(** ** Statements *)

Lemma transactions_insert d k t :
  db_wf d → transaction_ok (Schema.users d) (accounts d) (categories d) k t →
  db_wf (set_transactions (<[k := t]> (transactions d)) d).
Proof. intros [] Ht. constructor; try done. by apply map_Forall_insert_2. Qed.

Lemma store_ts_keeps ts : ts_Valid ts = true → ts_Valid (store_ts ts) = true.
Proof. intros Hv. unfold store_ts. by rewrite Hv. Qed.

Lemma CreateTransaction_wf arg : in_int64 (queries.c_Version arg) → stmt_keeps db_wf (queries.CreateTransaction arg).
Proof.
  intros Hv ctx d row d' H W. unfold queries.CreateTransaction in H.
  apply obind_Ok_inv in H as (amount & Ha & H). apply obind_Ok_inv in H as (currency & Hc & H).
  apply obind_Ok_inv in H as ([] & Hch & H). apply obind_Ok_inv in H as ([] & _ & H). injection H as <- <-.
  apply transactions_insert; [done|]. apply transaction_ok_intro; [done|done| |by eapply char3_result|done].
  by eapply numeric_18_2_ok.
Qed.

Lemma UpdateTransaction_wf arg : stmt_keeps db_wf (queries.UpdateTransaction arg).
Proof.
  intros ctx d row d' H W. unfold queries.UpdateTransaction in H.
  apply obind_Ok_inv in H as (old & Ho & H). apply obind_Ok_inv in H as (amount & Ha & H).
  apply obind_Ok_inv in H as (currency & Hc & H). apply obind_Ok_inv in H as (version & Hv & H).
  apply obind_Ok_inv in H as ([] & Hch & H). injection H as <- <-.
  apply transaction_where_Ok in Ho as (_ & Hl & _). destruct (wf_transactions d W _ _ Hl).
  apply bigint_Ok in Hv as [-> Hv].
  apply transactions_insert; [done|]. apply transaction_ok_intro; [done|done| |by eapply char3_result|done].
  by eapply numeric_18_2_ok.
Qed.

Lemma soft_delete_wf id cond : stmt_keeps db_wf (queries.soft_delete_where id cond).
Proof.
  intros ctx d row d' H W. unfold queries.soft_delete_where in H.
  apply obind_Ok_inv in H as (old & Ho & H). apply obind_Ok_inv in H as (version & Hv & H). injection H as <- <-.
  apply transaction_where_Ok in Ho as (_ & Hl & _). apply bigint_Ok in Hv as [-> Hv].
  destruct (wf_transactions d W _ _ Hl) as [? ? ? ? ? Ht]. apply transactions_insert; [done|].
  constructor; try done. unfold times_set in *. rewrite !Forall_cons in Ht. repeat constructor; naive_solver.
Qed.

Lemma InsertChangeEvent_wf arg : stmt_keeps db_wf (queries.InsertChangeEvent arg).
Proof.
  intros ctx d [] d' H W.
  assert (Hop : queries.e_OpType arg ∈ ["create"; "update"; "delete"]%string ∧
                UUID_Valid (queries.e_EntityID arg) = true ∧ UUID_Valid (queries.e_UserID arg) = true).
  { unfold queries.InsertChangeEvent in H. apply obind_Ok_inv in H as ([] & H1 & H).
    apply obind_Ok_inv in H as ([] & H2 & _). apply require_Ok in H1. apply require_Ok, bool_decide_eq_true in H2.
    by bool_to_prop. }
  apply InsertChangeEvent_Ok in H as (Hp & -> & Hid & Hv & Hfresh). destruct Hop as (Hop & He & Hu).
  destruct W. constructor; try done; cbn.
  - apply Forall_app. split; [done|]. apply Forall_singleton. constructor; cbn; repeat first [done|constructor].
  - rewrite List.map_app. apply NoDup_app. split_and!; [done| |apply NoDup_singleton].
    intros i Hi ->%list_elem_of_singleton. apply list_elem_of_fmap in Hi as (e & Hi & He').
    rewrite Forall_forall in Hfresh. by apply (Hfresh e).
Qed.

(** ** Users and tokens *)

(** A row whose address no other row has can be stored. *)
Lemma emails_insert d k u except :
  db_wf d → queries.email_free d except (User_Email u) = true → (except = None ∨ except = Some k) →
  emails_unique (set_users (<[k := u]> (Schema.users d)) d).
Proof.
  intros W Hf He k1 k2 u1 u2 H1 H2 Heq. cbn in H1, H2.
  assert (Hother : ∀ k' u', Schema.users d !! k' = Some u' → User_Email u' = User_Email u → k' = k).
  { intros k' u' Hl Hu. pose proof (email_free_spec _ _ _ _ _ Hf Hl Hu) as E.
    destruct (wf_users d W k' u' Hl) as [Hid _ _]. rewrite Hid in E. naive_solver. }
  apply lookup_insert_Some in H1 as [[<- <-]|[Hn1 H1]]; apply lookup_insert_Some in H2 as [[<- <-]|[Hn2 H2]]; [done|..].
  - symmetry. eapply Hother; [exact H2|done].
  - eapply Hother; [exact H1|done].
  - by eapply (wf_emails d W).
Qed.

Lemma CreateUser_wf arg : stmt_keeps db_wf (queries.CreateUser arg).
Proof.
  intros ctx d [] d' H W. unfold queries.CreateUser in H.
  apply obind_Ok_inv in H as ([] & H1 & H). apply obind_Ok_inv in H as ([] & _ & H).
  apply obind_Ok_inv in H as ([] & H3 & H). injection H as <-.
  apply require_Ok in H1, H3. bool_to_prop. apply users_insert_refs; [done| |].
  - destruct (queries.cu_ID arg) as [b v]. cbn in *. subst v.
    constructor; [done|repeat constructor; by apply store_ts_keeps|done].
  - eapply emails_insert; [done|exact H3|by left].
Qed.

Lemma UpdateUser_wf arg : stmt_keeps db_wf (queries.UpdateUser arg).
Proof.
  intros ctx d [] d' H W. unfold queries.UpdateUser in H.
  destruct (queries.user_where d (queries.uu_ID arg)) as [old|e|m] eqn:Ho; [|by injection H as <-..].
  apply obind_Ok_inv in H as ([] & H1 & H). apply obind_Ok_inv in H as ([] & H3 & H). injection H as <-.
  apply require_Ok in H1, H3. unfold queries.user_where in Ho.
  destruct (UUID_Valid (queries.uu_ID arg)); [|done].
  destruct (Schema.users d !! UUID_Bytes (queries.uu_ID arg)) as [u|] eqn:Hl; [|done].
  destruct (queries.user_live u); [|done]. injection Ho as ->.
  destruct (wf_users d W _ _ Hl) as [Hid Hcr Hv]. apply users_insert_refs; [done| |].
  - apply List.Forall_inv in Hcr. constructor; [done|repeat constructor; [done|by apply store_ts_keeps]|done].
  - eapply emails_insert; [done|exact H3|by right].
Qed.

Lemma CreateRefreshToken_wf arg : stmt_keeps db_wf (queries.CreateRefreshToken arg).
Proof.
  intros ctx d [] d' H W. unfold queries.CreateRefreshToken in H.
  apply obind_Ok_inv in H as ([] & H1 & H). apply obind_Ok_inv in H as ([] & _ & H).
  apply obind_Ok_inv in H as ([] & H3 & H). injection H as <-. apply require_Ok in H1, H3. bool_to_prop.
  destruct W. constructor; try done. cbn. apply map_Forall_insert_2; [|done].
  destruct (queries.cr_ID arg) as [b v]. cbn in *. subst v.
  constructor; [done|by split|repeat constructor; by apply store_ts_keeps].
Qed.

Lemma RevokeRefreshToken_wf id : stmt_keeps db_wf (queries.RevokeRefreshToken id).
Proof.
  intros ctx d [] d' H W. unfold queries.RevokeRefreshToken in H.
  destruct (UUID_Valid id); injection H as <-; [|done]. destruct W. constructor; try done. cbn.
  intros k r Hl. apply lookup_alter_Some in Hl as [(<- & r0 & Hr & ->)|[_ Hr]]; [|exact (wf_tokens0 _ _ Hr)].
  destruct (wf_tokens0 _ _ Hr) as [? ? Ht]. constructor; try done. unfold times_set in *. rewrite !Forall_cons in Ht.
  repeat constructor; naive_solver.
Qed.

(** ** Read models and the queue table *)

Lemma upsert_cursor_wf name id : in_int64 id → stmt_keeps db_wf (projection.upsert_cursor name id).
Proof.
  intros Hid ctx d [] d' H W. unfold projection.upsert_cursor in H. injection H as <-.
  destruct W. constructor; try done. cbn. apply map_Forall_insert_2; [|done].
  destruct (projection_cursors d !! name) as [c|] eqn:Hl; [|constructor; [done|done|by repeat constructor]].
  destruct (wf_cursors0 _ _ Hl) as [Hn _ Ht]. apply List.Forall_inv in Ht. constructor; [done|done|by repeat constructor].
Qed.

Section ReadModels.
Context {UL : UuidLib} {PP : projection.PgParams} {PPL : projection.PgParamsLaws UL PP}.

Lemma numeric_add_valid a b : num_Valid (projection.numeric_add a b) = true.
Proof. unfold projection.numeric_add. by destruct (num_Int a), (num_Int b). Qed.

Lemma total_ok f n n' : projection.numeric_param f = Ok n → numeric_18_2 n = Ok n' → numeric_ok n'.
Proof.
  intros Hp Hn. eapply numeric_18_2_ok; [done|]. eapply numeric_18_2_valid; [done|].
  by eapply projection.numeric_param_valid.
Qed.

Lemma sum_ok a b n : numeric_18_2 (projection.numeric_add a b) = Ok n → numeric_ok n.
Proof. intros Hn. eapply numeric_18_2_ok; [done|]. eapply numeric_18_2_valid; [done|]. apply numeric_add_valid. Qed.

Lemma upsert_summary_wf user period currency typ amount count :
  in_int64 count → stmt_keeps db_wf (projection.upsert_summary user period currency typ amount count).
Proof.
  intros Hcount ctx d [] d' H W. unfold projection.upsert_summary in H.
  apply obind_Ok_inv in H as (n & Hn & H). apply obind_Ok_inv in H as (u & _ & H).
  apply obind_Ok_inv in H as (total & Ht & H). apply obind_Ok_inv in H as (cur & Hc & H).
  apply obind_Ok_inv in H as ([] & Hu & H). apply obind_Ok_inv in H as (row & Hr & H). injection H as <-.
  apply require_Ok in Hu. apply char3_result in Hc. pose proof (total_ok _ _ _ Hn Ht) as Hok.
  destruct W. constructor; try done. cbn. apply map_Forall_insert_2; [|done].
  destruct (transaction_summary d !! (u, period, cur, typ)) as [old|] eqn:Hl.
  - apply obind_Ok_inv in Hr as (total' & Ht' & Hr). apply obind_Ok_inv in Hr as (count' & Hcn & Hr). injection Hr as <-.
    destruct (wf_summaries0 _ _ Hl) as [? ? ? ? ? Ht2]. apply bigint_Ok in Hcn as [-> Hcn].
    apply List.Forall_inv in Ht2. constructor; [done|done|done|by eapply sum_ok|done|by repeat constructor].
  - injection Hr as <-. constructor; [done|by split|done|done|done|by repeat constructor].
Qed.

Lemma upsert_balance_wf user account month amount :
  stmt_keeps db_wf (projection.upsert_balance user account month amount).
Proof.
  intros ctx d [] d' H W. unfold projection.upsert_balance in H.
  apply obind_Ok_inv in H as (n & Hn & H). apply obind_Ok_inv in H as (u & _ & H).
  apply obind_Ok_inv in H as (acc & _ & H). apply obind_Ok_inv in H as (balance & Hb & H).
  apply obind_Ok_inv in H as ([] & Hu & H). apply obind_Ok_inv in H as ([] & Ha & H).
  apply obind_Ok_inv in H as (row & Hr & H). injection H as <-.
  apply require_Ok in Hu, Ha. pose proof (total_ok _ _ _ Hn Hb) as Hok.
  destruct W. constructor; try done. cbn. apply map_Forall_insert_2; [|done].
  destruct (monthly_balance d !! (u, acc, month)) as [old|] eqn:Hl.
  - apply obind_Ok_inv in Hr as (balance' & Hb' & Hr). injection Hr as <-.
    destruct (wf_balances0 _ _ Hl) as [? ? ? ? Ht2]. apply List.Forall_inv in Ht2.
    constructor; [done|done|done|by eapply sum_ok|by repeat constructor].
  - injection Hr as <-. constructor; [done|by split|by split|done|by repeat constructor].
Qed.

End ReadModels.

Lemma put_off_wf id attempts available :
  (∀ ctx, ts_Valid (available ctx) = true) → stmt_keeps db_wf (syncworker.put_off id attempts available).
Proof.
  intros Hav ctx d [] d' H W. unfold syncworker.put_off in H. apply obind_Ok_inv in H as ([] & Ha & H). injection H as <-.
  apply require_Ok, bool_decide_eq_true in Ha. destruct W. constructor; try done. cbn.
  intros k q Hl. apply lookup_alter_Some in Hl as [(<- & q0 & Hq & ->)|[_ Hq]]; [|exact (wf_queue0 _ _ Hq)].
  destruct (wf_queue0 _ _ Hq) as [Hid Hu Hp [_ Hm] Ht Hv]. apply List.Forall_inv_tail in Ht.
  constructor; try done. constructor; [apply Hav|done].
Qed.

Lemma delete_item_wf id : stmt_keeps db_wf (syncworker.delete_item id).
Proof.
  intros ctx d [] d' H W. unfold syncworker.delete_item in H. injection H as <-. destruct W. constructor; try done. cbn.
  by apply map_Forall_delete.
Qed.

#[export] Hint Resolve UpdateTransaction_wf soft_delete_wf InsertChangeEvent_wf CreateUser_wf UpdateUser_wf
  CreateRefreshToken_wf RevokeRefreshToken_wf upsert_summary_wf upsert_balance_wf
  delete_item_wf : keeps.

(** ** Repositories and services *)

Lemma keeps_bind_lift {E : Env} (I : DB → Prop) {A B} (o : outcome A) (k : A → M B) :
  (∀ a, o = Ok a → keeps I (k a)) → keeps I (bind (lift o) k).
Proof. intros Hk w Hw. unfold bind, lift. destruct o; [by apply Hk|done..]. Qed.

Lemma create_arg_version {PL : PgtypeLib} p arg : create_arg p = Ok arg → queries.c_Version arg = db.cp_Version p.
Proof.
  unfold create_arg. intros H. repeat (apply obind_Ok_inv in H as (? & _ & H)). by injection H as <-.
Qed.

Section Programs.
Context {E : Env} {P : Process} {U : Unicode} {UL : UuidLib} {J : JwtLib} {B : BcryptLib}.
Context {PL : PgtypeLib} {PS : queries.PgServer} {PP : projection.PgParams} {PPL : projection.PgParamsLaws UL PP}.
Abbreviation ok := (keeps db_wf).

Lemma ok_Create tx p : in_int64 (db.cp_Version p) → ok (Create tx p).
Proof.
  intros Hv. apply keeps_bind_lift. intros arg Harg. apply create_arg_version in Harg.
  keep. apply CreateTransaction_wf. by rewrite Harg.
Qed.

Lemma ok_Update tx p : ok (Update tx p).
Proof. unfold Update. keep. Qed.

Lemma ok_SoftDelete tx id : ok (SoftDelete tx id).
Proof. unfold SoftDelete, queries.SoftDeleteTransactionByID. keep. Qed.

Lemma ok_List tx f : ok (List_ tx f).
Proof. unfold List_, queries.ListTransactionsByFilter. keep. Qed.

Lemma ok_GetByID tx id : ok (GetByID tx id).
Proof. unfold GetByID, queries.GetTransactionByIDOnly. keep. Qed.

Lemma ok_Insert tx e : ok (Insert tx e).
Proof. unfold Insert. keep. Qed.
Hint Resolve ok_Create ok_Update ok_SoftDelete ok_List ok_GetByID ok_Insert : keeps.

Lemma ok_adapter_Create tx t :
  in_int64 (domain.Version t) → ok (adapter_Create NewTransactionRepository tx t).
Proof.
  intros Hv. apply keeps_bind_lift. intros p Hp. apply keeps_bind; [apply ok_Create|intros ?; apply keeps_ret].
  unfold domainTransactionToCreateParams in Hp. repeat (apply obind_Ok_inv in Hp as (? & _ & Hp)).
  by injection Hp as <-.
Qed.

Lemma ok_enqueue redis op user since : ok (enqueue_job (NewTransactionService redis) op user since).
Proof.
  unfold enqueue_job. destruct redis; [apply keeps_discard, keeps_command|apply keeps_ret].
Qed.
Hint Resolve ok_enqueue ok_adapter_Create : keeps.

Lemma ok_create_in_tx redis t tx :
  in_int64 (domain.Version t) →
  ok (create_in_tx (NewTransactionService redis) t (txUnitOfWork NewTransactionRepository NewChangeEventRepository tx)).
Proof.
  intros Hv. apply keeps_bind; [by apply ok_adapter_Create|intros c].
  apply keeps_bind; [apply ok_Insert|intros ?; apply keeps_ret].
Qed.

Lemma ok_CreateTransaction redis inp : ok (CreateTransaction (NewTransactionService redis) inp).
Proof.
  apply keeps_bind; [apply keeps_Now|intros now]. apply keeps_bind; [|intros t; keep].
  apply keeps_RunInTx. intros tx. by apply ok_create_in_tx.
Qed.

Lemma ok_UpdateTransaction redis user id inp : ok (UpdateTransaction (NewTransactionService redis) user id inp).
Proof.
  apply keeps_bind; [|intros existing].
  { apply keeps_bind; [apply keeps_lift|intros ?]. apply keeps_bind; [apply ok_GetByID|intros ?; apply keeps_ret]. }
  apply keeps_bind; [|intros t; keep]. apply keeps_RunInTx. intros tx.
  apply keeps_bind; [apply keeps_Now|intros now]. apply keeps_bind; [|intros t].
  { apply keeps_bind; [apply keeps_lift|intros ?]. apply keeps_bind; [apply ok_Update|intros ?; apply keeps_ret]. }
  apply keeps_bind; [apply ok_Insert|intros ?; apply keeps_ret].
Qed.

Lemma ok_SoftDeleteTransaction redis user id : ok (SoftDeleteTransaction (NewTransactionService redis) user id).
Proof.
  apply keeps_bind; [|intros t; keep]. apply keeps_RunInTx. intros tx. apply keeps_bind; [|intros t].
  { apply keeps_bind; [apply keeps_lift|intros ?]. apply keeps_bind; [apply ok_SoftDelete|intros ?; apply keeps_ret]. }
  apply keeps_bind; [apply ok_Insert|intros ?; apply keeps_ret].
Qed.

(** *** Authentication *)

Lemma ok_on_error {A C} (m : M A) (h : error → M C) (k : A → M C) :
  ok m → (∀ e, ok (h e)) → (∀ a, ok (k a)) → ok (on_error m h k).
Proof.
  intros Hm Hh Hk w Hw. specialize (Hm w Hw). unfold on_error.
  destruct (m w) as [[a|e|s] w1]; [by apply Hk|by apply Hh|done].
Qed.

Lemma ok_no_rows_or {A} ctx (m : M A) : ok m → ok (no_rows_or ctx m).
Proof.
  intros Hm w Hw. specialize (Hm w Hw). unfold no_rows_or.
  destruct (m w) as [[a|e|s] w1]; [done| |done]. by destruct (Is e ErrNoRows).
Qed.

Lemma ok_Sign user email exp : ok (auth.Sign user email exp).
Proof. unfold auth.Sign. keep. Qed.

Lemma ok_Encrypt text : ok (crypto.Encrypt text).
Proof. unfold crypto.Encrypt. keep. Qed.

Lemma ok_new_token user : ok (new_token user).
Proof. unfold new_token. apply keeps_bind; [keep|intros id]. keep. Qed.

Lemma ok_GetByEmail email : ok (GetByEmail email).
Proof.
  apply keeps_bind; [|intros ?; apply keeps_ret]. apply ok_no_rows_or, keeps_exec, stmt_keeps_read.
Qed.

Lemma ok_User_GetByID id : ok (User_GetByID id).
Proof.
  apply keeps_bind; [|intros ?; apply keeps_ret]. apply ok_no_rows_or, keeps_exec, stmt_keeps_read.
Qed.

Lemma ok_Token_GetByID id : ok (Token_GetByID id).
Proof.
  apply keeps_bind; [|intros ?; apply keeps_ret]. apply ok_no_rows_or, keeps_exec, stmt_keeps_read.
Qed.

Lemma ok_User_Create tx u : ok (User_Create tx u).
Proof. unfold User_Create. keep. Qed.

Lemma ok_Token_Create tx t : ok (Token_Create tx t).
Proof. unfold Token_Create. keep. Qed.

Lemma ok_Token_Revoke tx id : ok (Token_Revoke tx id).
Proof. unfold Token_Revoke. keep. Qed.

Lemma ok_Register email password : ok (Register NewAuthService email password).
Proof.
  unfold Register. destruct (_ || _); [apply keeps_fail|].
  apply keeps_bind; [apply keeps_wrap_err, (keeps_tick _ (λ w, bcrypt_GenerateFromPassword (w_tick w) password))|intros hashed].
  apply keeps_bind; [apply keeps_Now|intros now]. apply keeps_bind; [apply keeps_NewV4|intros id].
  apply keeps_bind; [|intros ?; apply keeps_ret]. apply keeps_wrap_err, keeps_RunInTx. intros tx. apply ok_User_Create.
Qed.

Lemma ok_Authenticate email password : ok (Authenticate NewAuthService email password).
Proof.
  unfold Authenticate. destruct (_ || _); [apply keeps_fail|].
  apply keeps_bind; [apply keeps_attempt, ok_GetByEmail|intros r].
  destruct r as [u|e|m]; [|destruct (Is e ErrNoRows); apply keeps_fail|apply keeps_gopanic].
  destruct (bcrypt_CompareHashAndPassword _ _); [|apply keeps_fail|apply keeps_gopanic].
  apply keeps_bind; [apply keeps_wrap_err, ok_Sign|intros access].
  apply keeps_bind; [apply ok_new_token|intros [[id secret] tok]].
  apply keeps_bind; [|intros ?; apply keeps_ret]. apply keeps_wrap_err, keeps_RunInTx. intros tx. apply ok_Token_Create.
Qed.

Lemma ok_Refresh token : ok (Refresh NewAuthService token).
Proof.
  unfold Refresh. destruct (auth.DecodeRefreshToken token) as [[tokenID secret]|e|m]; [|apply keeps_fail|apply keeps_gopanic].
  apply keeps_bind; [apply keeps_attempt, ok_Token_GetByID|intros r].
  destruct r as [row|e|m]; [|destruct (Is e ErrNoRows); apply keeps_fail|apply keeps_gopanic].
  destruct (db.RefreshToken_Revoked row); [apply keeps_fail|].
  apply keeps_bind; [apply keeps_Now|intros now].
  destruct (time.After _ _); [apply keeps_fail|]. destruct (negb _); [apply keeps_fail|].
  apply keeps_bind; [apply keeps_wrap_err, ok_User_GetByID|intros u].
  apply keeps_bind; [apply keeps_wrap_err, ok_Sign|intros access].
  apply keeps_bind; [apply ok_new_token|intros [[id secret'] tok]].
  apply keeps_bind; [|intros ?; apply keeps_ret]. apply keeps_wrap_err, keeps_RunInTx. intros tx.
  apply keeps_bind; [apply ok_Token_Revoke|intros ?; apply ok_Token_Create].
Qed.

Lemma ok_Revoke token : ok (Revoke NewAuthService token).
Proof.
  unfold Revoke. destruct (auth.DecodeRefreshToken token) as [[tokenID secret]|e|m];
    [apply ok_Token_Revoke|apply keeps_fail|apply keeps_gopanic].
Qed.

(** *** Handlers *)

Context {ULaws : UuidLaws UL}.

Lemma ok_JWTMiddleware next : (∀ r, ok (next r)) → ∀ r, ok (JWTMiddleware next r).
Proof.
  intros Hn r. unfold JWTMiddleware. destruct (bearer_token _); [|apply keeps_ret].
  apply ok_on_error; [apply keeps_reads, reads_Verify|intros e; apply keeps_ret|intros [user email]; apply Hn].
Qed.

Lemma ok_with_transaction r k : (∀ req t, ok (k req t)) → ok (with_transaction r k).
Proof.
  intros Hk. unfold with_transaction. destruct (decode_transaction _); [|apply keeps_ret|apply keeps_gopanic].
  destruct (time.Parse_RFC3339 _); [apply Hk|apply keeps_ret].
Qed.

Lemma ok_with_login r k : (∀ req, ok (k req)) → ok (with_login r k).
Proof.
  intros Hk. unfold with_login. destruct (decode_login _); [|apply keeps_ret|apply keeps_gopanic].
  destruct (_ || _); [apply keeps_ret|apply Hk].
Qed.

Lemma ok_with_refresh_token r k : (∀ token, ok (k token)) → ok (with_refresh_token r k).
Proof.
  intros Hk. unfold with_refresh_token. destruct (decode_refresh _); [|apply keeps_ret|apply keeps_gopanic].
  destruct (String.eqb _ _); [apply keeps_ret|apply Hk].
Qed.

(** A handler that calls an operation and writes its answer. *)
Lemma ok_call {A} (m : M A) (h : error → M http.Response) (k : A → M http.Response) :
  ok m → (∀ e, ∃ x, h e = ret x) → (∀ a, ∃ x, k a = ret x) → ok (on_error m h k).
Proof.
  intros Hm Hh Hk. apply ok_on_error; [done|intros e; destruct (Hh e) as [x ->]|intros a; destruct (Hk a) as [x ->]];
    apply keeps_ret.
Qed.

Ltac answers := first [intros []|intros ?]; repeat match goal with |- context [if ?b then _ else _] => destruct b end; by eexists.

Lemma ok_group redis sheets t r : t ∈ group_routes (newApp redis sheets) → ok (Handle t r).
Proof.
  intros Ht. unfold group_routes in Ht. rewrite !elem_of_app in Ht. destruct Ht as [Ht|[Ht|Ht]].
  - repeat (apply elem_of_cons in Ht as [->|Ht]); [..|by apply elem_of_nil in Ht]; cbn [Handle];
      [unfold handleListTransactions|unfold handleCreateTransaction|unfold handleGetTransaction
      |unfold handleUpdateTransaction|unfold handleDeleteTransaction];
      (destruct (String.eqb (userIDFromRequest r) ""); [apply keeps_ret|]).
    + apply ok_call; [apply keeps_reads, reads_ListUserTransactionsWithCount|answers..].
    + apply ok_with_transaction. intros req t. apply ok_call; [apply ok_CreateTransaction|answers..].
    + destruct (String.eqb _ _); [apply keeps_ret|].
      apply ok_call; [apply keeps_reads, reads_GetTransaction|answers..].
    + destruct (String.eqb _ _); [apply keeps_ret|]. apply ok_with_transaction. intros req t.
      apply ok_call; [apply ok_UpdateTransaction|answers..].
    + destruct (String.eqb _ _); [apply keeps_ret|]. apply ok_call; [apply ok_SoftDeleteTransaction|answers..].
  - apply list_elem_of_singleton in Ht as ->. cbn [Handle]. unfold handleListSheetsConnections.
    destruct (String.eqb _ _); [apply keeps_ret|].
    apply ok_call; [apply keeps_exec, stmt_keeps_read|answers..].
  - destruct redis; [|by apply elem_of_nil in Ht]. apply list_elem_of_singleton in Ht as ->. cbn [Handle].
    unfold handleSyncTrigger. destruct (String.eqb _ _); [apply keeps_ret|].
    apply ok_call; [apply keeps_command|answers..].
Qed.

Lemma ok_auth t r : t ∈ RegisterAuthHandlers NewAuthService → ok (Handle t r).
Proof.
  intros Ht. repeat (apply elem_of_cons in Ht as [->|Ht]); [..|by apply elem_of_nil in Ht]; cbn [Handle].
  - apply ok_with_login. intros req. apply ok_call; [apply ok_Register|answers..].
  - apply ok_with_login. intros req. apply ok_call; [apply ok_Authenticate|answers..].
  - apply ok_with_refresh_token. intros token. apply ok_call; [apply ok_Refresh|answers..].
  - apply ok_with_refresh_token. intros token. apply ok_call; [apply ok_Revoke|answers..].
Qed.

(** *** The projection loop *)

Lemma ok_summary ev : ok (projection.summary_Process ev).
Proof.
  unfold projection.summary_Process, projection.summary_add. destruct (negb _); [apply keeps_ret|].
  apply keeps_bind; [apply keeps_lift|intros txn].
  repeat match goal with |- keeps _ (if ?b then _ else _) => destruct b end;
    [by apply keeps_exec, upsert_summary_wf..|apply keeps_ret].
Qed.

Lemma ok_balance ev : ok (projection.balance_Process ev).
Proof.
  unfold projection.balance_Process, projection.balance_add. destruct (negb _); [apply keeps_ret|].
  apply keeps_bind; [apply keeps_lift|intros txn].
  repeat match goal with |- keeps _ (if ?b then _ else _) => destruct b end;
    [apply keeps_exec, upsert_balance_wf..|apply keeps_ret].
Qed.

Lemma ok_Wait d : ok (Wait d).
Proof. apply keeps_bind; [apply keeps_emit|intros ?; apply keeps_Done]. Qed.

Lemma ok_pause d k : ok k → ok (runner.pause d k).
Proof. intros Hk. apply keeps_bind; [apply ok_Wait|intros []; [apply keeps_ret|done]]. Qed.

Definition procs : list projection.Processor :=
  [projection.NewTransactionSummaryProjector; projection.NewMonthlyBalanceProjector].

Lemma ok_processors ps ev :
  Forall (λ p, ∀ ev, ok (projection.Process p ev)) ps → ok (runner.run_processors ps ev).
Proof.
  induction 1 as [|p ps Hp _ IH]; cbn [runner.run_processors]; [apply keeps_ret|].
  apply keeps_bind; [apply keeps_attempt, Hp|intros [u|e|m]; [done|apply keeps_ret|done]].
Qed.

Lemma procs_ok : Forall (λ p, ∀ ev, ok (projection.Process p ev)) procs.
Proof. repeat apply List.Forall_cons; [apply ok_summary|apply ok_balance|apply List.Forall_nil]. Qed.

Lemma ok_batch evs maxID : ok (runner.run_batch procs evs maxID).
Proof.
  revert maxID. induction evs as [|ev evs IH]; intros maxID; cbn [runner.run_batch]; [apply keeps_ret|].
  apply keeps_bind; [apply ok_processors, procs_ok|intros []; [apply IH|apply keeps_ret]].
Qed.

Lemma ok_cursor_Get name : ok (projection.cursor_Get name).
Proof.
  intros w Hw. pose proof (keeps_exec db_wf Pool _ (stmt_keeps_read db_wf _) w Hw : world_ok _ (snd (exec Pool (projection.select_cursor name) w))) as H.
  unfold projection.cursor_Get. destruct (exec Pool (projection.select_cursor name) w) as [[a|e|m] w1]; [done| |done].
  by destruct (Is e ErrNoRows).
Qed.

(** *** The cursor stays in the range of its column *)

Definition ids_in_range (evs : list projection.ChangeEventRow) : Prop :=
  Forall (λ ev, in_int64 (projection.ID ev)) evs.

Lemma listed_in_range c n w evs w' :
  world_ok db_wf w → projection.source_ListSince c n w = (Ok evs, w') → ids_in_range evs.
Proof.
  intros [W _] H. unfold projection.source_ListSince in H. apply bind_Ok_inv in H as (rows & w1 & H & Hr).
  injection Hr as <- _. unfold projection.listChangeEventsSinceSQL in H. apply exec_read_inv in H as [_ H]. specialize (H _ eq_refl). injection H as <-.
  apply Forall_fmap, Forall_forall. intros e He.
  assert (Hin : e ∈ change_events (w_db w)).
  { unfold projection.select_since in He. apply (subseteq_take (Z.to_nat _)) in He.
    rewrite (merge_sort_Permutation projection.id_le) in He. apply list_elem_of_In, List.filter_In in He as [He _].
    by apply list_elem_of_In. }
  pose proof (wf_events _ W) as Hall. rewrite Forall_forall in Hall. apply (event_id _ (Hall _ Hin)).
Qed.

Lemma batch_in_range evs m w fine m' w' :
  ids_in_range evs → in_int64 m → runner.run_batch procs evs m w = (Ok (fine, m'), w') → in_int64 m'.
Proof.
  intros Hevs. revert m w. induction Hevs as [|ev evs Hev _ IH]; intros m w Hm H; cbn [runner.run_batch] in H.
  - by injection H as _ <- _.
  - apply bind_Ok_inv in H as (ok & w1 & _ & H). destruct ok; [|by injection H as _ <- _].
    eapply IH; [|exact H]. by destruct (_ <? _).
Qed.

Lemma ok_process_events name size poll evs :
  ids_in_range evs → ok (runner.process_events name projection.NewDBCursorStore procs size poll evs).
Proof.
  intros Hevs.
  assert (Hf : ∀ n, ok (runner.finish size poll n)).
  { intros n. unfold runner.finish. destruct (n <? size); [apply ok_pause|]; apply keeps_ret. }
  eapply (keeps_bind_result _ (λ r, in_int64 r.2)); [apply ok_batch| |].
  - intros w [fine m] w' _ H. by eapply batch_in_range; [exact Hevs|..|exact H].
  - intros [fine maxID] Hm. destruct (fine && (0 <? maxID)); [|destruct (negb fine); [by apply ok_pause|done]].
    apply keeps_bind; [|intros ?; apply Hf]. by apply keeps_discard, keeps_exec, upsert_cursor_wf.
Qed.

Lemma ok_round name size poll :
  ok (runner.round name projection.NewDBChangeEventSource projection.NewDBCursorStore procs size poll).
Proof.
  assert (Hp : ok (runner.pause poll (ret queue.Running))) by (apply ok_pause, keeps_ret).
  apply keeps_bind; [apply keeps_Done|intros []; [apply keeps_ret|]].
  apply keeps_bind; [apply keeps_attempt, ok_cursor_Get|intros [lastID|e|m]; [|done..]].
  eapply (keeps_bind_result _ (λ r, ∀ evs, r = Ok evs → ids_in_range evs)).
  - apply keeps_attempt. apply keeps_bind; [apply keeps_exec, stmt_keeps_read|intros ?; apply keeps_ret].
  - intros w r w' Hw H evs ->. unfold attempt in H.
    destruct (projection.ListSince projection.NewDBChangeEventSource lastID size w) as [[evs'|e|m] w1] eqn:El; simplify_eq.
    eapply listed_in_range; [done|exact El].
  - intros [[|ev evs]|e|m] Hevs; [done| |done..]. by apply ok_process_events, Hevs.
Qed.

Lemma ok_Start n : ok (runner.Start runner.worker_runner n).
Proof.
  apply keeps_bind; [|intros ?; apply keeps_ret].
  induction n as [|n IH]; cbn [runner.rounds]; [apply keeps_ret|].
  apply keeps_bind; [apply ok_round|intros [|e]; [done|apply keeps_ret]].
Qed.

(** *** The worker on the queue table *)

Lemma ok_take_item tx : ok (syncworker.take_item tx).
Proof.
  intros w Hw.
  assert (Hs : stmt_keeps db_wf syncworker.select_due).
  { intros ctx d a d' H W. unfold syncworker.select_due in H. destruct (syncworker.due ctx d); [done|]. by injection H as _ <-. }
  pose proof (keeps_exec db_wf (InTx tx) _ Hs w Hw) as H. unfold syncworker.take_item.
  destruct (exec (InTx tx) syncworker.select_due w) as [[a|e|m] w1]; [done| |done]. by destruct (bool_decide _).
Qed.

Lemma ok_rolling_back {A} tx (m : M A) : ok m → ok (syncworker.rolling_back tx m).
Proof.
  intros Hm w Hw. specialize (Hm w Hw). unfold syncworker.rolling_back.
  destruct (m w) as [[a|e|s] w1]; [done|by apply keeps_Rollback|done].
Qed.

Lemma ok_consumeOnce : ok syncworker.consumeOnce.
Proof.
  apply keeps_bind; [apply keeps_BeginTx|intros tx]. apply ok_rolling_back.
  apply keeps_bind; [apply ok_take_item|intros [item|]; [|apply keeps_ret]].
  apply keeps_bind; [apply keeps_Commit|intros _]. unfold syncworker.finish_item.
  destruct (_ =? 0); [apply keeps_ret|]. apply keeps_bind; [apply keeps_attempt, keeps_emit|intros r].
  assert (Hd : ok (syncworker.deleteQueueItem (syncworker.ID item))) by apply keeps_exec, delete_item_wf.
  destruct r as [u|e|m]; [done| |done]. unfold syncworker.markAttemptFailure.
  apply keeps_bind; [apply keeps_lift|intros delay].
  destruct (_ <=? _); [by apply keeps_exec, put_off_wf|].
  apply keeps_bind; [apply keeps_Now|intros now; by apply keeps_exec, put_off_wf].
Qed.

Lemma ok_StartWorker n : ok (syncworker.StartWorker n).
Proof.
  induction n as [|n IH]; cbn [syncworker.StartWorker]; [apply keeps_ret|].
  apply keeps_bind; [apply ok_Wait|intros []; [apply keeps_ret|]].
  apply keeps_bind; [apply keeps_discard, ok_consumeOnce|intros _; exact IH].
Qed.

Lemma ok_sync_worker cfg rounds : ok (sync_worker cfg rounds).
Proof.
  apply keeps_same. intros w. pose proof (only_queue_sync_worker cfg rounds w) as H. unfold wp in H.
  destruct (sync_worker cfg rounds w). naive_solver.
Qed.

(** C11: every row of every table stays well formed ([db_wf], written from
    the migrations): under its primary key, with its foreign keys leading to
    rows, its NOT NULL times set, its checks met, its amounts, currencies,
    versions, counters, event ids and cursors in the range of their columns,
    no event id and no address twice.  It holds after every request on every
    route, after any number of rounds of the consumers, in every environment,
    whatever calls fail and wherever; and with the committed rows those of
    the open transactions. *)
Theorem rows_well_formed redis sheets w :
  db_wf (w_db w) → Forall (λ p, db_wf p.1) (w_txs w) →
  (∀ t r, t ∈ registerAPIRoutes (newApp redis sheets) → db_wf (w_db (snd (Handle t r w)))) ∧
  (∀ n, db_wf (w_db (snd (runner.Start runner.worker_runner n w)))) ∧
  (∀ cfg n, db_wf (w_db (snd (sync_worker cfg n w)))) ∧
  (∀ n, db_wf (w_db (snd (syncworker.StartWorker n w)))).
Proof.
  intros Hd Ht. assert (Hw : world_ok db_wf w) by by split. split_and!; intros.
  - assert (Ho : ok (Handle t r)); [|by apply Ho].
    match goal with Hin : t ∈ _ |- _ => apply elem_of_app in Hin as [Hin|Hin]; [by apply ok_auth|];
      apply list_elem_of_fmap in Hin as (t' & -> & Hin); apply ok_JWTMiddleware end.
    intros r'. by eapply ok_group.
  - by apply ok_Start.
  - by apply ok_sync_worker.
  - by apply ok_StartWorker.
Qed.

End Programs.
