(* ===== verification/Health.v ===== *)
(** * Health: what the processes say about themselves

    Models the health endpoints of [cmd/api/*/main.go] and the router of the
    finance-api.  What a ping answers comes from the class [Pings]. *)

From S2P Require Import Prelude GoInt GoStrings GoTime GoValues Json Pgtypex Schema Sqlc Effects Crypto AuthTokens AuthService Wiring Http Api.
Import strings http httpx.
#[local] Open Scope string_scope.
#[local] Open Scope list_scope.
#[local] Open Scope Z_scope.

Class Pings := { ping_db : nat → option error; ping_redis : nat → option error }.

(** [pool.Ping(ctx)] and [redisClient.Ping(ctx).Err()]. *)
Definition Ping (answers : nat → option error) : M (option error) := λ w, (Ok (answers (w_tick w)), tick w).

Definition StatusServiceUnavailable : Z := 503.

(** The anonymous struct of the answer; [omitempty] leaves out what is not
    set. *)
Record health := mkhealth { h_Status : string; h_Database : string; h_Redis : string }.

Definition omit_blank (key v : string) : list (string * json) :=
  if String.eqb v "" then [] else [(key, JStr v)].

Definition health_json (s : health) : json :=
  JObj ([("status", JStr (h_Status s))] ++ omit_blank "database" (h_Database s) ++ omit_blank "redis" (h_Redis s)).

Section Health.
Context {PG : Pings}.

(** [redis]: whether there is a Redis client. *)
Definition healthHandler (redis : bool) : Handler := λ _,
  let status := mkhealth "ok" "" "" in
  let! db := Ping ping_db in
  let status :=
    match db with
    | Some _ => mkhealth "degraded" "unhealthy" (h_Redis status)
    | None => mkhealth (h_Status status) "healthy" (h_Redis status)
    end in
  let! status :=
    if redis then
      let! r := Ping ping_redis in
      ret match r with
          | Some _ =>
              mkhealth (if String.eqb (h_Status status) "ok" then "degraded" else h_Status status)
                (h_Database status) "unhealthy"
          | None => mkhealth (h_Status status) (h_Database status) "healthy"
          end
    else ret status in
  let code := if String.eqb (h_Status status) "degraded" then StatusServiceUnavailable else StatusOK in
  ret (mkResponse code "application/json" (BodyJSON (health_json status))).

(** The literal bodies of the sync-service and the auth-service; their
    content type is left to [net/http]. *)
Definition literal (members : list (string * string)) : ResponseBody :=
  BodyText (of_chars (Json.object (map (λ '(k, v), (k, Json.quote v)) members))).

Definition sync_service_health : Handler := λ _,
  let! db := Ping ping_db in
  match db with
  | Some _ => ret (mkResponse StatusServiceUnavailable "" (literal [("status", "degraded"); ("db", "unhealthy")]))
  | None =>
      let! r := Ping ping_redis in
      match r with
      | Some _ => ret (mkResponse StatusServiceUnavailable "" (literal [("status", "degraded"); ("redis", "unhealthy")]))
      | None => ret (mkResponse StatusOK "" (literal [("status", "ok")]))
      end
  end.

Definition auth_service_health : Handler := λ _, ret (mkResponse StatusOK "" (literal [("status", "ok")])).

(** ** Answers against the state of the services *)

Definition healthy (answer : option error) : bool := match answer with None => true | Some _ => false end.
Definition word (ok : bool) : string := if ok then "healthy" else "unhealthy".

(** The answer of the finance-api is exact: one status and one entry per
    service it uses, 503 when one of them does not answer. *)
Theorem healthHandler_exact redis r w :
  let db := healthy (ping_db (w_tick w)) in
  let rd := healthy (ping_redis (S (w_tick w))) in
  let up := db && (negb redis || rd) in
  wp (healthHandler redis r) (λ res w', w_db w' = w_db w ∧ w_txs w' = w_txs w ∧ w_trace w' = w_trace w ∧
    res = Ok (mkResponse (if up then 200 else 503) "application/json" (BodyJSON (JObj
      ([("status", JStr (if up then "ok" else "degraded")); ("database", JStr (word db))]
       ++ (if redis then [("redis", JStr (word rd))] else [])))))) w.
Proof.
  intros db rd up. unfold wp, healthHandler, bind, Ping, up, db, rd, healthy. cbn [w_tick tick].
  destruct (ping_db (w_tick w)), (ping_redis (S (w_tick w))) eqn:Er, redis; cbn; rewrite ?Er; by split_and!.
Qed.

(** Both services agree on when they are healthy, and differ in what they
    tell: the sync-service stops at the first failure. *)
Theorem health_agree r w :
  ∀ a b, fst (healthHandler true r w) = Ok a → fst (sync_service_health r w) = Ok b →
  Status a = Status b.
Proof.
  intros a b. unfold healthHandler, sync_service_health, bind, Ping. cbn [w_tick tick].
  destruct (ping_db (w_tick w)), (ping_redis (S (w_tick w))) eqn:Er; cbn;
    rewrite ?Er; cbn; intros Ha Hb; injection Ha as <-; injection Hb as <-; reflexivity.
Qed.

Lemma reads_Ping answers : reads (Ping answers).
Proof. apply (reads_tick (λ w, Ok (answers (w_tick w)))). Qed.

End Health.

(** ** The router of the finance-api *)

Record CorsOptions := mkCorsOptions {
  AllowedOrigins : list string; AllowedMethods : list string; AllowedHeaders : list string;
  ExposedHeaders : list string; AllowCredentials : bool; MaxAge : Z }.

(** Middleware of chi and of [go-chi/cors], outermost first. *)
Inductive Middleware := RequestID | RealIP | Recoverer | Timeout (d : Z) | Cors (o : CorsOptions).

Record Mux := mkMux { Uses : list Middleware; Routes : list Route }.

Section Router.
Context {E : Env} {P : Process} {U : Unicode} {UL : UuidLib} {J : JwtLib} {B : BcryptLib} {PG : Pings}.

(** [observability.Handler()] is the handler of the Prometheus library. *)
Variable metrics : Handler.

Definition newRouter (redis : bool) (h : Services) : Mux :=
  mkMux [RequestID; RealIP; Recoverer; Timeout (60 * Second);
         Cors (mkCorsOptions ["*"] ["GET"; "POST"; "PUT"; "PATCH"; "DELETE"; "OPTIONS"]
                 ["Accept"; "Authorization"; "Content-Type"; "X-CSRF-Token"] ["Link"] true 300)]
    (mkRoute "GET" "/health" (healthHandler redis) :: mkRoute "GET" "/metrics" metrics :: RegisterAPIRoutes h).

End Router.
