(* ===== verification/Lifecycle.v ===== *)
(** * Lifecycle: processes, what they hold and how they end

    A [main] is a computation [PM] over the environment variables and the
    record of what the process did.  It ends by returning, by a panic, by
    [os.Exit] (which [log.Fatal] calls and which runs no deferred call), or by
    a signal it does not handle.  Also models [pkg/shared/db/pg.go] and
    [pkg/shared/redisx/client.go]; what drivers and servers answer comes from
    the class [Host]. *)

From S2P Require Import Prelude GoInt GoStrings GoTime GoValues Effects Http Api Health AppRun.
#[local] Open Scope string_scope.
#[local] Open Scope list_scope.
#[local] Open Scope Z_scope.

(** ** The record of a process *)

Inductive Resource := Postgres | RedisClient.
#[export] Instance Resource_eq_dec : EqDecision Resource.
Proof. solve_decision. Defined.

(** [http.Server]. *)
Record Server := mkServer {
  srv_Addr : string; srv_Handler : Mux; ReadTimeout : Z; WriteTimeout : Z; IdleTimeout : Z }.

(** The goroutines a [main] starts. *)
Inductive Routine :=
| ServeHTTP (srv : Server)
| RunProjections
| ConsumeJobs (consumer : string).

Inductive PEvent :=
| Opened (r : Resource)
| Pinged (r : Resource) (ok : bool)
| Closed (r : Resource)
| Spawned (g : Routine)
| ContextCancelled                (* the context of the goroutines *)
| ServerShutdown
| Slept (d : Z)
| LoggerSynced.

Record PState := mkPState { p_env : Process; p_trace : list PEvent }.

Inductive Exit (A : Type) :=
| Returns (o : outcome A)
| Exits (code : Z)
| Killed (s : apprun.Signal).
Arguments Returns {A} o.
Arguments Exits {A} code.
Arguments Killed {A} s.

Definition PM (A : Type) : Type := PState → Exit A * PState.

Definition pret {A} (a : A) : PM A := λ s, (Returns (Ok a), s).
Definition plift {A} (o : outcome A) : PM A := λ s, (Returns o, s).
Definition pemit (ev : PEvent) : PM unit := λ s, (Returns (Ok tt), mkPState (p_env s) (p_trace s ++ [ev])).

Definition pbind {A B} (m : PM A) (k : A → PM B) : PM B := λ s,
  match m s with
  | (Returns (Ok a), s') => k a s'
  | (Returns (Err e), s') => (Returns (Err e), s')
  | (Returns (Panic msg), s') => (Returns (Panic msg), s')
  | (Exits c, s') => (Exits c, s')
  | (Killed g, s') => (Killed g, s')
  end.

Declare Scope pm_scope.
Delimit Scope pm_scope with PM.
Notation "'run!' x ':=' m 'in' k" := (pbind m (λ x, k))
  (at level 10, x pattern, m at level 100, k at level 200) : pm_scope.
Notation "m >>> k" := (pbind m (λ _, k))
  (at level 100, k at level 200, right associativity) : pm_scope.
#[local] Open Scope pm_scope.

(** [defer d()] before the statements [m]: [d] runs when [m] returns or
    panics, not when the process exits or is killed. *)
Definition defer {A} (d : PM unit) (m : PM A) : PM A := λ s,
  match m s with
  | (Returns o, s') => (Returns o, snd (d s'))
  | r => r
  end.

(** [if err != nil { logger.Fatal(...) }] and [if err != nil { panic(err) }]. *)
Definition or_fatal {A} (m : PM A) : PM A := λ s,
  match m s with
  | (Returns (Err _), s') => (Exits 1, s')
  | r => r
  end.
Definition or_panic {A} (m : PM A) : PM A := λ s,
  match m s with
  | (Returns (Err e), s') => (Returns (Panic (Error e)), s')
  | r => r
  end.

Definition pwrap_err {A} (ctx : string) (m : PM A) : PM A := λ s,
  match m s with
  | (Returns o, s') => (Returns (with_context ctx o), s')
  | r => r
  end.

(** [_ = f()]. *)
Definition pdiscard (m : PM unit) : PM unit := λ s,
  match m s with
  | (Returns (Err _), s') => (Returns (Ok tt), s')
  | r => r
  end.

(** [os.Setenv]: it refuses an empty name, a name with an equals sign or a
    NUL byte, and a value with a NUL byte, and then changes nothing. *)
Definition contains_byte (c : ascii) (s : string) : bool :=
  negb (strings.str_forall (λ x, negb (Ascii.eqb x c)) s).
Definition NUL : ascii := Ascii.zero.
Definition setenv_refuses (k v : string) : bool :=
  String.eqb k "" || contains_byte "=" k || contains_byte NUL k || contains_byte NUL v.

Definition with_variable (k v : string) (P : Process) : Process :=
  {| Getenv name := if String.eqb name k then v else Getenv (Process := P) name |}.
Definition Setenv (k v : string) : PM unit := λ s,
  if setenv_refuses k v then (Returns (Err (foreign "setenv: invalid argument")), s)
  else (Returns (Ok tt), mkPState (with_variable k v (p_env s)) (p_trace s)).
Definition Environ : PM Process := λ s, (Returns (Ok (p_env s)), s).

(** The exit status: 0 when [main] returns, 2 after a panic, 128 plus the
    number of a signal as a shell reports it. *)
Definition exit_status {A} (x : Exit A) : Z :=
  match x with
  | Returns (Panic _) => 2
  | Returns _ => 0
  | Exits c => c
  | Killed apprun.SIGINT => 130
  | Killed apprun.SIGTERM => 143
  end.

(** ** Connections *)

(** The fields of [pgxpool.Config] the code sets, next to what was parsed. *)
Record PoolConfig (conn : Type) := mkPoolConfig {
  ConnConfig : conn; MaxConns : Z; MinConns : Z; MaxConnIdleTime : Z; MaxConnLifetime : Z }.
Arguments mkPoolConfig {conn} _ _ _ _ _.
Arguments ConnConfig {conn} _.
Arguments MaxConns {conn} _.
Arguments MinConns {conn} _.
Arguments MaxConnIdleTime {conn} _.
Arguments MaxConnLifetime {conn} _.

Class Host := {
  PgConn : Type;
  RedisOptions : Type;
  pgxpool_ParseConfig : string → outcome (PoolConfig PgConn);
  pgxpool_NewWithConfig : PoolConfig PgConn → outcome unit;
  redis_ParseURL : string → outcome RedisOptions;
  first_ping : Resource → option error;
}.

Section Connections.
Context {H : Host}.

(** The ping of a new connection, which is closed when it fails. *)
Definition ping_or_close (r : Resource) (ctx : string) : PM unit :=
  match first_ping r with
  | Some e => pemit (Pinged r false) >>> pemit (Closed r) >>> plift (Err (wrapf ctx e))
  | None => pemit (Pinged r true)
  end.

Definition pool_config (cfg : PoolConfig PgConn) : PoolConfig PgConn :=
  mkPoolConfig (ConnConfig cfg) 10 2 (5 * (60 * Second)) (30 * (60 * Second)).

Definition NewPostgresPool (dsn : string) : PM unit :=
  run! cfg := pwrap_err "parse dsn" (plift (pgxpool_ParseConfig dsn)) in
  pwrap_err "new pool" (plift (pgxpool_NewWithConfig (pool_config cfg))) >>>
  pemit (Opened Postgres) >>>
  ping_or_close Postgres "ping db".

Definition NewClient (url : string) : PM unit :=
  run! _ := pwrap_err "parse redis url" (plift (redis_ParseURL url)) in
  pemit (Opened RedisClient) >>>
  ping_or_close RedisClient "ping redis".

End Connections.

(** ** Waiting for the end

    What ends the wait of a process: a signal, or the error of a server that
    stopped by itself. *)
Inductive Wait := GotSignal (g : apprun.Signal) | ServerExited (e : error).

Definition handles (notified : list apprun.Signal) (g : apprun.Signal) : bool :=
  existsb (λ h, match h, g with
                | apprun.SIGINT, apprun.SIGINT | apprun.SIGTERM, apprun.SIGTERM => true
                | _, _ => false
                end) notified.

(** [<-stop] with the signals given to [signal.Notify]; any other signal
    kills the process, and the goroutine of a server that fails calls
    [logger.Fatalf]. *)
Definition await (notified : list apprun.Signal) (w : Wait) : PM unit := λ s,
  match w with
  | GotSignal g => if handles notified g then (Returns (Ok tt), s) else (Killed g, s)
  | ServerExited _ => (Exits 1, s)
  end.

(** ** Discipline of resources

    [held_after held tr]: what is open after the events, or nothing when one
    of them closes something that is not the last thing opened. *)
Fixpoint held_after (held : list Resource) (tr : list PEvent) : option (list Resource) :=
  match tr with
  | [] => Some held
  | Opened r :: tr' => held_after (r :: held) tr'
  | Closed r :: tr' =>
      match held with
      | r' :: rest => if bool_decide (r' = r) then held_after rest tr' else None
      | [] => None
      end
  | _ :: tr' => held_after held tr'
  end.

Lemma held_after_app held tr tr' :
  held_after held (tr ++ tr') = held ← held_after held tr; held_after held tr'.
Proof.
  revert held. induction tr as [|ev tr IH]; intros held; [done|].
  destruct ev; cbn; try apply IH. destruct held as [|r' rest]; [done|].
  destruct (bool_decide (r' = r)); [apply IH|done].
Qed.

(** What a computation adds to the record: when it returns a value its
    resources are [gain] more, when it returns an error none are, and an exit
    may leave some open but none was closed out of turn. *)
Definition acquires (gain : list Resource) {A} (m : PM A) : Prop := ∀ s,
  ∃ tr, p_trace (snd (m s)) = p_trace s ++ tr ∧
    ∀ held,
      match fst (m s) with
      | Returns (Ok _) => held_after held tr = Some (gain ++ held)
      | Returns _ => held_after held tr = Some held
      | _ => is_Some (held_after held tr)
      end.

Abbreviation balanced := (acquires []).

Lemma balanced_pret {A} (a : A) : balanced (pret a).
Proof. intros s. exists []. by rewrite app_nil_r. Qed.

Lemma balanced_plift {A} (o : outcome A) : balanced (plift o).
Proof. intros s. exists []. rewrite app_nil_r. by destruct o. Qed.

Lemma balanced_pemit ev :
  (∀ r, ev ≠ Opened r ∧ ev ≠ Closed r) → balanced (pemit ev).
Proof.
  intros Hev s. exists [ev]. split; [done|]. intros held. cbn. destruct ev; try done.
  - by destruct (Hev r).
  - by destruct (Hev r).
Qed.

Lemma balanced_pbind {A B} (m : PM A) (k : A → PM B) :
  balanced m → (∀ a, balanced (k a)) → balanced (pbind m k).
Proof.
  intros Hm Hk s. destruct (Hm s) as (tr & E & Hh). unfold pbind.
  destruct (m s) as [[[a|e|msg]|c|g] s1]; cbn in *; [|by exists tr..].
  destruct (Hk a s1) as (tr2 & E2 & Hh2). exists (tr ++ tr2). split; [by rewrite E2, E, app_assoc|].
  intros held. rewrite held_after_app, Hh. cbn. apply Hh2.
Qed.

Lemma acquires_or_fatal {A} gain (m : PM A) : acquires gain m → acquires gain (or_fatal m).
Proof.
  intros Hm s. destruct (Hm s) as (tr & E & Hh). unfold or_fatal.
  destruct (m s) as [[[a|e|msg]|c|g] s1]; cbn in *; exists tr; (split; [done|]); intros held; eauto.
Qed.

Lemma balanced_or_panic {A} (m : PM A) : balanced m → balanced (or_panic m).
Proof.
  intros Hm s. destruct (Hm s) as (tr & E & Hh). unfold or_panic.
  destruct (m s) as [[[a|e|msg]|c|g] s1]; cbn in *; by exists tr.
Qed.

Lemma balanced_pwrap_err {A} ctx (m : PM A) : balanced m → balanced (pwrap_err ctx m).
Proof.
  intros Hm s. destruct (Hm s) as (tr & E & Hh). unfold pwrap_err.
  destruct (m s) as [[[a|e|msg]|c|g] s1]; cbn in *; by exists tr.
Qed.

Lemma balanced_Setenv k v : balanced (Setenv k v).
Proof. intros s. exists []. rewrite app_nil_r. unfold Setenv. by destruct (setenv_refuses k v). Qed.

Lemma balanced_pdiscard m : balanced m → balanced (pdiscard m).
Proof.
  intros Hm s. destruct (Hm s) as (tr & E & Hh). unfold pdiscard.
  destruct (m s) as [[[a|e|msg]|c|g] s1]; cbn in *; by exists tr.
Qed.

Lemma balanced_Environ : balanced Environ.
Proof. intros s. exists []. by rewrite app_nil_r. Qed.

Lemma balanced_await notified w : balanced (await notified w).
Proof.
  intros s. exists []. rewrite app_nil_r. destruct w as [g|e]; cbn; [|eauto].
  destruct (handles notified g); cbn; eauto.
Qed.

(** A deferred call that concerns no resource. *)
Lemma balanced_defer {A} ev (m : PM A) :
  (∀ r, ev ≠ Opened r ∧ ev ≠ Closed r) → balanced m → balanced (defer (pemit ev) m).
Proof.
  intros Hev Hm s. destruct (Hm s) as (tr & E & Hh). destruct (balanced_pemit ev Hev (snd (m s))) as (tr2 & E2 & Hh2).
  unfold defer. destruct (m s) as [[o|c|g] s1]; [|cbn in *; by exists tr..]. cbn in *.
  exists (tr ++ tr2). split; [by rewrite E2, E, app_assoc|].
  intros held. specialize (Hh held). specialize (Hh2 held).
  destruct o; rewrite held_after_app, Hh; exact Hh2.
Qed.

(** A resource that is acquired and then closed by a deferred call. *)
Lemma balanced_resource {A} r (m : PM unit) (k : PM A) :
  acquires [r] m → balanced k → balanced (pbind m (λ _, defer (pemit (Closed r)) k)).
Proof.
  intros Hm Hk s. destruct (Hm s) as (tr & E & Hh). unfold pbind.
  destruct (m s) as [[[u|e|msg]|c|g] s1]; cbn in *; [|by exists tr..].
  destruct (Hk s1) as (tr2 & E2 & Hh2). unfold defer.
  destruct (k s1) as [[o|c|g] s2]; cbn in *.
  - exists (tr ++ tr2 ++ [Closed r]). split; [by rewrite E2, E, !app_assoc|].
    intros held. rewrite held_after_app, Hh. cbn. specialize (Hh2 (r :: held)).
    destruct o; rewrite held_after_app, Hh2; cbn; by rewrite bool_decide_eq_true_2.
  - exists (tr ++ tr2). split; [by rewrite E2, E, app_assoc|]. intros held. rewrite held_after_app, Hh. apply Hh2.
  - exists (tr ++ tr2). split; [by rewrite E2, E, app_assoc|]. intros held. rewrite held_after_app, Hh. apply Hh2.
Qed.

Section Acquire.
Context {H : Host}.

(** A connection that answers is kept; one that does not is closed again. *)
Lemma acquires_ping_or_close r ctx : acquires [r] (pemit (Opened r) >>> ping_or_close r ctx).
Proof.
  intros s. unfold ping_or_close, pbind. cbn. destruct (first_ping r) as [e|]; cbn.
  - exists [Opened r; Pinged r false; Closed r]. rewrite <- !app_assoc. split; [done|].
    intros held. cbn. by rewrite bool_decide_eq_true_2.
  - exists [Opened r; Pinged r true]. rewrite <- !app_assoc. by split.
Qed.

Lemma acquires_after {A} gain (m : PM A) (k : A → PM unit) :
  balanced m → (∀ a, acquires gain (k a)) → acquires gain (pbind m k).
Proof.
  intros Hm Hk s. destruct (Hm s) as (tr & E & Hh). unfold pbind.
  destruct (m s) as [[[a|e|msg]|c|g] s1]; cbn in *; [|by exists tr..].
  destruct (Hk a s1) as (tr2 & E2 & Hh2). exists (tr ++ tr2). split; [by rewrite E2, E, app_assoc|].
  intros held. rewrite held_after_app, Hh. apply Hh2.
Qed.

Lemma acquires_NewPostgresPool dsn : acquires [Postgres] (NewPostgresPool dsn).
Proof.
  apply acquires_after; [apply balanced_pwrap_err, balanced_plift|intros cfg].
  apply acquires_after; [apply balanced_pwrap_err, balanced_plift|intros _]. apply acquires_ping_or_close.
Qed.

Lemma acquires_NewClient url : acquires [RedisClient] (NewClient url).
Proof.
  apply acquires_after; [apply balanced_pwrap_err, balanced_plift|intros opts]. apply acquires_ping_or_close.
Qed.

(** The pool a process uses has at most ten connections, was parsed from the
    configured address and has answered a ping. *)
Lemma NewPostgresPool_Ok dsn s s' :
  NewPostgresPool dsn s = (Returns (Ok tt), s') →
  p_trace s' = p_trace s ++ [Opened Postgres; Pinged Postgres true] ∧ first_ping Postgres = None ∧
  ∃ cfg, pgxpool_ParseConfig dsn = Ok cfg ∧ pgxpool_NewWithConfig (pool_config cfg) = Ok tt.
Proof.
  unfold NewPostgresPool, ping_or_close, pbind, pwrap_err, plift.
  destruct (pgxpool_ParseConfig dsn) as [cfg|e|msg]; cbn; [|done..].
  destruct (pgxpool_NewWithConfig (pool_config cfg)) as [[]|e|msg] eqn:Ec; cbn; [|done..].
  destruct (first_ping Postgres); cbn; [done|]. intros [= <-]. cbn. rewrite <- app_assoc. eauto.
Qed.

End Acquire.

Create HintDb lifecycle.
#[export] Hint Resolve balanced_pret balanced_plift balanced_pbind acquires_or_fatal balanced_or_panic
  balanced_pwrap_err balanced_pdiscard balanced_Setenv balanced_Environ balanced_resource
  acquires_NewPostgresPool acquires_NewClient : lifecycle.

(** ** Symbolic execution of a [main] *)

Definition record_of (tr : list PEvent) (s : PState) : PState := mkPState (p_env s) (p_trace s ++ tr).

Definition pwp {A} (m : PM A) (Q : Exit A → PState → Prop) (s : PState) : Prop := Q (fst (m s)) (snd (m s)).

Lemma pwp_pret {A} (a : A) Q s : Q (Returns (Ok a)) s → pwp (pret a) Q s.
Proof. done. Qed.

Lemma pwp_plift {A} (o : outcome A) Q s : Q (Returns o) s → pwp (plift o) Q s.
Proof. done. Qed.

Lemma pwp_pemit ev Q s : Q (Returns (Ok tt)) (record_of [ev] s) → pwp (pemit ev) Q s.
Proof. done. Qed.

(** The environment after [_ = os.Setenv(k, v)]. *)
Definition after_Setenv (k v : string) (P : Process) : Process :=
  if setenv_refuses k v then P else with_variable k v P.

Lemma pwp_Setenv k v Q s :
  Q (Returns (Ok tt)) (mkPState (after_Setenv k v (p_env s)) (p_trace s)) →
  pwp (pdiscard (Setenv k v)) Q s.
Proof.
  unfold pwp, pdiscard, Setenv, after_Setenv. destruct (setenv_refuses k v); [|done]. by destruct s.
Qed.

Lemma pwp_Environ Q s : Q (Returns (Ok (p_env s))) s → pwp Environ Q s.
Proof. done. Qed.

Lemma pwp_pbind {A B} (m : PM A) (k : A → PM B) (Q : Exit B → PState → Prop) s :
  pwp m (λ x s', match x with
                 | Returns (Ok a) => pwp (k a) Q s'
                 | Returns (Err e) => Q (Returns (Err e)) s'
                 | Returns (Panic msg) => Q (Returns (Panic msg)) s'
                 | Exits c => Q (Exits c) s'
                 | Killed g => Q (Killed g) s'
                 end) s → pwp (pbind m k) Q s.
Proof. unfold pwp, pbind. destruct (m s) as [[[]| |] s1]; done. Qed.

Lemma pwp_defer {A} ev (m : PM A) (Q : Exit A → PState → Prop) s :
  pwp m (λ x s', match x with
                 | Returns o => Q (Returns o) (record_of [ev] s')
                 | _ => Q x s'
                 end) s → pwp (defer (pemit ev) m) Q s.
Proof. unfold pwp, defer. destruct (m s) as [[[]| |] s1]; done. Qed.

Lemma pwp_or_fatal {A} (m : PM A) (Q : Exit A → PState → Prop) s :
  pwp m (λ x s', match x with Returns (Err _) => Q (Exits 1) s' | _ => Q x s' end) s →
  pwp (or_fatal m) Q s.
Proof. unfold pwp, or_fatal. destruct (m s) as [[[]| |] s1]; done. Qed.

Lemma pwp_or_panic {A} (m : PM A) (Q : Exit A → PState → Prop) s :
  pwp m (λ x s', match x with Returns (Err e) => Q (Returns (Panic (Error e))) s' | _ => Q x s' end) s →
  pwp (or_panic m) Q s.
Proof. unfold pwp, or_panic. destruct (m s) as [[[]| |] s1]; done. Qed.

Lemma pwp_await notified w Q s :
  match w with
  | GotSignal g => if handles notified g then Q (Returns (Ok tt)) s else Q (Killed g) s
  | ServerExited _ => Q (Exits 1) s
  end → pwp (await notified w) Q s.
Proof. unfold pwp, await. destruct w as [g|e]; [|done]. by destruct (handles notified g). Qed.

Lemma pwp_use {A} (m : PM A) R s x s' : pwp m R s → m s = (x, s') → R x s'.
Proof. unfold pwp. intros Hm Heq. by rewrite Heq in Hm. Qed.

Lemma record_app tr tr' s : record_of tr' (record_of tr s) = record_of (tr ++ tr') s.
Proof. unfold record_of. cbn. by rewrite app_assoc. Qed.

(** What a connection leaves behind when it cannot be made. *)
Definition gave_up (r : Resource) (tr : list PEvent) : Prop :=
  tr = [] ∨ tr = [Opened r; Pinged r false; Closed r].

Section Connecting.
Context {H : Host}.

Lemma pwp_NewPostgresPool dsn (Q : Exit unit → PState → Prop) s :
  Q (Returns (Ok tt)) (record_of [Opened Postgres; Pinged Postgres true] s) →
  (∀ o tr, (∀ u, o ≠ Ok u) → gave_up Postgres tr → Q (Returns o) (record_of tr s)) →
  pwp (NewPostgresPool dsn) Q s.
Proof.
  intros Hok Hno. assert (Hs : record_of [] s = s) by (unfold record_of; rewrite app_nil_r; by destruct s).
  unfold pwp, NewPostgresPool, ping_or_close, pbind, pwrap_err, plift.
  destruct (pgxpool_ParseConfig dsn) as [cfg|e|msg]; cbn; [|by rewrite <- Hs; apply Hno; [|left]..].
  destruct (pgxpool_NewWithConfig (pool_config cfg)) as [u|e|msg]; cbn; [|by rewrite <- Hs; apply Hno; [|left]..].
  destruct (first_ping Postgres); cbn; rewrite <- ?app_assoc; [apply Hno; [done|by right]|done].
Qed.

Lemma pwp_NewClient url (Q : Exit unit → PState → Prop) s :
  Q (Returns (Ok tt)) (record_of [Opened RedisClient; Pinged RedisClient true] s) →
  (∀ o tr, (∀ u, o ≠ Ok u) → gave_up RedisClient tr → Q (Returns o) (record_of tr s)) →
  pwp (NewClient url) Q s.
Proof.
  intros Hok Hno. assert (Hs : record_of [] s = s) by (unfold record_of; rewrite app_nil_r; by destruct s).
  unfold pwp, NewClient, ping_or_close, pbind, pwrap_err, plift.
  destruct (redis_ParseURL url) as [cfg|e|msg]; cbn; [|by rewrite <- Hs; apply Hno; [|left]..].
  destruct (first_ping RedisClient); cbn; rewrite <- ?app_assoc; [apply Hno; [done|by right]|done].
Qed.

End Connecting.

(** One step of symbolic execution. *)
Ltac pwp_step :=
  lazymatch goal with
  | |- pwp (pbind _ _) _ _ => apply pwp_pbind
  | |- pwp (pret _) _ _ => apply pwp_pret
  | |- pwp (plift _) _ _ => apply pwp_plift
  | |- pwp (pemit _) _ _ => apply pwp_pemit
  | |- pwp Environ _ _ => apply pwp_Environ
  | |- pwp (pdiscard (Setenv _ _)) _ _ => apply pwp_Setenv
  | |- pwp (defer (pemit _) _) _ _ => apply pwp_defer
  | |- pwp (or_fatal _) _ _ => apply pwp_or_fatal
  | |- pwp (or_panic _) _ _ => apply pwp_or_panic
  | |- pwp (NewPostgresPool _) _ _ => apply pwp_NewPostgresPool
  | |- pwp (NewClient _) _ _ => apply pwp_NewClient
  | |- pwp (if ?b then _ else _) _ _ => destruct b eqn:?
  end.

(** Runs a [main] on all its branches, leaving the goals at its ends. *)
Ltac pwp_exec :=
  repeat first
    [ lazymatch goal with |- pwp (plift ?o) _ _ => destruct o eqn:?; apply pwp_plift end
    | lazymatch goal with
      | |- pwp (await _ (GotSignal ?g)) _ _ => apply pwp_await; try (is_var g; destruct g); cbn [handles existsb orb]
      | |- pwp (await _ ?w) _ _ => apply pwp_await; destruct w as [[]|]; cbn [handles existsb orb]
      end
    | pwp_step
    | lazymatch goal with
      | |- ∀ o tr, _ → gave_up _ tr → _ =>
          let o := fresh "o" in let Ho := fresh "Ho" in
          intros o ? Ho [-> | ->]; destruct o; try (exfalso; by eapply Ho)
      end
    | progress cbv beta iota ].
