(* ===== verification/Entry.v ===== *)
(** * Entry: the four processes

    Models [cmd/api/*/main.go]: how each process starts, what it serves and
    consumes, what ends it and what it leaves behind.  The life of the
    finance-api's server is [AppRun]; what the consumers do is [SyncPipeline]
    and [ProjectionRunner]. *)

From S2P Require Import Prelude GoInt GoStrings GoTime GoValues Json Pgtypex Schema Sqlc Effects Crypto AuthTokens AuthService Wiring Projection Outbox SyncService SheetsFactory AppRun Config Http Api ApiFacts Health Lifecycle.
Import strings http httpx apprun.
#[local] Open Scope string_scope.
#[local] Open Scope list_scope.
#[local] Open Scope Z_scope.
#[local] Open Scope outcome_scope.
#[local] Open Scope pm_scope.

(** What [App.Run] returned, and whether it called [Shutdown]. *)
Record RunReport := mkRunReport { outcome_of : outcome unit; called_shutdown : bool }.

Section Processes.
Context {E : Env} {U : Unicode} {UL : UuidLib} {PL : PgtypeLib} {PS : queries.PgServer} {PP : projection.PgParams}.
Context {J : JwtLib} {B : BcryptLib} {Q : quoting.Printable} {G : GoogleLib} {V : config.ViperLib}.
Context {Z : logging.ZapLib} {H : Host} {PG : Pings}.
Variable metrics : http.Handler.

(** ** finance-api *)

Definition newApp (P : Process) (cfg : config.Config) (redis : bool) : outcome Server :=
  try sheets := sheets_factory.google_client_enabled in
  Ok (mkServer (config.Addr (config.Server cfg)) (newRouter metrics redis (Api.newApp redis sheets))
        (15 * Second) (15 * Second) (60 * Second)).

Definition Run (srv : Server) (report : RunReport) : PM unit :=
  pemit (Spawned (ServeHTTP srv)) >>>
  (if called_shutdown report then pemit ServerShutdown else pret tt) >>>
  plift (outcome_of report).

(** [if cfg.Redis.URL != ""]: a client that is closed when [main] ends. *)
Definition with_redis (url : string) (k : bool → PM unit) : PM unit :=
  if negb (String.eqb url "")
  then or_fatal (NewClient url) >>> defer (pemit (Closed RedisClient)) (k true)
  else k false.

Definition finance_api (report : RunReport) : PM unit :=
  or_panic (plift logging.NewLogger) >>> (
  defer (pemit LoggerSynced) (
    run! cfg := or_fatal (plift (config.Load "FINANCE_API")) in
    let secret := config.JWTSecret (config.Auth cfg) in
    (if negb (String.eqb secret "") then pdiscard (Setenv "JWT_SIGNING_KEY" secret) else pret tt) >>>
    or_fatal (NewPostgresPool (config.DatabaseURL (config.Database cfg))) >>>
    defer (pemit (Closed Postgres)) (
      with_redis (config.RedisURL (config.Redis cfg)) (λ redis,
        run! P := Environ in
        run! app := or_fatal (plift (newApp P cfg redis)) in
        or_fatal (Run app report))))).

(** ** sync-service *)

Definition sync_service_router : Mux :=
  mkMux [RequestID; RealIP; Recoverer] [mkRoute "GET" "/health" sync_service_health].

(** A logger that cannot be built is not noticed. *)
Definition sync_service (w : Wait) : PM unit :=
  run! cfg := or_fatal (plift (config.Load "sync-service")) in
  defer (pemit ContextCancelled) (
  defer (pemit LoggerSynced) (
    or_fatal (NewPostgresPool (config.DatabaseURL (config.Database cfg))) >>>
    defer (pemit (Closed Postgres)) (
      or_fatal (NewClient (config.RedisURL (config.Redis cfg))) >>>
      defer (pemit (Closed RedisClient)) (
        pemit (Spawned (ConsumeJobs "sync-service")) >>>
        pemit (Spawned (ServeHTTP (mkServer (config.Addr (config.Server cfg)) sync_service_router
          (15 * Second) (15 * Second) (60 * Second)))) >>>
        await [SIGINT] w >>>
        pemit ServerShutdown)))).

(** ** worker-service *)

Definition worker_service (g : Signal) : PM unit :=
  or_panic (plift logging.NewLogger) >>> (
  defer (pemit LoggerSynced) (
    run! cfg := or_fatal (plift (config.Load "WORKER_SERVICE")) in
    or_fatal (NewPostgresPool (config.DatabaseURL (config.Database cfg))) >>>
    defer (pemit (Closed Postgres)) (
    defer (pemit ContextCancelled) (
      pemit (Spawned RunProjections) >>>
      with_redis (config.RedisURL (config.Redis cfg)) (λ redis,
        (if redis then pemit (Spawned (ConsumeJobs "worker-service")) else pret tt) >>>
        await [SIGINT; SIGTERM] (GotSignal g) >>>
        pemit ContextCancelled >>>
        pemit (Slept (500 * Millisecond))))))).

(** ** auth-service *)

Definition auth_service_router : Mux :=
  mkMux [RequestID; RealIP; Recoverer] [mkRoute "GET" "/health" auth_service_health].

Definition auth_service (w : Wait) : PM unit :=
  pemit (Spawned (ServeHTTP (mkServer ":8081" auth_service_router 0 0 0))) >>> await [] w.

End Processes.

(** ** Resources *)

Ltac no_resource := intros []; done.

(** Balance of a [main], from the balance of its calls. *)
Ltac balance :=
  repeat first
    [ apply balanced_resource; [apply acquires_or_fatal; first [apply acquires_NewPostgresPool|apply acquires_NewClient]|]
    | apply balanced_pbind; [|intros ?]
    | apply balanced_defer; [no_resource|]
    | apply balanced_pemit; no_resource
    | apply balanced_await
    | apply acquires_or_fatal
    | solve [eauto with lifecycle]
    | match goal with |- acquires _ (if ?b then _ else _) => destruct b end ].

Section Facts.
Context {E : Env} {U : Unicode} {UL : UuidLib} {PL : PgtypeLib} {PS : queries.PgServer} {PP : projection.PgParams}.
Context {J : JwtLib} {B : BcryptLib} {Q : quoting.Printable} {G : GoogleLib} {V : config.ViperLib}.
Context {Z : logging.ZapLib} {H : Host} {PG : Pings}.
Variable metrics : http.Handler.

Lemma balanced_with_redis url k : (∀ redis, balanced (k redis)) → balanced (with_redis url k).
Proof. intros Hk. unfold with_redis. balance; apply Hk. Qed.

Lemma balanced_finance_api report : balanced (finance_api metrics report).
Proof. unfold finance_api. balance. apply balanced_with_redis. intros redis. unfold Run. balance. Qed.

Lemma balanced_sync_service w : balanced (sync_service w).
Proof. unfold sync_service. balance. Qed.

Lemma balanced_worker_service g : balanced (worker_service g).
Proof. unfold worker_service. balance. apply balanced_with_redis. intros redis. balance. Qed.

Definition start (P : Process) : PState := mkPState P [].

(** C36: whatever fails, and whatever ends the process: when [main] returns,
    everything it opened has been closed, in the reverse order; when the
    process exits or is killed, nothing was closed out of turn. *)
Theorem resources_released P report w g m :
  m ∈ [finance_api metrics report; sync_service w; worker_service g] →
  match m (start P) with
  | (Returns _, s') => held_after [] (p_trace s') = Some []
  | (_, s') => is_Some (held_after [] (p_trace s'))
  end.
Proof.
  intros Hm. assert (Hb : balanced m).
  { repeat (apply elem_of_cons in Hm as [->|Hm]);
      [apply balanced_finance_api|apply balanced_sync_service|apply balanced_worker_service|by apply elem_of_nil in Hm]. }
  destruct (Hb (start P)) as (tr & Htr & Hh). destruct (m (start P)) as [x s']. cbn in Htr, Hh. rewrite Htr.
  specialize (Hh []). destruct x as [[]|c|k]; exact Hh.
Qed.

(** Nothing is served and nothing consumed before the database has answered. *)
Fixpoint ready (answered : bool) (tr : list PEvent) : bool :=
  match tr with
  | [] => true
  | Spawned _ :: tr' => answered && ready answered tr'
  | Pinged Postgres ok :: tr' => ready ok tr'
  | _ :: tr' => ready answered tr'
  end.

Theorem serves_when_ready P report w g m :
  m ∈ [finance_api metrics report; sync_service w; worker_service g] →
  ready false (p_trace (snd (m (start P)))) = true.
Proof.
  intros Hm. change (pwp m (λ _ s', ready false (p_trace s') = true) (start P)).
  repeat (apply elem_of_cons in Hm as [->|Hm]); [..|by apply elem_of_nil in Hm].
  - unfold finance_api, with_redis, Run. pwp_exec. all: done.
  - unfold sync_service. pwp_exec. all: done.
  - unfold worker_service, with_redis. pwp_exec. all: done.
Qed.

Definition closes (ev : PEvent) : bool := match ev with Closed _ => true | _ => false end.
Definition cancels (ev : PEvent) : bool := match ev with ContextCancelled => true | _ => false end.

Definition worker_stopped (tr : list PEvent) : Prop :=
  ∃ pre post, tr = pre ++ ContextCancelled :: Slept (500 * Millisecond) :: post ∧
    existsb closes pre = false ∧ Spawned RunProjections ∈ pre.
Definition sync_stopped (tr : list PEvent) : Prop :=
  ∃ pre, tr = pre ++ [ServerShutdown; Closed RedisClient; Closed Postgres; LoggerSynced; ContextCancelled] ∧
    existsb cancels pre = false ∧ Spawned (ConsumeJobs "sync-service") ∈ pre.

Ltac member := repeat first [apply list_elem_of_here|apply list_elem_of_further].

Lemma worker_stops P g :
  pwp (worker_service g) (λ x s', x = Returns (Ok tt) → worker_stopped (p_trace s')) (start P).
Proof.
  unfold worker_service, with_redis. pwp_exec. all: try done. all: intros _; unfold worker_stopped.
  all: first [eexists [_; _; _; _; _; _], _; split; [reflexivity|]|eexists [_; _; _], _; split; [reflexivity|]].
  all: split; [done|member].
Qed.

Lemma sync_stops P w :
  pwp (sync_service w) (λ x s', x = Returns (Ok tt) → sync_stopped (p_trace s')) (start P).
Proof.
  unfold sync_service. pwp_exec. all: try done. all: intros _; unfold sync_stopped.
  all: eexists [_; _; _; _; _; _]; split; [reflexivity|]; split; [done|member].
Qed.

(** C37: the worker-service tells its goroutines to stop and only then takes the
    connections away; the sync-service, whose deferred calls run in the other
    order, closes Redis and the pool under a consumer nobody has told to
    stop. *)
Theorem stop_order P g w s1 s2 :
  (worker_service g (start P) = (Returns (Ok tt), s1) → worker_stopped (p_trace s1)) ∧
  (sync_service w (start P) = (Returns (Ok tt), s2) → sync_stopped (p_trace s2)).
Proof.
  split; intros Hrun.
  - by apply (pwp_use _ _ _ _ _ (worker_stops P g) Hrun).
  - by apply (pwp_use _ _ _ _ _ (sync_stops P w) Hrun).
Qed.

(** The signal a container is stopped with ends the worker-service as it
    should; the sync-service does not handle it and dies with its pool, its
    client and its server open. *)
Theorem sigterm P x s' :
  Spawned (ConsumeJobs "sync-service") ∈ p_trace s' →
  sync_service (GotSignal SIGTERM) (start P) = (x, s') →
  x = Killed SIGTERM ∧ held_after [] (p_trace s') = Some [RedisClient; Postgres] ∧
  existsb (λ ev, match ev with ServerShutdown => true | _ => false end) (p_trace s') = false.
Proof.
  intros Hin Hrun. revert Hin.
  refine (pwp_use (sync_service (GotSignal SIGTERM)) (λ x s', _ ∈ p_trace s' → x = _ ∧ _ = _ ∧ _ = _) _ _ _ _ Hrun).
  clear. unfold sync_service. pwp_exec. all: intros Hin; try done.
  all: exfalso; cbn in Hin; repeat (apply elem_of_cons in Hin as [Hin|Hin]; [discriminate Hin|]); by apply elem_of_nil in Hin.
Qed.

(** ** What the finance-api serves *)

Definition served (P : Process) (srv : Server) : Prop :=
  ∃ cfg P', config.Load "FINANCE_API" = Ok cfg ∧
    newApp metrics P' cfg (negb (String.eqb (config.RedisURL (config.Redis cfg)) "")) = Ok srv ∧
    srv_Addr srv = config.Addr (config.Server cfg) ∧
    (∀ name, name ≠ "JWT_SIGNING_KEY" → Getenv (Process := P') name = Getenv (Process := P) name) ∧
    auth.initJWTKey (P := P') =
      (if String.eqb (config.JWTSecret (config.Auth cfg)) "" || contains_byte NUL (config.JWTSecret (config.Auth cfg))
       then auth.initJWTKey (P := P)
       else Ok (config.JWTSecret (config.Auth cfg))).

Lemma newApp_addr P' cfg redis srv : newApp metrics P' cfg redis = Ok srv → srv_Addr srv = config.Addr (config.Server cfg).
Proof. unfold newApp. intros H'. apply obind_Ok_inv in H' as (b & _ & H'). by injection H' as <-. Qed.

Lemma served_intro P cfg P' redis srv :
  config.Load "FINANCE_API" = Ok cfg → newApp metrics P' cfg redis = Ok srv →
  redis = negb (String.eqb (config.RedisURL (config.Redis cfg)) "") →
  (let secret := config.JWTSecret (config.Auth cfg) in
   P' = if negb (String.eqb secret "") then after_Setenv "JWT_SIGNING_KEY" secret P else P) →
  served P srv.
Proof.
  cbn. intros Hl Ha -> HP. exists cfg, P'. split; [done|]. split; [done|]. split; [by eapply newApp_addr|].
  destruct (String.eqb_spec (config.JWTSecret (config.Auth cfg)) "") as [Es|Es]; cbn in HP; [by subst P'|].
  unfold after_Setenv in HP. change (setenv_refuses "JWT_SIGNING_KEY" ?v) with (contains_byte NUL v) in HP.
  destruct (contains_byte NUL _); subst P'; [done|].
  split; [intros name Hn; cbn; by apply String.eqb_neq in Hn as ->|].
  unfold auth.initJWTKey. cbn. by apply String.eqb_neq in Es as ->.
Qed.

Definition serves_only (R : Server → Prop) (tr : list PEvent) : Prop :=
  Forall (λ ev, match ev with Spawned (ServeHTTP srv) => R srv | _ => True end) tr.

Lemma finance_api_served P report :
  pwp (finance_api metrics report) (λ _ s', serves_only (served P) (p_trace s')) (start P).
Proof.
  unfold finance_api, with_redis, Run. pwp_exec. all: cbn; unfold serves_only.
  all: repeat (apply List.Forall_cons; [try exact I|]); try apply List.Forall_nil.
  all: match goal with
       | Hl : config.Load _ = Ok ?cfg, Hn : newApp _ ?P1 ?cfg ?b = Ok ?srv |- _ =>
           apply (served_intro P cfg P1 b srv Hl Hn); [congruence|cbn]
       end.
  all: match goal with Hs : negb _ = _ |- _ => by rewrite Hs end.
Qed.

(** Whatever server the finance-api starts is the one [newApp] builds from
    its configuration, with the sync queue exactly when Redis is configured,
    under the environment it was started in, except that a configured secret
    without NUL bytes is the key access tokens are signed with. *)
Theorem finance_api_serves P report :
  serves_only (served P) (p_trace (snd (finance_api metrics report (start P)))).
Proof. apply finance_api_served. Qed.

Lemma newApp_routes P' cfg redis srv t :
  newApp metrics P' cfg redis = Ok srv → t ∈ Routes (srv_Handler srv) →
  Pattern t = "/health" ∨ Pattern t = "/metrics" ∨ ∃ h, t ∈ registerAPIRoutes (P := P') h.
Proof.
  unfold newApp. intros Hn Ht. apply obind_Ok_inv in Hn as (b & _ & Hn). injection Hn as <-. cbn in Ht.
  apply elem_of_cons in Ht as [->|Ht]; [by left|]. apply elem_of_cons in Ht as [->|Ht]; [by right; left|].
  right. right. by exists (Api.newApp redis b).
Qed.

(** C35: the server the finance-api starts answers 401 on every route but the
    health check, the metrics and those of [/api/v1/auth] to a request whose
    token does not parse under the configured secret, and does nothing
    else, whatever the environment holds.  The secret is neither empty nor
    contains a NUL byte: [os.Setenv] refuses such a value, and [main] does not
    look at its error. *)
Theorem finance_api_guarded P report srv cfg t r w :
  Spawned (ServeHTTP srv) ∈ p_trace (snd (finance_api metrics report (start P))) →
  config.Load "FINANCE_API" = Ok cfg → config.JWTSecret (config.Auth cfg) ≠ "" →
  contains_byte NUL (config.JWTSecret (config.Auth cfg)) = false →
  t ∈ Routes (srv_Handler srv) → Pattern t ≠ "/health" → Pattern t ≠ "/metrics" → is_auth_route t = false →
  (∀ token, bearer_token (header r "Authorization") = inl token →
     ∃ e, jwt_ParseWithClaims (env_clock (w_tick w)) (auth.keyfunc (config.JWTSecret (config.Auth cfg))) token = Err e) →
  wp (Handle t r) (λ res w', unchanged w res w' ∧
    ∃ message, res = Ok (mkResponse 401 "application/json" (BodyJSON (error_json "unauthorized" message)))) w.
Proof.
  intros Hs Hl Hsec Hnul Ht Hh Hm Ha Hbad.
  pose proof (finance_api_served P report) as Hall. unfold pwp, serves_only in Hall. rewrite Forall_forall in Hall.
  destruct (Hall _ Hs) as (cfg' & P' & Hl' & Hn & _ & _ & Hkey).
  rewrite Hl in Hl'. injection Hl' as <-. apply String.eqb_neq in Hsec. rewrite Hsec, Hnul in Hkey.
  destruct (newApp_routes P' cfg _ srv t Hn Ht) as [|[|[h Hin]]]; [done..|].
  apply (wp_unauthorized (P := P') h t r w Hin Ha). intros token Hb. destruct (Hbad token Hb) as [e He].
  eapply Verify_unparsed; [exact Hkey|exact He].
Qed.

(** ** How the finance-api ends *)

Definition serves (tr : list PEvent) : bool :=
  existsb (λ ev, match ev with Spawned (ServeHTTP _) => true | _ => false end) tr.

Lemma finance_api_exit P report :
  pwp (finance_api metrics report) (λ x s',
    if serves (p_trace s')
    then exit_status x = match outcome_of report with Ok _ => 0 | Err _ => 1 | Panic _ => 2 end
    else exit_status x ≠ 0) (start P).
Proof.
  unfold finance_api, with_redis, Run. pwp_exec. all: cbn.
  all: try done. all: match goal with Ho : outcome_of _ = _ |- _ => by rewrite Ho end.
Qed.

(** C38: the status of the finance-api is 0 exactly when it has served and [Run]
    returned nil, and that does not mean that the server worked: for every
    error there is a run in which the server fails by itself with that error
    and the process still ends with status 0. *)
Theorem finance_api_status P e :
  (∀ report x s', finance_api metrics report (start P) = (x, s') →
     exit_status x = 0 ↔ serves (p_trace s') = true ∧ is_ok (outcome_of report) = true) ∧
  (∃ report ls st, reachable ls st ∧ failed_alone e ls ∧ main st = Returned (outcome_of report) ∧
     in_shutdown st = called_shutdown report ∧
     ∀ x s', finance_api metrics report (start P) = (x, s') → serves (p_trace s') = true → exit_status x = 0).
Proof.
  split.
  - intros report x s' Hrun. pose proof (pwp_use _ _ _ _ _ (finance_api_exit P report) Hrun) as Hx. cbn in Hx.
    destruct (serves (p_trace s')); [|naive_solver]. rewrite Hx. destruct (outcome_of report); naive_solver.
  - exists (mkRunReport (Ok tt) true), (race e). eexists. split; [apply race_ends|]. split; [apply race_alone|].
    do 2 (split; [done|]). intros x s' Hrun Hs.
    pose proof (pwp_use _ _ _ _ _ (finance_api_exit P _) Hrun) as Hx. cbn in Hx. by rewrite Hs in Hx.
Qed.

End Facts.
