(* ===== verification/Concrete.v ===== *)
(** * Concrete: instances of the parameters, and a small world

    Concrete functions for the libraries and services the development takes
    as parameters, with the proofs of their laws, so that theorems can be
    applied to worlds that compute: canonical UUID text, exact numerics, an
    ASCII [LOWER], a database whose calls never fail. *)

From S2P Require Import Prelude GoInt GoStrings GoTime GoValues Json Pgtypex Schema Sqlc Effects TxRunner Models Repositories Wiring Queue TransactionService Outbox Projection.
Import strings.

Module Concrete.

(** ** Canonical UUID text *)

Definition hex_char (d : N) : ascii :=
  if (d <? 10)%N then ascii_of_N (48 + d) else ascii_of_N (87 + d).

Definition hex_value (c : ascii) : option N :=
  let b := N_of_ascii c in
  if ((48 <=? b) && (b <=? 57))%N then Some (b - 48)%N
  else if ((97 <=? b) && (b <=? 102))%N then Some (b - 87)%N
  else None.

(** [k] hexadecimal digits, most significant first. *)
Fixpoint hex_digits (k : nat) (n : N) : list ascii :=
  match k with
  | O => []
  | S k' => hex_digits k' (n / 16)%N ++ [hex_char (n mod 16)%N]
  end.

Fixpoint hex_number (acc : N) (l : list ascii) : option N :=
  match l with
  | [] => Some acc
  | c :: rest => d ← hex_value c; hex_number (acc * 16 + d)%N rest
  end.

Definition dash : ascii := ascii_of_N 45.

Definition dashed (l : list ascii) : list ascii :=
  take 8 l ++ dash :: take 4 (drop 8 l) ++ dash :: take 4 (drop 12 l) ++ dash :: take 4 (drop 16 l)
  ++ dash :: drop 20 l.

Definition uuid_text (u : UUID) : string := of_chars (dashed (hex_digits 32 (uuid_num u))).

Definition not_dash (c : ascii) : bool := negb (Ascii.eqb c dash).

Definition uuid_parse (s : string) : outcome UUID :=
  let l := List.filter not_dash (to_chars s) in
  match hex_number 0 l with
  | Some n => if Nat.eqb (List.length l) 32 then Ok (uuid_of_N n) else Err (foreign "uuid: incorrect UUID length")
  | None => Err (foreign "uuid: incorrect UUID format")
  end.

Lemma hex_value_char d : (d < 16)%N → hex_value (hex_char d) = Some d.
Proof.
  intros H. rewrite <- (N2Nat.id d). assert (Hn : (N.to_nat d < 16)%nat) by lia.
  revert Hn. generalize (N.to_nat d). intros n Hn.
  do 16 (destruct n as [|n]; [reflexivity|]). lia.
Qed.

Lemma hex_number_app acc l c :
  hex_number acc (l ++ [c]) = (n ← hex_number acc l; d ← hex_value c; Some (n * 16 + d)%N).
Proof.
  revert acc. induction l as [|x l IH]; intros acc; simpl.
  - by destruct (hex_value c).
  - destruct (hex_value x); simpl; [apply IH|done].
Qed.

Lemma hex_number_digits k n : (n < 16 ^ N.of_nat k)%N → hex_number 0 (hex_digits k n) = Some n.
Proof.
  revert n. induction k as [|k IH]; intros n H; cbn [hex_digits].
  - simpl in *. f_equal. lia.
  - rewrite hex_number_app. rewrite Nat2N.inj_succ, N.pow_succ_r' in H.
    rewrite IH by (apply N.Div0.div_lt_upper_bound; lia). simpl.
    rewrite hex_value_char by (apply N.mod_lt; lia). simpl. f_equal.
    pose proof (N.div_mod n 16). lia.
Qed.

Lemma hex_char_not_dash d : (d < 16)%N → not_dash (hex_char d) = true.
Proof.
  intros H. rewrite <- (N2Nat.id d). assert (Hn : (N.to_nat d < 16)%nat) by lia.
  revert Hn. generalize (N.to_nat d). intros n Hn.
  do 16 (destruct n as [|n]; [reflexivity|]). lia.
Qed.

Lemma hex_digits_length k n : List.length (hex_digits k n) = k.
Proof. revert n. induction k as [|k IH]; intros n; simpl; [done|]. rewrite length_app, IH. simpl. lia. Qed.

Lemma hex_digits_chars k n : Forall (λ c, ∃ d, (d < 16)%N ∧ c = hex_char d) (hex_digits k n).
Proof.
  revert n. induction k as [|k IH]; intros n; simpl; [constructor|].
  apply Forall_app. split; [apply IH|]. repeat constructor. exists (n mod 16)%N. split; [apply N.mod_lt; lia|done].
Qed.

Lemma filter_dashed l :
  Forall (λ c, not_dash c = true) l → List.filter not_dash (dashed l) = l.
Proof.
  intros Hl. assert (Hf : ∀ m, Forall (λ c, not_dash c = true) m → List.filter not_dash m = m).
  { intros m Hm. induction Hm as [|c m Hc _ IH]; simpl; [done|]. by rewrite Hc, IH. }
  assert (Hd : not_dash dash = false) by done.
  unfold dashed. repeat (rewrite List.filter_app; cbn [List.filter]; rewrite ?Hd).
  rewrite !Hf by (repeat first [apply Forall_take|apply Forall_drop]; done).
  rewrite <- (take_drop 8 l) at 6. f_equal. rewrite <- (take_drop 4 (drop 8 l)) at 2. rewrite drop_drop. f_equal.
  simpl. rewrite <- (take_drop 4 (drop 12 l)) at 2. rewrite drop_drop. f_equal.
  simpl. rewrite <- (take_drop 4 (drop 16 l)) at 2. by rewrite drop_drop.
Qed.

#[export] Instance uuid_lib : UuidLib := { uuid_String := uuid_text; uuid_FromString := uuid_parse }.

Lemma str_forall_chars p l : str_forall p (of_chars l) = forallb p l.
Proof. induction l; simpl; congruence. Qed.

Lemma len_of_chars l : len (of_chars l) = Z.of_nat (List.length l).
Proof. unfold len. f_equal. induction l; simpl; congruence. Qed.

Definition uuid_char (c : ascii) : bool :=
  strconv.is_digit c || ((97 <=? byte_val c) && (byte_val c <=? 102)) || (byte_val c =? 45).

Lemma uuid_char_hex d : (d < 16)%N → uuid_char (hex_char d) = true.
Proof.
  intros H. rewrite <- (N2Nat.id d). assert (Hn : (N.to_nat d < 16)%nat) by lia.
  revert Hn. generalize (N.to_nat d). intros n Hn.
  do 16 (destruct n as [|n]; [reflexivity|]). lia.
Qed.

#[export] Instance uuid_laws : UuidLaws uuid_lib.
Proof.
  split.
  - intros u. cbn [uuid_String uuid_FromString uuid_lib]. unfold uuid_parse, uuid_text. rewrite to_of_chars, filter_dashed.
    + rewrite hex_number_digits; [by rewrite hex_digits_length, uuid_of_num|].
      pose proof (uuid_bound u) as H. apply N.ltb_lt in H.
      change (16 ^ N.of_nat 32)%N with (2 ^ 128)%N. done.
    + eapply Forall_impl; [apply hex_digits_chars|]. intros c (d & Hd & ->). by apply hex_char_not_dash.
  - intros u. cbn [uuid_String uuid_FromString uuid_lib]. unfold uuid_text. rewrite len_of_chars. unfold dashed.
    pose proof (hex_digits_length 32 (uuid_num u)) as H.
    repeat (rewrite ?length_app, ?length_take, ?length_drop, ?H; cbn [List.length]). reflexivity.
  - intros u. cbn [uuid_String uuid_FromString uuid_lib]. unfold uuid_text. rewrite str_forall_chars. apply forallb_forall.
    assert (Hf : Forall (λ c, uuid_char c = true) (hex_digits 32 (uuid_num u))).
    { eapply Forall_impl; [apply hex_digits_chars|]. intros c (d & Hd & ->). by apply uuid_char_hex. }
    assert (Hd : uuid_char dash = true) by done.
    intros c Hc. change (uuid_char c = true). revert c Hc. apply List.Forall_forall. unfold dashed.
    generalize dependent (hex_digits 32 (uuid_num u)). intros l Hf.
    repeat first [done|apply Forall_app; split|constructor; [done|]|apply Forall_take|apply Forall_drop].
  - intros s. cbn [uuid_String uuid_FromString uuid_lib]. unfold uuid_parse. repeat go_case; eauto.
Qed.

(** ** Driver values *)

(** A float is an exact decimal: [m * 2 ^ -k = m * 5 ^ k * 10 ^ -k]. *)
Definition exact_numeric (f : float64) : outcome Numeric :=
  match f with
  | S754_zero _ => Ok (mkNumeric (Some 0) 0 false false true)
  | S754_finite s m e =>
      let v := if 0 <=? e then Zpos m * 2 ^ e else Zpos m * 5 ^ (- e) in
      Ok (mkNumeric (Some (if s then - v else v)) (Z.min 0 e) false false true)
  | _ => Err (foreign "cannot scan")
  end.

#[export] Instance pgtype_lib : PgtypeLib := {
  numeric_Scan := exact_numeric;
  timestamptz_Scan t := Ok (mkTimestamptz t true);
  text_Scan s := Ok (mkText s true) }.

#[export] Instance pgtype_laws : PgtypeLaws pgtype_lib.
Proof.
  split; [done|done|..]; intros f; simpl; destruct f; simpl; eauto; by intros n [= <-].
Qed.

#[export] Instance pg_params : projection.PgParams := {
  projection.pg_uuid s := match uuid_parse s with Ok u => Some u | _ => None end;
  projection.numeric_param := exact_numeric }.

#[export] Instance pg_params_laws : projection.PgParamsLaws uuid_lib pg_params.
Proof.
  split.
  - intros u. cbn [projection.pg_uuid pg_params].
    pose proof (uuid_FromString_String u) as H. cbn [uuid_FromString uuid_String uuid_lib] in *. by rewrite H.
  - intros f Hf. simpl. destruct f as [s|s| |s m e]; [| done..|]; simpl.
    + by eexists 0, 0.
    + eexists _, _. split; [done|]. destruct s; simpl; rewrite ?Z.opp_involutive; done.
  - intros f n. simpl. destruct f; simpl; intros Hn; try discriminate Hn; by injection Hn as <-.
Qed.

#[export] Instance pg_server : queries.PgServer := { pg_lower := str_map lower_char }.
#[export] Instance pg_server_laws : queries.PgServerLaws pg_server.
Proof. by split. Qed.

(** ** Redis *)

#[export] Instance plain_redis : RedisLib := { redis_wire v :=
  match v with RString s | RBytes s => s | RInt z | RInt64 z => strconv.Itoa z end }.
#[export] Instance plain_redis_laws : RedisLaws plain_redis.
Proof. by split. Qed.

(** ** A world without failures *)

Definition noon : Time := 1750000000 * Second.

#[export] Instance quiet_env : Env := {
  env_clock n := noon + Z.of_nat n * Second;
  env_sql n := mkSqlCtx (noon + Z.of_nat n * Second) (Z.of_nat n + 1) (uuid_of_N (N.of_nat n + 1000));
  env_fault _ := None;
  env_newv4 n := Ok (uuid_of_N (N.of_nat n + 5000));
  env_rand n k := Ok (of_chars (replicate (Z.to_nat k) (ascii_of_nat n)));
  env_redis _ := None;
  env_read _ := Err (sentinel ErrRedisNil);
  env_sheets_get _ := Ok [];
  env_sheets_update _ := None;
  env_done n := Nat.leb 100 n }.

#[export] Instance quiet_env_laws : EnvLaws quiet_env.
Proof.
  split; simpl; [|lia..]. intros n k s [= <-] Hk. rewrite len_of_chars, length_replicate. lia.
Qed.

(** One user, one account, one live transaction of version 1 with its
    event. *)
Definition alice : UUID := uuid_of_N 1.
Definition wallet : UUID := uuid_of_N 2.
Definition lunch : UUID := uuid_of_N 3.

Definition pg_time (t : Time) : Timestamptz := mkTimestamptz t true.

Definition alice_row : sqlcdb.User :=
  sqlcdb.mkUser (mkPgUUID alice true) "alice@example.com" Text_zero (pg_time noon) (pg_time noon)
    Timestamptz_zero 1 "hash".
Definition wallet_row : sqlcdb.Account :=
  sqlcdb.mkAccount (mkPgUUID wallet true) (mkPgUUID alice true) "wallet" "IDR" (pg_time noon)
    (pg_time noon) Timestamptz_zero 1.
Definition lunch_row : sqlcdb.Transaction :=
  sqlcdb.mkTransaction (mkPgUUID lunch true) (mkPgUUID alice true) (mkPgUUID wallet true) (cents 1250)
    "IDR" "expense" UUID_zero Text_zero (pg_time noon) None 1 (pg_time noon) "app" Text_zero
    (pg_time noon) (pg_time noon) Timestamptz_zero.
Definition lunch_event : sqlcdb.ChangeEvent :=
  sqlcdb.mkChangeEvent 1 "transaction" (mkPgUUID lunch true) (mkPgUUID alice true) "create"
    (Some (JObj [])) 1 (pg_time noon) (pg_time noon) Timestamptz_zero.

Definition demo_db : DB :=
  mkDB {[alice := alice_row]} {[wallet := wallet_row]} ∅ {[lunch := lunch_row]} [lunch_event]
    ∅ ∅ ∅ ∅ ∅ ∅ ∅.

Definition world_of (d : DB) : World := mkWorld d [] [] 0.
Definition demo : World := world_of demo_db.

Definition lunch_update : UpdateTransactionInput :=
  mkUpdateTransactionInput (uuid_text wallet) (f64_of_ratio 20 1) "" "" None None noon None "".

Definition lunch_input : CreateTransactionInput :=
  mkCreateTransactionInput (uuid_text alice) (uuid_text wallet) (f64_of_ratio 25 2) "" "expense" None
    (Some "lunch") noon None "".

End Concrete.
