(* ===== verification/ConcreteAuth.v ===== *)
(** * ConcreteAuth: instances for the authentication service

    Concrete functions, with their laws, for the environment variables, the
    Unicode tables, the JWT and bcrypt libraries, and a store of refresh
    tokens whose rows the table accepts. *)

From S2P Require Import Prelude GoInt GoStrings Base64 Aes GoTime GoValues Pgtypex Schema Sqlc Effects Crypto AuthTokens TxRunner Models Repositories AuthService Outbox Sessions Concrete.
Import strings auth crypto pgtypex uuidx.
Import Concrete.

Module ConcreteAuth.

#[export] Instance demo_process : Process := { Getenv name :=
  if String.eqb name "APP_CRYPTO_KEY" then "00112233445566778899aabbccddeeff00112233445566778899AABBCCDDEEFF"
  else if String.eqb name "JWT_SIGNING_KEY" then "signing key" else "" }.

#[export] Instance ascii_unicode : Unicode := {
  map_unicode_ToLower s := s; trim_unicode_IsSpace s := s; trim_right_unicode_IsSpace s := s }.

(** ** Tokens as the bits of an injective code *)

Fixpoint bits (p : positive) : string :=
  match p with
  | xH => EmptyString
  | xO q => String "0" (bits q)
  | xI q => String "1" (bits q)
  end.

Fixpoint of_bits (s : string) : positive :=
  match s with
  | EmptyString => xH
  | String c s' => if Ascii.eqb c "1" then xI (of_bits s') else xO (of_bits s')
  end.

Lemma of_bits_bits p : of_bits (bits p) = p.
Proof. induction p as [p IH|p IH|]; simpl; congruence. Qed.

Definition claims_tuple (c : Claims) : string * Z * Z * string * string :=
  (Subject c, IssuedAt c, ExpiresAt c, Claims_UserID c, Claims_Email c).

Definition claims_of_tuple (t : string * Z * Z * string * string) : Claims :=
  let '(s, i, e, u, m) := t in mkClaims s i e u m.

Definition jwt_text (key : string) (c : Claims) : string := bits (encode (key, claims_tuple c)).

Definition jwt_read (tok : string) : option (string * Claims) :=
  p ← decode (of_bits tok); Some (p.1, claims_of_tuple p.2).

Lemma jwt_read_text key c : jwt_read (jwt_text key c) = Some (key, c).
Proof. unfold jwt_read, jwt_text. rewrite of_bits_bits, countable.decode_encode. by destruct c. Qed.

#[export] Instance plain_jwt : JwtLib := {
  jwt_NewNumericDate t := t / Second * Second;
  jwt_SignedString key c := Ok (jwt_text key c);
  jwt_ParseWithClaims now kf tok :=
    match jwt_read tok with
    | Some (key, c) =>
        try k := kf (mkJwtToken "HS256" true) in
        if String.eqb k key then
          if now <? ExpiresAt c then Ok (c, true) else Err (foreign "token is expired")
        else Err (foreign "signature is invalid")
    | None => Err (foreign "token is malformed")
    end }.

#[export] Instance plain_jwt_laws : JwtLaws plain_jwt.
Proof.
  split; simpl.
  - done.
  - eauto.
  - intros key c tok kf now [= <-] _ Hk Hlt. rewrite jwt_read_text, Hk. simpl. rewrite String.eqb_refl.
    by destruct (Z.ltb_spec now (ExpiresAt c)); [|lia].
  - intros key c tok kf now [= <-] Hk Hge. rewrite jwt_read_text, Hk. simpl. rewrite String.eqb_refl.
    destruct (Z.ltb_spec now (ExpiresAt c)); [lia|]. eauto.
  - intros kf tok now r H. destruct (jwt_read tok) as [[key c]|]; [|done].
    apply obind_Ok_inv in H as (k & Hk & _). eauto.
Qed.

#[export] Instance plain_bcrypt : BcryptLib := {
  bcrypt_GenerateFromPassword _ p := Ok (String.append "hash of " p);
  bcrypt_CompareHashAndPassword h p :=
    if String.eqb h (String.append "hash of " p) then Ok tt else Err (foreign "hashedPassword is not the hash") }.

#[export] Instance plain_bcrypt_laws : BcryptLaws plain_bcrypt.
Proof.
  split; simpl.
  - intros n p h [= <-]. by rewrite String.eqb_refl.
  - intros n p h m. split; [done|]. by destruct (String.eqb _ _).
Qed.

(** ** A working store of tokens *)

Definition working_Create (tx : option Tx) (t : db.RefreshToken) : M unit :=
  wrap_err "create refresh token" (exec (q tx) (queries.CreateRefreshToken
    (queries.mkCreateRefreshTokenParams (UUIDToPG (db.RefreshToken_ID t)) (UUIDToPG (db.RefreshToken_UserID t))
       (db.RefreshToken_EncryptedToken t) (pg_time (db.RefreshToken_ExpiresAt t)) (db.RefreshToken_Revoked t)
       (pg_time (db.RefreshToken_CreatedAt t)) (pg_time (db.RefreshToken_CreatedAt t)) Timestamptz_zero))).

Definition working_tokens : RefreshTokenRepository :=
  mkRefreshTokenRepository working_Create Token_GetByID Token_GetByUserID Token_Revoke.

#[export, refine] Instance working_store : TokenStore working_tokens := {
  stored_token d id := sqlcRefreshTokenToToken <$> refresh_tokens d !! id }.
Proof.
  - intros id w. pose proof (reads_Token_GetByID id w) as H. simpl. unfold wp in *.
    destruct (Token_GetByID id w) as [[t|e|m] w'] eqn:Et; [|naive_solver..]. destruct H as (? & ? & ?). split_and!; [done..|].
    unfold Token_GetByID in Et. apply bind_Ok_inv in Et as (row & w1 & Et & [= <- <-]).
    unfold no_rows_or, exec, queries.GetRefreshTokenByID, read_stmt in Et. simpl in Et.
    destruct (refresh_tokens (w_db w) !! id), (env_fault (w_tick w)) as [[]|]; simpl in Et; by simplify_eq.
  - intros t rest d. simpl. unfold working_Create. tx_step. apply txwp_exec; [|done]. intros ctx.
    unfold queries.CreateRefreshToken. simpl. destruct (refresh_tokens d !! db.RefreshToken_ID t) eqn:En; [done|].
    simpl. destruct (Schema.users d !! _); [|done]. simpl. split; [done|].
    intros id Hne. by rewrite lookup_insert_ne.
  - intros id rest d. simpl. unfold Token_Revoke. tx_step. apply txwp_exec; [|done]. intros ctx. simpl.
    intros t Ht. rewrite lookup_alter_eq. apply fmap_Some in Ht as (row & -> & ->). simpl. eauto.
Defined.

End ConcreteAuth.
