(* ===== verification/Scenarios.v ===== *)
(** * Scenarios: concrete runs of the services

    Runs of the composed services on the small world of [Concrete], computed
    step by step: what the read models hold after a good batch, and after a
    batch with an event no projector can read; an event that is committed too
    late to be read; what a synchronisation does to a sheet of eleven rows. *)

From S2P Require Import Prelude GoInt GoStrings GoTime GoValues Json Pgtypex Schema Sqlc Effects TxRunner Models Repositories Wiring Queue TransactionService Projection ProjectionRunner ReadModels SyncService Concrete.
Import Concrete projection runner sync.

(** One user and one account, nothing else. *)
Definition fresh_db : DB :=
  mkDB {[alice := alice_row]} {[wallet := wallet_row]} ∅ ∅ [] ∅ ∅ ∅ ∅ ∅ ∅ ∅.

(** The lunch entered through the service. *)
Definition entered : World :=
  snd (CreateTransaction (NewTransactionService true) lunch_input (world_of fresh_db)).

Definition lunch_amount : Counter := Amount alice (time.Format_year_month noon) "IDR" "expense".
Definition lunch_count : Counter := Count alice (time.Format_year_month noon) "IDR" "expense".
Definition lunch_balance : Counter := Balance alice wallet (time.Format_year_month noon).

(** After the event of the lunch, one whose payload is not an object. *)
Definition unreadable_event : sqlcdb.ChangeEvent :=
  sqlcdb.mkChangeEvent 1000 "transaction" (mkPgUUID lunch true) (mkPgUUID alice true) "create"
    (Some (JStr "")) 1 (pg_time noon) (pg_time noon) Timestamptz_zero.

Definition poisoned : World :=
  set_db (set_change_events (change_events (w_db entered) ++ [unreadable_event]) (w_db entered)) entered.

Definition counters_after (n : nat) (w : World) : list Z :=
  let d := w_db (snd (Start worker_runner n w)) in map (counters d) [lunch_amount; lunch_count; lunch_balance].

Example one_round : counters_after 1 entered = [1250; 1; 1250].
Proof. vm_compute. reflexivity. Qed.

(** An event that cannot be processed makes the runner count the events
    before it again in every round: the lunch of 12.50, entered once, is in
    the read models one, two, three, four and five times after as many
    rounds, while the cursor never moves. *)
Theorem poisoned_batch_recounts :
  map (λ n, counters_after n poisoned) (seq 1 5)
  = map (λ n, [1250 * Z.of_nat n; Z.of_nat n; 1250 * Z.of_nat n]) (seq 1 5) ∧
  map (λ n, cursor_of "default" (w_db (snd (Start worker_runner n poisoned)))) (seq 1 5) = [0; 0; 0; 0; 0].
Proof. split; vm_compute; reflexivity. Qed.

(** An event whose transaction commits after a round has passed a larger id
    (the ids of a sequence are taken before the commit) is not read again: a
    second lunch under id 3, visible once the cursor stands at 4, changes no
    counter in any of the following rounds. *)
Definition late_event : sqlcdb.ChangeEvent :=
  match change_events (w_db entered) with
  | e :: _ => sqlcdb.mkChangeEvent 3 "transaction" (mkPgUUID lunch true) (mkPgUUID alice true) "create"
      (sqlcdb.ChangeEvent_Payload e) 1 (pg_time noon) (pg_time noon) Timestamptz_zero
  | [] => unreadable_event
  end.

Definition late : World :=
  let w := snd (Start worker_runner 1 entered) in
  set_db (set_change_events (change_events (w_db w) ++ [late_event]) (w_db w)) w.

Theorem late_event_skipped :
  map sqlcdb.ChangeEvent_ID (change_events (w_db late)) = [4; 3] ∧
  map (λ n, counters_after n late) (seq 1 5) = replicate 5 [1250; 1; 1250] ∧
  map (λ n, cursor_of "default" (w_db (snd (Start worker_runner n late)))) (seq 1 5) = replicate 5 4.
Proof. split_and!; vm_compute; reflexivity. Qed.

(** ** A sheet of eleven rows below its header *)

Definition budget : UUID := uuid_of_N 4.

Definition budget_row : sqlcdb.SheetsConnection :=
  sqlcdb.mkSheetsConnection (mkPgUUID budget true) (mkPgUUID alice true) "google" "token" Text_zero
    Timestamptz_zero "budget-sheet" Text_zero "two-way" Timestamptz_zero (pg_time noon) (pg_time noon) Timestamptz_zero 1.

Definition budget_db : DB :=
  mkDB {[alice := alice_row]} {[wallet := wallet_row]} ∅ ∅ [] {[budget := budget_row]} ∅ ∅ ∅ ∅ ∅ ∅.

Definition data_row (n : Z) : list any := [AString (strconv.Itoa n)].
Definition budget_rows : list (list any) := map data_row (seqZ 1 11).

(** An environment whose sheet answers with a header and these rows. *)
Definition sheet_env : Env := {|
  env_clock := @env_clock quiet_env; env_sql := @env_sql quiet_env; env_fault := @env_fault quiet_env;
  env_newv4 := @env_newv4 quiet_env; env_rand := @env_rand quiet_env; env_redis := @env_redis quiet_env;
  env_read := @env_read quiet_env; env_sheets_get _ := Ok ([AString "header"] :: budget_rows);
  env_sheets_update := @env_sheets_update quiet_env; env_done := @env_done quiet_env |}.

Definition sync_budget : outcome unit * World :=
  SyncUserTransactions (NewSyncService (E := sheet_env) (NewGoogleSheetsClient (E := sheet_env) true)) (uuid_text alice)
    (uuid_text budget) "full" 0 (world_of budget_db).

(** A synchronisation reorders the sheet: row numbers are sorted as
    texts, so that of eleven data rows the ninth to the eleventh are written
    first, starting at the place of the header. *)
Theorem sheet_rows_reordered :
  sync_budget = (Ok tt, mkWorld budget_db []
    [EvSheetsGet "budget-sheet" "Sheet1";
     EvSheetsUpdate "budget-sheet" "Sheet1" (map data_row [9; 10; 11; 1; 2; 3; 4; 5; 6; 7; 8])] 5).
Proof. vm_compute. reflexivity. Qed.
