(* ===== verification/ScenariosApi.v ===== *)
(** * ScenariosApi: requests to the finance-api

    Requests with a signed token, computed against the small world of
    [Scenarios]: a transaction is entered through the API and asked for. *)

From S2P Require Import Prelude GoInt GoStrings GoTime GoValues Json Pgtypex Schema Sqlc Effects Crypto AuthTokens TxRunner Models Repositories AuthService Wiring Queue TransactionService Projection SyncService Http Api Concrete ConcreteAuth Scenarios.
Import Concrete ConcreteAuth http httpx strings.

(** The first transaction id the environment draws. *)
Definition lunch_body : string := of_chars (Json.object [
  ("accountId", Json.quote (uuid_text wallet)); ("amount", Json.int_text 12); ("type", Json.quote "expense");
  ("occurredAt", Json.quote "2025-06-15T12:00:00Z")])%string.

(** The token of a login of alice. *)
Definition alice_token : string :=
  match fst (auth.Sign (uuid_text alice) "alice@example.com" AccessTokenExpiry (world_of fresh_db)) with
  | Ok t => t
  | _ => ""
  end.

Definition request (id body : string) : Request :=
  mkRequest {["Authorization" := String.append "Bearer " alice_token]} "" {["id" := id]} body ∅.

(** A route of the API, by method and pattern. *)
Definition serve (method pattern : string) : Handler := λ r,
  match List.find (λ t, String.eqb (Method t) method && String.eqb (Pattern t) pattern)
          (registerAPIRoutes (newApp true false)) with
  | Some t => Handle t r
  | None => WriteHeader 404
  end.

Definition entered_by_api : outcome Response * World :=
  serve "POST" "/api/v1/transactions/" (request "" lunch_body) (world_of fresh_db).

(** The id in an answer. *)
Definition answered_id (r : outcome Response) : string :=
  match r with
  | Ok resp =>
      match Content resp with
      | BodyJSON (JObj (("id", JStr id) :: _)) => id
      | _ => ""
      end
  | _ => ""
  end%string.

Definition status (r : outcome Response) : Z := match r with Ok resp => Status resp | _ => 0 end.

Definition asked_for (w : World) (id : string) : Z * Z * Z :=
  (status (fst (serve "GET" "/api/v1/transactions/{id}" (request id "") w)),
   status (fst (serve "PUT" "/api/v1/transactions/{id}" (request id lunch_body) w)),
   status (fst (serve "DELETE" "/api/v1/transactions/{id}" (request id "") w))).

(** A transaction that was just entered through the API, and answered
    with 201 and its id, cannot be asked for, changed or deleted under that
    id: the three requests end in internal errors. *)
Theorem entered_then_lost :
  status (fst entered_by_api) = 201 ∧
  (∃ row, map_to_list (transactions (w_db (snd entered_by_api))) = [row] ∧
     answered_id (fst entered_by_api) = uuid_text (fst row)) ∧
  asked_for (snd entered_by_api) (answered_id (fst entered_by_api)) = (500, 500, 500).
Proof.
  split; [vm_compute; reflexivity|]. split; [|vm_compute; reflexivity].
  eexists. split; vm_compute; reflexivity.
Qed.
