(* ===== verification/Witnesses.v ===== *)
(** * Witnesses: the theorems applied to concrete worlds

    Every theorem with hypotheses is applied here to instances of [Concrete],
    its hypotheses discharged by computation. *)

From S2P Require Import Prelude GoInt GoStrings GoTime GoValues Json Mapx SheetMerge Pgtypex Schema Sqlc Effects TxRunner Models Repositories Wiring Queue TransactionService Outbox Locking Access Projection ProjectionRunner ReadModels Concrete Scenarios.
Import Concrete pgtypex uuidx.

(** ** Shared facts about the demo world *)

Lemma demo_row id t : transactions demo_db !! id = Some t → id = lunch ∧ t = lunch_row.
Proof. simpl. rewrite lookup_singleton_Some. naive_solver. Qed.

Lemma demo_keyed : keyed demo_db.
Proof. intros id t H. by apply demo_row in H as [-> ->]. Qed.

Lemma demo_log_inv : log_inv demo_db.
Proof.
  split; [apply demo_keyed|]. intros id. simpl.
  destruct (decide (lunch = id)) as [<-|Hne].
  - rewrite lookup_singleton_eq. split; [simpl; lia|]. split; [reflexivity|]. by repeat constructor.
  - rewrite lookup_singleton_ne by done. unfold events_of, is_event_of. simpl.
    rewrite bool_decide_eq_false_2; [done|]. unfold UUIDToPG. congruence.
Qed.

Lemma empty_no_live : no_live empty_db.
Proof. intros id t. simpl. by rewrite lookup_empty. Qed.

(** ** Transactions and the outbox *)

Definition noop_body (tx : Tx) : M unit := exec (InTx tx) (λ _ d, Ok (tt, d)).

Lemma RunInTx_atomic_witness :
  wp (RunInTx noop_body) (λ r w', w_txs w' = [] ∧ w_trace w' = [] ∧
    tx_post demo_db (λ _ d, d = demo_db) r (w_db w')) demo.
Proof.
  apply (RunInTx_atomic noop_body (λ _ d, d = demo_db) demo).
  intros rest. apply txwp_exec; done.
Defined.

Lemma CreateTransaction_outbox_witness :
  wp (CreateTransaction (NewTransactionService true) lunch_input)
    (λ r w', w_txs w' = [] ∧ write_post "create" true (λ _, 0) demo_db [] r w') demo.
Proof. exact (CreateTransaction_outbox true lunch_input demo). Defined.

(** Both calls succeed here. *)
Lemma UpdateTransaction_outbox_witness :
  is_ok (fst (UpdateTransaction (NewTransactionService true) (uuid_text alice) (uuid_text lunch) lunch_update demo)) = true ∧
  wp (UpdateTransaction (NewTransactionService true) (uuid_text alice) (uuid_text lunch) lunch_update)
    (λ r w', w_txs w' = [] ∧
       written (step_on (updated_row lunch_update) "update" (uuid_text lunch)) "update" true since_version demo_db [] r w')
    demo.
Proof. split; [by vm_compute|exact (UpdateTransaction_outbox true _ _ lunch_update demo demo_keyed)]. Defined.

Lemma SoftDeleteTransaction_outbox_witness :
  is_ok (fst (SoftDeleteTransaction (NewTransactionService true) (uuid_text alice) (uuid_text lunch) demo)) = true ∧
  wp (SoftDeleteTransaction (NewTransactionService true) (uuid_text alice) (uuid_text lunch))
    (λ r w', w_txs w' = [] ∧
       written (step_on deleted_of "delete" (uuid_text lunch)) "delete" true since_version demo_db [] r w') demo.
Proof. split; [by vm_compute|exact (SoftDeleteTransaction_outbox true _ _ demo demo_keyed)]. Defined.

(** The world after one service call. *)
Definition after {A} (m : M A) (w : World) : World := snd (m w).

Definition after_create : World := after (CreateTransaction (NewTransactionService true) lunch_input) demo.

Lemma event_log_complete_witness : log_inv (w_db after_create).
Proof. apply (event_log_complete true demo after_create demo_log_inv). apply rtc_once. constructor. Defined.

Lemma versions_grow_witness :
  ∃ v', version_at (w_db after_create) lunch = Some v' ∧ 1 <= v'.
Proof.
  apply (versions_grow true demo after_create lunch 1 demo_keyed); [|reflexivity].
  apply rtc_once. constructor.
Defined.

(** What a read of the lunch returned. *)
Definition lunch_read : domain.Transaction :=
  domain.mkTransaction (uuid_text lunch) (uuid_text alice) (uuid_text wallet) (f64_of_ratio 25 2) "IDR"
    "expense" None None noon None 1 noon "app" None noon noon time.zero.

Definition lunch_stale : domain.Transaction :=
  domain.mkTransaction (uuid_text lunch) (uuid_text alice) (uuid_text wallet) (f64_of_ratio 25 2) "IDR"
    "expense" None None noon None 7 noon "app" None noon noon time.zero.

Lemma stale_update_refused_witness :
  wp (write_back true lunch_stale lunch_update) (λ r _, is_ok r = false) demo.
Proof. by apply (stale_update_refused true lunch_stale lunch_update demo lunch 1). Defined.

Definition first_update : outcome domain.Transaction * World := write_back true lunch_read lunch_update demo.

Definition updated : domain.Transaction :=
  match fst first_update with Ok tx => tx | _ => lunch_read end.

Lemma first_update_ok : write_back true lunch_read lunch_update demo = (Ok updated, snd first_update).
Proof. vm_compute. reflexivity. Qed.

Lemma no_lost_update_witness :
  write_back true lunch_read lunch_update demo = (Ok updated, snd first_update) ∧
  wp (write_back true lunch_read lunch_update) (λ r _, is_ok r = false) (snd first_update).
Proof.
  split; [apply first_update_ok|].
  apply (no_lost_update true lunch_read lunch_update lunch_update demo (snd first_update) (snd first_update) updated
           demo_keyed first_update_ok).
  apply rtc_refl.
Defined.

(** ** Access *)

Lemma ListUserTransactions_page_witness :
  ∃ rows, rows ≡ₚ [lunch_row] ∧ newest_first rows ∧
    ListUserTransactions (NewTransactionService true) (uuid_text alice) 0 (-3) demo
    = (omap_out (map dbTransactionToDomain) (rows_to_db (take 50 rows)), tick demo).
Proof.
  destruct (ListUserTransactions_page true (uuid_text alice) alice 0 (-3) demo) as (rows & HP & HS & Hl); [done..|].
  exists rows. split_and!; [|exact HS|exact Hl]. rewrite HP. by vm_compute.
Defined.

Lemma ListUserTransactions_offset_wraps_witness :
  fst (ListUserTransactions (NewTransactionService true) (uuid_text alice) 10 (2 ^ 31) demo)
  = Err (wrapf "list transactions" (pg_error "OFFSET must not be negative")).
Proof.
  apply (ListUserTransactions_offset_wraps true (uuid_text alice) alice 10 (2 ^ 31) demo);
    [reflexivity|reflexivity|lia|lia].
Defined.

Definition counted : outcome (list domain.Transaction * PaginationResult) * World :=
  ListUserTransactionsWithCount (NewTransactionService true) (uuid_text alice) 10 0 demo.

Definition counted_items : list domain.Transaction := match fst counted with Ok (l, _) => l | _ => [] end.
Definition counted_page : PaginationResult :=
  match fst counted with Ok (_, p) => p | _ => mkPaginationResult 0 0 0 end.

Lemma counted_ok : counted = (Ok (counted_items, counted_page), snd counted).
Proof. vm_compute. reflexivity. Qed.

Lemma ListUserTransactionsWithCount_total_witness : Total counted_page = 1.
Proof.
  etrans; [apply (ListUserTransactionsWithCount_total true (uuid_text alice) alice 10 0 demo
            counted_items counted_page (snd counted)); [reflexivity|reflexivity|exact counted_ok]|].
  reflexivity.
Defined.

Definition mallory : string := uuid_text (uuid_of_N 99).

Definition lunch_db : db.Transaction :=
  match sqlcTransactionToDB lunch_row with
  | Ok t => t
  | _ => db.mkTransaction alice alice alice f64_zero "" "" None None 0 None 0 0 "" None 0 0 0
  end.

Lemma ownership_not_enforced_witness :
  GetTransaction (NewTransactionService true) mallory (uuid_text lunch) demo
  = (Ok (dbTransactionToDomain lunch_db), tick demo).
Proof.
  refine (proj1 (ownership_not_enforced true mallory (uuid_text alice) lunch lunch_row lunch_db demo _ _ _ _));
    reflexivity.
Defined.

Definition fresh : World := world_of (set_users (users demo_db) empty_db).

Lemma created_rows_invisible_witness :
  wp (ListUserTransactions (NewTransactionService true) (uuid_text alice) 50 0)
    (λ r _, ∀ items, r = Ok items → items = [])
    (after (CreateTransaction (NewTransactionService true) lunch_input) fresh).
Proof.
  assert (Hf : no_live (w_db fresh)) by (intros id t; simpl; by rewrite lookup_empty).
  assert (Hs : rtc (ledger_step true) fresh (after (CreateTransaction (NewTransactionService true) lunch_input) fresh))
    by (apply rtc_once; constructor).
  exact (proj1 (proj2 (proj2 (proj2 (created_rows_invisible true fresh _ Hf Hs)))) (uuid_text alice) 50 0).
Defined.

(** ** Queue *)

Definition job : queue.Message := queue.mkMessage "" "transaction" "update" "{}" 3.

Lemma decode_enqueued_witness :
  queue.decodeMessage (delivered "7-0" (queue.message_values job))
  = queue.mkMessage "7-0" "transaction" "update" "{}" 3.
Proof. apply (decode_enqueued "7-0" job). unfold max_int64. simpl. lia. Defined.

Definition refuse (m : queue.Message) : outcome unit :=
  if String.eqb (queue.Operation m) "delete" then Err (errorString "refused") else Ok tt.

Definition sync_cfg : queue.RedisStreamConfig := queue.mkRedisStreamConfig "sync_queue" "sync_workers" "w" (5 * Second).

Lemma Consume_returns_witness :
  ∃ rounds, wp (queue.Consume sync_cfg rounds (λ m, lift (refuse m))) (λ r _, r ≠ Ok queue.Running) demo.
Proof.
  apply (Consume_returns sync_cfg (λ m, lift (refuse m)) demo 100).
  - intros msg w. by apply wp_lift.
  - intros n Hn. by apply Nat.leb_le.
Defined.

Lemma worker_handle_backoff_witness :
  wp (worker.handle (λ m, lift (refuse m)) (queue.mkMessage "" "" "delete" "" 2)) (λ r w',
    r = Err (errorString "refused") ∧ w_trace w' = [EvWait (3 * Second)]) demo.
Proof.
  eapply wp_mono;
    [apply (worker_handle_backoff (λ m, lift (refuse m)) (queue.mkMessage "" "" "delete" "" 2) demo); simpl; lia|].
  by intros r w' (w1 & [= <- <-] & _ & ->).
Defined.

(** ** Sheets *)

Definition two_cells : gmap string any := mapx.index_payload [AString "a"; ANil; AInt64 5].

Lemma OrderedSliceByIndex_spec_witness :
  mapx.OrderedSliceByIndex two_cells = Ok [AString "a"; AString ""; AInt64 5].
Proof.
  apply (OrderedSliceByIndex_spec two_cells 2);
    [by vm_compute; repeat constructor|by vm_compute; repeat constructor|reflexivity].
Defined.

Lemma OrderedSliceByIndex_roundtrip_witness :
  mapx.OrderedSliceByIndex (mapx.index_payload [AString "a"; ANil]) = Ok [AString "a"; AString ""].
Proof. apply (OrderedSliceByIndex_roundtrip [AString "a"; ANil]). reflexivity. Defined.

Definition negative_payload : gmap string any := {["-1" := AString "x"]}.

Lemma OrderedSliceByIndex_negative_witness : ∃ msg, mapx.OrderedSliceByIndex negative_payload = Panic msg.
Proof. apply (OrderedSliceByIndex_negative negative_payload (-1)); [vm_compute; constructor|lia]. Defined.

(** ** Read models *)

Import projection runner.

Definition one_round_later : World :=
  snd (round "default" NewDBChangeEventSource NewDBCursorStore worker_procs 50 (2 * Second) entered).

Lemma entered_summary : transaction_summary (w_db entered) = ∅.
Proof. vm_compute. reflexivity. Qed.
Lemma entered_balance : monthly_balance (w_db entered) = ∅.
Proof. vm_compute. reflexivity. Qed.
Lemma entered_cursor : cursor_of "default" (w_db entered) = 0.
Proof. vm_compute. reflexivity. Qed.
Lemma entered_ids : map sqlcdb.ChangeEvent_ID (change_events (w_db entered)) = [4].
Proof. vm_compute. reflexivity. Qed.

Lemma entered_event : ∃ e, change_events (w_db entered) = [e] ∧ sqlcdb.ChangeEvent_ID e = 4.
Proof.
  pose proof entered_ids as H. destruct (change_events (w_db entered)) as [|e [|]]; simplify_eq/=. eauto.
Qed.

Lemma entered_feed : feed_ok (w_db entered).
Proof.
  destruct entered_event as (e & He & Hid). unfold feed_ok. rewrite He. split; repeat constructor. lia.
Qed.
Lemma entered_upto : upto 0 (change_events (w_db entered)) = [].
Proof. destruct entered_event as (e & -> & Hid). unfold upto. simpl. by rewrite Hid. Qed.

Lemma entered_in_cents : in_cents (w_db entered).
Proof. split; intros k r; [rewrite entered_summary|rewrite entered_balance]; by rewrite lookup_empty. Qed.

(** After the round, another lunch is entered. *)
Definition entered_again : World := after (CreateTransaction (NewTransactionService true) lunch_input) one_round_later.

Lemma two_events_ok d a b : map sqlcdb.ChangeEvent_ID (change_events d) = [a; b] → 0 < a < b → feed_ok d.
Proof.
  unfold feed_ok. intros H Hab. destruct (change_events d) as [|e [|f [|]]]; simplify_eq/=.
  split; repeat constructor; unfold by_id; lia.
Qed.

Lemma entered_again_feed : feed_ok (w_db entered_again).
Proof. apply (two_events_ok _ 4 18); [vm_compute; reflexivity|lia]. Qed.

Lemma worker_counts_once_witness : counted_once read_models worker_deltas "default" (w_db entered_again).
Proof.
  apply (worker_counts_once true entered entered_again); [done|exact entered_in_cents|exact entered_feed|left; exact entered_cursor|..].
  - intros k. unfold counted_once. rewrite entered_cursor, entered_upto. destruct k; cbn [view read_models counters];
      [rewrite entered_summary|rewrite entered_summary|rewrite entered_balance]; by rewrite lookup_empty.
  - eapply rtc_l; [|apply rtc_once].
    + apply system_round. split; [reflexivity|]. left. rewrite entered_cursor. vm_compute. done.
    + apply system_request; [constructor|exact entered_again_feed].
Defined.

Definition lunch_feed (op : string) : ChangeEventRow :=
  match change_events (w_db entered) with
  | e :: _ => let r := row_of e in mkChangeEventRow (ID r) (EntityType r) (EntityID r) (UserID r) op (Version r) (Payload r) (CreatedAt r)
  | [] => mkChangeEventRow 0 "" "" "" op 0 None noon
  end.

(** The projectors accept the event, and both payloads are read. *)
Lemma projection_of_operations_witness :
  is_ok (fst (summary_Process (lunch_feed "delete") entered)) = true ∧
  is_ok (fst (balance_Process (lunch_feed "delete") entered)) = true ∧
  ∃ t b, unmarshal_summary (Payload (lunch_feed "delete")) = Ok t ∧
    wp (summary_Process (lunch_feed "delete"))
      (λ r w', (summary_fits t (-1) (w_db entered) → is_ok r = true) ∧
         match r with Ok _ => summary_change t (-1) (w_db entered) (w_db w') | _ => w_db w' = w_db entered end) entered ∧
    wp (balance_Process (lunch_feed "delete"))
      (λ r w', (balance_fits b (-1) (w_db entered) → is_ok r = true) ∧
         match r with Ok _ => balance_change b (-1) (w_db entered) (w_db w') | _ => w_db w' = w_db entered end) entered.
Proof.
  split; [by vm_compute|]. split; [by vm_compute|].
  destruct (unmarshal_summary (Payload (lunch_feed "delete"))) as [t|e|m] eqn:Et; [|by vm_compute in Et..].
  destruct (unmarshal_balance (Payload (lunch_feed "delete"))) as [b|e|m] eqn:Eb; [|by vm_compute in Eb..].
  exists t, b. split; [done|].
  assert (Hq : ∀ n, env_fault (Env := quiet_env) n = None) by done.
  assert (He : EntityType (lunch_feed "delete") = "transaction"%string) by (vm_compute; reflexivity).
  assert (Ho : OpType (lunch_feed "delete") = "delete"%string) by (vm_compute; reflexivity).
  assert (Hop : (OpType (lunch_feed "delete"), -1) ∈ [("create", 1); ("update", 1); ("delete", -1)]%string)
    by (rewrite Ho; apply list_elem_of_further, list_elem_of_further, list_elem_of_here).
  exact (projection_of_operations (lunch_feed "delete") (-1) t b entered Hq entered_in_cents He Hop Et Eb).
Defined.

(** *** An unreadable event *)

Lemma poisoned_next :
  select_since (cursor_of "default" (w_db poisoned)) 50 (w_db poisoned) = change_events (w_db entered) ++ [unreadable_event].
Proof. vm_compute. reflexivity. Qed.

Lemma refused_event_blocks_witness :
  wp (Start worker_runner 7) (λ _ w', cursor_of "default" (w_db w') = cursor_of "default" (w_db poisoned) ∧
    change_events (w_db w') = change_events (w_db poisoned)) poisoned.
Proof.
  apply (refused_event_blocks 7 unreadable_event poisoned).
  - rewrite poisoned_next. apply elem_of_app. right. apply list_elem_of_here.
  - apply unreadable_refused; [reflexivity|]. eexists. vm_compute. reflexivity.
Defined.
