(* ===== verification/WitnessesAuth.v ===== *)
(** * WitnessesAuth: the theorems on authentication and encryption, applied

    A run of the service: an account is registered, a session opened and
    refreshed on a working store of tokens, and the theorems applied to its
    steps; then two refreshes of one token that overlap. *)

From S2P Require Import Prelude GoInt GoStrings Base64 Aes GoTime GoValues Pgtypex Schema Sqlc Effects Crypto AuthTokens TxRunner Models Repositories AuthService Outbox Sessions Concrete ConcreteAuth.
Import strings auth crypto pgtypex uuidx.
Import Concrete ConcreteAuth.

(** ** Encryption *)

Lemma Decrypt_Encrypt_witness :
  wp (Encrypt "attack at dawn") (λ r w', (w' = demo ∨ w' = tick demo) ∧
    match r with
    | Ok c => Decrypt c = Ok "attack at dawn"
    | Err e => initKey = Err e ∨ ∃ e', e = wrapf "rand nonce" e' ∧ env_rand (w_tick demo) gcm.NonceSize = Err e'
    | Panic m => env_rand (w_tick demo) gcm.NonceSize = Panic m
    end)%string demo.
Proof. apply (Decrypt_Encrypt "attack at dawn" demo). unfold len. simpl. lia. Defined.

Definition demo_key : string := match initKey with Ok k => k | _ => "" end.

Lemma demo_key_ok : initKey = Ok demo_key.
Proof. vm_compute. reflexivity. Qed.

Lemma Decrypt_authentic_witness :
  Decrypt (sealed demo_key "twelve bytes" "attack at dawn") = Ok "attack at dawn"%string ↔
  ∃ nonce, len nonce = gcm.NonceSize ∧ sealed demo_key "twelve bytes" "attack at dawn" = sealed demo_key nonce "attack at dawn".
Proof.
  apply (Decrypt_authentic demo_key (sealed demo_key "twelve bytes" "attack at dawn") "attack at dawn" demo_key_ok).
  unfold len. simpl. lia.
Defined.

(** ** Tokens and addresses *)

Lemma DecodeRefreshToken_EncodeRefreshToken_witness :
  DecodeRefreshToken (EncodeRefreshToken alice "secret") = Ok (alice, "secret"%string).
Proof. by apply (DecodeRefreshToken_EncodeRefreshToken alice "secret"). Defined.

Definition signed : outcome string * World := Sign "alice" "alice@example.com" AccessTokenExpiry demo.
Definition signed_token : string := match fst signed with Ok t => t | _ => "" end.

Lemma signed_ok : signed = (Ok signed_token, tick demo).
Proof. vm_compute. reflexivity. Qed.

(** A world in which the clock shows the effect number [n]. *)
Definition world_at (n : nat) : World := mkWorld demo_db [] [] n.

Lemma Verify_Sign_witness :
  Verify signed_token (world_at 10) = (Ok ("alice", "alice@example.com")%string, tick (world_at 10)).
Proof.
  exact (Verify_Sign "alice" "alice@example.com" AccessTokenExpiry demo signed_token (tick demo) (world_at 10)
    signed_ok eq_refl eq_refl).
Defined.

Lemma jwt_key_required_witness :
  Verify (P := {| Getenv _ := "" |}) signed_token demo = (Err (sentinel ErrJWTKeyMissing), demo).
Proof. refine (proj2 (jwt_key_required (P := {| Getenv _ := "" |}) demo _) signed_token). reflexivity. Defined.

Lemma NormalizeEmail_canonical_witness :
  stringsx.NormalizeEmail " Alice@Example.COM " = stringsx.NormalizeEmail "alice@example.com" ∧
  stringsx.NormalizeEmail (stringsx.NormalizeEmail "alice@example.com") = stringsx.NormalizeEmail "alice@example.com".
Proof.
  apply (NormalizeEmail_canonical "alice@example.com" " Alice@Example.COM " [" "%char] [" "%char]); reflexivity.
Defined.

(** ** A session *)

Definition bob_email : string := " Bob@Example.com".
Definition bob_world : World := snd (Register NewAuthService bob_email "pw" demo).

Lemma demo_emails : emails_unique demo_db.
Proof.
  intros i j u v. simpl. rewrite !lookup_singleton_Some. intros [<- _] [<- _]. done.
Qed.

Lemma Register_spec_witness :
  wp (Register NewAuthService bob_email "pw") (λ r w', w_txs w' = [] ∧ w_trace w' = [] ∧
    match r with
    | Ok u => registered demo_db (w_db w') bob_email "pw" u
    | Err e => w_db w' = demo_db ∨
        ((∃ e', e = wrapf "create user" e' ∧ db_fault e') ∧ ∃ u, registered demo_db (w_db w') bob_email "pw" u)
    | Panic _ => w_db w' = demo_db
    end) demo.
Proof. exact (Register_spec bob_email "pw" demo). Defined.

Lemma Register_unique_witness :
  wp (Register NewAuthService bob_email "pw") (λ r w', emails_unique (w_db w') ∧
    ((∃ id v, Schema.users demo_db !! id = Some v ∧ sqlcdb.User_Email v = stringsx.NormalizeEmail bob_email) →
     is_ok r = false ∧ w_db w' = demo_db)) demo.
Proof. exact (Register_unique bob_email "pw" demo demo_emails). Defined.

Definition service : authServiceImpl := with_store working_tokens.

Definition login : outcome (string * string) * World := Authenticate service "bob@example.com" "pw" bob_world.
Definition login_pair : string * string := match fst login with Ok p => p | _ => ("", "")%string end.

Lemma login_ok : Authenticate service "bob@example.com" "pw" bob_world = (Ok (fst login_pair, snd login_pair), snd login).
Proof. vm_compute. reflexivity. Qed.

Lemma Authenticate_sound_witness :
  ∃ u w1, GetByEmail (stringsx.NormalizeEmail "bob@example.com") bob_world = (Ok u, w1) ∧
    bcrypt_CompareHashAndPassword (db.User_HashedPassword u) "pw" = Ok tt.
Proof.
  refine (proj2 (proj2 (proj1 (Authenticate_sound service "bob@example.com" "pw" bob_world) _ _ _ login_ok))).
Defined.

Definition token : string := snd login_pair.
Definition refreshed : outcome (string * string) * World := Refresh service token (snd login).
Definition refreshed_pair : string * string := match fst refreshed with Ok p => p | _ => ("", "")%string end.

Lemma refreshed_ok : Refresh service token (snd login) = (Ok (fst refreshed_pair, snd refreshed_pair), snd refreshed).
Proof. vm_compute. reflexivity. Qed.

Lemma Refresh_sound_witness :
  ∃ id secret row w1, DecodeRefreshToken token = Ok (id, secret) ∧
    rt_GetByID working_tokens id (snd login) = (Ok row, w1) ∧ db.RefreshToken_Revoked row = false.
Proof.
  destruct (Refresh_sound service token (fst refreshed_pair) (snd refreshed_pair) (snd login) (snd refreshed) refreshed_ok)
    as (id & secret & row & w1 & H1 & H2 & H3 & _).
  exists id, secret, row, w1. split; [exact H1|]. split; [exact H2|exact H3].
Defined.

(** The two phases of that refresh. *)
Definition no_plan : UUID * db.RefreshToken * (string * string) :=
  (alice, db.mkRefreshToken alice alice "" noon false noon, ("", ""))%string.
Definition plan_of (o : outcome (UUID * db.RefreshToken * (string * string))) : UUID * db.RefreshToken * (string * string) :=
  match o with Ok p => p | _ => no_plan end.

Definition first_checks := refresh_checks service token (snd login).
Definition first_commit := refresh_commit service (plan_of (fst first_checks)) (snd first_checks).

Lemma first_checks_ok : refresh_checks service token (snd login) = (Ok (plan_of (fst first_checks)), snd first_checks).
Proof. vm_compute. reflexivity. Qed.
Lemma first_checks_db : w_db (snd first_checks) = w_db (snd login).
Proof. vm_compute. reflexivity. Qed.
Lemma first_commit_ok :
  refresh_commit service (plan_of (fst first_checks)) (snd first_checks)
  = (Ok (fst refreshed_pair, snd refreshed_pair), snd first_commit).
Proof. vm_compute. reflexivity. Qed.

Lemma keeps_tokens_refl d : keeps_tokens working_tokens d d.
Proof. intros id t Ht. eauto. Qed.

Lemma spent_token_refused_witness : wp (Refresh service token) (λ r _, is_ok r = false) (snd first_commit).
Proof.
  refine (proj2 (spent_token_refused working_tokens token (plan_of (fst first_checks)) (fst refreshed_pair, snd refreshed_pair)
    (snd login) (snd first_checks) (snd first_checks) (snd first_commit) (snd first_commit))
    first_checks_ok _ first_commit_ok (keeps_tokens_refl _)).
  rewrite first_checks_db. apply keeps_tokens_refl.
Defined.

(** Two refreshes of one token that overlap: both have passed the checks when
    the first of them commits, and both succeed, each with a new session. *)
Definition second_checks := refresh_checks service token (snd first_checks).
Definition overlapping_first := refresh_commit service (plan_of (fst first_checks)) (snd second_checks).
Definition overlapping_second := refresh_commit service (plan_of (fst second_checks)) (snd overlapping_first).

Theorem overlapping_refreshes :
  is_ok (fst first_checks) = true ∧ is_ok (fst second_checks) = true ∧
  is_ok (fst overlapping_first) = true ∧ is_ok (fst overlapping_second) = true ∧
  fst (fst (plan_of (fst first_checks))) = fst (fst (plan_of (fst second_checks))) ∧
  omap_out snd (fst overlapping_first) ≠ omap_out snd (fst overlapping_second).
Proof. split_and!; vm_compute; congruence. Qed.

Definition logout : outcome unit * World := Revoke NewAuthService token (snd login).

Lemma logout_ok : Revoke NewAuthService token (snd login) = (Ok tt, snd logout).
Proof. vm_compute. reflexivity. Qed.

Lemma Revoke_effective_witness :
  Refresh NewAuthService token (snd logout) = (Err (sentinel ErrRefreshTokenInvalid), tick (snd logout)).
Proof.
  destruct (Revoke_effective token (snd login) (snd logout) logout_ok) as (id & secret & _ & Hrev & Hno).
  apply Hno; [reflexivity|exact Hrev].
Defined.
