(* ===== verification/WitnessesSync.v ===== *)
(** * WitnessesSync: the theorems on synchronisation, applied

    The theorems of [SyncFacts] and [SyncWorker] at the budget sheet of
    [Scenarios], at an enqueued job and at a small queue. *)

From S2P Require Import Prelude GoInt GoStrings GoTime GoValues Json Mapx SheetMerge Pgtypex Schema Sqlc Effects Wiring Queue TransactionService Projection ProjectionRunner ReadModels SyncService SyncFacts SyncPipeline SyncWorker Concrete Scenarios Witnesses.
Import Concrete sync.

(** ** Synchronisation *)

Definition stub_sync : SyncService := NewSyncService NoopSheetsClient.

Lemma sync_job_understood_witness :
  HandleSyncJob stub_sync (queue.decodeMessage (delivered "1-0" (queue.message_values
    (queue.mkMessage "" "transaction" "sync_user" (syncPayloadForUser (uuid_text alice) 0) 0)))) demo
  = (let! conns := ListActiveByUser (connections stub_sync) (uuid_text alice) in
     sync_all stub_sync (uuid_text alice) "" 0 conns) demo.
Proof.
  refine (sync_job_understood stub_sync "1-0" "sync_user" (uuid_text alice) 0 demo _ _).
  - vm_compute. reflexivity.
  - vm_compute. by split.
Defined.

(** Another user than the owner of the budget. *)
Definition bob : UUID := uuid_of_N 9.

Lemma budget_owner id c :
  projection.pg_uuid (uuid_text budget) = Some id → sheets_connections budget_db !! id = Some c →
  uuid_String (UUID_Bytes (sqlcdb.SheetsConnection_UserID c)) ≠ uuid_text bob.
Proof.
  intros Hid Hc. cbn [sheets_connections budget_db] in Hc. apply lookup_singleton_Some in Hc as [_ <-].
  vm_compute. congruence.
Qed.

Lemma sync_checks_owner_witness :
  wp (SyncUserTransactions (NewSyncService NoopSheetsClient) (uuid_text bob) (uuid_text budget) "full" 0) (λ r w',
    is_ok r = false ∧ w_db w' = budget_db ∧ w_trace w' = []) (world_of budget_db).
Proof. exact (sync_checks_owner NoopSheetsClient (uuid_text bob) (uuid_text budget) "full" 0 (world_of budget_db) budget_owner). Defined.

Lemma budget_found ctx :
  ∃ conn, select_connection (uuid_text budget) ctx budget_db = Ok (conn, budget_db) ∧ "budget-sheet"%string = SheetID conn.
Proof. eexists. split; [vm_compute; reflexivity|reflexivity]. Qed.

Lemma budget_events ctx : select_events (uuid_text alice) 0 1000 ctx budget_db = Ok ([], budget_db).
Proof. vm_compute. reflexivity. Qed.

Lemma budget_sync_ok : sync_budget = (Ok tt, snd sync_budget).
Proof. vm_compute. reflexivity. Qed.

Lemma remote_sync_drops_header_witness :
  ∃ range rows, rows ≡ₚ map (map mapx.fill) budget_rows ∧
    w_trace (snd sync_budget) = [EvSheetsGet "budget-sheet" range; EvSheetsUpdate "budget-sheet" range rows].
Proof.
  apply (remote_sync_drops_header (E := sheet_env) (uuid_text alice) (uuid_text budget) "full" 0 (world_of budget_db)
    (snd sync_budget) [AString "header"] budget_rows "budget-sheet").
  - reflexivity.
  - done.
  - vm_compute. reflexivity.
  - unfold budget_rows. apply Forall_fmap, Forall_true. intros n. vm_compute. reflexivity.
  - done.
  - apply budget_found.
  - apply budget_events.
  - apply budget_sync_ok.
Defined.

(** ** The queue table *)

Lemma backoff_doubles_witness : syncworker.backoff 34 = Ok (2 ^ 34 * Second - 2 ^ 64).
Proof. destruct (backoff_doubles 34) as (_ & H & _); [lia|]. by apply H. Defined.

(** Two items, the second due earlier. *)
Definition item_row (id : Z) (at_ : Time) : sqlcdb.SyncQueue :=
  sqlcdb.mkSyncQueue id (mkPgUUID alice true) "sync" None 0 (pg_time at_) 5 (pg_time noon) (pg_time noon)
    Timestamptz_zero 1.

Definition queue_db : DB := set_sync_queue {[1 := item_row 1 (noon - Second); 2 := item_row 2 (noon - 2 * Second)]} fresh_db.

(** Nobody cancels. *)
Definition endless_env : Env := {|
  env_clock := @env_clock quiet_env; env_sql := @env_sql quiet_env; env_fault := @env_fault quiet_env;
  env_newv4 := @env_newv4 quiet_env; env_rand := @env_rand quiet_env; env_redis := @env_redis quiet_env;
  env_read := @env_read quiet_env; env_sheets_get := @env_sheets_get quiet_env;
  env_sheets_update := @env_sheets_update quiet_env; env_done _ := false |}.

Lemma idle_rounds_leak_witness :
  wp (syncworker.StartWorker (E := endless_env) 20) (λ r w', r = Ok false ∧ w_db w' = fresh_db ∧
    List.length (w_txs w') = 20%nat) (world_of fresh_db).
Proof. by apply (idle_rounds_leak (E := endless_env) 20 (world_of fresh_db)). Defined.

Lemma queue_ids id r : sync_queue queue_db !! id = Some r → sqlcdb.SyncQueue_ID r = id ∧ id ≠ 0.
Proof.
  cbn [sync_queue queue_db set_sync_queue]. intros H.
  apply lookup_insert_Some in H as [[<- <-]|[_ H]]; [by split|].
  apply lookup_singleton_Some in H as [<- <-]. by split.
Qed.

Lemma due_item_deleted_witness :
  ∃ id r, sync_queue queue_db !! id = Some r ∧
    (∀ id' r', sync_queue queue_db !! id' = Some r' →
       ts_Time (sqlcdb.SyncQueue_AvailableAt r) <= ts_Time (sqlcdb.SyncQueue_AvailableAt r')) ∧
    wp syncworker.consumeOnce (λ res w', res = Ok tt ∧ w_txs w' = [] ∧
      w_db w' = set_sync_queue (delete id (sync_queue queue_db)) queue_db) (world_of queue_db).
Proof.
  apply (due_item_deleted (world_of queue_db)); [done|exact queue_ids|].
  exists 1, (item_row 1 (noon - Second)). split; [reflexivity|]. vm_compute. congruence.
Defined.

(** ** The consumers *)

Definition two_jobs : list Job := [mkJob "1-0" "create" alice 0; mkJob "2-0" "update" alice 1].

(** An environment whose stream answers a read as given. *)
Definition stream_env (answer : outcome (list XStream)) : Env := {|
  env_clock := @env_clock quiet_env; env_sql := @env_sql quiet_env; env_fault := @env_fault quiet_env;
  env_newv4 := @env_newv4 quiet_env; env_rand := @env_rand quiet_env; env_redis := @env_redis quiet_env;
  env_read _ := answer; env_sheets_get := @env_sheets_get quiet_env;
  env_sheets_update := @env_sheets_update quiet_env; env_done := @env_done quiet_env |}.

Definition delivering : Env := stream_env (Ok [mkXStream "sync_queue" (map entry_of two_jobs)]).

Lemma budget_keyed : connections_keyed budget_db.
Proof. intros id c H. cbn [sheets_connections budget_db] in H. by apply lookup_singleton_Some in H as [<- <-]. Qed.

Lemma service_jobs_acknowledged_witness :
  wp (queue.consume_round (E := delivering) sync_service_stream (worker.handle (E := delivering) (stub_handler (E := delivering))))
    (λ r w', r = Ok queue.Running ∧ w_db w' = budget_db ∧
      w_trace w' = [EvXReadGroup "sync_queue" "sync_workers" "sync-service" 10 (5 * Second);
                    EvXAck "sync_queue" "sync_workers" "1-0"; EvXAck "sync_queue" "sync_workers" "2-0"])
    (world_of budget_db).
Proof.
  refine (service_jobs_acknowledged (E := delivering) _ sync_service_stream two_jobs (world_of budget_db) budget_keyed _ _ _).
  - done.
  - repeat constructor; vm_compute; congruence.
  - reflexivity.
  - reflexivity.
Defined.

(** One message that is no job, and one of the transaction service. *)
Definition mixed_messages : list XMessage :=
  [delivered "1-0" (queue.message_values (queue.mkMessage "" "transaction" "update" "{" 0));
   entry_of (mkJob "2-0" "update" alice 1)].

Definition mixed : Env := stream_env (Ok [mkXStream "sync_queue" mixed_messages]).

Abbreviation deployed_handler := (worker.handle (E := mixed) (stub_handler (E := mixed))).

Lemma deployed_handler_appends : appends (E := mixed) deployed_handler.
Proof.
  intros m w.
  pose proof (only_queue_handle (E := mixed) sync_service_stream (stub_handler (E := mixed)) m
    (only_queue_reads sync_service_stream _ (reads_HandleSyncJob_noop (E := mixed) m)) w) as H.
  unfold wp in H. destruct (deployed_handler m w). destruct H as (_ & _ & evs & Hevs & _). by exists evs.
Qed.

(** The deployed handler refuses the first and performs the second. *)
Lemma consume_round_acks_witness :
  wp (queue.consume_round (E := mixed) sync_service_stream deployed_handler) (λ r w', ∃ runs,
    map run_message runs = mixed_messages ∧ Forall (ran (E := mixed) deployed_handler) runs ∧
    w_trace w' = EvXReadGroup "sync_queue" "sync_workers" "sync-service" 10 (5 * Second)
      :: concat (map (λ x, run_sent x ++ acknowledged sync_service_stream x) runs)) (world_of budget_db) ∧
  w_trace (snd (queue.consume_round (E := mixed) sync_service_stream deployed_handler (world_of budget_db)))
    = [EvXReadGroup "sync_queue" "sync_workers" "sync-service" 10 (5 * Second); EvWait Second;
       EvXAck "sync_queue" "sync_workers" "2-0"].
Proof.
  split; [|by vm_compute].
  pose proof (consume_round_acks (E := mixed) sync_service_stream deployed_handler
    [mkXStream "sync_queue" mixed_messages] (world_of budget_db) deployed_handler_appends eq_refl eq_refl) as H.
  assert (Hok : is_ok (fst (queue.consume_round (E := mixed) sync_service_stream deployed_handler (world_of budget_db))) = true)
    by (by vm_compute).
  unfold wp in *. destruct (queue.consume_round _ _ _) as [r w']. destruct H as (runs & H1 & _ & H3 & _ & H5).
  exists runs. destruct r as [l|e|s]; [|done..]. destruct H3 as [H3 _]. by split_and!.
Defined.

Definition broken : Env := stream_env (Err (foreign "connection reset by peer")).

Lemma read_error_ends_worker_witness :
  wp (sync_worker (E := broken) sync_service_stream 100) (λ r w',
    r = Ok (Some (queue.Returned (foreign "connection reset by peer"))) ∧ w_db w' = budget_db ∧
    w_trace w' = [EvXGroupCreate "sync_queue" "sync_workers";
      EvXReadGroup "sync_queue" "sync_workers" "sync-service" 10 (5 * Second)]) (world_of budget_db).
Proof.
  by apply (read_error_ends_worker (E := broken) sync_service_stream 99 (foreign "connection reset by peer") (world_of budget_db)).
Defined.
