(* ===== verification/WitnessesApi.v ===== *)
(** * WitnessesApi: the theorems on the HTTP API, applied

    Requests with and without the token of [ScenariosApi], against the demo
    world. *)

From S2P Require Import Prelude GoInt GoStrings GoTime GoValues Json Pgtypex Schema Sqlc Effects Crypto AuthTokens TxRunner Models Repositories AuthService Wiring Queue TransactionService Outbox Projection SyncService Http Api ApiFacts Concrete ConcreteAuth Scenarios ScenariosApi Witnesses.
Import Concrete ConcreteAuth http httpx.

(** The services of the finance-api, and two of its routes. *)
Definition app : Services := newApp true false.
Definition delete_route : Route :=
  mkRoute "DELETE" "/api/v1/transactions/{id}" (JWTMiddleware (handleDeleteTransaction app)).
Definition get_route : Route :=
  mkRoute "GET" "/api/v1/transactions/{id}" (JWTMiddleware (handleGetTransaction app)).

Lemma delete_route_in : delete_route ∈ registerAPIRoutes app.
Proof. apply list_elem_of_In. do 8 right. by left. Qed.

Lemma get_route_in : get_route ∈ RegisterRoutes app.
Proof. apply list_elem_of_In. do 8 right. by left. Qed.

(** A request that only names a user in the debug header. *)
Definition debug_request : Request := mkRequest {["X-Debug-User-Id"%string := uuid_text alice]} "" {["id"%string := uuid_text lunch]} "" ∅.

Lemma debug_request_names : userIDFromRequest debug_request = uuid_text alice.
Proof. vm_compute. reflexivity. Qed.

Lemma protected_needs_token_witness :
  wp (Handle delete_route debug_request) (λ res w', unchanged demo res w' ∧
    ∃ message, res = Ok (mkResponse 401 "application/json" (BodyJSON (error_json "unauthorized" message)))) demo.
Proof. apply (protected_needs_token app delete_route debug_request demo delete_route_in); [reflexivity|]. intros token. discriminate. Defined.

(** The same request with the token of alice, without and with the header. *)
Definition token_request : Request := request (uuid_text lunch) "".
Definition token_debug_request : Request :=
  mkRequest (<["X-Debug-User-Id"%string := "somebody else"%string]> (Header token_request)) "" (URLParams token_request) "" ∅.

Lemma token_accepted : authenticated token_request demo (uuid_text alice) "alice@example.com" (tick demo).
Proof. exists alice_token. split; vm_compute; reflexivity. Qed.

Lemma token_debug_accepted : authenticated token_debug_request demo (uuid_text alice) "alice@example.com" (tick demo).
Proof. exists alice_token. split; vm_compute; reflexivity. Qed.

Lemma token_decides_user_witness :
  Handle delete_route token_request demo = Handle delete_route token_debug_request demo.
Proof.
  apply (token_decides_user app delete_route token_request token_debug_request (uuid_text alice)
    "alice@example.com" "alice@example.com" demo (tick demo) delete_route_in);
    [reflexivity|by vm_compute|exact token_accepted|exact token_debug_accepted|reflexivity..].
Defined.

Lemma get_is_safe_witness : wp (Handle get_route token_request) (unchanged demo) demo.
Proof. by apply (get_is_safe true false get_route token_request demo get_route_in). Defined.

Lemma write_status_witness :
  wp (handleDeleteTransaction app token_request) (answered "delete" true since_version 204 demo) demo.
Proof. exact (proj2 (proj2 (write_status true false token_request demo demo_keyed))). Defined.

(** *** Login with a wrong password *)

Definition login_body : string :=
  strings.of_chars (Json.object [("email", Json.quote "Alice@example.com"); ("password", Json.quote "guess")])%string.

Lemma login_body_decoded : decode_login login_body = Ok (mkloginRequest "Alice@example.com" "guess").
Proof. vm_compute. reflexivity. Qed.

Lemma demo_users u : u ∈ queries.users_list demo_db → u = alice_row.
Proof.
  unfold queries.users_list. intros H. apply list_elem_of_fmap in H as ([id x] & -> & H).
  apply elem_of_map_to_list in H. cbn [Schema.users demo_db] in H. by apply lookup_singleton_Some in H as [_ <-].
Qed.

Lemma login_uniform_witness :
  wp (handleLogin NewAuthService (request "" login_body)) (λ res w', unchanged demo res w' ∧ res = Ok (mkResponse 401 "application/json"
    (BodyJSON (error_json "invalid_credentials" "invalid email or password")))) demo.
Proof.
  apply (login_uniform (mkloginRequest "Alice@example.com" "guess") (request "" login_body) demo);
    [done|exact login_body_decoded|done|done|].
  intros u Hu _ _. apply demo_users in Hu as ->. reflexivity.
Defined.

(** *** The sync trigger *)

(** A body that names the connection 7, in other letters and after another
    member. *)
Definition trigger_body : string := strings.of_chars (Json.object
  [("connectionId", Json.quote "6"); ("note", strings.to_chars "[]"); ("ConnectionID", Json.quote "7"); ("connectionid", Json.int_text 8)])%string.

Definition signed_in : Request := mkRequest ∅ "" ∅ trigger_body (auth.WithUserID ∅ (uuid_text alice)).

Lemma trigger_understood_witness :
  wp (handleSyncTrigger app_queue signed_in) (λ res w', w_db w' = demo_db ∧ ∃ values,
    w_trace w' = [EvXAdd "sync_queue" values] ∧ (∃ resp, res = Ok resp ∧ Status resp = 202) ∧
    ∀ s id w2, sync.HandleSyncJob s (queue.decodeMessage (delivered id values)) w2
      = sync.SyncUserTransactions s (uuid_text alice) "7" "full" 0 w2) demo.
Proof.
  refine (trigger_understood signed_in "7" demo _ _ _ _); [|vm_compute; congruence|vm_compute; reflexivity..].
  apply (named_text _ [("connectionId", JStr "6"); ("note", JArr [])]%string "ConnectionID" "7"
    [("connectionid", JInt 8)]%string).
  - vm_compute. reflexivity.
  - split; [vm_compute; reflexivity|right; by eexists].
  - repeat constructor. intros [_ [H|[s H]]]; discriminate H.
Defined.
