(* ===== verification/WitnessesEntry.v ===== *)
(** * WitnessesEntry: the theorems on processes and stored rows, applied

    Instances for the libraries a process starts with, and the theorems of
    [AppRun], [Config], [SheetsFactory], [Entry] and [Integrity] at concrete
    inputs. *)

From S2P Require Import Prelude GoInt GoStrings Base64 GoTime GoValues Json Pgtypex Schema Sqlc Effects Crypto AuthTokens AuthService Wiring TransactionService Projection ProjectionRunner SyncService SyncPipeline SyncWorker SheetsFactory AppRun Config Http Api Outbox Integrity Health Lifecycle Entry Concrete ConcreteAuth ScenariosApi Witnesses.
Import strings apprun Concrete ConcreteAuth.
#[local] Open Scope string_scope.
#[local] Open Scope list_scope.
#[local] Open Scope Z_scope.

(** ** Libraries *)

(** Configuration in one file, configs/dev.yaml. *)
Definition dev_config : config.Config :=
  config.mkConfig "finance" (config.mkServerConfig "") (config.mkDatabaseConfig "postgres://db")
    (config.mkRedisConfig "redis://cache") (config.mkAuthConfig "a secret") (config.mkLoggingConfig "info").

#[export] Instance file_viper : config.ViperLib := {
  config.Viper := string;
  config.viper_New := "";
  config.viper_global := "";
  config.GetString _ _ := "";
  config.SetConfigName name _ := name;
  config.SetConfigType _ v := v;
  config.AddConfigPath _ v := v;
  config.SetEnvPrefix _ v := v;
  config.AutomaticEnv v := v;
  config.ReadInConfig v := if String.eqb v "dev" then Ok v else Err (foreign "Config File Not Found");
  config.Unmarshal _ := Ok dev_config }.

#[export] Instance file_viper_laws : config.ViperLaws file_viper.
Proof. by split. Qed.

#[export] Instance plain_zap : logging.ZapLib := { logging.Logger := unit; logging.NewNop := tt; logging.Build := Ok tt }.

#[export] Instance plain_printable : quoting.Printable := { quoting.quote_unicode s := s }.

(** Credentials are their text, a service what it was made from. *)
#[export] Instance plain_google : GoogleLib := {
  Credentials := string;
  SheetsAPI := list (ClientOption string);
  CredentialsFromJSON data _ := if json_Valid data then Ok data else Err (foreign "invalid character");
  NewService options := Ok options }.

#[export] Instance reachable_host : Host := {
  PgConn := string;
  RedisOptions := string;
  pgxpool_ParseConfig dsn := Ok (mkPoolConfig dsn 4 0 0 0);
  pgxpool_NewWithConfig _ := Ok tt;
  redis_ParseURL url := Ok url;
  first_ping _ := None }.

#[export] Instance all_up : Pings := { ping_db _ := None; ping_redis _ := None }.

Definition no_metrics : http.Handler := λ _, ret (http.mkResponse 200 "" http.BodyEmpty).

(** ** Stored rows *)

Lemma demo_wf : db_wf demo_db.
Proof.
  constructor; cbn; try done.
  - intros k u Hl. apply lookup_singleton_Some in Hl as [<- <-]. constructor; [done|by repeat constructor|done].
  - intros k k' u u' H1 H2 _. cbn in H1, H2. apply lookup_singleton_Some in H1 as [<- _], H2 as [<- _]. done.
  - intros k a Hl. apply lookup_singleton_Some in Hl as [<- <-]. constructor; [done..|by repeat constructor|done].
  - intros k t Hl. apply lookup_singleton_Some in Hl as [<- <-].
    constructor; [done|done|done|done|by left|by repeat constructor| |done|done].
    right. exists 1250. by split.
  - apply Forall_singleton. constructor; [done..|by left|done|by repeat constructor].
  - apply NoDup_singleton.
Qed.

(** After a request that creates a transaction the rows are as they should. *)
Lemma rows_well_formed_witness :
  db_wf (w_db (snd (runner.Start runner.worker_runner 3 demo))) ∧
  db_wf (w_db (snd (syncworker.StartWorker 2 demo))).
Proof.
  destruct (rows_well_formed true false demo demo_wf (Forall_nil_2 _)) as (_ & H1 & _ & H2).
  split; [apply (H1 3%nat)|apply (H2 2%nat)].
Defined.

(** ** The server of the finance-api *)

(** A request is being served when the signal comes. *)
Definition stopped_by_signal : list Label :=
  [Notify; Listen; Request; Signalled SIGTERM; SelectSignal; BeginShutdown; Answer; ServerClosed; ShutdownIdle].

Lemma run_error_sound_witness :
  let ls := [ServerFail (foreign "address in use"); SendErr; Notify; SelectErr] in
  ServerFail (foreign "address in use") ∈ ls ∨ ShutdownError (foreign "address in use") ∈ ls.
Proof. intros ls. eapply (run_error_sound ls _ (Err (foreign "address in use"))); reflexivity. Defined.

Lemma graceful_shutdown_witness :
  ∃ s, reachable stopped_by_signal s ∧ in_shutdown s = true ∧ ∃ o, main s = Returned o.
Proof.
  eexists. split; [reflexivity|]. apply (graceful_shutdown stopped_by_signal); [reflexivity| | |reflexivity].
  - intros H. repeat (apply elem_of_cons in H as [H|H]; [discriminate H|]). by apply elem_of_nil in H.
  - intros e H. repeat (apply elem_of_cons in H as [H|H]; [discriminate H|]). by apply elem_of_nil in H.
Defined.

Lemma no_request_after_run_witness :
  ∃ s, reachable stopped_by_signal s ∧ step s Request = None.
Proof. eexists. split; [reflexivity|]. eapply (no_request_after_run stopped_by_signal _ (Ok tt)); reflexivity. Defined.

Lemma Run_returns_witness :
  ∃ s, reachable [Notify; Listen; Signalled SIGINT] s ∧
    ∃ ls' s', forallb is_main ls' = true ∧ execute s ls' = Some s' ∧ has_returned s' = true.
Proof.
  eexists. split; [reflexivity|]. apply (Run_returns [Notify; Listen; Signalled SIGINT]); [reflexivity..|].
  left. left. by eexists.
Defined.

(** ** Configuration and credentials *)

Lemma Load_address_witness : config.Addr (config.Server (config.mkConfig "finance" (config.mkServerConfig ":8080")
    (config.Database dev_config) (config.Redis dev_config) (config.Auth dev_config) (config.Logging dev_config))) ≠ "".
Proof. eapply (config.Load_address "FINANCE_API"). reflexivity. Defined.

Lemma Load_reads_dev_witness : config.Load "FINANCE_API" = config.load_env "dev" "FINANCE_API".
Proof. exact (config.Load_reads_dev "FINANCE_API"). Defined.

(** A credentials file pasted as it is, and as base64 with a final newline. *)
Definition key_members : string := of_chars (Json.members [("type", Json.quote "service_account")] ++ [Json.ch 125]).
Definition key_text : string := String (Json.ch 123) key_members.
Definition newline : string := String (Json.ch 10) "".

Definition env_of (name value : string) : Process := {| Getenv n := if String.eqb n name then value else "" |}.

Lemma credentials_base64_witness :
  sheets_factory.NewSheetsServiceFromEnv
    (P := env_of "GOOGLE_SHEETS_CREDENTIALS_JSON" (String.append "" (String.append (base64.EncodeToString key_text) newline))) =
  sheets_factory.NewSheetsServiceFromEnv (P := env_of "GOOGLE_SHEETS_CREDENTIALS_JSON" key_text).
Proof.
  apply (credentials_base64 (env_of "GOOGLE_SHEETS_CREDENTIALS_JSON" key_text)
    (env_of "GOOGLE_SHEETS_CREDENTIALS_JSON" (String.append "" (String.append (base64.EncodeToString key_text) newline)))
    key_members "" newline); [vm_compute; reflexivity|reflexivity..].
Defined.

Example key_service :
  sheets_factory.NewSheetsServiceFromEnv (P := env_of "GOOGLE_SHEETS_CREDENTIALS_JSON" key_text)
  = Ok (Some [WithCredentials key_text]).
Proof. vm_compute. reflexivity. Qed.

(** ** Processes *)

Definition clean : RunReport := mkRunReport (Ok tt) true.
Definition no_variables : Process := {| Getenv _ := "" |}.

Lemma resources_released_witness :
  held_after [] (p_trace (snd (finance_api no_metrics clean (start no_variables)))) = Some [].
Proof.
  exact (resources_released no_metrics no_variables clean (GotSignal SIGINT) SIGINT
    (finance_api no_metrics clean) (list_elem_of_here _ _)).
Defined.

Lemma serves_when_ready_witness :
  ready false (p_trace (snd (finance_api no_metrics clean (start no_variables)))) = true.
Proof.
  exact (serves_when_ready no_metrics no_variables clean (GotSignal SIGINT) SIGINT
    (finance_api no_metrics clean) (list_elem_of_here _ _)).
Defined.

Lemma stop_order_witness :
  worker_stopped (p_trace (snd (worker_service SIGTERM (start no_variables)))) ∧
  sync_stopped (p_trace (snd (sync_service (GotSignal SIGINT) (start no_variables)))).
Proof.
  destruct (stop_order no_variables SIGTERM (GotSignal SIGINT)
    (snd (worker_service SIGTERM (start no_variables))) (snd (sync_service (GotSignal SIGINT) (start no_variables))))
    as [H1 H2].
  split; [by apply H1|by apply H2].
Defined.

Lemma sigterm_witness :
  fst (sync_service (GotSignal SIGTERM) (start no_variables)) = Killed SIGTERM.
Proof.
  apply (sigterm no_variables _ (snd (sync_service (GotSignal SIGTERM) (start no_variables)))); [|reflexivity].
  vm_compute. do 4 apply list_elem_of_further. apply list_elem_of_here.
Defined.

Lemma finance_api_status_witness :
  exit_status (fst (finance_api no_metrics clean (start no_variables))) = 0.
Proof.
  destruct (finance_api_status no_metrics no_variables (foreign "address in use")) as [H _].
  apply (H clean _ (snd (finance_api no_metrics clean (start no_variables)))); [by destruct (finance_api _ _ _)|].
  by vm_compute.
Defined.

(** The server the demo process starts, asked with a token that was signed
    under another key. *)
Definition demo_server : Server :=
  mkServer ":8080"
    (newRouter (P := with_variable "JWT_SIGNING_KEY" "a secret" no_variables) no_metrics true (Api.newApp true false))
    (15 * Second) (15 * Second) (60 * Second).
Definition demo_route : Route :=
  mkRoute "DELETE" "/api/v1/transactions/{id}"
    (JWTMiddleware (P := with_variable "JWT_SIGNING_KEY" "a secret" no_variables)
       (handleDeleteTransaction (Api.newApp true false))).

Lemma finance_api_guarded_witness :
  wp (Handle demo_route (request (uuid_text lunch) "")) (λ res w', unchanged demo res w' ∧
    ∃ message, res = Ok (http.mkResponse 401 "application/json"
      (http.BodyJSON (httpx.error_json "unauthorized" message)))) demo.
Proof.
  apply (finance_api_guarded no_metrics no_variables clean demo_server
    (config.mkConfig "finance" (config.mkServerConfig ":8080") (config.Database dev_config)
       (config.Redis dev_config) (config.Auth dev_config) (config.Logging dev_config))); try done.
  - do 4 apply list_elem_of_further. apply list_elem_of_here.
  - do 10 apply list_elem_of_further. apply list_elem_of_here.
  - assert (bearer_token (http.header (request (uuid_text lunch) "") "Authorization") = inl alice_token) as ->
      by (vm_compute; reflexivity).
    intros token Hb. injection Hb as <-. eexists. vm_compute. reflexivity.
Defined.
